(** * Kora rent-reclaim bot: discovery, reconciliation, eligibility and reclaim

    A shallow embedding of the core of the bot (types, ledger access,
    the SQLite state store, the monitor, the discovery scan and the reclaim
    executor) together with the properties the specification states about it.

    Conventions of the embedding.
    - A [Date] is the number of milliseconds since the epoch, an integer.
      The store keeps dates as ISO-8601 text; on dates of the same four-digit
      era the text order is the chronological order, so comparisons of stored
      dates are comparisons of the integers.
    - A [PublicKey] is its base-58 text.  Addresses handed to the ledger are
      taken to be well-formed keys; [addAccountManually], which takes any
      text from the operator, checks it first.
    - A number that holds lamports is an integer, and sums of lamports are
      rounded as sums of doubles are.
    - A promise is modelled by its outcome, [Resolved] or [Rejected].
    - The ledger is an oracle: a [Connection] is one snapshot of the answers
      of the RPC node.  Operations that read the ledger at several moments
      take one snapshot per moment.
    - Log lines are not part of the state and are left out. *)

From Stdlib Require Import ZArith List String Ascii Bool Lia Permutation Sorted DecimalString.
Import ListNotations.

Local Open Scope string_scope.
Local Open Scope list_scope.
Local Open Scope Z_scope.

(** ** JavaScript helpers *)

Module Js.

(** A thrown value: an [Error] object with its message, or anything else
    by its [String(...)] rendering. *)
Inductive Thrown : Type :=
| ErrorObj (message : string)
| Other (rendering : string).

(** [error instanceof Error ? error.message : String(error)] *)
Definition messageOf (e : Thrown) : string :=
  match e with
  | ErrorObj m => m
  | Other s => s
  end.

(** [`${error}`] *)
Definition render (e : Thrown) : string :=
  match e with
  | ErrorObj m => ("Error: " ++ m)%string
  | Other s => s
  end.

(** The outcome of an awaited promise, or of a call that may throw. *)
Inductive Outcome (A : Type) : Type :=
| Resolved (a : A)
| Rejected (e : Thrown).
Arguments Resolved {A} a.
Arguments Rejected {A} e.

(** Truthiness of an optional string ([x || null], [if (x)]). *)
Definition truthy (o : option string) : bool :=
  match o with
  | Some s => negb (s =? EmptyString)%string
  | None => false
  end.

(** [x || null] on an optional string. *)
Definition orNull (o : option string) : option string :=
  if truthy o then o else None.

(** [x || null] on an optional number. *)
Definition orNullZ (o : option Z) : option Z :=
  match o with
  | Some 0 => None
  | _ => o
  end.

(** [COALESCE(new, old)] *)
Definition coalesce {A : Type} (new old : option A) : option A :=
  match new with
  | Some _ => new
  | None => old
  end.

(** Decimal rendering of an integer, as a template literal prints it. *)
Definition showZ (z : Z) : string := NilZero.string_of_int (Z.to_int z).

(** [Array.prototype.join] *)
Fixpoint join (sep : string) (l : list string) : string :=
  match l with
  | [] => EmptyString
  | [x] => x
  | x :: rest => (x ++ sep ++ join sep rest)%string
  end.

(** The double quote, as a one-character string. *)
Definition doubleQuote : string := String (Ascii.ascii_of_nat 34) EmptyString.

(** Truthiness of an optional integer: [undefined], [NaN] and [0] are
    falsy. *)
Definition truthyZ (o : option Z) : bool :=
  match o with
  | Some 0 | None => false
  | Some _ => true
  end.

(** [str.slice(0, n)] *)
Definition slice0 (n : nat) (s : string) : string := String.substring 0 n s.

(** [[...new Set(l)]]: first occurrences, in order. *)
Fixpoint dedupFrom (seen l : list string) : list string :=
  match l with
  | [] => []
  | x :: rest =>
      if existsb (String.eqb x) seen then dedupFrom seen rest
      else x :: dedupFrom (x :: seen) rest
  end.

Definition dedup (l : list string) : list string := dedupFrom [] l.

(** [str.slice(-n)]: the last [n] characters; [-0] is [0], so with [n = 0]
    the whole string comes back. *)
Definition sliceLast (n : nat) (s : string) : string :=
  match n with
  | O => s
  | S _ => String.substring (String.length s - n) n s
  end.

(** [Number.MAX_SAFE_INTEGER], [2^53 - 1]. *)
Definition MAX_SAFE_INTEGER : Z := 9007199254740991.

(** The double nearest to an integer, ties to even: every integer up to
    [2^53] in absolute value is a double; beyond, the doubles are the
    multiples of the unit in the last place with a 53-bit significand.  The
    amounts of the bot are far below the largest double. *)
Definition toDouble (n : Z) : Z :=
  if Z.abs n <=? 9007199254740992 then n
  else
    let ulp := 2 ^ (Z.log2 (Z.abs n) - 52) in
    let q := Z.abs n / ulp in
    let r := Z.abs n mod ulp in
    Z.sgn n * ((if (ulp <? 2 * r) || ((2 * r =? ulp) && Z.odd q) then q + 1 else q) * ulp).

(** [x + y] on numbers that hold integers. *)
Definition plus (x y : Z) : Z := toDouble (x + y).

(** A number read by [parseInt]: an integer, or [NaN]. *)
Inductive number : Type :=
| NaN
| Num (value : Z).

(** [x < k] and [x > k]: false when [x] is [NaN]. *)
Definition below (x : number) (k : Z) : bool :=
  match x with
  | Num v => v <? k
  | NaN => false
  end.

Definition above (x : number) (k : Z) : bool :=
  match x with
  | Num v => k <? v
  | NaN => false
  end.

End Js.
Import Js.

(** ** types/index.ts *)

Definition Date : Type := Z.
Definition PublicKey : Type := string.

Inductive AccountStatus : Type :=
| ACTIVE | INACTIVE | CLOSED | RECLAIMED | WHITELISTED | ERROR.

Inductive AccountType : Type :=
| TOKEN_ACCOUNT | ASSOCIATED_TOKEN | PROGRAM_DATA | SYSTEM | UNKNOWN.

Definition status_eqb (a b : AccountStatus) : bool :=
  match a, b with
  | ACTIVE, ACTIVE | INACTIVE, INACTIVE | CLOSED, CLOSED
  | RECLAIMED, RECLAIMED | WHITELISTED, WHITELISTED | ERROR, ERROR => true
  | _, _ => false
  end.

Definition type_eqb (a b : AccountType) : bool :=
  match a, b with
  | TOKEN_ACCOUNT, TOKEN_ACCOUNT | ASSOCIATED_TOKEN, ASSOCIATED_TOKEN
  | PROGRAM_DATA, PROGRAM_DATA | SYSTEM, SYSTEM | UNKNOWN, UNKNOWN => true
  | _, _ => false
  end.

(** [Omit<TrackedAccount, 'id'>] *)
Record AccountFields : Type := {
  pubkey : PublicKey;
  createdAt : Date;
  sponsoredTxSignature : option string;
  accountType : AccountType;
  rentLamports : Z;
  status : AccountStatus;
  lastCheckedAt : Date;
  closedAt : option Date;
  programOwner : option string;
  dataSize : option Z;
  notes : option string
}.

(** A tracked account as the store holds and returns it: the row id and the
    columns.  [rowToAccount] copies the columns one by one, so the row and
    the object it yields are the same record here. *)
Record TrackedAccount : Type := {
  id : nat;
  fields :> AccountFields
}.

Record ReclaimFields : Type := {
  accountPubkey : PublicKey;
  txSignature : string;
  lamportsReclaimed : Z;
  reclaimedAt : Date;
  success : bool;
  errorMessage : option string;
  treasuryPubkey : PublicKey
}.

Record ReclaimTransaction : Type := {
  txId : nat;
  txFields :> ReclaimFields
}.

Record DiscoveryResult : Type := {
  totalFound : nat;
  newAccounts : nat;
  existingAccounts : nat;
  accounts : list TrackedAccount;
  errors : list string
}.

Record ReclaimResult : Type := {
  r_success : bool;
  r_accountPubkey : PublicKey;
  r_txSignature : option string;
  r_lamportsReclaimed : option Z;
  r_error : option string;
  r_dryRun : bool
}.

Record BatchReclaimSummary : Type := {
  totalEligible : nat;
  totalAttempted : nat;
  totalSuccessful : nat;
  totalFailed : nat;
  totalLamportsReclaimed : Z;
  results : list ReclaimResult;
  b_dryRun : bool
}.

Record EligibilityCheck : Type := {
  eligible : bool;
  account : option TrackedAccount;
  reasons : list string;
  warnings : list string
}.

(** The part of [BotConfig] the core reads, and the operator key pair:
    [operatorKey] is the public key of the pair that [loadOperatorKeypair]
    yields, from its cache or from the file at [operatorKeypairPath]; it is
    [None] when no pair is cached and the file is missing. *)
Record BotConfig : Type := {
  operatorKeypairPath : string;
  operatorKey : option PublicKey;
  koraSignerPubkey : option string;
  cfgTreasuryPubkey : option string;
  minDormancyDays : Z;
  minReclaimLamports : Z;
  dryRun : bool
}.

Record AccountFilter : Type := {
  f_status : option (list AccountStatus);
  f_accountType : option (list AccountType);
  f_minRentLamports : option Z;
  f_maxRentLamports : option Z;
  f_closedBefore : option Date;
  f_closedAfter : option Date
}.

Definition noFilter : AccountFilter :=
  {| f_status := None; f_accountType := None; f_minRentLamports := None;
     f_maxRentLamports := None; f_closedBefore := None; f_closedAfter := None |}.

Record SolanaAccountInfo : Type := {
  si_pubkey : PublicKey;
  lamports : Z;
  owner : PublicKey;
  executable : bool;
  rentEpoch : Z;
  si_dataSize : Z;
  exists_ : bool
}.


Record AccountStats : Type := {
  totalAccounts : nat;
  activeAccounts : nat;
  inactiveAccounts : nat;
  closedAccounts : nat;
  reclaimedAccounts : nat;
  whitelistedAccounts : nat;
  totalRentLocked : Z;
  totalRentReclaimed : Z;
  reclaimableRent : Z
}.

(** ** core/solana.ts *)

Module Solana.

Definition TOKEN_PROGRAM_ID : PublicKey := "TokenkegQfeZyiNwAJbNbGKPFXCWuBvf9Ss623VQ5DA".
Definition TOKEN_2022_PROGRAM_ID : PublicKey := "TokenzQdBNbLqP5VEhdkAS6EPFLC1PHnBqCXEpPxuEb".
Definition ASSOCIATED_TOKEN_PROGRAM_ID : PublicKey := "ATokenGPvbdGVxr1b2hvZbsiqW5xWH25efTNsLJA8knL".
(** [SystemProgram.programId] *)
Definition SYSTEM_PROGRAM_ID : PublicKey := "11111111111111111111111111111111".

(** What the RPC node returns for an account that exists. *)
Record AccountInfo : Type := {
  ai_lamports : Z;
  ai_owner : PublicKey;
  ai_executable : bool;
  ai_rentEpoch : Z;
  ai_dataLength : Z
}.

(** An instruction the bot builds.  The only one in the code is the system
    program's transfer. *)
Inductive Instruction : Type :=
| SystemTransfer (fromPubkey toPubkey : PublicKey) (amount : Z).

(** A transaction handed to [sendAndConfirmTransaction] with its signers. *)
Record Transaction : Type := {
  instructions : list Instruction;
  signers : list PublicKey
}.

Record SignatureInfo : Type := {
  signature : string;
  slot : Z;
  blockTime : option Z
}.

(** A parsed instruction: [Parsed] when the node decoded it (the object has a
    [parsed] key), with the program name, [parsed.type] and the two fields of
    [parsed.info] the scan reads; [PartiallyDecoded] otherwise. *)
Inductive ParsedInstruction : Type :=
| Parsed (program : string) (type : option string)
         (newAccount account : option string)
| PartiallyDecoded.

Record TransactionMeta : Type := {
  err : bool;
  innerInstructions : option (list (list ParsedInstruction));
  postTokenBalances : option (list nat);
  preTokenBalances : option (list nat)
}.

(** [ParsedTransactionWithMeta]; a token balance is represented by its
    [accountIndex]. *)
Record ParsedTransaction : Type := {
  accountKeys : list PublicKey;
  txInstructions : list ParsedInstruction;
  meta : option TransactionMeta
}.

(** One snapshot of the RPC node's answers. *)
Record Connection : Type := {
  rpcGetAccountInfo : PublicKey -> Outcome (option AccountInfo);
  rpcGetMultipleAccountsInfo : list PublicKey -> Outcome (list (option AccountInfo));
  rpcGetSignaturesForAddress : PublicKey -> nat -> Outcome (list SignatureInfo);
  rpcGetParsedTransaction : string -> Outcome (option ParsedTransaction);
  rpcSendAndConfirm : Transaction -> Outcome string
}.

(** [new PublicKey(text)] accepts the base-58 texts that decode to 32
    bytes: every leading [1] is a zero byte, the rest is the number written
    in base 58. *)
Definition BASE58 : string := "123456789ABCDEFGHJKLMNPQRSTUVWXYZabcdefghijkmnopqrstuvwxyz".

Fixpoint indexOf (c : ascii) (alphabet : string) : option Z :=
  match alphabet with
  | EmptyString => None
  | String a rest =>
      if Ascii.eqb a c then Some 0
      else match indexOf c rest with
           | Some i => Some (i + 1)
           | None => None
           end
  end.

Fixpoint base58Value (acc : Z) (text : string) : option Z :=
  match text with
  | EmptyString => Some acc
  | String c rest =>
      match indexOf c BASE58 with
      | Some digit => base58Value (acc * 58 + digit) rest
      | None => None
      end
  end.

Fixpoint leadingOnes (text : string) : Z :=
  match text with
  | String c rest => if Ascii.eqb c "1" then 1 + leadingOnes rest else 0
  | EmptyString => 0
  end.

Definition byteLength (v : Z) : Z := if v =? 0 then 0 else Z.log2 v / 8 + 1.

Definition isPublicKey (text : string) : bool :=
  match base58Value 0 text with
  | Some v => leadingOnes text + byteLength v =? 32
  | None => false
  end.

(** [loadOperatorKeypair]: the key pair is represented by its public key.
    A file that is there without holding a key pair is not considered. *)
Definition loadOperatorKeypair (config : BotConfig) : Outcome PublicKey :=
  match operatorKey config with
  | Some k => Resolved k
  | None =>
      Rejected (ErrorObj ("Keypair file not found: " ++ operatorKeypairPath config)%string)
  end.

Definition getTreasuryPubkey (config : BotConfig) : Outcome PublicKey :=
  if truthy (cfgTreasuryPubkey config) then
    match cfgTreasuryPubkey config with
    | Some t => Resolved t
    | None => loadOperatorKeypair config
    end
  else loadOperatorKeypair config.

(** The object built from the node's answer ([info?.x ?? default]); [found]
    is [info !== null]. *)
Definition describeAccount (pk : PublicKey) (info : option AccountInfo) (found : bool)
  : SolanaAccountInfo :=
  {| si_pubkey := pk;
     lamports := match info with Some i => ai_lamports i | None => 0 end;
     owner := match info with Some i => ai_owner i | None => SYSTEM_PROGRAM_ID end;
     executable := match info with Some i => ai_executable i | None => false end;
     rentEpoch := match info with Some i => ai_rentEpoch i | None => 0 end;
     si_dataSize := match info with Some i => ai_dataLength i | None => 0 end;
     exists_ := found |}.

Definition getAccountInfo (conn : Connection) (pk : PublicKey) : Outcome SolanaAccountInfo :=
  match rpcGetAccountInfo conn pk with
  | Resolved info =>
      Resolved (describeAccount pk info (match info with Some _ => true | None => false end))
  | Rejected e => Rejected e
  end.

Definition accountExists (conn : Connection) (pk : PublicKey) : Outcome bool :=
  match getAccountInfo conn pk with
  | Resolved info => Resolved (exists_ info)
  | Rejected e => Rejected e
  end.

Definition detectAccountType (ownerStr : PublicKey) : AccountType :=
  if (ownerStr =? TOKEN_PROGRAM_ID)%string || (ownerStr =? TOKEN_2022_PROGRAM_ID)%string
  then TOKEN_ACCOUNT
  else if (ownerStr =? ASSOCIATED_TOKEN_PROGRAM_ID)%string then ASSOCIATED_TOKEN
  else if (ownerStr =? SYSTEM_PROGRAM_ID)%string then SYSTEM
  else PROGRAM_DATA.

(** A JavaScript [Map] keyed by address: [set] overwrites in place, [get]
    looks the key up. *)
Definition AccountMap : Type := list (string * SolanaAccountInfo).

Fixpoint mapSet (m : AccountMap) (k : string) (v : SolanaAccountInfo) : AccountMap :=
  match m with
  | [] => [(k, v)]
  | (k', v') :: rest =>
      if (k' =? k)%string then (k', v) :: rest else (k', v') :: mapSet rest k v
  end.

Fixpoint mapGet (m : AccountMap) (k : string) : option SolanaAccountInfo :=
  match m with
  | [] => None
  | (k', v') :: rest => if (k' =? k)%string then Some v' else mapGet rest k
  end.

(** [batch.forEach((pk, idx) => ...)]: [infos[idx]] is [undefined] when the
    answer is shorter than the batch, and [undefined !== null] holds. *)
Fixpoint storeBatch (m : AccountMap) (batch : list PublicKey)
         (infos : list (option AccountInfo)) : AccountMap :=
  match batch with
  | [] => m
  | pk :: batch' =>
      match infos with
      | [] => storeBatch (mapSet m pk (describeAccount pk None true)) batch' []
      | info :: infos' =>
          storeBatch
            (mapSet m pk
               (describeAccount pk info (match info with Some _ => true | None => false end)))
            batch' infos'
      end
  end.

Definition batchSize : nat := 100.

(** The loop [for (i = 0; i < pks.length; i += batchSize)], with the list
    still to be read; [fuel] bounds the number of batches. *)
Fixpoint readBatches (fuel : nat) (conn : Connection) (m : AccountMap)
         (pks : list PublicKey) : Outcome AccountMap :=
  match fuel with
  | O => Resolved m
  | S fuel' =>
      match pks with
      | [] => Resolved m
      | _ =>
          match rpcGetMultipleAccountsInfo conn (firstn batchSize pks) with
          | Rejected e => Rejected e
          | Resolved infos =>
              readBatches fuel' conn (storeBatch m (firstn batchSize pks) infos)
                          (skipn batchSize pks)
          end
      end
  end.

Definition getMultipleAccountsInfo (conn : Connection) (pubkeys : list PublicKey)
  : Outcome AccountMap :=
  readBatches (List.length pubkeys) conn [] pubkeys.

Definition getSponsoredAccountSignatures (conn : Connection) (sponsorPubkey : PublicKey)
           (limit : nat) : Outcome (list SignatureInfo) :=
  rpcGetSignaturesForAddress conn sponsorPubkey limit.

(** The result object of [closeAccountAndReclaimRent]. *)
Record CloseResult : Type := {
  c_signature : string;
  c_success : bool;
  c_lamportsReclaimed : Z;
  c_error : option string
}.

(** [closeAccountAndReclaimRent].  Besides the promise's outcome the function
    returns the transactions it handed to [sendAndConfirmTransaction], in
    order: the ledger writes it attempted. *)
Definition closeAccountAndReclaimRent (conn : Connection) (account destination : PublicKey)
           (authority : PublicKey) (dryRun : bool)
  : Outcome CloseResult * list Transaction :=
  match getAccountInfo conn account with
  | Rejected e => (Rejected e, [])
  | Resolved accountInfo =>
      if negb (exists_ accountInfo) then
        (Resolved {| c_signature := EmptyString; c_success := false; c_lamportsReclaimed := 0;
                     c_error := Some "Account does not exist or already closed" |}, [])
      else
        let lamportsToReclaim := lamports accountInfo in
        if dryRun then
          (Resolved {| c_signature := "dry-run-signature"; c_success := true;
                       c_lamportsReclaimed := lamportsToReclaim; c_error := None |}, [])
        else if (owner accountInfo =? SYSTEM_PROGRAM_ID)%string then
          let transaction :=
            {| instructions := [SystemTransfer account destination lamportsToReclaim];
               signers := [authority] |} in
          match rpcSendAndConfirm conn transaction with
          | Resolved sig =>
              (Resolved {| c_signature := sig; c_success := true;
                           c_lamportsReclaimed := lamportsToReclaim; c_error := None |},
               [transaction])
          | Rejected e =>
              (Resolved {| c_signature := EmptyString; c_success := false; c_lamportsReclaimed := 0;
                           c_error := Some (messageOf e) |},
               [transaction])
          end
        else
          (Resolved {| c_signature := EmptyString; c_success := false; c_lamportsReclaimed := 0;
                       c_error :=
                         Some ("Cannot close program-owned account (owner: "
                               ++ owner accountInfo
                               ++ "). Manual intervention required.")%string |}, [])
  end.

(** [shortenPubkey], for a count of characters that is a natural number. *)
Definition shortenPubkey (pubkey : string) (chars : nat) : string :=
  (slice0 chars pubkey ++ "..." ++ sliceLast chars pubkey)%string.

End Solana.

(** ** core/database.ts *)

Module Database.

(** A row of [whitelist] or [blacklist].  The surrogate [id] column of these
    two tables is never read and is left out. *)
Record ListEntry : Type := {
  le_pubkey : PublicKey;
  le_reason : option string;
  le_addedAt : Date
}.

(** The four tables, rows in insertion order. *)
Record Db : Type := {
  tracked_accounts : list TrackedAccount;
  reclaim_transactions : list ReclaimTransaction;
  whitelist : list ListEntry;
  blacklist : list ListEntry
}.

Definition empty : Db :=
  {| tracked_accounts := []; reclaim_transactions := []; whitelist := []; blacklist := [] |}.

(** [INTEGER PRIMARY KEY AUTOINCREMENT] on a table no row is ever deleted
    from: one more than the largest id present. *)
Definition nextId {A : Type} (idOf : A -> nat) (rows : list A) : nat :=
  S (fold_right (fun r m => Nat.max (idOf r) m) O rows).

Definition getAccount (db : Db) (pk : PublicKey) : option TrackedAccount :=
  find (fun a : TrackedAccount => (pubkey a =? pk)%string) (tracked_accounts db).

(** The [UPDATE] of [upsertAccount] on one row. *)
Definition upsertUpdate (account : AccountFields) (row : TrackedAccount) : TrackedAccount :=
  if (pubkey row =? pubkey account)%string then
    {| id := id row;
       fields :=
         {| pubkey := pubkey row;
            createdAt := createdAt row;
            sponsoredTxSignature := sponsoredTxSignature row;
            accountType := accountType row;
            rentLamports := rentLamports account;
            status := status account;
            lastCheckedAt := lastCheckedAt account;
            closedAt := coalesce (closedAt account) (closedAt row);
            programOwner := coalesce (orNull (programOwner account)) (programOwner row);
            dataSize := coalesce (orNullZ (dataSize account)) (dataSize row);
            notes := coalesce (orNull (notes account)) (notes row) |} |}
  else row.

(** The row the [INSERT] of [upsertAccount] adds. *)
Definition upsertInsert (account : AccountFields) (rows : list TrackedAccount) : TrackedAccount :=
  {| id := nextId id rows;
     fields :=
       {| pubkey := pubkey account;
          createdAt := createdAt account;
          sponsoredTxSignature := orNull (sponsoredTxSignature account);
          accountType := accountType account;
          rentLamports := rentLamports account;
          status := status account;
          lastCheckedAt := lastCheckedAt account;
          closedAt := closedAt account;
          programOwner := orNull (programOwner account);
          dataSize := orNullZ (dataSize account);
          notes := orNull (notes account) |} |}.

Definition setAccounts (db : Db) (rows : list TrackedAccount) : Db :=
  {| tracked_accounts := rows;
     reclaim_transactions := reclaim_transactions db;
     whitelist := whitelist db;
     blacklist := blacklist db |}.

(** [upsertAccount]; the value returned is [getAccount(account.pubkey)]. *)
Definition upsertAccount (account : AccountFields) (db : Db) : option TrackedAccount * Db :=
  let rows := tracked_accounts db in
  let db' :=
    if existsb (fun a : TrackedAccount => (pubkey a =? pubkey account)%string) rows
    then setAccounts db (map (upsertUpdate account) rows)
    else setAccounts db (rows ++ [upsertInsert account rows]) in
  (getAccount db' (pubkey account), db').

(** The [WHERE] clause [getAccounts] builds from a filter. *)
Definition matchesFilter (f : AccountFilter) (a : TrackedAccount) : bool :=
  match f_status f with
  | Some (s :: l) => existsb (status_eqb (status a)) (s :: l)
  | _ => true
  end
  && match f_accountType f with
     | Some (t :: l) => existsb (type_eqb (accountType a)) (t :: l)
     | _ => true
     end
  && match f_minRentLamports f with
     | Some m => m <=? rentLamports a
     | None => true
     end
  && match f_maxRentLamports f with
     | Some m => rentLamports a <=? m
     | None => true
     end
  && match f_closedBefore f with
     | Some d => match closedAt a with Some c => c <=? d | None => false end
     | None => true
     end
  && match f_closedAfter f with
     | Some d => match closedAt a with Some c => d <=? c | None => false end
     | None => true
     end.

(** [ORDER BY created_at DESC]; rows created at the same instant keep the
    table order. *)
Fixpoint insertNewestFirst (a : TrackedAccount) (l : list TrackedAccount)
  : list TrackedAccount :=
  match l with
  | [] => [a]
  | b :: rest =>
      if createdAt b <=? createdAt a then a :: b :: rest
      else b :: insertNewestFirst a rest
  end.

Definition newestFirst (l : list TrackedAccount) : list TrackedAccount :=
  fold_right insertNewestFirst [] l.

(** [getAccounts] for a filter without [limit] and [offset], as the core
    calls it. *)
Definition getAccounts (db : Db) (f : AccountFilter) : list TrackedAccount :=
  newestFirst (filter (matchesFilter f) (tracked_accounts db)).

(** [getAccounts] for a filter with [limit] and [offset], which are integers
    of 64 bits when they are numbers: a truthy [limit] appends [LIMIT n] to
    the query and a truthy [offset] appends [OFFSET m].  SQLite takes a
    negative limit as no limit and a negative offset as none, and reads
    [OFFSET] only after [LIMIT]: alone, it makes [prepare] throw. *)
Definition getAccountsPaged (db : Db) (f : AccountFilter) (limit offset : option Z)
  : Outcome (list TrackedAccount) :=
  let rows := getAccounts db f in
  match limit with
  | Some n =>
      if truthyZ limit then
        let rest :=
          match offset with
          | Some m => if truthyZ offset then skipn (Z.to_nat m) rows else rows
          | None => rows
          end in
        Resolved (if n <? 0 then rest else firstn (Z.to_nat n) rest)
      else if truthyZ offset
           then Rejected (ErrorObj ("near " ++ doubleQuote ++ "OFFSET" ++ doubleQuote
                                    ++ ": syntax error"))
           else Resolved rows
  | None =>
      if truthyZ offset
      then Rejected (ErrorObj ("near " ++ doubleQuote ++ "OFFSET" ++ doubleQuote
                               ++ ": syntax error"))
      else Resolved rows
  end.

Definition MS_PER_DAY : Z := 1000 * 60 * 60 * 24.

Definition isWhitelisted (db : Db) (pk : PublicKey) : bool :=
  existsb (fun e => (le_pubkey e =? pk)%string) (whitelist db).

Definition isBlacklisted (db : Db) (pk : PublicKey) : bool :=
  existsb (fun e => (le_pubkey e =? pk)%string) (blacklist db).

(** [getEligibleAccounts]: the cutoff is [minDormancyDays] calendar days
    before [now], in a time zone whose days all have 24 hours; a row with no
    [closed_at] fails the date comparison. *)
Definition getEligibleAccounts (db : Db) (minDormancyDays minLamports : Z) (now : Date)
  : list TrackedAccount :=
  let cutoffDate := now - minDormancyDays * MS_PER_DAY in
  filter
    (fun ta : TrackedAccount =>
       status_eqb (status ta) CLOSED
       && match closedAt ta with Some c => c <=? cutoffDate | None => false end
       && (minLamports <=? rentLamports ta)
       && negb (isWhitelisted db (pubkey ta))
       && negb (isBlacklisted db (pubkey ta)))
    (tracked_accounts db).

Definition setStatus (newStatus : AccountStatus) (newClosedAt : option Date) (now : Date)
           (row : TrackedAccount) : TrackedAccount :=
  {| id := id row;
     fields :=
       {| pubkey := pubkey row;
          createdAt := createdAt row;
          sponsoredTxSignature := sponsoredTxSignature row;
          accountType := accountType row;
          rentLamports := rentLamports row;
          status := newStatus;
          lastCheckedAt := now;
          closedAt := coalesce newClosedAt (closedAt row);
          programOwner := programOwner row;
          dataSize := dataSize row;
          notes := notes row |} |}.

Definition setRent (newRent : Z) (now : Date) (row : TrackedAccount) : TrackedAccount :=
  {| id := id row;
     fields :=
       {| pubkey := pubkey row;
          createdAt := createdAt row;
          sponsoredTxSignature := sponsoredTxSignature row;
          accountType := accountType row;
          rentLamports := newRent;
          status := status row;
          lastCheckedAt := now;
          closedAt := closedAt row;
          programOwner := programOwner row;
          dataSize := dataSize row;
          notes := notes row |} |}.

(** [UPDATE tracked_accounts SET ... WHERE pubkey = ?] *)
Definition updateWhere (pk : PublicKey) (f : TrackedAccount -> TrackedAccount) (db : Db) : Db :=
  setAccounts db
    (map (fun row : TrackedAccount => if (pubkey row =? pk)%string then f row else row)
         (tracked_accounts db)).

Definition updateAccountStatus (pk : PublicKey) (newStatus : AccountStatus)
           (newClosedAt : option Date) (now : Date) (db : Db) : Db :=
  updateWhere pk (setStatus newStatus newClosedAt now) db.

Definition updateAccountRent (pk : PublicKey) (newRent : Z) (now : Date) (db : Db) : Db :=
  updateWhere pk (setRent newRent now) db.

(** [recordReclaimTransaction]: the row is appended; the value returned is
    the first row carrying the same signature. *)
Definition recordReclaimTransaction (tx : ReclaimFields) (db : Db) : ReclaimTransaction * Db :=
  let row :=
    {| txId := nextId txId (reclaim_transactions db);
       txFields :=
         {| accountPubkey := accountPubkey tx;
            txSignature := txSignature tx;
            lamportsReclaimed := lamportsReclaimed tx;
            reclaimedAt := reclaimedAt tx;
            success := success tx;
            errorMessage := orNull (errorMessage tx);
            treasuryPubkey := treasuryPubkey tx |} |} in
  let rows := reclaim_transactions db ++ [row] in
  let db' :=
    {| tracked_accounts := tracked_accounts db;
       reclaim_transactions := rows;
       whitelist := whitelist db;
       blacklist := blacklist db |} in
  (match find (fun r : ReclaimTransaction => (txSignature r =? txSignature tx)%string) rows with
   | Some r => r
   | None => {| txId := O; txFields := tx |}
   end, db').

(** [INSERT OR REPLACE] on a table whose [pubkey] is unique. *)
Definition insertOrReplace (e : ListEntry) (l : list ListEntry) : list ListEntry :=
  filter (fun x => negb (le_pubkey x =? le_pubkey e)%string) l ++ [e].

Definition addToWhitelist (pk : PublicKey) (reason : option string) (now : Date) (db : Db) : Db :=
  let db1 :=
    {| tracked_accounts := tracked_accounts db;
       reclaim_transactions := reclaim_transactions db;
       whitelist :=
         insertOrReplace {| le_pubkey := pk; le_reason := orNull reason; le_addedAt := now |}
                         (whitelist db);
       blacklist := blacklist db |} in
  updateAccountStatus pk WHITELISTED None now db1.

Definition removeFromWhitelist (pk : PublicKey) (db : Db) : Db :=
  {| tracked_accounts := tracked_accounts db;
     reclaim_transactions := reclaim_transactions db;
     whitelist := filter (fun x => negb (le_pubkey x =? pk)%string) (whitelist db);
     blacklist := blacklist db |}.

Definition addToBlacklist (pk : PublicKey) (reason : option string) (now : Date) (db : Db) : Db :=
  {| tracked_accounts := tracked_accounts db;
     reclaim_transactions := reclaim_transactions db;
     whitelist := whitelist db;
     blacklist :=
       insertOrReplace {| le_pubkey := pk; le_reason := orNull reason; le_addedAt := now |}
                       (blacklist db) |}.

(** [ORDER BY key DESC] on a table read in insertion order; rows with the
    same key keep the table order. *)
Fixpoint insertDesc {A : Type} (key : A -> Z) (a : A) (l : list A) : list A :=
  match l with
  | [] => [a]
  | b :: rest =>
      if key b <=? key a then a :: b :: rest
      else b :: insertDesc key a rest
  end.

Definition orderByDesc {A : Type} (key : A -> Z) (l : list A) : list A :=
  fold_right (insertDesc key) [] l.

(** [getReclaimTransactions]; a [limit] of 0 is falsy and adds no [LIMIT]. *)
Definition getReclaimTransactions (db : Db) (forAccount : option string) (limit : option nat)
  : list ReclaimTransaction :=
  let rows :=
    match forAccount with
    | Some pk =>
        if truthy forAccount
        then filter (fun r : ReclaimTransaction => (accountPubkey r =? pk)%string)
                    (reclaim_transactions db)
        else reclaim_transactions db
    | None => reclaim_transactions db
    end in
  let ordered := orderByDesc (fun r : ReclaimTransaction => reclaimedAt r) rows in
  match limit with
  | Some (S n) => firstn (S n) ordered
  | _ => ordered
  end.

(** [getWhitelist]: [SELECT ... FROM whitelist ORDER BY added_at DESC]. *)
Definition getWhitelist (db : Db) : list ListEntry :=
  orderByDesc le_addedAt (whitelist db).

(** [SUM(rent_lamports)] over a set of rows, as SQLite computes it on
    integers (sums below [2^63]). *)
Definition sumRent (rows : list TrackedAccount) : Z :=
  fold_right (fun (a : TrackedAccount) acc => rentLamports a + acc) 0 rows.

(** One row of the [GROUP BY status] query of [getStats]; the integer sum
    of the group arrives as a number. *)
Record StatusGroup : Type := {
  g_status : AccountStatus;
  g_count : nat;
  g_total_rent : Z
}.

Definition withStatus (st : AccountStatus) (rows : list TrackedAccount) : list TrackedAccount :=
  filter (fun a : TrackedAccount => status_eqb (status a) st) rows.

(** The groups of the query: one for each status that some row carries, in
    the order of the status text. *)
Definition statusGroups (rows : list TrackedAccount) : list StatusGroup :=
  flat_map
    (fun st =>
       match withStatus st rows with
       | [] => []
       | g =>
           [{| g_status := st; g_count := List.length g;
               g_total_rent := toDouble (sumRent g) |}]
       end)
    [ACTIVE; CLOSED; ERROR; INACTIVE; RECLAIMED; WHITELISTED].

(** One turn of the loop over the groups. *)
Definition countGroup (stats : AccountStats) (g : StatusGroup) : AccountStats :=
  {| totalAccounts := (totalAccounts stats + g_count g)%nat;
     activeAccounts :=
       match g_status g with ACTIVE => g_count g | _ => activeAccounts stats end;
     inactiveAccounts :=
       match g_status g with INACTIVE => g_count g | _ => inactiveAccounts stats end;
     closedAccounts :=
       match g_status g with CLOSED => g_count g | _ => closedAccounts stats end;
     reclaimedAccounts :=
       match g_status g with RECLAIMED => g_count g | _ => reclaimedAccounts stats end;
     whitelistedAccounts :=
       match g_status g with WHITELISTED => g_count g | _ => whitelistedAccounts stats end;
     totalRentLocked := Js.plus (totalRentLocked stats) (g_total_rent g);
     totalRentReclaimed := totalRentReclaimed stats;
     reclaimableRent :=
       match g_status g with
       | CLOSED => Js.plus (reclaimableRent stats) (g_total_rent g)
       | _ => reclaimableRent stats
       end |}.

(** [SELECT SUM(lamports_reclaimed) FROM reclaim_transactions WHERE success = 1] *)
Definition sumReclaimed (rows : list ReclaimTransaction) : Z :=
  fold_right
    (fun (r : ReclaimTransaction) acc => if success r then lamportsReclaimed r + acc else acc)
    0 rows.

Definition getStats (db : Db) : AccountStats :=
  let stats :=
    fold_left countGroup (statusGroups (tracked_accounts db))
      {| totalAccounts := O; activeAccounts := O; inactiveAccounts := O;
         closedAccounts := O; reclaimedAccounts := O; whitelistedAccounts := O;
         totalRentLocked := 0; totalRentReclaimed := 0; reclaimableRent := 0 |} in
  {| totalAccounts := totalAccounts stats;
     activeAccounts := activeAccounts stats;
     inactiveAccounts := inactiveAccounts stats;
     closedAccounts := closedAccounts stats;
     reclaimedAccounts := reclaimedAccounts stats;
     whitelistedAccounts := whitelistedAccounts stats;
     totalRentLocked := totalRentLocked stats;
     totalRentReclaimed := toDouble (sumReclaimed (reclaim_transactions db));
     reclaimableRent := reclaimableRent stats |}.

End Database.

(** ** core/monitor.ts *)

Module Monitor.
Import Solana Database.

Record StatusChange : Type := {
  sc_pubkey : PublicKey;
  previousStatus : AccountStatus;
  newStatus : AccountStatus;
  previousRent : Z;
  newRent : Z;
  reason : string
}.

Record MonitorResult : Type := {
  totalChecked : nat;
  statusChanges : list StatusChange;
  m_errors : list string;
  duration : Z
}.

Section WithFloatComparison.

(** [belowTenth current stored] stands for the double-precision comparison
    [current < stored * 0.1].  Its rounding is not reproduced; every result
    below holds whatever this comparison answers. *)
Variable belowTenth : Z -> Z -> bool.

Definition detectStatusChange (tracked : TrackedAccount) (onChain : SolanaAccountInfo)
  : option StatusChange :=
  if status_eqb (status tracked) RECLAIMED || status_eqb (status tracked) WHITELISTED then None
  else if negb (exists_ onChain) && negb (status_eqb (status tracked) CLOSED) then
    Some {| sc_pubkey := pubkey tracked;
            previousStatus := status tracked;
            newStatus := CLOSED;
            previousRent := rentLamports tracked;
            newRent := 0;
            reason := "Account no longer exists on-chain" |}
  else if exists_ onChain && status_eqb (status tracked) CLOSED then
    Some {| sc_pubkey := pubkey tracked;
            previousStatus := status tracked;
            newStatus := ACTIVE;
            previousRent := rentLamports tracked;
            newRent := lamports onChain;
            reason := "Account was reopened or recreated" |}
  else if exists_ onChain && status_eqb (status tracked) ACTIVE
          && belowTenth (lamports onChain) (rentLamports tracked) then
    Some {| sc_pubkey := pubkey tracked;
            previousStatus := status tracked;
            newStatus := INACTIVE;
            previousRent := rentLamports tracked;
            newRent := lamports onChain;
            reason := "Account balance significantly reduced" |}
  else None.

(** The store writes that follow a detected change. *)
Definition applyChange (pk : PublicKey) (change : StatusChange) (now : Date) (db : Db) : Db :=
  let db1 :=
    updateAccountStatus pk (newStatus change)
      (if status_eqb (newStatus change) CLOSED then Some now else None) now db in
  if newRent change =? previousRent change then db1
  else updateAccountRent pk (newRent change) now db1.

(** One turn of the loop of [checkAllAccounts]. *)
Definition checkOne (accountInfos : AccountMap) (now : Date)
           (acc : MonitorResult * Db) (tracked : TrackedAccount) : MonitorResult * Db :=
  let (result, db) := acc in
  let checked := S (totalChecked result) in
  match mapGet accountInfos (pubkey tracked) with
  | None =>
      ({| totalChecked := checked;
          statusChanges := statusChanges result;
          m_errors := m_errors result ++ [("No info returned for " ++ pubkey tracked)%string];
          duration := duration result |}, db)
  | Some onChainInfo =>
      match detectStatusChange tracked onChainInfo with
      | Some change =>
          ({| totalChecked := checked;
              statusChanges := statusChanges result ++ [change];
              m_errors := m_errors result;
              duration := duration result |},
           applyChange (pubkey tracked) change now db)
      | None =>
          ({| totalChecked := checked;
              statusChanges := statusChanges result;
              m_errors := m_errors result;
              duration := duration result |},
           if lamports onChainInfo =? rentLamports tracked then db
           else updateAccountRent (pubkey tracked) (lamports onChainInfo) now db)
      end
  end.

(** The changes one turn of the loop records, and the row it leaves for the
    account it checked (used to state what the loop does). *)
Definition changesFor (accountInfos : AccountMap) (tracked : TrackedAccount)
  : list StatusChange :=
  match mapGet accountInfos (pubkey tracked) with
  | Some onChainInfo =>
      match detectStatusChange tracked onChainInfo with
      | Some change => [change]
      | None => []
      end
  | None => []
  end.

Definition rowAfterCheck (accountInfos : AccountMap) (now : Date) (tracked : TrackedAccount)
  : TrackedAccount :=
  match mapGet accountInfos (pubkey tracked) with
  | Some onChainInfo =>
      match detectStatusChange tracked onChainInfo with
      | Some change =>
          let row :=
            setStatus (newStatus change)
                      (if status_eqb (newStatus change) CLOSED then Some now else None)
                      now tracked in
          if newRent change =? previousRent change then row
          else setRent (newRent change) now row
      | None =>
          if lamports onChainInfo =? rentLamports tracked then tracked
          else setRent (lamports onChainInfo) now tracked
      end
  | None => tracked
  end.

Definition monitoredStatuses : AccountFilter :=
  {| f_status := Some [ACTIVE; INACTIVE]; f_accountType := None;
     f_minRentLamports := None; f_maxRentLamports := None;
     f_closedBefore := None; f_closedAfter := None |}.

(** [checkAllAccounts]; [now] is the instant of the run and [elapsed] the
    wall-clock time it took. *)
Definition checkAllAccounts (conn : Connection) (now : Date) (elapsed : Z) (db : Db)
  : MonitorResult * Db :=
  let start := {| totalChecked := O; statusChanges := []; m_errors := []; duration := 0 |} in
  let accountsToCheck := getAccounts db monitoredStatuses in
  match accountsToCheck with
  | [] =>
      ({| totalChecked := O; statusChanges := []; m_errors := []; duration := elapsed |}, db)
  | _ =>
      match getMultipleAccountsInfo conn (map (fun a : TrackedAccount => pubkey a) accountsToCheck) with
      | Rejected e =>
          ({| totalChecked := O; statusChanges := [];
              m_errors := [("Monitor check failed: " ++ render e)%string];
              duration := 0 |}, db)
      | Resolved accountInfos =>
          let (result, db') := fold_left (checkOne accountInfos now) accountsToCheck (start, db) in
          ({| totalChecked := totalChecked result;
              statusChanges := statusChanges result;
              m_errors := m_errors result;
              duration := elapsed |}, db')
      end
  end.

Definition checkSingleAccount (conn : Connection) (now : Date) (pk : PublicKey) (db : Db)
  : option StatusChange * Db :=
  match getAccount db pk with
  | None => (None, db)
  | Some tracked =>
      match getAccountInfo conn pk with
      | Rejected _ => (None, db)
      | Resolved onChainInfo =>
          match detectStatusChange tracked onChainInfo with
          | Some change => (Some change, applyChange pk change now db)
          | None => (None, db)
          end
      end
  end.

End WithFloatComparison.

Definition getAccountsReadyForReclaim (config : BotConfig) (now : Date) (db : Db)
  : list TrackedAccount :=
  getAccounts db
    {| f_status := Some [CLOSED]; f_accountType := None;
       f_minRentLamports := Some (minReclaimLamports config); f_maxRentLamports := None;
       f_closedBefore := Some (now - minDormancyDays config * MS_PER_DAY);
       f_closedAfter := None |}.

Record MonitorSummary : Type := {
  totalTracked : nat;
  byStatus : AccountStatus -> nat;
  ms_totalRentLocked : Z;
  ms_reclaimableRent : Z;
  lastCheckTime : option Date
}.

(** One turn of the loop of [getMonitorSummary]. *)
Definition summarise (s : MonitorSummary) (a : TrackedAccount) : MonitorSummary :=
  {| totalTracked := totalTracked s;
     byStatus :=
       fun st => if status_eqb st (status a) then S (byStatus s st) else byStatus s st;
     ms_totalRentLocked := Js.plus (ms_totalRentLocked s) (rentLamports a);
     ms_reclaimableRent :=
       if status_eqb (status a) CLOSED then Js.plus (ms_reclaimableRent s) (rentLamports a)
       else ms_reclaimableRent s;
     lastCheckTime :=
       match lastCheckTime s with
       | None => Some (lastCheckedAt a)
       | Some latestCheck =>
           if latestCheck <? lastCheckedAt a then Some (lastCheckedAt a) else Some latestCheck
       end |}.

Definition getMonitorSummary (db : Db) : MonitorSummary :=
  let allAccounts := getAccounts db noFilter in
  fold_left summarise allAccounts
    {| totalTracked := List.length allAccounts;
       byStatus := fun _ => O;
       ms_totalRentLocked := 0;
       ms_reclaimableRent := 0;
       lastCheckTime := None |}.

End Monitor.

(** ** core/discovery.ts *)

Module Discovery.
Import Solana Database.

Definition isSome {A : Type} (o : option A) : bool :=
  match o with Some _ => true | None => false end.

(** The address an instruction names, when it is truthy and not the sponsor. *)
Definition named (sponsorPubkey : string) (field : option string) : list string :=
  match field with
  | Some a => if truthy field && negb (a =? sponsorPubkey)%string then [a] else []
  | None => []
  end.

Definition typeIs (type : option string) (name : string) : bool :=
  match type with Some t => (t =? name)%string | None => false end.

(** What one inner instruction adds to [createdAccounts]. *)
Definition innerCreated (sponsorPubkey : string) (ix : ParsedInstruction) : list string :=
  match ix with
  | PartiallyDecoded => []
  | Parsed program type newAccount account =>
      (if (program =? "system")%string && typeIs type "createAccount"
       then named sponsorPubkey newAccount else [])
      ++ (if (program =? "spl-token")%string
             && (typeIs type "initializeAccount" || typeIs type "initializeAccount2"
                 || typeIs type "initializeAccount3")
          then named sponsorPubkey account else [])
      ++ (if (program =? "spl-associated-token-account")%string && typeIs type "create"
          then named sponsorPubkey account else [])
  end.

(** What one top-level instruction adds. *)
Definition topLevelCreated (sponsorPubkey : string) (ix : ParsedInstruction) : list string :=
  match ix with
  | PartiallyDecoded => []
  | Parsed program type newAccount _ =>
      if (program =? "system")%string && typeIs type "createAccount"
      then named sponsorPubkey newAccount else []
  end.

(** One turn of the loop over [postTokenBalances]. *)
Definition balanceCreated (sponsorPubkey : string) (keys : list PublicKey)
           (pre : option (list nat)) (created : list string) (accountIndex : nat)
  : list string :=
  match nth_error keys accountIndex with
  | None => created
  | Some accountPubkey =>
      if negb (accountPubkey =? sponsorPubkey)%string
         && negb (existsb (String.eqb accountPubkey) created)
      then
        if match pre with
           | Some l => existsb (Nat.eqb accountIndex) l
           | None => false
           end
        then created
        else created ++ [accountPubkey]
      else created
  end.

(** [findCreatedAccounts]; reading the fee payer of a transaction with no
    account keys throws. *)
Definition findCreatedAccounts (tx : ParsedTransaction) (sponsorPubkey : string)
  : Outcome (list string) :=
  match accountKeys tx with
  | [] => Rejected (ErrorObj "Cannot read properties of undefined (reading 'pubkey')")
  | feePayer :: _ =>
      if negb (feePayer =? sponsorPubkey)%string then Resolved []
      else
        let fromInner :=
          match meta tx with
          | Some m =>
              match innerInstructions m with
              | Some inners => flat_map (flat_map (innerCreated sponsorPubkey)) inners
              | None => []
              end
          | None => []
          end in
        let fromTop := flat_map (topLevelCreated sponsorPubkey) (txInstructions tx) in
        let created := fromInner ++ fromTop in
        let created' :=
          match meta tx with
          | Some m =>
              match postTokenBalances m with
              | Some post =>
                  fold_left (balanceCreated sponsorPubkey (accountKeys tx) (preTokenBalances m))
                            post created
              | None => created
              end
          | None => created
          end in
        Resolved (dedup created')
  end.

(** The state the scan threads: the result being built, the addresses seen
    in this run, and the store. *)
Record Scan : Type := {
  result : DiscoveryResult;
  discoveredPubkeys : list string;
  store : Db
}.

Definition addError (msg : string) (r : DiscoveryResult) : DiscoveryResult :=
  {| totalFound := totalFound r; newAccounts := newAccounts r;
     existingAccounts := existingAccounts r; accounts := accounts r;
     errors := errors r ++ [msg] |}.

(** The record built for a candidate that is not tracked yet. *)
Definition freshAccount (sigInfo : SignatureInfo) (accountPubkey : string)
           (accountInfo : SolanaAccountInfo) (now : Date) : AccountFields :=
  {| pubkey := accountPubkey;
     createdAt :=
       match blockTime sigInfo with
       | Some 0 | None => now
       | Some t => t * 1000
       end;
     sponsoredTxSignature := Some (signature sigInfo);
     accountType :=
       if exists_ accountInfo then detectAccountType (owner accountInfo) else UNKNOWN;
     rentLamports := lamports accountInfo;
     status := if exists_ accountInfo then ACTIVE else CLOSED;
     lastCheckedAt := now;
     closedAt := if exists_ accountInfo then None else Some now;
     programOwner := if exists_ accountInfo then Some (owner accountInfo) else None;
     dataSize := Some (si_dataSize accountInfo);
     notes := None |}.

(** One turn of the loop over the accounts a transaction created. *)
Definition scanAccount (conn : Connection) (now : Date) (sigInfo : SignatureInfo)
           (s : Scan) (accountPubkey : string) : Scan :=
  if existsb (String.eqb accountPubkey) (discoveredPubkeys s) then s
  else
    let seen := discoveredPubkeys s ++ [accountPubkey] in
    let r := result s in
    match getAccount (store s) accountPubkey with
    | Some existing =>
        {| result :=
             {| totalFound := totalFound r; newAccounts := newAccounts r;
                existingAccounts := S (existingAccounts r);
                accounts := accounts r ++ [existing]; errors := errors r |};
           discoveredPubkeys := seen;
           store := store s |}
    | None =>
        match getAccountInfo conn accountPubkey with
        | Rejected e =>
            {| result :=
                 addError ("Error processing account " ++ accountPubkey ++ ": " ++ render e)%string r;
               discoveredPubkeys := seen;
               store := store s |}
        | Resolved accountInfo =>
            let (saved, db') :=
              upsertAccount (freshAccount sigInfo accountPubkey accountInfo now) (store s) in
            {| result :=
                 {| totalFound := totalFound r; newAccounts := S (newAccounts r);
                    existingAccounts := existingAccounts r;
                    accounts :=
                      match saved with
                      | Some a => accounts r ++ [a]
                      | None => accounts r
                      end;
                    errors := errors r |};
               discoveredPubkeys := seen;
               store := db' |}
        end
    end.

(** One turn of the loop over the sponsor's signatures. *)
Definition scanTransaction (conn : Connection) (now : Date) (sponsorPubkey : string)
           (s : Scan) (sigInfo : SignatureInfo) : Scan :=
  let fetchFailed :=
    {| result :=
         addError ("Transaction fetch failed: " ++ slice0 20 (signature sigInfo) ++ "...")%string
                  (result s);
       discoveredPubkeys := discoveredPubkeys s;
       store := store s |} in
  match rpcGetParsedTransaction conn (signature sigInfo) with
  | Rejected _ => fetchFailed
  | Resolved None => s
  | Resolved (Some tx) =>
      if match meta tx with Some m => err m | None => false end then s
      else
        match findCreatedAccounts tx sponsorPubkey with
        | Rejected _ => fetchFailed
        | Resolved createdAccounts =>
            fold_left (scanAccount conn now sigInfo) createdAccounts s
        end
  end.

Definition emptyResult (errs : list string) : DiscoveryResult :=
  {| totalFound := O; newAccounts := O; existingAccounts := O; accounts := []; errors := errs |}.

Definition discoverSponsoredAccounts (config : BotConfig) (conn : Connection) (now : Date)
           (koraSigner : option string) (limit : nat) (db : Db) : DiscoveryResult * Db :=
  let sponsor := if truthy koraSigner then koraSigner else koraSignerPubkey config in
  match sponsor with
  | Some sponsorPubkey =>
      if negb (truthy sponsor) then
        (emptyResult
           ["Kora signer public key not configured.";
            "Option 1: Set KORA_SIGNER_PUBKEY in .env (your signer address from signers.toml)";
            "Option 2: Set KORA_RPC_URL in .env and run: npm run cli -- kora-info";
            "Option 3: Pass it directly: npm run cli -- discover --signer <PUBKEY>"], db)
      else
        match getSponsoredAccountSignatures conn sponsorPubkey limit with
        | Rejected e => (emptyResult [("Discovery failed: " ++ render e)%string], db)
        | Resolved signatures =>
            let s :=
              fold_left (scanTransaction conn now sponsorPubkey) signatures
                        {| result := emptyResult []; discoveredPubkeys := []; store := db |} in
            let r := result s in
            ({| totalFound := (newAccounts r + existingAccounts r)%nat;
                newAccounts := newAccounts r;
                existingAccounts := existingAccounts r;
                accounts := accounts r;
                errors := errors r |}, store s)
        end
  | None =>
      (emptyResult
         ["Kora signer public key not configured.";
          "Option 1: Set KORA_SIGNER_PUBKEY in .env (your signer address from signers.toml)";
          "Option 2: Set KORA_RPC_URL in .env and run: npm run cli -- kora-info";
          "Option 3: Pass it directly: npm run cli -- discover --signer <PUBKEY>"], db)
  end.

(** [addAccountManually]: a text that is not a public key makes the
    constructor throw before the store is looked at; whatever is thrown is
    caught and [null] returned. *)
Definition addAccountManually (conn : Connection) (now : Date) (pk : PublicKey)
           (sponsoredTx : option string) (db : Db) : option TrackedAccount * Db :=
  if negb (isPublicKey pk) then (None, db)
  else
    match getAccount db pk with
    | Some existing => (Some existing, db)
    | None =>
        match getAccountInfo conn pk with
        | Rejected _ => (None, db)
        | Resolved accountInfo =>
            upsertAccount
              {| pubkey := pk;
                 createdAt := now;
                 sponsoredTxSignature :=
                   if truthy sponsoredTx then sponsoredTx else Some "manual-add";
                 accountType :=
                   if exists_ accountInfo then detectAccountType (owner accountInfo)
                   else UNKNOWN;
                 rentLamports := lamports accountInfo;
                 status := if exists_ accountInfo then ACTIVE else CLOSED;
                 lastCheckedAt := now;
                 closedAt := if exists_ accountInfo then None else Some now;
                 programOwner := if exists_ accountInfo then Some (owner accountInfo) else None;
                 dataSize := Some (si_dataSize accountInfo);
                 notes := Some "Manually added" |} db
        end
    end.

Record BulkResult : Type := {
  added : nat;
  skipped : nat;
  bulkErrors : list string
}.

(** The loop of [addAccountsBulk]: the [i]-th call reads the ledger as
    [conns i] at the instant [clocks i].  [addAccountManually] catches what
    is thrown inside it, so the [catch] of the loop is never entered. *)
Fixpoint bulkLoop (conns : nat -> Connection) (clocks : nat -> Date) (i : nat)
         (pubkeys : list PublicKey) (r : BulkResult) (db : Db) : BulkResult * Db :=
  match pubkeys with
  | [] => (r, db)
  | pk :: rest =>
      let (account, db') := addAccountManually (conns i) (clocks i) pk None db in
      bulkLoop conns clocks (S i) rest
        (match account with
         | Some _ =>
             {| added := S (added r); skipped := skipped r; bulkErrors := bulkErrors r |}
         | None =>
             {| added := added r; skipped := S (skipped r); bulkErrors := bulkErrors r |}
         end)
        db'
  end.

Definition addAccountsBulk (conns : nat -> Connection) (clocks : nat -> Date)
           (pubkeys : list PublicKey) (db : Db) : BulkResult * Db :=
  bulkLoop conns clocks O pubkeys {| added := O; skipped := O; bulkErrors := [] |} db.

End Discovery.

(** ** core/reclaim.ts *)

Module Reclaim.
Import Solana Database.

Definition ineligible (account : option TrackedAccount) (why : string) (warns : list string)
  : EligibilityCheck :=
  {| eligible := false; account := account; reasons := [why]; warnings := warns |}.

(** The dormancy and threshold checks that end [checkEligibility]. *)
Definition checkDormancyAndThreshold (config : BotConfig) (now : Date)
           (tracked : TrackedAccount) (warns : list string) : EligibilityCheck :=
  let tooRecent :=
    match closedAt tracked with
    | Some c =>
        let daysSinceClosed := (now - c) / MS_PER_DAY in
        if daysSinceClosed <? minDormancyDays config then Some daysSinceClosed else None
    | None => None
    end in
  match tooRecent with
  | Some daysSinceClosed =>
      ineligible (Some tracked)
        ("Account was closed " ++ showZ daysSinceClosed ++ " days ago. "
         ++ "Minimum dormancy period is " ++ showZ (minDormancyDays config) ++ " days.")%string
        warns
  | None =>
      if rentLamports tracked <? minReclaimLamports config then
        ineligible (Some tracked)
          ("Account has " ++ showZ (rentLamports tracked) ++ " lamports. "
           ++ "Minimum threshold is " ++ showZ (minReclaimLamports config) ++ " lamports.")%string
          warns
      else
        {| eligible := true; account := Some tracked;
           reasons := ["Account is eligible for rent reclaim"]; warnings := warns |}
  end.

(** The in-memory object after [account.status = AccountStatus.CLOSED]: only
    the status changes, [closedAt] keeps the value read from the store. *)
Definition markClosed (tracked : TrackedAccount) : TrackedAccount :=
  {| id := id tracked;
     fields :=
       {| pubkey := pubkey tracked;
          createdAt := createdAt tracked;
          sponsoredTxSignature := sponsoredTxSignature tracked;
          accountType := accountType tracked;
          rentLamports := rentLamports tracked;
          status := CLOSED;
          lastCheckedAt := lastCheckedAt tracked;
          closedAt := closedAt tracked;
          programOwner := programOwner tracked;
          dataSize := dataSize tracked;
          notes := notes tracked |} |}.

Definition checkEligibility (config : BotConfig) (conn : Connection) (now : Date)
           (pk : PublicKey) (db : Db) : Outcome EligibilityCheck * Db :=
  match getAccount db pk with
  | None => (Resolved (ineligible None "Account is not tracked in the database" []), db)
  | Some tracked =>
      if status_eqb (status tracked) RECLAIMED then
        (Resolved (ineligible (Some tracked) "Account has already been reclaimed" []), db)
      else if isWhitelisted db pk then
        (Resolved (ineligible (Some tracked)
                     "Account is whitelisted (protected from reclaim)" []), db)
      else if isBlacklisted db pk then
        (Resolved (ineligible (Some tracked) "Account is blacklisted" []), db)
      else
        match getAccountInfo conn pk with
        | Rejected e => (Rejected e, db)
        | Resolved onChainInfo =>
            if exists_ onChainInfo then
              let warns :=
                if 0 <? lamports onChainInfo then
                  [("Account still has " ++ showZ (lamports onChainInfo)
                    ++ " lamports on-chain")%string]
                else [] in
              if (0 <? lamports onChainInfo)
                 && (minReclaimLamports config <=? lamports onChainInfo) then
                (Resolved (ineligible (Some tracked)
                             "Account still has balance and is not closed" warns), db)
              else (Resolved (checkDormancyAndThreshold config now tracked warns), db)
            else
              let corrected := negb (status_eqb (status tracked) CLOSED) in
              let db' :=
                if corrected then updateAccountStatus pk CLOSED (Some now) now db else db in
              let tracked' := if corrected then markClosed tracked else tracked in
              let warns := if corrected then ["Account status updated to CLOSED"] else [] in
              if rentLamports tracked' =? 0 then
                (Resolved (ineligible (Some tracked')
                             "Account has no remaining rent to reclaim" warns), db')
              else (Resolved (checkDormancyAndThreshold config now tracked' warns), db')
        end
  end.

(** The ledger as one call of [reclaimSingleAccount] sees it: the wall clock
    and one snapshot for each of its three reads, the last of which also
    answers the submission. *)
Record ReclaimEnv : Type := {
  clock : Date;
  atEligibility : Connection;
  atBalance : Connection;
  atClose : Connection
}.

Definition failure (pk : PublicKey) (why : option string) (dry : bool) : ReclaimResult :=
  {| r_success := false; r_accountPubkey := pk; r_txSignature := None;
     r_lamportsReclaimed := None; r_error := why; r_dryRun := dry |}.

(** [reclaimSingleAccount].  The second component lists the transactions
    handed to the ledger. *)
Definition reclaimSingleAccount (config : BotConfig) (env : ReclaimEnv) (pk : PublicKey)
           (forceDryRun : option bool) (db : Db)
  : Outcome ReclaimResult * list Transaction * Db :=
  let dry := match forceDryRun with Some b => b | None => dryRun config end in
  match checkEligibility config (atEligibility env) (clock env) pk db with
  | (Rejected e, db1) => (Rejected e, [], db1)
  | (Resolved eligibility, db1) =>
      if negb (eligible eligibility) then
        (Resolved (failure pk (Some (join "; " (reasons eligibility))) dry), [], db1)
      else
        match getTreasuryPubkey config with
        | Rejected e => (Rejected e, [], db1)
        | Resolved treasury =>
            match getAccountInfo (atBalance env) pk with
            | Rejected e => (Resolved (failure pk (Some (messageOf e)) dry), [], db1)
            | Resolved onChainInfo =>
                let lamportsToReclaim :=
                  if exists_ onChainInfo then Some (lamports onChainInfo)
                  else option_map (fun a : TrackedAccount => rentLamports a)
                                  (account eligibility) in
                if match lamportsToReclaim with Some 0 => true | _ => false end then
                  (Resolved (failure pk (Some "No lamports to reclaim") dry), [], db1)
                else
                  match loadOperatorKeypair config with
                  | Rejected e => (Resolved (failure pk (Some (messageOf e)) dry), [], db1)
                  | Resolved operatorKeypair =>
                      match closeAccountAndReclaimRent (atClose env) pk treasury
                                                       operatorKeypair dry with
                      | (Rejected e, sent) =>
                          (Resolved (failure pk (Some (messageOf e)) dry), sent, db1)
                      | (Resolved reclaimResult, sent) =>
                          if c_success reclaimResult then
                            let db2 :=
                              snd (recordReclaimTransaction
                                     {| accountPubkey := pk;
                                        txSignature := c_signature reclaimResult;
                                        lamportsReclaimed := c_lamportsReclaimed reclaimResult;
                                        reclaimedAt := clock env;
                                        success := true;
                                        errorMessage := None;
                                        treasuryPubkey := treasury |} db1) in
                            let db3 :=
                              if dry then db2
                              else updateAccountRent pk 0 (clock env)
                                     (updateAccountStatus pk RECLAIMED None (clock env) db2) in
                            (Resolved
                               {| r_success := true; r_accountPubkey := pk;
                                  r_txSignature := Some (c_signature reclaimResult);
                                  r_lamportsReclaimed := Some (c_lamportsReclaimed reclaimResult);
                                  r_error := None; r_dryRun := dry |}, sent, db3)
                          else
                            let db2 :=
                              snd (recordReclaimTransaction
                                     {| accountPubkey := pk;
                                        txSignature :=
                                          if (c_signature reclaimResult =? EmptyString)%string
                                          then "failed" else c_signature reclaimResult;
                                        lamportsReclaimed := 0;
                                        reclaimedAt := clock env;
                                        success := false;
                                        errorMessage := c_error reclaimResult;
                                        treasuryPubkey := treasury |} db1) in
                            (Resolved (failure pk (c_error reclaimResult) dry), sent, db2)
                      end
                  end
            end
        end
  end.

Definition emptySummary (n : nat) (dry : bool) : BatchReclaimSummary :=
  {| totalEligible := n; totalAttempted := O; totalSuccessful := O; totalFailed := O;
     totalLamportsReclaimed := 0; results := []; b_dryRun := dry |}.

Definition attempt (s : BatchReclaimSummary) : BatchReclaimSummary :=
  {| totalEligible := totalEligible s; totalAttempted := S (totalAttempted s);
     totalSuccessful := totalSuccessful s; totalFailed := totalFailed s;
     totalLamportsReclaimed := totalLamportsReclaimed s; results := results s;
     b_dryRun := b_dryRun s |}.

Definition tally (s : BatchReclaimSummary) (r : ReclaimResult) : BatchReclaimSummary :=
  {| totalEligible := totalEligible s; totalAttempted := totalAttempted s;
     totalSuccessful := if r_success r then S (totalSuccessful s) else totalSuccessful s;
     totalFailed := if r_success r then totalFailed s else S (totalFailed s);
     totalLamportsReclaimed :=
       if r_success r then
         Js.plus (totalLamportsReclaimed s)
                 match r_lamportsReclaimed r with Some n => n | None => 0 end
       else totalLamportsReclaimed s;
     results := results s ++ [r];
     b_dryRun := b_dryRun s |}.

(** The loop shared by the two batch entry points: the [i]-th call sees the
    ledger as [envs i].  A rejected call ends the loop with what was thrown. *)
Fixpoint reclaimLoop (config : BotConfig) (dry : bool) (envs : nat -> ReclaimEnv) (i : nat)
         (pks : list PublicKey) (summary : BatchReclaimSummary)
         (sent : list Transaction) (db : Db)
  : option Thrown * BatchReclaimSummary * list Transaction * Db :=
  match pks with
  | [] => (None, summary, sent, db)
  | pk :: rest =>
      match reclaimSingleAccount config (envs i) pk (Some dry) db with
      | (Rejected e, sent1, db1) => (Some e, attempt summary, sent ++ sent1, db1)
      | (Resolved r, sent1, db1) =>
          reclaimLoop config dry envs (S i) rest (tally (attempt summary) r)
                      (sent ++ sent1) db1
      end
  end.

(** [reclaimAllEligible]: a rejected call is caught and the summary built so
    far is returned. *)
Definition reclaimAllEligible (config : BotConfig) (now : Date) (envs : nat -> ReclaimEnv)
           (forceDryRun : option bool) (db : Db)
  : BatchReclaimSummary * list Transaction * Db :=
  let dry := match forceDryRun with Some b => b | None => dryRun config end in
  let eligibleAccounts :=
    getEligibleAccounts db (minDormancyDays config) (minReclaimLamports config) now in
  let '(_, summary, sent, db') :=
    reclaimLoop config dry envs O (map (fun a : TrackedAccount => pubkey a) eligibleAccounts)
                (emptySummary (List.length eligibleAccounts) dry) [] db in
  (summary, sent, db').

(** [reclaimMultiple]: a rejected call rejects the whole batch. *)
Definition reclaimMultiple (config : BotConfig) (envs : nat -> ReclaimEnv)
           (pubkeys : list PublicKey) (forceDryRun : option bool) (db : Db)
  : Outcome BatchReclaimSummary * list Transaction * Db :=
  let dry := match forceDryRun with Some b => b | None => dryRun config end in
  let '(thrown, summary, sent, db') :=
    reclaimLoop config dry envs O pubkeys (emptySummary (List.length pubkeys) dry) [] db in
  (match thrown with Some e => Rejected e | None => Resolved summary end, sent, db').





End Reclaim.

(** ** utils/config.ts *)

Module Config.

(** The object [loadConfig] builds from the environment, as far as
    [validateConfig] reads it.  The four numbers come from [parseInt] and
    are [NaN] when the variable does not start with a number. *)
Record Loaded : Type := {
  network : string;
  rpcUrl : string;
  operatorKeypairPath : string;
  monitorIntervalMinutes : number;
  minDormancyDays : number;
  minReclaimLamports : number;
  dryRun : bool;
  telegramBotToken : option string;
  telegramChatId : option string;
  telegramAlertsEnabled : bool;
  dashboardPort : number
}.

(** [validateConfig]; [existsSync] is the file system at the time of the
    call. *)
Definition validateConfig (existsSync : string -> bool) (config : Loaded) : list string :=
  (if existsb (String.eqb (network config)) ["devnet"; "mainnet-beta"; "testnet"] then []
   else [("Invalid network: " ++ network config
          ++ ". Must be 'devnet', 'mainnet-beta', or 'testnet'.")%string])
  ++ (if (rpcUrl config =? EmptyString)%string then ["RPC URL is required."] else [])
  ++ (if dryRun config then []
      else if (operatorKeypairPath config =? EmptyString)%string
           then ["Operator keypair path is required for non-dry-run mode."]
           else if existsSync (operatorKeypairPath config) then []
                else [("Operator keypair file not found: "
                       ++ operatorKeypairPath config)%string])
  ++ (if below (monitorIntervalMinutes config) 1
      then ["Monitor interval must be at least 1 minute."] else [])
  ++ (if below (minDormancyDays config) 0
      then ["Minimum dormancy days cannot be negative."] else [])
  ++ (if below (minReclaimLamports config) 0
      then ["Minimum reclaim lamports cannot be negative."] else [])
  ++ (if telegramAlertsEnabled config then
        (if truthy (telegramBotToken config) then []
         else ["Telegram bot token is required when alerts are enabled."])
        ++ (if truthy (telegramChatId config) then []
            else ["Telegram chat ID is required when alerts are enabled."])
      else [])
  ++ (if below (dashboardPort config) 1 || above (dashboardPort config) 65535
      then ["Dashboard port must be between 1 and 65535."] else []).

End Config.

(** ** core/kora.ts *)

Module Kora.

Record RpcError : Type := {
  err_code : Z;
  err_message : string
}.

(** The JSON-RPC envelope; a [result] is an object, hence truthy when
    present. *)
Record KoraRpcResponse (T : Type) : Type := {
  rpc_result : option T;
  rpc_error : option RpcError
}.
Arguments rpc_result {T} _.
Arguments rpc_error {T} _.

(** What [fetch] resolves with: the status line and the parsed body. *)
Record Response (T : Type) : Type := {
  ok : bool;
  http_status : Z;
  http_statusText : string;
  json : Outcome (KoraRpcResponse T)
}.
Arguments ok {T} _.
Arguments http_status {T} _.
Arguments http_statusText {T} _.
Arguments json {T} _.

Record SignerResult : Type := {
  signer_address : string;
  payment_address : string
}.

Record TokensResult : Type := {
  tokens : option (list string)
}.

(** The answers of the node at one URL to the two methods used. *)
Record KoraNode : Type := {
  payerSignerReply : Outcome (Response SignerResult);
  supportedTokensReply : Outcome (Response TokensResult)
}.

Definition callKoraRpc {T : Type} (reply : Outcome (Response T)) : Outcome T :=
  match reply with
  | Rejected e => Rejected e
  | Resolved response =>
      if negb (ok response) then
        Rejected (ErrorObj ("Kora RPC error: " ++ showZ (http_status response) ++ " "
                            ++ http_statusText response)%string)
      else
        match json response with
        | Rejected e => Rejected e
        | Resolved data =>
            match rpc_error data with
            | Some e =>
                Rejected (ErrorObj ("Kora RPC error: " ++ err_message e ++ " (code: "
                                    ++ showZ (err_code e) ++ ")")%string)
            | None =>
                match rpc_result data with
                | None => Rejected (ErrorObj "Kora RPC returned no result")
                | Some r => Resolved r
                end
            end
        end
  end.

Record PayerSigner : Type := {
  ps_payerSigner : string;
  ps_paymentDestination : string
}.

Record KoraConfig : Type := {
  payerSigner : string;
  paymentDestination : string;
  supportedTokens : list string
}.

Definition getPayerSigner (web : string -> KoraNode) (koraRpcUrl : string)
  : Outcome PayerSigner :=
  match callKoraRpc (payerSignerReply (web koraRpcUrl)) with
  | Rejected e => Rejected e
  | Resolved r =>
      Resolved {| ps_payerSigner := signer_address r;
                  ps_paymentDestination := payment_address r |}
  end.

Definition getSupportedTokens (web : string -> KoraNode) (koraRpcUrl : string)
  : Outcome (list string) :=
  match callKoraRpc (supportedTokensReply (web koraRpcUrl)) with
  | Rejected e => Rejected e
  | Resolved r => Resolved (match tokens r with Some l => l | None => [] end)
  end.

Definition isKoraNodeReachable (web : string -> KoraNode) (koraRpcUrl : string) : bool :=
  match getPayerSigner web koraRpcUrl with
  | Resolved _ => true
  | Rejected _ => false
  end.

(** [getKoraNodeInfo]: the token request has its own [catch]. *)
Definition getKoraNodeInfo (web : string -> KoraNode) (koraRpcUrl : string)
  : option KoraConfig :=
  match getPayerSigner web koraRpcUrl with
  | Rejected _ => None
  | Resolved signerInfo =>
      Some {| payerSigner := ps_payerSigner signerInfo;
              paymentDestination := ps_paymentDestination signerInfo;
              supportedTokens :=
                match getSupportedTokens web koraRpcUrl with
                | Resolved l => l
                | Rejected _ => []
                end |}
  end.

End Kora.

(** ** dashboard/src/lib/utils.ts *)

Module Dashboard.

(** [truncateAddress], for lengths that are natural numbers. *)
Definition truncateAddress (address : string) (startLen endLen : nat) : string :=
  if (address =? EmptyString)%string || (String.length address <=? startLen + endLen)%nat
  then address
  else (slice0 startLen address ++ "..." ++ sliceLast endLen address)%string.

(** [formatTimeAgo] of a timestamp given in milliseconds, read at [now]. *)
Definition formatTimeAgo (now : Date) (timestamp : Date) : string :=
  let seconds := (now - timestamp) / 1000 in
  if seconds <? 60 then "Just now"
  else
    let minutes := seconds / 60 in
    if minutes <? 60 then (showZ minutes ++ "m ago")%string
    else
      let hours := minutes / 60 in
      if hours <? 24 then (showZ hours ++ "h ago")%string
      else
        let days := hours / 24 in
        if days <? 30 then (showZ days ++ "d ago")%string
        else
          let months := days / 30 in
          (showZ months ++ "mo ago")%string.

End Dashboard.

(** ** The operations of the core, as steps on the store *)

Module Ops.
Import Solana Database Monitor Discovery Reclaim.

(** One call of an exported operation, with the answers of the outside world
    (ledger snapshots and wall clock) it receives. *)
Inductive Op : Type :=
| DiscoverSponsoredAccounts (conn : Connection) (now : Date)
                            (koraSigner : option string) (limit : nat)
| AddAccountManually (conn : Connection) (now : Date) (pk : PublicKey)
                     (sponsoredTx : option string)
| CheckAllAccounts (conn : Connection) (now : Date) (elapsed : Z)
| CheckSingleAccount (conn : Connection) (now : Date) (pk : PublicKey)
| CheckEligibility (conn : Connection) (now : Date) (pk : PublicKey)
| ReclaimSingleAccount (env : ReclaimEnv) (pk : PublicKey) (forceDryRun : option bool)
| ReclaimAllEligible (now : Date) (envs : nat -> ReclaimEnv) (forceDryRun : option bool)
| ReclaimMultiple (envs : nat -> ReclaimEnv) (pubkeys : list PublicKey)
                  (forceDryRun : option bool)
| AddToWhitelist (pk : PublicKey) (reason : option string) (now : Date)
| RemoveFromWhitelist (pk : PublicKey)
| AddToBlacklist (pk : PublicKey) (reason : option string) (now : Date).

Section WithHost.

Variable config : BotConfig.
Variable belowTenth : Z -> Z -> bool.

(** The store after the operation. *)
Definition exec (op : Op) (db : Db) : Db :=
  match op with
  | DiscoverSponsoredAccounts conn now koraSigner limit =>
      snd (discoverSponsoredAccounts config conn now koraSigner limit db)
  | AddAccountManually conn now pk sponsoredTx =>
      snd (addAccountManually conn now pk sponsoredTx db)
  | CheckAllAccounts conn now elapsed =>
      snd (checkAllAccounts belowTenth conn now elapsed db)
  | CheckSingleAccount conn now pk =>
      snd (checkSingleAccount belowTenth conn now pk db)
  | CheckEligibility conn now pk =>
      snd (checkEligibility config conn now pk db)
  | ReclaimSingleAccount env pk forceDryRun =>
      snd (reclaimSingleAccount config env pk forceDryRun db)
  | ReclaimAllEligible now envs forceDryRun =>
      snd (reclaimAllEligible config now envs forceDryRun db)
  | ReclaimMultiple envs pubkeys forceDryRun =>
      snd (reclaimMultiple config envs pubkeys forceDryRun db)
  | AddToWhitelist pk reason now => addToWhitelist pk reason now db
  | RemoveFromWhitelist pk => removeFromWhitelist pk db
  | AddToBlacklist pk reason now => addToBlacklist pk reason now db
  end.

(** The results of the single-account reclaim protocol runs the operation
    performed. *)
Definition executorResults (op : Op) (db : Db) : list ReclaimResult :=
  match op with
  | ReclaimSingleAccount env pk forceDryRun =>
      match fst (fst (reclaimSingleAccount config env pk forceDryRun db)) with
      | Resolved r => [r]
      | Rejected _ => []
      end
  | ReclaimAllEligible now envs forceDryRun =>
      results (fst (fst (reclaimAllEligible config now envs forceDryRun db)))
  | ReclaimMultiple envs pubkeys forceDryRun =>
      let dry := match forceDryRun with Some b => b | None => dryRun config end in
      results (snd (fst (fst
        (reclaimLoop config dry envs O pubkeys
                     (emptySummary (List.length pubkeys) dry) [] db))))
  | _ => []
  end.

Definition run (ops : list Op) (db : Db) : Db := fold_left (fun d op => exec op d) ops db.

End WithHost.

(** The stored status and balance of the account tracked under an address. *)
Definition statusOf (db : Db) (a : PublicKey) : option AccountStatus :=
  option_map (fun r : TrackedAccount => status r) (getAccount db a).

Definition rentOf (db : Db) (a : PublicKey) : option Z :=
  option_map (fun r : TrackedAccount => rentLamports r) (getAccount db a).

(** A successful row of the reclaim log for an address. *)
Definition hasSuccessfulReclaim (db : Db) (a : PublicKey) : Prop :=
  exists tx : ReclaimTransaction,
    In tx (reclaim_transactions db) /\ accountPubkey tx = a /\ success tx = true.

(** The [UNIQUE] constraint on [tracked_accounts.pubkey]. *)
Definition uniqueAddresses (db : Db) : Prop :=
  NoDup (map (fun r : TrackedAccount => pubkey r) (tracked_accounts db)).

(** [status == Reclaimed => depositBalance == 0 /\ a successful reclaim row]. *)
Definition reclaimedInvariant (db : Db) : Prop :=
  forall a row,
    getAccount db a = Some row -> status row = RECLAIMED ->
    rentLamports row = 0 /\ hasSuccessfulReclaim db a.

(** A result of the executor that reports a live, successful reclaim of [a]. *)
Definition liveSuccessFor (a : PublicKey) (r : ReclaimResult) : Prop :=
  r_success r = true /\ r_accountPubkey r = a /\ r_dryRun r = false.

(** Relations between the store before and after a step. *)
Definition noNewReclaimed (db db' : Db) : Prop :=
  forall a, statusOf db' a = Some RECLAIMED -> statusOf db a = Some RECLAIMED.

Definition logGrows (db db' : Db) : Prop :=
  exists added, reclaim_transactions db' = reclaim_transactions db ++ added.

(** The store [db'] is [db] with rows added for addresses that were not
    tracked, none of them Reclaimed. *)
Definition grows (db db' : Db) : Prop :=
  (forall a row, getAccount db a = Some row -> getAccount db' a = Some row)
  /\ (forall a row', getAccount db' a = Some row' ->
                     getAccount db a = Some row'
                     \/ (getAccount db a = None /\ status row' <> RECLAIMED))
  /\ reclaim_transactions db' = reclaim_transactions db
  /\ whitelist db' = whitelist db /\ blacklist db' = blacklist db
  /\ (uniqueAddresses db -> uniqueAddresses db').

(** A piece of the discovery scan: it only adds rows, keeps the addresses
    already seen in this run, and leaves the rows of seen addresses alone. *)
Definition tame (piece : Scan -> Scan) : Prop :=
  forall s : Scan,
    grows (store s) (store (piece s))
    /\ (forall a, In a (discoveredPubkeys s) -> In a (discoveredPubkeys (piece s)))
    /\ (forall a, In a (discoveredPubkeys s) ->
                  getAccount (store (piece s)) a = getAccount (store s) a).


(** What a step may do to Reclaimed accounts: the reclaim log only grows,
    addresses stay unique, a Reclaimed account keeps its row (unless the step
    is exempted for its address), and an account becomes Reclaimed only with
    a live successful result among [outcomes], balance 0 and a successful
    row in the log. *)
Definition stepOk (outcomes : list ReclaimResult) (exempt : PublicKey -> bool)
           (db db' : Db) : Prop :=
  logGrows db db'
  /\ (uniqueAddresses db -> uniqueAddresses db')
  /\ (forall a, exempt a = false -> statusOf db a = Some RECLAIMED ->
                getAccount db' a = getAccount db a)
  /\ (forall a, statusOf db' a = Some RECLAIMED -> statusOf db a <> Some RECLAIMED ->
                (exists r, In r outcomes /\ liveSuccessFor a r)
                /\ rentOf db' a = Some 0 /\ hasSuccessfulReclaim db' a).

(** The operations with the store each of them starts from. *)
Fixpoint steps (config : BotConfig) (belowTenth : Z -> Z -> bool)
         (ops : list Op) (db : Db) : list (Op * Db) :=
  match ops with
  | [] => []
  | op :: rest => (op, db) :: steps config belowTenth rest (exec config belowTenth op db)
  end.

Definition isWhitelistAdd (a : PublicKey) (op : Op) : bool :=
  match op with
  | AddToWhitelist pk _ _ => (pk =? a)%string
  | _ => false
  end.

End Ops.

(** ** Notions used to state what the operations count and keep *)

Module Accounting.
Import Solana Database Monitor Discovery Reclaim Ops.

(** The lamports a result reports as reclaimed, and the counts and the sum
    a batch summary should hold for a list of results. *)
Definition lamportsOf (r : ReclaimResult) : Z :=
  if r_success r then match r_lamportsReclaimed r with Some n => n | None => 0 end else 0.

Definition sumLamports (rs : list ReclaimResult) : Z :=
  fold_right (fun r acc => lamportsOf r + acc) 0 rs.

(** The running total of a batch over its results, as the loop adds it up
    on numbers. *)
Definition addedUp (start : Z) (rs : list ReclaimResult) : Z :=
  fold_left
    (fun total r =>
       if r_success r
       then Js.plus total match r_lamportsReclaimed r with Some n => n | None => 0 end
       else total)
    rs start.

Definition successes (rs : list ReclaimResult) : nat :=
  List.length (filter (fun r => r_success r) rs).

(** The accounts a list of transactions draws from, in order. *)
Definition payers (sent : list Transaction) : list PublicKey :=
  flat_map
    (fun tx => map (fun ix => match ix with SystemTransfer fromPubkey _ _ => fromPubkey end)
                   (instructions tx))
    sent.

(** [picked l l']: [l] is [l'] with some of its elements left out. *)
Inductive picked : list PublicKey -> list PublicKey -> Prop :=
| picked_nil : picked [] []
| picked_skip (pk : PublicKey) (l l' : list PublicKey) : picked l l' -> picked l (pk :: l')
| picked_take (pk : PublicKey) (l l' : list PublicKey) :
    picked l l' -> picked (pk :: l) (pk :: l').

Definition failures (rs : list ReclaimResult) : nat :=
  List.length (filter (fun r => negb (r_success r)) rs).

(** The identity columns of a row, which no operation rewrites, and the
    closing date, which no operation clears. *)
Definition sameIdentity (row row' : TrackedAccount) : Prop :=
  id row' = id row /\ pubkey row' = pubkey row /\ createdAt row' = createdAt row
  /\ sponsoredTxSignature row' = sponsoredTxSignature row
  /\ accountType row' = accountType row
  /\ (closedAt row <> None -> closedAt row' <> None).

(** What a step keeps of the store: the tracked rows, the deny-list entries
    and the reclaim log. *)
Definition remembers (db db' : Db) : Prop :=
  (forall a row, getAccount db a = Some row ->
                 exists row', getAccount db' a = Some row' /\ sameIdentity row row')
  /\ (forall a, isBlacklisted db a = true -> isBlacklisted db' a = true)
  /\ logGrows db db'.

(** The bookkeeping of a discovery scan that started from the store [base]:
    the accounts listed so far are new or existing ones, the table has grown
    by the new ones, every listed account is the stored row of an address
    seen in this run, and no address is listed twice. *)
Definition counted (base : Db) (s : Scan) : Prop :=
  List.length (accounts (result s))
  = (newAccounts (result s) + existingAccounts (result s))%nat
  /\ List.length (tracked_accounts (store s))
     = (List.length (tracked_accounts base) + newAccounts (result s))%nat
  /\ (forall a : TrackedAccount,
         In a (accounts (result s)) ->
         getAccount (store s) (pubkey a) = Some a /\ In (pubkey a) (discoveredPubkeys s))
  /\ NoDup (map (fun a : TrackedAccount => pubkey a) (accounts (result s))).

End Accounting.

(** ** Concrete stores and ledgers used as examples *)

Module Scenario.
Import Solana Database Monitor Discovery Reclaim Ops.

Definition day : Z := MS_PER_DAY.
Definition today : Date := 1790000000000.

Definition operator : PublicKey := "9xQeWvG816bUx9EPjHmaT23yvVM2ZWbrrpZb9PusVFin".
Definition sponsor : PublicKey := "7Np41oeYqPefeNQEHSv1UDhYrehxin3NStELsSKCT4K2".
Definition alice : PublicKey := "4Nd1mBQtrMJVYVfKf2PJy9NZUZdTAsp7D4xWLs4gDB4T".
Definition bob : PublicKey := "GrDMoeqMLFjeXQ24H56S1RLgT4R76jsuWCd6SvXyGPQ5".

Definition config : BotConfig :=
  {| operatorKeypairPath := "./keypair.json";
     operatorKey := Some operator;
     koraSignerPubkey := Some sponsor;
     cfgTreasuryPubkey := None;
     minDormancyDays := 7;
     minReclaimLamports := 100000;
     dryRun := true |}.

(** The same configuration with another reclaim threshold. *)
Definition withThreshold (m : Z) : BotConfig :=
  {| operatorKeypairPath := operatorKeypairPath config;
     operatorKey := operatorKey config;
     koraSignerPubkey := koraSignerPubkey config;
     cfgTreasuryPubkey := cfgTreasuryPubkey config;
     minDormancyDays := minDormancyDays config;
     minReclaimLamports := m;
     dryRun := dryRun config |}.

Definition tenth (current stored : Z) : bool := 10 * current <? stored.

Definition onChain (balance : Z) (ownedBy : PublicKey) : option AccountInfo :=
  Some {| ai_lamports := balance; ai_owner := ownedBy; ai_executable := false;
          ai_rentEpoch := 0; ai_dataLength := 165 |}.

Definition ledger (state : PublicKey -> option AccountInfo) (sent : Outcome string)
  : Connection :=
  {| rpcGetAccountInfo := fun pk => Resolved (state pk);
     rpcGetMultipleAccountsInfo := fun pks => Resolved (map state pks);
     rpcGetSignaturesForAddress := fun _ _ => Resolved [];
     rpcGetParsedTransaction := fun _ => Resolved None;
     rpcSendAndConfirm := fun _ => sent |}.

(** A sponsor history of two transactions: the first creates a system
    account for [alice] and an associated token account for [bob]; the
    second cannot be fetched.  [alice] still exists, [bob] is gone. *)
Definition creation : ParsedTransaction :=
  {| accountKeys := [sponsor; alice; bob];
     txInstructions := [Parsed "system" (Some "createAccount") (Some alice) None];
     meta :=
       Some {| err := false;
               innerInstructions :=
                 Some [[Parsed "spl-associated-token-account" (Some "create") None (Some bob);
                        Parsed "spl-token" (Some "initializeAccount3") None (Some bob)]];
               postTokenBalances := Some [2%nat];
               preTokenBalances := Some [] |} |}.

Definition firstSignature : string :=
  "5VERv8NMvzbJMEkV8xnrLkEaWRtSz9CosKDYjCJjBRnbJLgp8uirBgmQpjKhoR4tjF3ZpRzrFmBV6UjKdiSZkQUW".

Definition secondSignature : string :=
  "3AsdoALgZFuq2oUVWrDYhg2pNeaLJKPLf8hU2mQ6U8qJxeJ6hsrPVpMn9ma39DtfYCrDQSvngWRP8NnTpEhezJpE".

Definition history : Connection :=
  {| rpcGetAccountInfo :=
       fun pk =>
         if (pk =? alice)%string then Resolved (onChain 890880 SYSTEM_PROGRAM_ID)
         else Resolved None;
     rpcGetMultipleAccountsInfo := fun pks => Resolved (map (fun _ => None) pks);
     rpcGetSignaturesForAddress :=
       fun _ _ =>
         Resolved [{| signature := firstSignature; slot := 301245780;
                      blockTime := Some 1789000000 |};
                   {| signature := secondSignature; slot := 301245991;
                      blockTime := None |}];
     rpcGetParsedTransaction :=
       fun sig =>
         if (sig =? firstSignature)%string then Resolved (Some creation)
         else Rejected (ErrorObj "429 Too Many Requests");
     rpcSendAndConfirm := fun _ => Rejected (ErrorObj "unused") |}.



(** A ledger without any account, on a node that refuses the batch reads. *)
Definition emptyLedgerBusyNode : Connection :=
  {| rpcGetAccountInfo := fun _ => Resolved None;
     rpcGetMultipleAccountsInfo := fun _ => Rejected (ErrorObj "429 Too Many Requests");
     rpcGetSignaturesForAddress := fun _ _ => Resolved [];
     rpcGetParsedTransaction := fun _ => Resolved None;
     rpcSendAndConfirm := fun _ => Rejected (ErrorObj "unused") |}.

Definition steady (conn : Connection) : ReclaimEnv :=
  {| clock := today; atEligibility := conn; atBalance := conn; atClose := conn |}.

Definition tracked (pk : PublicKey) (st : AccountStatus) (rent : Z) (closed : option Date)
  : TrackedAccount :=
  {| id := 1%nat;
     fields :=
       {| pubkey := pk; createdAt := today - 30 * day;
          sponsoredTxSignature := Some firstSignature;
          accountType := TOKEN_ACCOUNT; rentLamports := rent; status := st;
          lastCheckedAt := today - day; closedAt := closed;
          programOwner := Some TOKEN_PROGRAM_ID; dataSize := Some 165; notes := None |} |}.

Definition storeWith (row : TrackedAccount) : Db :=
  {| tracked_accounts := [row]; reclaim_transactions := []; whitelist := []; blacklist := [] |}.

End Scenario.

(** * Properties *)

Import Solana Database Monitor Discovery Reclaim Ops.

(** ** The store *)

Section StoreFacts.

Lemma status_eqb_eq (a b : AccountStatus) : status_eqb a b = true <-> a = b.
Proof. destruct a, b; simpl; split; intro H; try reflexivity; discriminate. Qed.

Lemma status_eqb_neq (a b : AccountStatus) : status_eqb a b = false <-> a <> b.
Proof.
  destruct a, b; simpl; split; intro H; try reflexivity; try discriminate;
    try (exfalso; apply H; reflexivity).
Qed.

Lemma find_map_preserving {A : Type} (p : A -> bool) (g : A -> A) (l : list A) :
  (forall x, p (g x) = p x) -> find p (map g l) = option_map g (find p l).
Proof.
  intro Hp. induction l as [|x l IH]; simpl; [reflexivity|].
  rewrite Hp. destruct (p x); simpl; [reflexivity | exact IH].
Qed.

Lemma getAccount_found (db : Db) (a : PublicKey) (row : TrackedAccount) :
  getAccount db a = Some row -> pubkey row = a /\ In row (tracked_accounts db).
Proof.
  unfold getAccount. intro H. apply find_some in H. destruct H as [Hin Heq].
  apply String.eqb_eq in Heq. split; assumption.
Qed.

Lemma getAccount_updateWhere (pk a : PublicKey) (f : TrackedAccount -> TrackedAccount) (db : Db) :
  (forall r, pubkey (f r) = pubkey r) ->
  getAccount (updateWhere pk f db) a =
  option_map (fun row => if (a =? pk)%string then f row else row) (getAccount db a).
Proof.
  intro Hf. unfold getAccount, updateWhere, setAccounts. simpl.
  rewrite find_map_preserving.
  - destruct (find _ (tracked_accounts db)) as [row|] eqn:E; simpl; [|reflexivity].
    apply find_some in E. destruct E as [_ E]. apply String.eqb_eq in E. rewrite E.
    reflexivity.
  - intro x. destruct (pubkey x =? pk)%string; [rewrite Hf|]; reflexivity.
Qed.

Lemma getAccount_updateAccountStatus (pk a : PublicKey) st c now (db : Db) :
  getAccount (updateAccountStatus pk st c now db) a =
  option_map (fun row => if (a =? pk)%string then setStatus st c now row else row)
             (getAccount db a).
Proof. apply getAccount_updateWhere. reflexivity. Qed.

Lemma getAccount_updateAccountRent (pk a : PublicKey) rent now (db : Db) :
  getAccount (updateAccountRent pk rent now db) a =
  option_map (fun row => if (a =? pk)%string then setRent rent now row else row)
             (getAccount db a).
Proof. apply getAccount_updateWhere. reflexivity. Qed.

Lemma addresses_updateWhere (pk : PublicKey) (f : TrackedAccount -> TrackedAccount) (db : Db) :
  (forall r, pubkey (f r) = pubkey r) ->
  map (fun r : TrackedAccount => pubkey r) (tracked_accounts (updateWhere pk f db)) =
  map (fun r : TrackedAccount => pubkey r) (tracked_accounts db).
Proof.
  intro Hf. unfold updateWhere, setAccounts. simpl. rewrite map_map.
  apply map_ext. intro r. destruct (pubkey r =? pk)%string; [apply Hf | reflexivity].
Qed.

Lemma getAccount_recordReclaimTransaction (tx : ReclaimFields) (db : Db) (a : PublicKey) :
  getAccount (snd (recordReclaimTransaction tx db)) a = getAccount db a.
Proof. reflexivity. Qed.

Lemma getAccount_none_existsb (db : Db) (pk : PublicKey) :
  getAccount db pk = None ->
  existsb (fun a : TrackedAccount => (pubkey a =? pk)%string) (tracked_accounts db) = false.
Proof.
  unfold getAccount. induction (tracked_accounts db) as [|x l IH]; simpl; [reflexivity|].
  destruct (pubkey x =? pk)%string; [discriminate | exact IH].
Qed.

Lemma getAccount_none_notin (db : Db) (pk : PublicKey) :
  getAccount db pk = None ->
  ~ In pk (map (fun r : TrackedAccount => pubkey r) (tracked_accounts db)).
Proof.
  unfold getAccount. intros H Hin. apply in_map_iff in Hin. destruct Hin as [r [Hr Hin]].
  apply (find_none _ _ H) in Hin. simpl in Hin. rewrite Hr, String.eqb_refl in Hin.
  discriminate.
Qed.

Lemma find_app {A : Type} (p : A -> bool) (l1 l2 : list A) :
  find p (l1 ++ l2) = match find p l1 with Some x => Some x | None => find p l2 end.
Proof.
  induction l1 as [|x l1 IH]; simpl; [reflexivity|]. destruct (p x); [reflexivity | exact IH].
Qed.

(** Inserting an address that is not tracked: the other addresses keep their
    rows and the new address gets the inserted row. *)
Lemma upsertAccount_fresh (acc : AccountFields) (db : Db) :
  getAccount db (pubkey acc) = None ->
  let row := upsertInsert acc (tracked_accounts db) in
  upsertAccount acc db = (Some row, setAccounts db (tracked_accounts db ++ [row])).
Proof.
  intros Hnone row. unfold upsertAccount.
  rewrite (getAccount_none_existsb _ _ Hnone).
  f_equal. unfold getAccount in *. simpl. rewrite find_app, Hnone. simpl.
  rewrite String.eqb_refl. reflexivity.
Qed.

Lemma getAccount_insert (db : Db) (row : TrackedAccount) (a : PublicKey) :
  getAccount (setAccounts db (tracked_accounts db ++ [row])) a =
  match getAccount db a with
  | Some r => Some r
  | None => if (pubkey row =? a)%string then Some row else None
  end.
Proof. unfold getAccount. simpl. rewrite find_app. reflexivity. Qed.

Lemma unique_getAccount (db : Db) (row : TrackedAccount) :
  uniqueAddresses db -> In row (tracked_accounts db) -> getAccount db (pubkey row) = Some row.
Proof.
  unfold uniqueAddresses, getAccount.
  induction (tracked_accounts db) as [|x l IH]; simpl; intros Hnd Hin; [contradiction|].
  inversion Hnd as [|? ? Hnotin Hnd']; subst.
  destruct Hin as [->|Hin].
  - rewrite String.eqb_refl. reflexivity.
  - destruct (pubkey x =? pubkey row)%string eqn:E.
    + apply String.eqb_eq in E. exfalso. apply Hnotin. rewrite E.
      apply in_map_iff. exists row. split; [reflexivity | assumption].
    + apply IH; assumption.
Qed.

End StoreFacts.

(** ** The reclaim executor *)

Ltac split_match :=
  match goal with
  | |- context [match ?x with _ => _ end] =>
      match type of x with
      | sumbool _ _ => destruct x
      | _ => destruct x eqn:?
      end
  end.

Ltac split_match_in H :=
  match type of H with
  | context [match ?x with _ => _ end] => destruct x eqn:?
  end.

Lemma getEligibleAccounts_closed (db : Db) (d m : Z) (now : Date) (row : TrackedAccount) :
  In row (getEligibleAccounts db d m now) -> status row = CLOSED.
Proof.
  unfold getEligibleAccounts. intro H. apply filter_In in H. destruct H as [_ H].
  repeat (apply andb_true_iff in H; destruct H as [H ?]).
  apply status_eqb_eq. exact H.
Qed.

Lemma close_refuses_absent (conn : Connection) (pk dest auth : PublicKey) (dry : bool) :
  rpcGetAccountInfo conn pk = Resolved None ->
  closeAccountAndReclaimRent conn pk dest auth dry =
  (Resolved {| c_signature := EmptyString; c_success := false; c_lamportsReclaimed := 0;
               c_error := Some "Account does not exist or already closed" |}, []).
Proof.
  intro H. unfold closeAccountAndReclaimRent, getAccountInfo. rewrite H. reflexivity.
Qed.

(** What [checkEligibility] does to the store: nothing, or the correction of
    the status to Closed for a tracked account that is neither Reclaimed nor
    Closed and that the ledger no longer has. *)
Lemma checkEligibility_store (config : BotConfig) (conn : Connection) (now : Date)
      (pk : PublicKey) (db : Db) (out : Outcome EligibilityCheck) (db' : Db) :
  checkEligibility config conn now pk db = (out, db') ->
  db' = db
  \/ (exists row,
         getAccount db pk = Some row /\ status row <> RECLAIMED /\ status row <> CLOSED
         /\ rpcGetAccountInfo conn pk = Resolved None
         /\ db' = updateAccountStatus pk CLOSED (Some now) now db).
Proof.
  unfold checkEligibility, getAccountInfo. cbv zeta.
  destruct (getAccount db pk) as [tracked|] eqn:Hget;
    [|intro H; inversion H; left; reflexivity].
  destruct (status_eqb (status tracked) RECLAIMED) eqn:Hr;
    [intro H; inversion H; left; reflexivity|].
  destruct (isWhitelisted db pk); [intro H; inversion H; left; reflexivity|].
  destruct (isBlacklisted db pk); [intro H; inversion H; left; reflexivity|].
  destruct (rpcGetAccountInfo conn pk) as [[info|]|e] eqn:Hread; simpl.
  - destruct ((0 <? ai_lamports info) && (minReclaimLamports config <=? ai_lamports info));
      intro H; inversion H; left; reflexivity.
  - destruct (status_eqb (status tracked) CLOSED) eqn:Hc; simpl.
    + destruct (rentLamports tracked =? 0); intro H; inversion H; left; reflexivity.
    + apply status_eqb_neq in Hr. apply status_eqb_neq in Hc.
      destruct (rentLamports tracked =? 0); intro H; inversion H;
        right; exists tracked; repeat split; auto.
  - intro H; inversion H; left; reflexivity.
Qed.

(** A rejected eligibility check left the store alone, and an account found
    eligible is tracked and not Reclaimed. *)
Lemma checkEligibility_outcome (config : BotConfig) (conn : Connection) (now : Date)
      (pk : PublicKey) (db : Db) (out : Outcome EligibilityCheck) (db' : Db) :
  checkEligibility config conn now pk db = (out, db') ->
  match out with
  | Rejected e => db' = db /\ rpcGetAccountInfo conn pk = Rejected e
  | Resolved el =>
      eligible el = true ->
      exists row, getAccount db pk = Some row /\ status row <> RECLAIMED
                  /\ isWhitelisted db pk = false /\ isBlacklisted db pk = false
                  /\ exists info, rpcGetAccountInfo conn pk = Resolved info
  end.
Proof.
  unfold checkEligibility, getAccountInfo. cbv zeta.
  destruct (getAccount db pk) as [tracked|] eqn:Hget;
    [|intro H; inversion H; subst; simpl; discriminate].
  destruct (status_eqb (status tracked) RECLAIMED) eqn:Hr;
    [intro H; inversion H; subst; simpl; discriminate|].
  destruct (isWhitelisted db pk); [intro H; inversion H; subst; simpl; discriminate|].
  destruct (isBlacklisted db pk); [intro H; inversion H; subst; simpl; discriminate|].
  apply status_eqb_neq in Hr.
  destruct (rpcGetAccountInfo conn pk) as [info|e] eqn:Hread.
  - repeat split_match; intro H; inversion H; subst; simpl; intro He; try discriminate;
      exists tracked; repeat split; auto; eexists; reflexivity.
  - intro H; inversion H; subst. split; reflexivity.
Qed.

(** A successful answer of the submission layer: the account was found; in
    dry-run mode the answer is the simulated one and nothing is sent, in live
    mode the account is owned by the system program and exactly one transfer
    of its full balance to the destination was confirmed. *)
Lemma close_success (conn : Connection) (pk dest auth : PublicKey) (dry : bool)
      (cr : CloseResult) (sent : list Transaction) :
  closeAccountAndReclaimRent conn pk dest auth dry = (Resolved cr, sent) ->
  c_success cr = true ->
  exists info,
    rpcGetAccountInfo conn pk = Resolved (Some info)
    /\ c_lamportsReclaimed cr = ai_lamports info
    /\ if dry then c_signature cr = "dry-run-signature" /\ sent = []
       else ai_owner info = SYSTEM_PROGRAM_ID
            /\ sent = [{| instructions := [SystemTransfer pk dest (ai_lamports info)];
                          signers := [auth] |}]
            /\ rpcSendAndConfirm conn
                 {| instructions := [SystemTransfer pk dest (ai_lamports info)];
                    signers := [auth] |} = Resolved (c_signature cr).
Proof.
  unfold closeAccountAndReclaimRent, getAccountInfo.
  destruct (rpcGetAccountInfo conn pk) as [[info|]|e]; simpl.
  - destruct dry.
    + intro H; inversion H; subst; simpl. intros _. exists info. auto.
    + destruct (ai_owner info =? SYSTEM_PROGRAM_ID)%string eqn:Ho.
      * apply String.eqb_eq in Ho.
        destruct (rpcSendAndConfirm conn _) as [sig|e] eqn:Hs;
          intro H; inversion H; subst; simpl; intro Hc; try discriminate.
        exists info. auto.
      * intro H; inversion H; subst; simpl; discriminate.
  - intro H; inversion H; subst; simpl; discriminate.
  - intro H; discriminate.
Qed.

(** Whatever the submission layer answers, it sent something only for an
    account it found, in live mode. *)
Lemma close_sent (conn : Connection) (pk dest auth : PublicKey) (dry : bool)
      (out : Outcome CloseResult) (sent : list Transaction) :
  closeAccountAndReclaimRent conn pk dest auth dry = (out, sent) ->
  sent = [] \/ (dry = false /\ exists info, rpcGetAccountInfo conn pk = Resolved (Some info)
                                           /\ ai_owner info = SYSTEM_PROGRAM_ID).
Proof.
  unfold closeAccountAndReclaimRent, getAccountInfo.
  destruct (rpcGetAccountInfo conn pk) as [[info|]|e]; simpl;
    try (intro H; inversion H; left; reflexivity).
  destruct dry; [intro H; inversion H; left; reflexivity|].
  destruct (ai_owner info =? SYSTEM_PROGRAM_ID)%string eqn:Ho;
    [|intro H; inversion H; left; reflexivity].
  apply String.eqb_eq in Ho.
  destruct (rpcSendAndConfirm conn _); intro H; inversion H; right;
    (split; [reflexivity | exists info; auto]).
Qed.

Opaque recordReclaimTransaction updateAccountRent updateAccountStatus.

(** The four ways one run of the single-account protocol can end: it stops
    before the submission layer, the submission layer refuses or fails, the
    dry run is simulated, or the live reclaim is confirmed. *)
Lemma reclaim_cases (config : BotConfig) (env : ReclaimEnv) (pk : PublicKey)
      (forceDryRun : option bool) (db : Db)
      (out : Outcome ReclaimResult) (sent : list Transaction) (db' : Db) :
  reclaimSingleAccount config env pk forceDryRun db = (out, sent, db') ->
  let dry := match forceDryRun with Some b => b | None => dryRun config end in
  exists oel dbE,
    checkEligibility config (atEligibility env) (clock env) pk db = (oel, dbE)
    /\ ((db' = dbE /\ sent = []
         /\ (forall r, out = Resolved r ->
                       r_success r = false /\ r_accountPubkey r = pk /\ r_dryRun r = dry)
         /\ (forall e, out = Rejected e ->
                       rpcGetAccountInfo (atEligibility env) pk = Rejected e
                       \/ getTreasuryPubkey config = Rejected e))
        \/ (exists tx r el,
               db' = snd (recordReclaimTransaction tx dbE)
               /\ success tx = false /\ accountPubkey tx = pk
               /\ out = Resolved r
               /\ r_success r = false /\ r_accountPubkey r = pk /\ r_dryRun r = dry
               /\ oel = Resolved el /\ eligible el = true
               /\ (sent = []
                   \/ (dry = false
                       /\ exists info,
                          rpcGetAccountInfo (atClose env) pk = Resolved (Some info)
                          /\ ai_owner info = SYSTEM_PROGRAM_ID)))
        \/ (exists tx r el info,
               dry = true /\ sent = []
               /\ db' = snd (recordReclaimTransaction tx dbE)
               /\ success tx = true /\ accountPubkey tx = pk
               /\ txSignature tx = "dry-run-signature"
               /\ out = Resolved r
               /\ r_success r = true /\ r_accountPubkey r = pk /\ r_dryRun r = true
               /\ r_txSignature r = Some "dry-run-signature"
               /\ oel = Resolved el /\ eligible el = true
               /\ rpcGetAccountInfo (atClose env) pk = Resolved (Some info))
        \/ (exists tx r el info,
               dry = false
               /\ db' = updateAccountRent pk 0 (clock env)
                          (updateAccountStatus pk RECLAIMED None (clock env)
                             (snd (recordReclaimTransaction tx dbE)))
               /\ success tx = true /\ accountPubkey tx = pk
               /\ out = Resolved r /\ liveSuccessFor pk r
               /\ oel = Resolved el /\ eligible el = true
               /\ rpcGetAccountInfo (atClose env) pk = Resolved (Some info)
               /\ ai_owner info = SYSTEM_PROGRAM_ID
               /\ exists dest auth,
                   sent = [{| instructions := [SystemTransfer pk dest (ai_lamports info)];
                              signers := [auth] |}])).
Proof.
  intros H dry.
  exists (fst (checkEligibility config (atEligibility env) (clock env) pk db)),
         (snd (checkEligibility config (atEligibility env) (clock env) pk db)).
  split; [destruct (checkEligibility config (atEligibility env) (clock env) pk db);
          reflexivity|].
  revert H. unfold reclaimSingleAccount. cbv zeta. fold dry.
  clearbody dry.
  destruct (checkEligibility config (atEligibility env) (clock env) pk db)
    as [[el|e] dbE] eqn:Hel; cbn [fst snd].
  2: { intro H; injection H as <- <- <-. left.
       destruct (checkEligibility_outcome _ _ _ _ _ _ _ Hel) as [_ Hrej].
       repeat split; auto; try discriminate.
       intros e' He'. injection He' as <-. left. exact Hrej. }
  assert (Habort : forall why,
             (Resolved (failure pk why dry), @nil Transaction, dbE) = (out, sent, db') ->
             db' = dbE /\ sent = []
             /\ (forall r, out = Resolved r ->
                           r_success r = false /\ r_accountPubkey r = pk /\ r_dryRun r = dry)
             /\ (forall e, out = Rejected e ->
                           rpcGetAccountInfo (atEligibility env) pk = Rejected e
                           \/ getTreasuryPubkey config = Rejected e)).
  { intros why H; injection H as <- <- <-. repeat split; auto; try discriminate;
      match goal with Hr : Resolved _ = Resolved _ |- _ => injection Hr as <-; reflexivity end. }
  destruct (eligible el) eqn:Helig; cbn [negb]; [|intro H; left; eapply Habort; exact H].
  destruct (getTreasuryPubkey config) as [treasury|e] eqn:Htreasury.
  2: { intro H; injection H as <- <- <-. left. repeat split; auto; try discriminate.
       intros e' He'. injection He' as <-. right. reflexivity. }
  destruct (getAccountInfo (atBalance env) pk) as [info2|e];
    [|intro H; left; eapply Habort; exact H].
  split_match; [intro H; left; eapply Habort; exact H|].
  destruct (loadOperatorKeypair config) as [kp|e]; [|intro H; left; eapply Habort; exact H].
  destruct (closeAccountAndReclaimRent (atClose env) pk treasury kp dry)
    as [[cr|e] sent0] eqn:Hclose.
  - clear Habort. destruct (c_success cr) eqn:Hok.
    + destruct (close_success _ _ _ _ _ _ _ Hclose Hok) as [info [Hread [Hamt Hmode]]].
      destruct dry.
      * destruct Hmode as [Hsig ->]. intro H; injection H as <- <- <-.
        right; right; left.
        eexists; eexists; exists el, info.
        split; [reflexivity|]. split; [reflexivity|]. split; [reflexivity|].
        cbn. rewrite Hsig. repeat split; auto.
      * destruct Hmode as [Howner [-> Hsend]]. intro H; injection H as <- <- <-.
        right; right; right.
        eexists; eexists; exists el, info.
        split; [reflexivity|]. split; [reflexivity|].
        cbn. repeat split; auto. eexists; eexists; reflexivity.
    + intro H; injection H as <- <- <-. right; left. eexists; eexists; exists el.
      split; [reflexivity|]. cbn. repeat split; auto.
      destruct (close_sent _ _ _ _ _ _ _ Hclose) as [->|Hlive];
        [left; reflexivity | right; exact Hlive].
  - intro H. left.
    assert (sent0 = []) as ->.
    { revert Hclose. unfold closeAccountAndReclaimRent.
      destruct (getAccountInfo (atClose env) pk); [|intro Hc; inversion Hc; reflexivity].
      repeat split_match; intro Hc; inversion Hc. }
    eapply Habort; exact H.
Qed.

Transparent recordReclaimTransaction updateAccountRent updateAccountStatus.

Lemma log_recordReclaimTransaction (tx : ReclaimFields) (db : Db) :
  exists row : ReclaimTransaction,
    reclaim_transactions (snd (recordReclaimTransaction tx db)) = reclaim_transactions db ++ [row]
    /\ accountPubkey row = accountPubkey tx /\ success row = success tx
    /\ txSignature row = txSignature tx.
Proof. eexists. simpl. repeat split; reflexivity. Qed.

(** What [checkEligibility] leaves in place. *)
Lemma checkEligibility_frame (config : BotConfig) (conn : Connection) (now : Date)
      (pk : PublicKey) (db : Db) (out : Outcome EligibilityCheck) (db' : Db) :
  checkEligibility config conn now pk db = (out, db') ->
  (forall a, a <> pk -> getAccount db' a = getAccount db a)
  /\ (getAccount db' pk = getAccount db pk
      \/ exists row, getAccount db pk = Some row /\ status row <> RECLAIMED
                     /\ status row <> CLOSED
                     /\ getAccount db' pk = Some (setStatus CLOSED (Some now) now row))
  /\ reclaim_transactions db' = reclaim_transactions db
  /\ whitelist db' = whitelist db /\ blacklist db' = blacklist db
  /\ map (fun r : TrackedAccount => pubkey r) (tracked_accounts db')
     = map (fun r : TrackedAccount => pubkey r) (tracked_accounts db).
Proof.
  intro H. destruct (checkEligibility_store _ _ _ _ _ _ _ H)
    as [->|[row [Hget [Hr [Hc [_ ->]]]]]].
  - repeat split; auto.
  - split; [|split; [|split; [|split; [|split]]]]; try reflexivity.
    + intros a Ha. rewrite getAccount_updateAccountStatus.
      apply String.eqb_neq in Ha. rewrite Ha.
      destruct (getAccount db a); reflexivity.
    + right. exists row. repeat split; auto.
      rewrite getAccount_updateAccountStatus, Hget. simpl. rewrite String.eqb_refl.
      reflexivity.
    + apply addresses_updateWhere. reflexivity.
Qed.

Lemma statusOf_some (db : Db) (a : PublicKey) (st : AccountStatus) :
  statusOf db a = Some st <-> exists row, getAccount db a = Some row /\ status row = st.
Proof.
  unfold statusOf. destruct (getAccount db a) as [row|]; simpl; split.
  - intro H; injection H as <-. exists row. auto.
  - intros [row' [H <-]]. injection H as <-. reflexivity.
  - discriminate.
  - intros [row' [H _]]. discriminate.
Qed.

(** The store after one run of the single-account protocol, seen from the
    status of every address. *)
Lemma reclaim_frame (config : BotConfig) (env : ReclaimEnv) (pk : PublicKey)
      (forceDryRun : option bool) (db : Db)
      (out : Outcome ReclaimResult) (sent : list Transaction) (db' : Db) :
  reclaimSingleAccount config env pk forceDryRun db = (out, sent, db') ->
  (forall a, a <> pk -> getAccount db' a = getAccount db a)
  /\ logGrows db db'
  /\ map (fun r : TrackedAccount => pubkey r) (tracked_accounts db')
     = map (fun r : TrackedAccount => pubkey r) (tracked_accounts db)
  /\ (statusOf db pk = Some RECLAIMED -> getAccount db' pk = getAccount db pk)
  /\ (statusOf db' pk = Some RECLAIMED -> statusOf db pk <> Some RECLAIMED ->
      (exists r, out = Resolved r /\ liveSuccessFor pk r)
      /\ rentOf db' pk = Some 0 /\ hasSuccessfulReclaim db' pk)
  /\ (forall r, out = Resolved r -> r_accountPubkey r = pk).
Proof.
  intro H. destruct (reclaim_cases _ _ _ _ _ _ _ _ H) as [oel [dbE [Hel Hcases]]].
  destruct (checkEligibility_frame _ _ _ _ _ _ _ Hel)
    as [Hother [Hpk [Hlog [_ [_ Haddr]]]]].
  assert (HkeepE : statusOf db pk = Some RECLAIMED -> getAccount dbE pk = getAccount db pk).
  { intro Hst. destruct Hpk as [Hpk|[row [Hget [Hr _]]]]; [exact Hpk|].
    exfalso. unfold statusOf in Hst. rewrite Hget in Hst. simpl in Hst. congruence. }
  assert (HnewE : statusOf dbE pk = Some RECLAIMED -> statusOf db pk = Some RECLAIMED).
  { unfold statusOf. destruct Hpk as [->|[row [Hget [Hr [Hc ->]]]]]; [auto|].
    simpl. discriminate. }
  destruct Hcases as [[-> [-> [Hres _]]]
                     |[[tx [r [el [-> [Hs [Hp [-> [Hrs [Hrp [_ _]]]]]]]]]]
                      |[[tx [r [el [info [_ [_ [-> [Hs [Hp [_ [-> [_ [Hrp _]]]]]]]]]]]]]
                       |[tx [r [el [info [Hdry [-> [Hs [Hp [-> [Hlive [-> [Helig _]]]]]]]]]]]]]]].
  - split; [exact Hother|]. split; [exists []; rewrite app_nil_r; exact Hlog|].
    split; [exact Haddr|]. split; [exact HkeepE|]. split.
    + intros Hst Hnot. exfalso. auto.
    + intros r Hr. apply Hres. exact Hr.
  - destruct (log_recordReclaimTransaction tx dbE) as [row [Hrow _]].
    split; [exact Hother|]. split; [exists [row]; rewrite Hrow, Hlog; reflexivity|].
    split; [exact Haddr|]. split; [exact HkeepE|]. split.
    + intros Hst Hnot. exfalso. auto.
    + intros r' Hr'. injection Hr' as <-. exact Hrp.
  - destruct (log_recordReclaimTransaction tx dbE) as [row [Hrow _]].
    split; [exact Hother|]. split; [exists [row]; rewrite Hrow, Hlog; reflexivity|].
    split; [exact Haddr|]. split; [exact HkeepE|]. split.
    + intros Hst Hnot. exfalso. auto.
    + intros r' Hr'. injection Hr' as <-. exact Hrp.
  - destruct (log_recordReclaimTransaction tx dbE) as [row [Hrow [Hrowpk [Hrowok _]]]].
    pose proof (checkEligibility_outcome _ _ _ _ _ _ _ Hel Helig)
      as [tracked [Hget [Hnr _]]].
    assert (HgetE : exists rowE, getAccount dbE pk = Some rowE).
    { destruct Hpk as [->|[row' [_ [_ [_ ->]]]]]; eexists; eauto. }
    destruct HgetE as [rowE HgetE].
    split; [|split; [|split; [|split; [|split]]]].
    + intros a Ha.
      rewrite getAccount_updateAccountRent, getAccount_updateAccountStatus,
        getAccount_recordReclaimTransaction, (Hother a Ha).
      apply String.eqb_neq in Ha. rewrite Ha.
      destruct (getAccount db a); reflexivity.
    + exists [row].
      change (reclaim_transactions (snd (recordReclaimTransaction tx dbE))
              = reclaim_transactions db ++ [row]).
      rewrite Hrow, Hlog. reflexivity.
    + unfold updateAccountRent, updateAccountStatus.
      rewrite !addresses_updateWhere by reflexivity. exact Haddr.
    + intro Hst. exfalso. unfold statusOf in Hst. rewrite Hget in Hst. simpl in Hst.
      congruence.
    + intros _ _. split; [exists r; split; [reflexivity | exact Hlive]|]. split.
      * unfold rentOf.
        rewrite getAccount_updateAccountRent, getAccount_updateAccountStatus,
          getAccount_recordReclaimTransaction, HgetE.
        simpl. rewrite String.eqb_refl. reflexivity.
      * exists row. split; [|split; [rewrite Hrowpk; exact Hp | rewrite Hrowok; exact Hs]].
        change (In row (reclaim_transactions (snd (recordReclaimTransaction tx dbE)))).
        rewrite Hrow. apply in_or_app. right. left. reflexivity.
    + intros r' Hr'. injection Hr' as <-. apply Hlive.
Qed.

(** ** The monitor *)

Section MonitorFacts.

Variable belowTenth : Z -> Z -> bool.

Lemma detectStatusChange_new (tracked : TrackedAccount) (onChain : SolanaAccountInfo)
      (change : StatusChange) :
  detectStatusChange belowTenth tracked onChain = Some change ->
  sc_pubkey change = pubkey tracked
  /\ previousStatus change = status tracked
  /\ previousRent change = rentLamports tracked
  /\ status tracked <> RECLAIMED /\ status tracked <> WHITELISTED
  /\ (newStatus change = CLOSED \/ newStatus change = ACTIVE \/ newStatus change = INACTIVE).
Proof.
  unfold detectStatusChange.
  destruct (status_eqb (status tracked) RECLAIMED) eqn:Hr; simpl; [discriminate|].
  destruct (status_eqb (status tracked) WHITELISTED) eqn:Hw; simpl; [discriminate|].
  apply status_eqb_neq in Hr. apply status_eqb_neq in Hw.
  repeat split_match; intro H; inversion H; subst; simpl; repeat split; auto.
Qed.

(** Closure is detected for every tracked account that is neither Reclaimed,
    Whitelisted nor Closed and that the ledger no longer has. *)
Lemma detectStatusChange_closed (tracked : TrackedAccount) (onChain : SolanaAccountInfo) :
  exists_ onChain = false ->
  status tracked <> RECLAIMED -> status tracked <> WHITELISTED -> status tracked <> CLOSED ->
  detectStatusChange belowTenth tracked onChain =
  Some {| sc_pubkey := pubkey tracked;
          previousStatus := status tracked;
          newStatus := CLOSED;
          previousRent := rentLamports tracked;
          newRent := 0;
          reason := "Account no longer exists on-chain" |}.
Proof.
  intros He Hr Hw Hc. unfold detectStatusChange.
  apply status_eqb_neq in Hr. apply status_eqb_neq in Hw. apply status_eqb_neq in Hc.
  rewrite Hr, Hw, Hc, He. reflexivity.
Qed.

Lemma rowAfterCheck_status (accountInfos : AccountMap) (now : Date) (tracked : TrackedAccount) :
  pubkey (rowAfterCheck belowTenth accountInfos now tracked) = pubkey tracked
  /\ (status tracked <> RECLAIMED ->
      status (rowAfterCheck belowTenth accountInfos now tracked) <> RECLAIMED).
Proof.
  unfold rowAfterCheck.
  destruct (mapGet accountInfos (pubkey tracked)) as [info|]; [|auto].
  destruct (detectStatusChange belowTenth tracked info) as [change|] eqn:Hd.
  - destruct (detectStatusChange_new _ _ _ Hd) as [_ [_ [_ [_ [_ Hnew]]]]].
    cbv zeta. destruct (newRent change =? previousRent change); simpl; split; auto;
      intros _; destruct Hnew as [->|[->| ->]]; discriminate.
  - destruct (lamports info =? rentLamports tracked); simpl; auto.
Qed.

(** One turn of the loop touches the row of the account it checks, and only
    that row. *)
Lemma checkOne_spec (accountInfos : AccountMap) (now : Date)
      (result : MonitorResult) (db : Db) (tracked : TrackedAccount) :
  let (result', db') := checkOne belowTenth accountInfos now (result, db) tracked in
  statusChanges result' = statusChanges result ++ changesFor belowTenth accountInfos tracked
  /\ totalChecked result' = S (totalChecked result)
  /\ (forall a, a <> pubkey tracked -> getAccount db' a = getAccount db a)
  /\ (getAccount db (pubkey tracked) = Some tracked ->
      getAccount db' (pubkey tracked) = Some (rowAfterCheck belowTenth accountInfos now tracked))
  /\ reclaim_transactions db' = reclaim_transactions db
  /\ whitelist db' = whitelist db /\ blacklist db' = blacklist db
  /\ map (fun r : TrackedAccount => pubkey r) (tracked_accounts db')
     = map (fun r : TrackedAccount => pubkey r) (tracked_accounts db).
Proof.
  unfold checkOne, changesFor, rowAfterCheck, applyChange.
  destruct (mapGet accountInfos (pubkey tracked)) as [info|].
  2: { rewrite app_nil_r. repeat split; auto. }
  destruct (detectStatusChange belowTenth tracked info) as [change|] eqn:Hd; cbv zeta.
  - destruct (newRent change =? previousRent change).
    + split; [reflexivity|]. split; [reflexivity|]. split; [|split; [|split; [|split; [|split]]]];
        try reflexivity.
      * intros a Ha. rewrite getAccount_updateAccountStatus.
        apply String.eqb_neq in Ha. rewrite Ha. destruct (getAccount db a); reflexivity.
      * intro Hget. rewrite getAccount_updateAccountStatus, Hget. simpl.
        rewrite String.eqb_refl. reflexivity.
      * apply addresses_updateWhere. reflexivity.
    + split; [reflexivity|]. split; [reflexivity|]. split; [|split; [|split; [|split; [|split]]]];
        try reflexivity.
      * intros a Ha. rewrite getAccount_updateAccountRent, getAccount_updateAccountStatus.
        apply String.eqb_neq in Ha. rewrite Ha. destruct (getAccount db a); reflexivity.
      * intro Hget.
        rewrite getAccount_updateAccountRent, getAccount_updateAccountStatus, Hget. simpl.
        rewrite String.eqb_refl. reflexivity.
      * unfold updateAccountRent, updateAccountStatus.
        rewrite !addresses_updateWhere by reflexivity. reflexivity.
  - rewrite app_nil_r. destruct (lamports info =? rentLamports tracked).
    + repeat split; auto.
    + split; [reflexivity|]. split; [reflexivity|]. split; [|split; [|split; [|split; [|split]]]];
        try reflexivity.
      * intros a Ha. rewrite getAccount_updateAccountRent.
        apply String.eqb_neq in Ha. rewrite Ha. destruct (getAccount db a); reflexivity.
      * intro Hget. rewrite getAccount_updateAccountRent, Hget. simpl.
        rewrite String.eqb_refl. reflexivity.
      * apply addresses_updateWhere. reflexivity.
Qed.

End MonitorFacts.

Section MonitorLoop.

Variable belowTenth : Z -> Z -> bool.

Lemma insertNewestFirst_perm (a : TrackedAccount) (l : list TrackedAccount) :
  Permutation (insertNewestFirst a l) (a :: l).
Proof.
  induction l as [|b l IH]; simpl; [apply Permutation_refl|].
  destruct (createdAt b <=? createdAt a); [apply Permutation_refl|].
  eapply Permutation_trans; [apply perm_skip; exact IH | apply perm_swap].
Qed.

Lemma newestFirst_perm (l : list TrackedAccount) : Permutation (newestFirst l) l.
Proof.
  induction l as [|a l IH]; simpl; [apply Permutation_refl|].
  eapply Permutation_trans; [apply insertNewestFirst_perm | apply perm_skip; exact IH].
Qed.

Lemma filter_keeps_unique (keep : TrackedAccount -> bool) (rows : list TrackedAccount) :
  NoDup (map (fun r : TrackedAccount => pubkey r) rows) ->
  NoDup (map (fun r : TrackedAccount => pubkey r) (filter keep rows)).
Proof.
  induction rows as [|row rows IH]; simpl; intro Hnd; [constructor|].
  inversion Hnd as [|? ? Hfresh Hrest]; subst.
  destruct (keep row); simpl; [|apply IH; exact Hrest].
  constructor; [|apply IH; exact Hrest].
  intro Hin. apply Hfresh. apply in_map_iff in Hin. destruct Hin as [other [Hsame Hin]].
  apply filter_In in Hin. apply in_map_iff. exists other. split; [exact Hsame | apply Hin].
Qed.

(** The accounts a filtered listing returns are rows of the table, each
    address once. *)
Lemma getAccounts_rows (db : Db) (f : AccountFilter) :
  uniqueAddresses db ->
  NoDup (map (fun r : TrackedAccount => pubkey r) (getAccounts db f))
  /\ forall t, In t (getAccounts db f) <->
               In t (tracked_accounts db) /\ matchesFilter f t = true.
Proof.
  intro Hu. unfold getAccounts. split.
  - eapply Permutation_NoDup.
    + apply Permutation_map. apply Permutation_sym. apply newestFirst_perm.
    + apply filter_keeps_unique. exact Hu.
  - intro t. rewrite <- filter_In. split; intro H.
    + eapply Permutation_in; [apply newestFirst_perm | exact H].
    + eapply Permutation_in; [apply Permutation_sym; apply newestFirst_perm | exact H].
Qed.

(** The loop of [checkAllAccounts] over accounts with distinct addresses,
    each read from the store the loop starts from. *)
Lemma checkLoop_spec (accountInfos : AccountMap) (now : Date) (l : list TrackedAccount) :
  forall (result : MonitorResult) (db : Db),
    NoDup (map (fun r : TrackedAccount => pubkey r) l) ->
    (forall t, In t l -> getAccount db (pubkey t) = Some t) ->
    let (result', db') := fold_left (checkOne belowTenth accountInfos now) l (result, db) in
    statusChanges result'
    = statusChanges result ++ flat_map (changesFor belowTenth accountInfos) l
    /\ (forall a, ~ In a (map (fun r : TrackedAccount => pubkey r) l) ->
                  getAccount db' a = getAccount db a)
    /\ (forall t, In t l ->
                  getAccount db' (pubkey t)
                  = Some (rowAfterCheck belowTenth accountInfos now t))
    /\ reclaim_transactions db' = reclaim_transactions db
    /\ whitelist db' = whitelist db /\ blacklist db' = blacklist db
    /\ map (fun r : TrackedAccount => pubkey r) (tracked_accounts db')
       = map (fun r : TrackedAccount => pubkey r) (tracked_accounts db).
Proof.
  induction l as [|t l IH]; intros result db Hnd Hrows.
  - simpl. rewrite app_nil_r. repeat split; auto. intros t [].
  - cbn [fold_left].
    pose proof (checkOne_spec belowTenth accountInfos now result db t) as Hone.
    destruct (checkOne belowTenth accountInfos now (result, db) t) as [r1 db1].
    destruct Hone as [Hch [_ [Hother [Hsame [Hlog [Hwl [Hbl Haddr]]]]]]].
    inversion Hnd as [|? ? Hnotin Hnd']; subst.
    assert (Hrows1 : forall t', In t' l -> getAccount db1 (pubkey t') = Some t').
    { intros t' Hin. rewrite Hother; [apply Hrows; right; exact Hin|].
      intro Heq. apply Hnotin. rewrite <- Heq. apply in_map_iff.
      exists t'. split; [reflexivity | exact Hin]. }
    specialize (IH r1 db1 Hnd' Hrows1).
    destruct (fold_left (checkOne belowTenth accountInfos now) l (r1, db1)) as [r2 db2].
    destruct IH as [Hch2 [Hother2 [Hsame2 [Hlog2 [Hwl2 [Hbl2 Haddr2]]]]]].
    cbv beta iota.
    split; [|split; [|split; [|split; [|split; [|split]]]]]; try congruence.
    + rewrite Hch2, Hch. simpl. rewrite <- app_assoc. reflexivity.
    + intros a Hnot. rewrite Hother2.
      * apply Hother. intro Heq. apply Hnot. left. symmetry. exact Heq.
      * intro Hin. apply Hnot. right. exact Hin.
    + intros t' [<-|Hin].
      * rewrite Hother2; [|exact Hnotin]. apply Hsame. apply Hrows. left. reflexivity.
      * apply Hsame2. exact Hin.
Qed.

End MonitorLoop.

Section MonitorRun.

Variable belowTenth : Z -> Z -> bool.

Lemma changesFor_pubkey (accountInfos : AccountMap) (t : TrackedAccount) (c : StatusChange) :
  In c (changesFor belowTenth accountInfos t) -> sc_pubkey c = pubkey t.
Proof.
  unfold changesFor. destruct (mapGet accountInfos (pubkey t)) as [info|]; [|intros []].
  destruct (detectStatusChange belowTenth t info) as [change|] eqn:Hd; [|intros []].
  intros [<-|[]]. apply (detectStatusChange_new _ _ _ _ Hd).
Qed.

Lemma filter_none {A : Type} (p : A -> bool) (l : list A) :
  (forall x, In x l -> p x = false) -> filter p l = [].
Proof.
  induction l as [|x l IH]; simpl; intro H; [reflexivity|].
  rewrite (H x) by (left; reflexivity). apply IH. intros y Hy. apply H. right. exact Hy.
Qed.

Lemma filter_all {A : Type} (p : A -> bool) (l : list A) :
  (forall x, In x l -> p x = true) -> filter p l = l.
Proof.
  induction l as [|x l IH]; simpl; intro H; [reflexivity|].
  rewrite (H x) by (left; reflexivity). f_equal. apply IH. intros y Hy. apply H. right. exact Hy.
Qed.

(** Among the changes a run records, those of one checked account are the
    changes of its own turn. *)
Lemma changes_of_account (accountInfos : AccountMap) (l : list TrackedAccount)
      (t : TrackedAccount) :
  NoDup (map (fun r : TrackedAccount => pubkey r) l) -> In t l ->
  filter (fun c => (sc_pubkey c =? pubkey t)%string)
         (flat_map (changesFor belowTenth accountInfos) l)
  = changesFor belowTenth accountInfos t.
Proof.
  induction l as [|x l IH]; intros Hnd Hin; [contradiction|].
  inversion Hnd as [|? ? Hnotin Hnd']; subst. simpl. rewrite filter_app.
  destruct Hin as [->|Hin].
  - rewrite filter_all.
    + rewrite filter_none; [apply app_nil_r|].
      intros c Hc. apply in_flat_map in Hc. destruct Hc as [y [Hy Hc]].
      apply changesFor_pubkey in Hc. rewrite Hc. apply String.eqb_neq.
      intro Heq. apply Hnotin. rewrite <- Heq. apply in_map_iff. exists y. auto.
    + intros c Hc. apply changesFor_pubkey in Hc. rewrite Hc. apply String.eqb_refl.
  - rewrite filter_none; [apply IH; assumption|].
    intros c Hc. apply changesFor_pubkey in Hc. rewrite Hc. apply String.eqb_neq.
    intro Heq. apply Hnotin. rewrite Heq. apply in_map_iff. exists t. auto.
Qed.

(** A run of [checkAllAccounts] either writes nothing (no account to check,
    or the batch read fails), or does what the loop does on the listed
    accounts. *)
Lemma checkAllAccounts_spec (conn : Connection) (now : Date) (elapsed : Z) (db : Db) :
  uniqueAddresses db ->
  let l := getAccounts db monitoredStatuses in
  let (result, db') := checkAllAccounts belowTenth conn now elapsed db in
  (db' = db /\ statusChanges result = []
   /\ (l = [] \/ exists e, getMultipleAccountsInfo conn
                             (map (fun a : TrackedAccount => pubkey a) l) = Rejected e))
  \/ (exists accountInfos,
         getMultipleAccountsInfo conn (map (fun a : TrackedAccount => pubkey a) l)
         = Resolved accountInfos
         /\ statusChanges result = flat_map (changesFor belowTenth accountInfos) l
         /\ (forall a, ~ In a (map (fun r : TrackedAccount => pubkey r) l) ->
                       getAccount db' a = getAccount db a)
         /\ (forall t, In t l ->
                       getAccount db' (pubkey t)
                       = Some (rowAfterCheck belowTenth accountInfos now t))
         /\ reclaim_transactions db' = reclaim_transactions db
         /\ whitelist db' = whitelist db /\ blacklist db' = blacklist db
         /\ map (fun r : TrackedAccount => pubkey r) (tracked_accounts db')
            = map (fun r : TrackedAccount => pubkey r) (tracked_accounts db)).
Proof.
  intros Hu l. unfold checkAllAccounts. fold l.
  destruct (getAccounts_rows db monitoredStatuses Hu) as [Hnd Hrows]. fold l in Hnd, Hrows.
  destruct l as [|t0 l0] eqn:Hl; [left; auto|]. rewrite <- Hl in *.
  destruct (getMultipleAccountsInfo conn (map (fun a : TrackedAccount => pubkey a) l))
    as [accountInfos|e] eqn:Hread.
  2: { left. repeat split; auto. right. exists e. reflexivity. }
  pose proof (checkLoop_spec belowTenth accountInfos now l
                {| totalChecked := O; statusChanges := []; m_errors := []; duration := 0 |}
                db Hnd) as Hloop.
  destruct (fold_left (checkOne belowTenth accountInfos now) l _) as [result db'].
  right. exists accountInfos. split; [reflexivity|]. apply Hloop.
  intros t Ht. apply unique_getAccount; [exact Hu|]. apply Hrows. exact Ht.
Qed.

End MonitorRun.

Lemma existsb_eqb_in (pk : string) (l : list string) :
  existsb (String.eqb pk) l = true <-> In pk l.
Proof.
  rewrite existsb_exists. split.
  - intros [x [Hin Heq]]. apply String.eqb_eq in Heq. subst. exact Hin.
  - intro Hin. exists pk. split; [exact Hin | apply String.eqb_refl].
Qed.

(** *** The batch read *)

Lemma mapGet_mapSet (m : AccountMap) (k a : string) (v : SolanaAccountInfo) :
  mapGet (mapSet m k v) a = if (k =? a)%string then Some v else mapGet m a.
Proof.
  induction m as [|[k' v'] m IH]; simpl; [reflexivity|].
  destruct (k' =? k)%string eqn:Hk; simpl.
  - apply String.eqb_eq in Hk. subst k'. destruct (k =? a)%string; reflexivity.
  - rewrite IH. destruct (k' =? a)%string eqn:Ha; [|reflexivity].
    apply String.eqb_eq in Ha. subst k'. rewrite String.eqb_sym, Hk. reflexivity.
Qed.

Lemma mapGet_storeBatch (state : PublicKey -> option AccountInfo) (batch : list PublicKey) :
  forall (m : AccountMap) (a : string),
    mapGet (storeBatch m batch (map state batch)) a
    = if existsb (String.eqb a) batch
      then Some (describeAccount a (state a)
                                 match state a with Some _ => true | None => false end)
      else mapGet m a.
Proof.
  induction batch as [|pk batch IH]; intros m a; simpl; [reflexivity|].
  rewrite IH, mapGet_mapSet. rewrite (String.eqb_sym a pk).
  destruct (existsb (String.eqb a) batch); [rewrite orb_true_r; reflexivity|].
  rewrite orb_false_r. destruct (pk =? a)%string eqn:E; [|reflexivity].
  apply String.eqb_eq in E. subst pk. reflexivity.
Qed.

Lemma existsb_firstn_skipn (a : string) (n : nat) (l : list string) :
  existsb (String.eqb a) l
  = existsb (String.eqb a) (firstn n l) || existsb (String.eqb a) (skipn n l).
Proof. rewrite <- existsb_app, firstn_skipn. reflexivity. Qed.

Lemma readBatches_reports (conn : Connection) (state : PublicKey -> option AccountInfo) :
  (forall batch, rpcGetMultipleAccountsInfo conn batch = Resolved (map state batch)) ->
  forall (fuel : nat) (pks : list PublicKey) (m : AccountMap),
    (List.length pks <= fuel)%nat ->
    exists m',
      readBatches fuel conn m pks = Resolved m'
      /\ forall a,
          mapGet m' a
          = if existsb (String.eqb a) pks
            then Some (describeAccount a (state a)
                                       match state a with Some _ => true | None => false end)
            else mapGet m a.
Proof.
  intros Hrpc fuel. induction fuel as [|fuel IH]; intros pks m Hlen.
  - destruct pks; [|simpl in Hlen; lia]. exists m. split; [reflexivity | reflexivity].
  - destruct pks as [|pk pks]; [exists m; split; reflexivity|].
    cbn [readBatches]. rewrite Hrpc.
    destruct (IH (skipn batchSize (pk :: pks))
                 (storeBatch m (firstn batchSize (pk :: pks))
                             (map state (firstn batchSize (pk :: pks)))))
      as [m' [Hrun Hget]].
    { rewrite length_skipn. unfold batchSize. cbn [List.length] in *. lia. }
    exists m'. split; [exact Hrun|]. intro a.
    rewrite Hget, mapGet_storeBatch, (existsb_firstn_skipn a batchSize (pk :: pks)).
    assert (Hbool : forall (x y : bool) (s d : option SolanaAccountInfo),
               (if x then s else if y then s else d) = (if y || x then s else d))
      by (intros [] [] s d; reflexivity).
    apply Hbool.
Qed.

(** When the node answers batch reads from a ledger state, the map the
    monitor works with describes every listed account by that state. *)
Lemma getMultipleAccountsInfo_reports (conn : Connection)
      (state : PublicKey -> option AccountInfo) (pks : list PublicKey) (a : PublicKey) :
  (forall batch, rpcGetMultipleAccountsInfo conn batch = Resolved (map state batch)) ->
  In a pks ->
  exists accountInfos,
    getMultipleAccountsInfo conn pks = Resolved accountInfos
    /\ mapGet accountInfos a
       = Some (describeAccount a (state a)
                               match state a with Some _ => true | None => false end).
Proof.
  intros Hrpc Hin. unfold getMultipleAccountsInfo.
  destruct (readBatches_reports conn state Hrpc (List.length pks) pks [] (Nat.le_refl _))
    as [m' [Hrun Hget]].
  exists m'. split; [exact Hrun|]. rewrite Hget.
  apply existsb_eqb_in in Hin. rewrite Hin. reflexivity.
Qed.

(** A run whose batch read resolves to a map that reports a tracked Active
    account as absent records exactly one change for it, to Closed, and
    leaves it Closed with [closedAt] the time of the run and balance 0. *)
Lemma closure_recorded
        (belowTenth : Z -> Z -> bool) (conn : Connection) (now : Date) (elapsed : Z)
        (db : Db) (a : PublicKey) (tracked : TrackedAccount)
        (accountInfos : AccountMap) (onChain : SolanaAccountInfo) :
  uniqueAddresses db ->
  getAccount db a = Some tracked ->
  status tracked = ACTIVE ->
  getMultipleAccountsInfo conn
    (map (fun r : TrackedAccount => pubkey r) (getAccounts db monitoredStatuses))
  = Resolved accountInfos ->
  mapGet accountInfos a = Some onChain ->
  exists_ onChain = false ->
  let (result, db') := checkAllAccounts belowTenth conn now elapsed db in
  filter (fun c => (sc_pubkey c =? a)%string) (statusChanges result)
  = [{| sc_pubkey := a;
        previousStatus := ACTIVE;
        newStatus := CLOSED;
        previousRent := rentLamports tracked;
        newRent := 0;
        reason := "Account no longer exists on-chain" |}]
  /\ exists row,
      getAccount db' a = Some row
      /\ status row = CLOSED /\ closedAt row = Some now /\ rentLamports row = 0.
Proof.
  intros Hu Hget Hactive Hread Hinfo Habsent.
  destruct (getAccount_found _ _ _ Hget) as [Hpk Hin].
  destruct (getAccounts_rows db monitoredStatuses Hu) as [Hnd Hrows].
  assert (Hlisted : In tracked (getAccounts db monitoredStatuses)).
  { apply Hrows. split; [exact Hin|]. unfold matchesFilter. simpl. rewrite Hactive.
    reflexivity. }
  pose proof (checkAllAccounts_spec belowTenth conn now elapsed db Hu) as Hspec.
  cbv zeta in Hspec.
  destruct (checkAllAccounts belowTenth conn now elapsed db) as [result db'].
  destruct Hspec as [[_ [_ [Hempty|[e He]]]]|[infos [Hread' [Hch [_ [Hsame _]]]]]].
  - rewrite Hempty in Hlisted. contradiction.
  - rewrite Hread in He. discriminate.
  - rewrite Hread in Hread'. injection Hread' as <-.
    assert (Hchange : detectStatusChange belowTenth tracked onChain
                      = Some {| sc_pubkey := a;
                                previousStatus := ACTIVE;
                                newStatus := CLOSED;
                                previousRent := rentLamports tracked;
                                newRent := 0;
                                reason := "Account no longer exists on-chain" |}).
    { rewrite (detectStatusChange_closed belowTenth tracked onChain Habsent);
        rewrite ?Hactive, ?Hpk; try discriminate. reflexivity. }
    split.
    + rewrite Hch, <- Hpk. rewrite (changes_of_account _ _ _ _ Hnd Hlisted).
      unfold changesFor. rewrite Hpk, Hinfo, Hchange. reflexivity.
    + specialize (Hsame tracked Hlisted). rewrite Hpk in Hsame.
      eexists. split; [exact Hsame|].
      unfold rowAfterCheck. rewrite Hpk, Hinfo, Hchange. cbn [newStatus newRent previousRent].
      cbv zeta. destruct (0 =? rentLamports tracked) eqn:Hz.
      * apply Z.eqb_eq in Hz. simpl. repeat split; auto.
      * simpl. repeat split; auto.
Qed.

(** C9, as the code has it.  In a reconciliation run during which the node
    answers the batch reads, from a ledger state that no longer has a tracked
    Active account, exactly one status change is recorded for that account,
    from Active to Closed with new balance 0, and the store then holds the
    account as Closed, with [closedAt] the time of the run and balance 0.
    The proviso is needed: the reads of a run are made in one call, and a run
    in which a batch read fails records no change at all. *)
Theorem closure_detected_once
        (belowTenth : Z -> Z -> bool) (conn : Connection) (now : Date) (elapsed : Z)
        (db : Db) (a : PublicKey) (tracked : TrackedAccount)
        (state : PublicKey -> option AccountInfo) :
  uniqueAddresses db ->
  getAccount db a = Some tracked ->
  status tracked = ACTIVE ->
  (forall batch, rpcGetMultipleAccountsInfo conn batch = Resolved (map state batch)) ->
  state a = None ->
  let (result, db') := checkAllAccounts belowTenth conn now elapsed db in
  filter (fun c => (sc_pubkey c =? a)%string) (statusChanges result)
  = [{| sc_pubkey := a;
        previousStatus := ACTIVE;
        newStatus := CLOSED;
        previousRent := rentLamports tracked;
        newRent := 0;
        reason := "Account no longer exists on-chain" |}]
  /\ exists row,
      getAccount db' a = Some row
      /\ status row = CLOSED /\ closedAt row = Some now /\ rentLamports row = 0.
Proof.
  intros Hu Hget Hactive Hrpc Habsent.
  destruct (getAccount_found _ _ _ Hget) as [Hpk Hin].
  destruct (getAccounts_rows db monitoredStatuses Hu) as [_ Hrows].
  assert (Hlisted : In a (map (fun r : TrackedAccount => pubkey r)
                              (getAccounts db monitoredStatuses))).
  { apply in_map_iff. exists tracked. split; [exact Hpk|]. apply Hrows.
    split; [exact Hin|]. unfold matchesFilter. simpl. rewrite Hactive. reflexivity. }
  destruct (getMultipleAccountsInfo_reports conn state _ a Hrpc Hlisted)
    as [accountInfos [Hread Hinfo]].
  rewrite Habsent in Hinfo.
  apply (closure_recorded belowTenth conn now elapsed db a tracked accountInfos
                          (describeAccount a None false)); auto.
Qed.

Lemma closure_detected_once_witness :
  let (result, db') :=
    checkAllAccounts Scenario.tenth
      (Scenario.ledger (fun _ => None) (Rejected (Other "unused")))
      Scenario.today 25
      (Scenario.storeWith (Scenario.tracked Scenario.alice ACTIVE 2039280 None)) in
  filter (fun c => (sc_pubkey c =? Scenario.alice)%string) (statusChanges result)
  = [{| sc_pubkey := Scenario.alice;
        previousStatus := ACTIVE;
        newStatus := CLOSED;
        previousRent := 2039280;
        newRent := 0;
        reason := "Account no longer exists on-chain" |}]
  /\ exists row,
      getAccount db' Scenario.alice = Some row
      /\ status row = CLOSED /\ closedAt row = Some Scenario.today /\ rentLamports row = 0.
Proof.
  apply (closure_detected_once Scenario.tenth
           (Scenario.ledger (fun _ => None) (Rejected (Other "unused")))
           Scenario.today 25
           (Scenario.storeWith (Scenario.tracked Scenario.alice ACTIVE 2039280 None))
           Scenario.alice (Scenario.tracked Scenario.alice ACTIVE 2039280 None)
           (fun _ => None)).
  - repeat constructor. simpl. intros [].
  - reflexivity.
  - reflexivity.
  - intro batch. reflexivity.
  - reflexivity.
Defined.

(** C9 as stated fails: in a run whose batch read the node refuses, a
    tracked Active account that no longer exists on-chain gets no status
    change; the run reports the failed read and leaves the row Active, with
    its balance and without a closing date. *)
Lemma closure_missed_when_batch_read_fails :
  let conn := Scenario.emptyLedgerBusyNode in
  let db := Scenario.storeWith (Scenario.tracked Scenario.alice ACTIVE 2039280 None) in
  let (result, db') := checkAllAccounts Scenario.tenth conn Scenario.today 25 db in
  statusOf db Scenario.alice = Some ACTIVE
  /\ rpcGetAccountInfo conn Scenario.alice = Resolved None
  /\ statusChanges result = []
  /\ m_errors result = ["Monitor check failed: Error: 429 Too Many Requests"]
  /\ db' = db.
Proof. cbv zeta. vm_compute. repeat split; reflexivity. Qed.

(** ** Claims about the reclaim executor *)

(** C3, as the code has it.  When the account is absent at the moment the
    submission layer reads it, the layer refuses with "Account does not exist
    or already closed" without building a transaction, in dry-run and in live
    mode alike.  The reclaim attempt then hands nothing to the ledger, never
    reports success and never marks the account Reclaimed; it returns a
    failure whenever the eligibility read answers and the treasury key
    resolves.  The eligible-set query selects rows in status Closed only; the
    status recorded in the store does not say that the account is absent. *)
Theorem reclaim_of_absent_account_fails
        (config : BotConfig) (env : ReclaimEnv) (pk : PublicKey)
        (forceDryRun : option bool) (db : Db) :
  rpcGetAccountInfo (atClose env) pk = Resolved None ->
  (forall dest auth dry,
      closeAccountAndReclaimRent (atClose env) pk dest auth dry =
      (Resolved {| c_signature := EmptyString; c_success := false; c_lamportsReclaimed := 0;
                   c_error := Some "Account does not exist or already closed" |}, []))
  /\ (let '(out, sent, db') := reclaimSingleAccount config env pk forceDryRun db in
      sent = []
      /\ (forall r, out = Resolved r -> r_success r = false)
      /\ ((exists i, rpcGetAccountInfo (atEligibility env) pk = Resolved i) ->
          (exists t, getTreasuryPubkey config = Resolved t) ->
          exists r, out = Resolved r /\ r_success r = false)
      /\ (statusOf db' pk = Some RECLAIMED -> statusOf db pk = Some RECLAIMED))
  /\ (forall d m now row, In row (getEligibleAccounts db d m now) -> status row = CLOSED).
Proof.
  intro Habsent. split; [|split].
  - intros. apply close_refuses_absent. exact Habsent.
  - destruct (reclaimSingleAccount config env pk forceDryRun db) as [[out sent] db'] eqn:Hrun.
    destruct (reclaim_frame _ _ _ _ _ _ _ _ Hrun) as [_ [_ [_ [_ [Hnew _]]]]].
    destruct (reclaim_cases _ _ _ _ _ _ _ _ Hrun) as [oel [dbE [Hel Hcases]]].
    assert (Hnever : forall r, out = Resolved r -> r_success r = false ->
                     statusOf db' pk = Some RECLAIMED -> statusOf db pk = Some RECLAIMED).
    { intros r Hr Hfail Hst.
      destruct (statusOf db pk) as [[]|] eqn:Hbefore; try reflexivity;
        (destruct Hnew as [[r' [Hr' [Hok _]]] _]; [exact Hst | discriminate |];
         rewrite Hr in Hr'; injection Hr' as <-; congruence). }
    destruct Hcases as [(_ & -> & Hres & Hrej)
                       |[(tx & r & el & _ & _ & _ & -> & Hrs & _ & _ & _ & _ & Hsent)
                        |[(tx & r & el & info & _ & _ & _ & _ & _ & _ & _ & _ & _ & _ & _
                           & _ & _ & Hread)
                         |(tx & r & el & info & _ & _ & _ & _ & _ & _ & _ & _ & Hread & _)]]].
    + split; [reflexivity|]. split; [intros r Hr; apply (Hres r Hr)|]. split.
      * intros [i Hi] [t Ht]. destruct out as [r|e].
        -- exists r. split; [reflexivity | apply (Hres r eq_refl)].
        -- exfalso. destruct (Hrej e eq_refl) as [Hbad|Hbad]; congruence.
      * intro Hst. destruct out as [r|e].
        -- apply (Hnever r eq_refl); [apply (Hres r eq_refl) | exact Hst].
        -- destruct (statusOf db pk) as [[]|] eqn:Hbefore; try reflexivity;
             (destruct Hnew as [[r' [Hr' _]] _]; [exact Hst | discriminate | discriminate]).
    + split; [destruct Hsent as [->|[_ [info [Hread _]]]]; [reflexivity | congruence]|].
      split; [intros r' Hr'; injection Hr' as <-; exact Hrs|]. split.
      * intros _ _. exists r. auto.
      * apply (Hnever r eq_refl Hrs).
    + congruence.
    + congruence.
  - intros. eapply getEligibleAccounts_closed; eauto.
Qed.

Lemma reclaim_of_absent_account_fails_witness :
  let config := Scenario.config in
  let env := Scenario.steady (Scenario.ledger (fun _ => None) (Resolved "unused")) in
  let db := Scenario.storeWith
              (Scenario.tracked Scenario.alice CLOSED 2039280
                                (Some (Scenario.today - 10 * Scenario.day))) in
  let '(out, sent, db') := reclaimSingleAccount config env Scenario.alice (Some false) db in
  sent = []
  /\ (forall r, out = Resolved r -> r_success r = false)
  /\ ((exists i, rpcGetAccountInfo (atEligibility env) Scenario.alice = Resolved i) ->
      (exists t, getTreasuryPubkey config = Resolved t) ->
      exists r, out = Resolved r /\ r_success r = false)
  /\ (statusOf db' Scenario.alice = Some RECLAIMED -> statusOf db Scenario.alice = Some RECLAIMED).
Proof.
  exact (proj1 (proj2
    (reclaim_of_absent_account_fails Scenario.config
       (Scenario.steady (Scenario.ledger (fun _ => None) (Resolved "unused")))
       Scenario.alice (Some false)
       (Scenario.storeWith
          (Scenario.tracked Scenario.alice CLOSED 2039280
                            (Some (Scenario.today - 10 * Scenario.day))))
       eq_refl))).
Defined.

(** C3 as stated fails: an account in status Closed need not be absent
    from the ledger.  A row stored as Closed whose account exists again,
    owned by the system program and with a balance under the threshold, is
    selected by the eligible-set query, and the live reclaim of it succeeds,
    for the single call and for the batch. *)
Lemma closed_account_reclaimed_live :
  let config := Scenario.withThreshold 2100000 in
  let conn :=
    Scenario.ledger
      (fun _ => Scenario.onChain 2039280 SYSTEM_PROGRAM_ID)
      (Resolved "2nBhEBYYvfaAe16UMNqRHre4YNSskvuYgx3M6E4JP1oDYvZEJHvoPzyUidNgNX5r9sTyN1J9UxtbCXy2rqYcuyuv") in
  let row := Scenario.tracked Scenario.alice CLOSED 2500000
                              (Some (Scenario.today - 10 * Scenario.day)) in
  let db := Scenario.storeWith row in
  getEligibleAccounts db (minDormancyDays config) (minReclaimLamports config) Scenario.today
  = [row]
  /\ status row = CLOSED
  /\ rpcGetAccountInfo conn Scenario.alice = Resolved (Scenario.onChain 2039280 SYSTEM_PROGRAM_ID)
  /\ fst (fst (reclaimSingleAccount config (Scenario.steady conn) Scenario.alice (Some false) db))
     = Resolved
         {| r_success := true; r_accountPubkey := Scenario.alice;
            r_txSignature :=
              Some "2nBhEBYYvfaAe16UMNqRHre4YNSskvuYgx3M6E4JP1oDYvZEJHvoPzyUidNgNX5r9sTyN1J9UxtbCXy2rqYcuyuv";
            r_lamportsReclaimed := Some 2039280; r_error := None; r_dryRun := false |}
  /\ statusOf (snd (reclaimSingleAccount config (Scenario.steady conn) Scenario.alice
                                         (Some false) db))
              Scenario.alice = Some RECLAIMED
  /\ totalSuccessful
       (fst (fst (reclaimAllEligible config Scenario.today (fun _ => Scenario.steady conn)
                                     (Some false) db))) = 1%nat.
Proof. cbv zeta. repeat split; vm_compute; reflexivity. Qed.

(** C7, as the code has it.  When the account passes eligibility, the
    treasury key resolves and the balance read just before acting gives
    zero lamports to reclaim, the executor returns the failure "No lamports
    to reclaim", hands nothing to the ledger and writes nothing: the store,
    reclaim log included, is the one the eligibility check left. *)
Theorem zero_balance_fails_fast
        (config : BotConfig) (env : ReclaimEnv) (pk : PublicKey)
        (forceDryRun : option bool) (db dbE : Db) (el : EligibilityCheck)
        (treasury : PublicKey) (onChainInfo : SolanaAccountInfo) :
  checkEligibility config (atEligibility env) (clock env) pk db = (Resolved el, dbE) ->
  eligible el = true ->
  getTreasuryPubkey config = Resolved treasury ->
  getAccountInfo (atBalance env) pk = Resolved onChainInfo ->
  (if exists_ onChainInfo then Some (lamports onChainInfo)
   else option_map (fun a : TrackedAccount => rentLamports a) (account el)) = Some 0 ->
  reclaimSingleAccount config env pk forceDryRun db
  = (Resolved
       (failure pk (Some "No lamports to reclaim")
                (match forceDryRun with Some b => b | None => dryRun config end)),
     [], dbE)
  /\ reclaim_transactions dbE = reclaim_transactions db.
Proof.
  intros Hel Helig Ht Hread Hzero. split.
  - unfold reclaimSingleAccount. rewrite Hel, Helig, Ht, Hread. cbv zeta.
    rewrite Hzero. reflexivity.
  - apply (checkEligibility_frame _ _ _ _ _ _ _ Hel).
Qed.

Lemma zero_balance_fails_fast_witness :
  let env := Scenario.steady
               (Scenario.ledger (fun _ => Scenario.onChain 0 SYSTEM_PROGRAM_ID)
                                (Resolved "unused")) in
  let db := Scenario.storeWith
              (Scenario.tracked Scenario.alice CLOSED 2039280
                                (Some (Scenario.today - 10 * Scenario.day))) in
  reclaimSingleAccount Scenario.config env Scenario.alice (Some false) db
  = (Resolved (failure Scenario.alice (Some "No lamports to reclaim") false), [], db)
  /\ reclaim_transactions db = reclaim_transactions db.
Proof.
  intros env db.
  apply (zero_balance_fails_fast Scenario.config env Scenario.alice (Some false) db db
           {| eligible := true;
              account := Some (Scenario.tracked Scenario.alice CLOSED 2039280
                                                (Some (Scenario.today - 10 * Scenario.day)));
              reasons := ["Account is eligible for rent reclaim"];
              warnings := [] |}
           Scenario.operator
           (describeAccount Scenario.alice (Scenario.onChain 0 SYSTEM_PROGRAM_ID) true)).
  - vm_compute. reflexivity.
  - reflexivity.
  - reflexivity.
  - reflexivity.
  - reflexivity.
Defined.

(** C7 as stated fails: an eligible account whose balance read gives zero is
    refused, and the reclaim log stays empty. *)
Lemma zero_balance_appends_no_row :
  let env := Scenario.steady
               (Scenario.ledger (fun _ => Scenario.onChain 0 SYSTEM_PROGRAM_ID)
                                (Resolved "unused")) in
  let db := Scenario.storeWith
              (Scenario.tracked Scenario.alice CLOSED 2039280
                                (Some (Scenario.today - 10 * Scenario.day))) in
  (exists el,
      fst (checkEligibility Scenario.config (atEligibility env) (clock env) Scenario.alice db)
      = Resolved el /\ eligible el = true)
  /\ (exists info,
         getAccountInfo (atBalance env) Scenario.alice = Resolved info /\ lamports info = 0)
  /\ (exists r,
         fst (fst (reclaimSingleAccount Scenario.config env Scenario.alice (Some false) db))
         = Resolved r
         /\ r_success r = false /\ r_error r = Some "No lamports to reclaim")
  /\ reclaim_transactions
       (snd (reclaimSingleAccount Scenario.config env Scenario.alice (Some false) db)) = [].
Proof.
  cbv zeta. split; [|split; [|split]].
  - eexists. split; vm_compute; reflexivity.
  - eexists. split; vm_compute; reflexivity.
  - eexists. split; [vm_compute; reflexivity|]. split; reflexivity.
  - vm_compute. reflexivity.
Qed.

(** The status and balance of every address after [checkEligibility]. *)
Lemma checkEligibility_effect (config : BotConfig) (conn : Connection) (now : Date)
      (pk : PublicKey) (db : Db) (out : Outcome EligibilityCheck) (db' : Db) :
  checkEligibility config conn now pk db = (out, db') ->
  (forall a, rentOf db' a = rentOf db a)
  /\ (forall a, statusOf db' a = statusOf db a
                \/ (a = pk /\ statusOf db' a = Some CLOSED
                    /\ statusOf db a <> Some RECLAIMED
                    /\ rpcGetAccountInfo conn pk = Resolved None)).
Proof.
  intro H. destruct (checkEligibility_store _ _ _ _ _ _ _ H)
    as [->|[row [Hget [Hr [Hc [Hread ->]]]]]]; [split; auto|].
  split; intro a; unfold rentOf, statusOf; rewrite getAccount_updateAccountStatus.
  - destruct (getAccount db a) as [r|]; [|reflexivity]. simpl.
    destruct (a =? pk)%string; reflexivity.
  - destruct (a =? pk)%string eqn:Ha.
    + apply String.eqb_eq in Ha. subst a. right. rewrite Hget. simpl.
      repeat split; auto. congruence.
    + left. destruct (getAccount db a); reflexivity.
Qed.

(** C6, as the code has it.  A dry run hands nothing to the ledger, changes
    no stored balance, and changes no status except that the eligibility
    check corrects to Closed the status of the account when the ledger no
    longer has it.  When the dry run reports success it has appended exactly
    one row, successful and carrying the synthetic reference
    "dry-run-signature"; when it reports failure it has appended nothing or
    one failed row. *)
Theorem dry_run_effects
        (config : BotConfig) (env : ReclaimEnv) (pk : PublicKey)
        (forceDryRun : option bool) (db : Db) :
  match forceDryRun with Some b => b | None => dryRun config end = true ->
  let '(out, sent, db') := reclaimSingleAccount config env pk forceDryRun db in
  sent = []
  /\ (forall a, rentOf db' a = rentOf db a)
  /\ (forall a, statusOf db' a = statusOf db a
                \/ (a = pk /\ statusOf db' a = Some CLOSED
                    /\ statusOf db a <> Some RECLAIMED
                    /\ rpcGetAccountInfo (atEligibility env) pk = Resolved None))
  /\ (forall r, out = Resolved r -> r_success r = true ->
                r_txSignature r = Some "dry-run-signature"
                /\ exists row : ReclaimTransaction,
                    reclaim_transactions db' = reclaim_transactions db ++ [row]
                    /\ accountPubkey row = pk /\ success row = true
                    /\ txSignature row = "dry-run-signature")
  /\ (forall r, out = Resolved r -> r_success r = false ->
                reclaim_transactions db' = reclaim_transactions db
                \/ exists row : ReclaimTransaction,
                    reclaim_transactions db' = reclaim_transactions db ++ [row]
                    /\ accountPubkey row = pk /\ success row = false).
Proof.
  intro Hdry.
  destruct (reclaimSingleAccount config env pk forceDryRun db) as [[out sent] db'] eqn:Hrun.
  destruct (reclaim_cases _ _ _ _ _ _ _ _ Hrun) as [oel [dbE [Hel Hcases]]].
  cbv zeta in Hcases. rewrite Hdry in Hcases.
  destruct (checkEligibility_effect _ _ _ _ _ _ _ Hel) as [Hrent Hstatus].
  destruct (checkEligibility_frame _ _ _ _ _ _ _ Hel) as [_ [_ [Hlog _]]].
  destruct Hcases as [(-> & -> & Hres & _)
                     |[(tx & r & el & -> & Hs & Hp & -> & Hrs & _ & _ & _ & _ & Hsent)
                      |[(tx & r & el & info & _ & -> & -> & Hs & Hp & Hsig & -> & Hrs & _ & _
                         & Hrsig & _)
                       |(tx & r & el & info & Hbad & _)]]].
  - split; [reflexivity|]. split; [exact Hrent|]. split; [exact Hstatus|]. split.
    + intros r Hr Hok. destruct (Hres r Hr) as [Hf _]. congruence.
    + intros r Hr _. left. exact Hlog.
  - destruct (log_recordReclaimTransaction tx dbE) as [row [Hrow [Hrowpk [Hrowok _]]]].
    split; [destruct Hsent as [->|[Hbad _]]; [reflexivity | discriminate]|].
    split; [exact Hrent|]. split; [exact Hstatus|]. split.
    + intros r' Hr' Hok. injection Hr' as <-. congruence.
    + intros r' _ _. right. exists row. rewrite Hrow, Hlog, Hrowpk, Hrowok. auto.
  - destruct (log_recordReclaimTransaction tx dbE) as [row [Hrow [Hrowpk [Hrowok Hrowsig]]]].
    split; [reflexivity|]. split; [exact Hrent|]. split; [exact Hstatus|]. split.
    + intros r' Hr' _. injection Hr' as <-. split; [exact Hrsig|].
      exists row. rewrite Hrow, Hlog, Hrowpk, Hrowok, Hrowsig. auto.
    + intros r' Hr' Hf. injection Hr' as <-. congruence.
  - discriminate.
Qed.

Lemma dry_run_effects_witness :
  let env := Scenario.steady
               (Scenario.ledger (fun _ => Scenario.onChain 50000 SYSTEM_PROGRAM_ID)
                                (Resolved "unused")) in
  let db := Scenario.storeWith
              (Scenario.tracked Scenario.alice CLOSED 2039280
                                (Some (Scenario.today - 10 * Scenario.day))) in
  let '(out, sent, db') :=
    reclaimSingleAccount Scenario.config env Scenario.alice None db in
  sent = []
  /\ (forall a, rentOf db' a = rentOf db a)
  /\ (forall a, statusOf db' a = statusOf db a
                \/ (a = Scenario.alice /\ statusOf db' a = Some CLOSED
                    /\ statusOf db a <> Some RECLAIMED
                    /\ rpcGetAccountInfo (atEligibility env) Scenario.alice = Resolved None))
  /\ (forall r, out = Resolved r -> r_success r = true ->
                r_txSignature r = Some "dry-run-signature"
                /\ exists row : ReclaimTransaction,
                    reclaim_transactions db' = reclaim_transactions db ++ [row]
                    /\ accountPubkey row = Scenario.alice /\ success row = true
                    /\ txSignature row = "dry-run-signature")
  /\ (forall r, out = Resolved r -> r_success r = false ->
                reclaim_transactions db' = reclaim_transactions db
                \/ exists row : ReclaimTransaction,
                    reclaim_transactions db' = reclaim_transactions db ++ [row]
                    /\ accountPubkey row = Scenario.alice /\ success row = false).
Proof.
  intros env db.
  apply (dry_run_effects Scenario.config env Scenario.alice None db).
  reflexivity.
Defined.

(** C6 as stated fails: a dry run on an Active account the ledger no longer
    has changes the stored status to Closed, and what it appends is a failed
    row, not a simulated one. *)
Lemma dry_run_changes_status :
  let env := Scenario.steady (Scenario.ledger (fun _ => None) (Resolved "unused")) in
  let db := Scenario.storeWith (Scenario.tracked Scenario.alice ACTIVE 2039280 None) in
  let db' := snd (reclaimSingleAccount Scenario.config env Scenario.alice (Some true) db) in
  statusOf db Scenario.alice = Some ACTIVE
  /\ statusOf db' Scenario.alice = Some CLOSED
  /\ map (fun row : ReclaimTransaction => (txSignature row, success row))
         (reclaim_transactions db') = [("failed", false)].
Proof. cbv zeta. repeat split; vm_compute; reflexivity. Qed.

(** In live mode the submission layer dispatches on the owner the ledger
    reports: for the system program it hands the ledger one transfer of the
    full balance to the destination, signed by the authority; for any other
    owner it builds nothing and answers with the manual-intervention error. *)
Lemma live_close_dispatch (conn : Connection) (pk dest auth : PublicKey) (info : AccountInfo) :
  rpcGetAccountInfo conn pk = Resolved (Some info) ->
  if (ai_owner info =? SYSTEM_PROGRAM_ID)%string
  then snd (closeAccountAndReclaimRent conn pk dest auth false)
       = [{| instructions := [SystemTransfer pk dest (ai_lamports info)];
             signers := [auth] |}]
  else closeAccountAndReclaimRent conn pk dest auth false
       = (Resolved {| c_signature := EmptyString; c_success := false;
                      c_lamportsReclaimed := 0;
                      c_error :=
                        Some ("Cannot close program-owned account (owner: " ++ ai_owner info
                              ++ "). Manual intervention required.")%string |}, []).
Proof.
  intro Hread. unfold closeAccountAndReclaimRent, getAccountInfo. rewrite Hread. simpl.
  destruct (ai_owner info =? SYSTEM_PROGRAM_ID)%string; [|reflexivity].
  destruct (rpcSendAndConfirm conn _); reflexivity.
Qed.

(** In dry-run mode the submission layer answers success for every account
    the ledger has, whatever its owner. *)
Lemma dry_close_ignores_owner (conn : Connection) (pk dest auth : PublicKey)
      (info : AccountInfo) :
  rpcGetAccountInfo conn pk = Resolved (Some info) ->
  closeAccountAndReclaimRent conn pk dest auth true
  = (Resolved {| c_signature := "dry-run-signature"; c_success := true;
                 c_lamportsReclaimed := ai_lamports info; c_error := None |}, []).
Proof.
  intro Hread. unfold closeAccountAndReclaimRent, getAccountInfo. rewrite Hread. reflexivity.
Qed.

(** C1: what the code does for token accounts.  In live mode, for an account
    the ledger reports as owned by the token program, the token-2022 program
    or the associated-token program (the owners classified as TokenAccount
    and AssociatedToken), the submission layer builds no close action: it
    answers "Cannot close program-owned account ... Manual intervention
    required." and hands nothing to the ledger. *)
Theorem token_accounts_are_refused
        (conn : Connection) (pk dest auth : PublicKey) (info : AccountInfo) :
  rpcGetAccountInfo conn pk = Resolved (Some info) ->
  In (ai_owner info) [TOKEN_PROGRAM_ID; TOKEN_2022_PROGRAM_ID; ASSOCIATED_TOKEN_PROGRAM_ID] ->
  (detectAccountType (ai_owner info) = TOKEN_ACCOUNT
   \/ detectAccountType (ai_owner info) = ASSOCIATED_TOKEN)
  /\ closeAccountAndReclaimRent conn pk dest auth false
     = (Resolved {| c_signature := EmptyString; c_success := false;
                    c_lamportsReclaimed := 0;
                    c_error :=
                      Some ("Cannot close program-owned account (owner: " ++ ai_owner info
                            ++ "). Manual intervention required.")%string |}, []).
Proof.
  intros Hread Howner. pose proof (live_close_dispatch conn pk dest auth info Hread) as Hlive.
  destruct Howner as [Ho|[Ho|[Ho|[]]]]; rewrite <- Ho in *; simpl in Hlive;
    (split; [|exact Hlive]); vm_compute; auto.
Qed.

Lemma token_accounts_are_refused_witness :
  (detectAccountType TOKEN_PROGRAM_ID = TOKEN_ACCOUNT
   \/ detectAccountType TOKEN_PROGRAM_ID = ASSOCIATED_TOKEN)
  /\ closeAccountAndReclaimRent
       (Scenario.ledger (fun _ => Scenario.onChain 2039280 TOKEN_PROGRAM_ID)
                        (Resolved "unused"))
       Scenario.alice Scenario.operator Scenario.operator false
     = (Resolved {| c_signature := EmptyString; c_success := false;
                    c_lamportsReclaimed := 0;
                    c_error :=
                      Some ("Cannot close program-owned account (owner: " ++ TOKEN_PROGRAM_ID
                            ++ "). Manual intervention required.")%string |}, []).
Proof.
  apply (token_accounts_are_refused
           (Scenario.ledger (fun _ => Scenario.onChain 2039280 TOKEN_PROGRAM_ID)
                            (Resolved "unused"))
           Scenario.alice Scenario.operator Scenario.operator
           {| ai_lamports := 2039280; ai_owner := TOKEN_PROGRAM_ID; ai_executable := false;
              ai_rentEpoch := 0; ai_dataLength := 165 |}).
  - reflexivity.
  - simpl. left. reflexivity.
Defined.

(** C2: what the code does.  For an eligible token account that exists
    on-chain, the dry run reports a successful reclaim of its balance while
    the live run, on the same store and the same ledger, is refused for its
    owning program. *)
Theorem dry_run_disagrees_with_live :
  let config := Scenario.withThreshold 2100000 in
  let env := Scenario.steady
               (Scenario.ledger (fun _ => Scenario.onChain 2039280 TOKEN_PROGRAM_ID)
                                (Resolved "unused")) in
  let db := Scenario.storeWith
              (Scenario.tracked Scenario.alice CLOSED 2500000
                                (Some (Scenario.today - 10 * Scenario.day))) in
  fst (fst (reclaimSingleAccount config env Scenario.alice (Some true) db))
  = Resolved {| r_success := true; r_accountPubkey := Scenario.alice;
                r_txSignature := Some "dry-run-signature";
                r_lamportsReclaimed := Some 2039280;
                r_error := None; r_dryRun := true |}
  /\ fst (fst (reclaimSingleAccount config env Scenario.alice (Some false) db))
     = Resolved {| r_success := false; r_accountPubkey := Scenario.alice;
                   r_txSignature := None; r_lamportsReclaimed := None;
                   r_error :=
                     Some "Cannot close program-owned account (owner: TokenkegQfeZyiNwAJbNbGKPFXCWuBvf9Ss623VQ5DA). Manual intervention required.";
                   r_dryRun := false |}.
Proof. cbv zeta. split; vm_compute; reflexivity. Qed.

(** ** The discovery scan *)

Section DiscoveryFacts.

Lemma grows_refl (db : Db) : grows db db.
Proof. unfold grows. repeat split; auto. Qed.

Lemma grows_trans (db1 db2 db3 : Db) : grows db1 db2 -> grows db2 db3 -> grows db1 db3.
Proof.
  intros (Hk1 & Hn1 & Hl1 & Hw1 & Hb1 & Hu1) (Hk2 & Hn2 & Hl2 & Hw2 & Hb2 & Hu2).
  unfold grows. repeat split; try congruence; auto.
  intros a row' H3. destruct (Hn2 a row' H3) as [H2|[H2 Hs]].
  - apply Hn1. exact H2.
  - right. split; [|exact Hs].
    destruct (getAccount db1 a) as [r|] eqn:E; [|reflexivity].
    apply Hk1 in E. congruence.
Qed.

Lemma unique_insert (db : Db) (row : TrackedAccount) :
  getAccount db (pubkey row) = None -> uniqueAddresses db ->
  uniqueAddresses (setAccounts db (tracked_accounts db ++ [row])).
Proof.
  unfold uniqueAddresses. simpl. intros Hnone Hu. rewrite map_app. simpl.
  eapply Permutation_NoDup; [apply Permutation_cons_append|].
  constructor; [apply getAccount_none_notin; exact Hnone | exact Hu].
Qed.

(** Inserting a row that is not Reclaimed for an address that is not
    tracked makes the store grow. *)
Lemma grows_insert (db : Db) (row : TrackedAccount) :
  getAccount db (pubkey row) = None -> status row <> RECLAIMED ->
  grows db (setAccounts db (tracked_accounts db ++ [row])).
Proof.
  intros Hnone Hst. unfold grows.
  split; [|split; [|split; [|split; [|split]]]]; try reflexivity.
  - intros a r Hget. rewrite getAccount_insert, Hget. reflexivity.
  - intros a row' Hget. rewrite getAccount_insert in Hget.
    destruct (getAccount db a) as [r|]; [left; exact Hget|].
    destruct (pubkey row =? a)%string; [|discriminate].
    injection Hget as <-. right. auto.
  - apply unique_insert. exact Hnone.
Qed.

Lemma freshAccount_status (sigInfo : SignatureInfo) (pk : string)
      (info : SolanaAccountInfo) (now : Date) :
  pubkey (freshAccount sigInfo pk info now) = pk
  /\ status (freshAccount sigInfo pk info now) <> RECLAIMED.
Proof. unfold freshAccount. simpl. split; [reflexivity|]. destruct (exists_ info); discriminate. Qed.

(** One candidate: the addresses seen, and the store. *)
Lemma scanAccount_cases (conn : Connection) (now : Date) (sigInfo : SignatureInfo)
      (s : Scan) (pk : string) :
  let s' := scanAccount conn now sigInfo s pk in
  (existsb (String.eqb pk) (discoveredPubkeys s) = true /\ s' = s)
  \/ (existsb (String.eqb pk) (discoveredPubkeys s) = false
      /\ discoveredPubkeys s' = discoveredPubkeys s ++ [pk]
      /\ ((exists existing,
              getAccount (store s) pk = Some existing /\ store s' = store s
              /\ newAccounts (result s') = newAccounts (result s)
              /\ existingAccounts (result s') = S (existingAccounts (result s)))
          \/ (exists e,
                 getAccount (store s) pk = None
                 /\ rpcGetAccountInfo conn pk = Rejected e /\ store s' = store s
                 /\ newAccounts (result s') = newAccounts (result s)
                 /\ existingAccounts (result s') = existingAccounts (result s))
          \/ (exists info,
                 getAccount (store s) pk = None
                 /\ getAccountInfo conn pk = Resolved info
                 /\ store s'
                    = setAccounts (store s)
                        (tracked_accounts (store s)
                         ++ [upsertInsert (freshAccount sigInfo pk info now)
                                          (tracked_accounts (store s))])
                 /\ newAccounts (result s') = S (newAccounts (result s))
                 /\ existingAccounts (result s') = existingAccounts (result s)))).
Proof.
  unfold scanAccount. cbv zeta.
  destruct (existsb (String.eqb pk) (discoveredPubkeys s)) eqn:Hseen; [left; auto|].
  right. split; [reflexivity|].
  destruct (getAccount (store s) pk) as [existing|] eqn:Hget.
  - split; [reflexivity|]. left. exists existing. simpl. auto.
  - unfold getAccountInfo.
    destruct (rpcGetAccountInfo conn pk) as [info|e] eqn:Hread.
    + pose proof (upsertAccount_fresh
                    (freshAccount sigInfo pk
                       (describeAccount pk info
                          match info with Some _ => true | None => false end) now)
                    (store s)) as Hup.
      simpl pubkey in Hup. specialize (Hup Hget). cbv zeta in Hup. rewrite Hup.
      split; [reflexivity|]. right; right. eexists. simpl. repeat split; reflexivity.
    + split; [reflexivity|]. right; left. exists e. simpl. auto.
Qed.


Lemma scanAccount_tame (conn : Connection) (now : Date) (sigInfo : SignatureInfo)
      (pk : string) :
  tame (fun s => scanAccount conn now sigInfo s pk).
Proof.
  intro s. pose proof (scanAccount_cases conn now sigInfo s pk) as Hc. cbv zeta in Hc.
  destruct Hc as [[_ ->]|[Hseen [Hs' Hc]]].
  - split; [apply grows_refl | auto].
  - assert (Hin : forall a, In a (discoveredPubkeys s) ->
                            In a (discoveredPubkeys (scanAccount conn now sigInfo s pk))).
    { intros a Ha. rewrite Hs'. apply in_or_app. left. exact Ha. }
    destruct Hc as [(existing & _ & -> & _)|[(e & _ & _ & -> & _)|(info & Hget & _ & -> & _)]].
    + split; [apply grows_refl | auto].
    + split; [apply grows_refl | auto].
    + destruct (freshAccount_status sigInfo pk info now) as [Hpk Hst].
      split; [|split; [exact Hin|]].
      * apply grows_insert; simpl; [rewrite Hget; reflexivity | exact Hst].
      * intros a Ha. rewrite getAccount_insert.
        destruct (getAccount (store s) a); [reflexivity|]. simpl.
        destruct (pk =? a)%string eqn:E; [|reflexivity].
        apply String.eqb_eq in E. subst a.
        apply existsb_eqb_in in Ha. congruence.
Qed.

Lemma tame_id : tame (fun s => s).
Proof. intro s. split; [apply grows_refl | auto]. Qed.

Lemma tame_compose (f g : Scan -> Scan) : tame f -> tame g -> tame (fun s => g (f s)).
Proof.
  intros Hf Hg s. destruct (Hf s) as (Hg1 & Hi1 & Hs1). destruct (Hg (f s)) as (Hg2 & Hi2 & Hs2).
  split; [eapply grows_trans; eassumption|]. split; [auto|].
  intros a Ha. rewrite Hs2; auto.
Qed.

Lemma tame_fold {X : Type} (step : Scan -> X -> Scan) (l : list X) :
  (forall x, tame (fun s => step s x)) -> tame (fun s => fold_left step l s).
Proof.
  intro Hstep. induction l as [|x l IH]; simpl; [apply tame_id|].
  apply (tame_compose (fun s => step s x) (fun s => fold_left step l s)); auto.
Qed.

Lemma scanTransaction_tame (conn : Connection) (now : Date) (sponsorPubkey : string)
      (sigInfo : SignatureInfo) :
  tame (fun s => scanTransaction conn now sponsorPubkey s sigInfo).
Proof.
  intro s. unfold scanTransaction. cbv zeta.
  destruct (rpcGetParsedTransaction conn (signature sigInfo)) as [[tx|]|e].
  - destruct (match meta tx with Some m => err m | None => false end);
      [apply tame_id|].
    destruct (findCreatedAccounts tx sponsorPubkey) as [created|e].
    + apply (tame_fold (scanAccount conn now sigInfo) created).
      intro pk. apply scanAccount_tame.
    + simpl. split; [apply grows_refl | auto].
  - apply tame_id.
  - simpl. split; [apply grows_refl | auto].
Qed.

End DiscoveryFacts.

Section TwoRuns.

(** Two scans of the same history: the second connection returns the same
    parsed transactions as the first, and an account read that failed in the
    first run fails in the second. *)
Variables conn1 conn2 : Connection.
Variables now1 now2 : Date.
Hypothesis sameTransactions :
  forall sig, rpcGetParsedTransaction conn2 sig = rpcGetParsedTransaction conn1 sig.
Hypothesis failuresPersist :
  forall pk e, rpcGetAccountInfo conn1 pk = Rejected e ->
               exists e', rpcGetAccountInfo conn2 pk = Rejected e'.







End TwoRuns.

(** ** Steps of the store *)

Section Steps.

Lemma status_decide (db : Db) (a : PublicKey) :
  statusOf db a = Some RECLAIMED \/ statusOf db a <> Some RECLAIMED.
Proof. destruct (statusOf db a) as [[]|]; auto; right; discriminate. Qed.

Lemma stepOk_refl (outcomes : list ReclaimResult) (exempt : PublicKey -> bool) (db : Db) :
  stepOk outcomes exempt db db.
Proof.
  unfold stepOk. split; [exists []; symmetry; apply app_nil_r|].
  split; [auto|]. split; [auto|]. intros a H1 H2. contradiction.
Qed.

Lemma stepOk_trans (outcomes1 outcomes2 outcomes : list ReclaimResult)
      (exempt : PublicKey -> bool) (db1 db2 db3 : Db) :
  (forall a, exempt a = false) ->
  incl outcomes1 outcomes -> incl outcomes2 outcomes ->
  stepOk outcomes1 exempt db1 db2 -> stepOk outcomes2 exempt db2 db3 ->
  stepOk outcomes exempt db1 db3.
Proof.
  intros Hex Hi1 Hi2 ([l1 Hl1] & Hu1 & Hk1 & Hn1) ([l2 Hl2] & Hu2 & Hk2 & Hn2).
  unfold stepOk. split; [|split; [|split]].
  - exists (l1 ++ l2). rewrite Hl2, Hl1, app_assoc. reflexivity.
  - auto.
  - intros a Ha Hst. assert (H2 : getAccount db2 a = getAccount db1 a) by auto.
    rewrite <- H2. apply Hk2; [exact Ha|]. unfold statusOf in *. rewrite H2. exact Hst.
  - intros a H3 H1. destruct (status_decide db2 a) as [H2|H2].
    + destruct (Hn1 a H2 H1) as ([r [Hr Hlive]] & Hrent & [tx [Htx Hrest]]).
      assert (Hsame : getAccount db3 a = getAccount db2 a) by (apply Hk2; auto).
      split; [exists r; auto|]. split.
      * unfold rentOf in *. rewrite Hsame. exact Hrent.
      * exists tx. split; [|exact Hrest]. rewrite Hl2. apply in_or_app. left. exact Htx.
    + destruct (Hn2 a H3 H2) as ([r [Hr Hlive]] & Hrent & Hlog).
      split; [exists r; auto | auto].
Qed.

Lemma stepOk_weaken (outcomes outcomes' : list ReclaimResult) (exempt : PublicKey -> bool)
      (db db' : Db) :
  incl outcomes outcomes' -> stepOk outcomes exempt db db' -> stepOk outcomes' exempt db db'.
Proof.
  intros Hi (Hl & Hu & Hk & Hn). unfold stepOk. repeat split; auto;
    destruct (Hn a H H0) as ([r [Hr Hlive]] & Hrent & Hlog); auto.
  exists r. auto.
Qed.

(** A step that leaves every Reclaimed row alone, creates none and does not
    touch the log. *)
Lemma stepOk_quiet (outcomes : list ReclaimResult) (exempt : PublicKey -> bool)
      (db db' : Db) :
  reclaim_transactions db' = reclaim_transactions db ->
  (uniqueAddresses db -> uniqueAddresses db') ->
  (forall a, exempt a = false -> statusOf db a = Some RECLAIMED ->
             getAccount db' a = getAccount db a) ->
  noNewReclaimed db db' ->
  stepOk outcomes exempt db db'.
Proof.
  intros Hl Hu Hk Hn. unfold stepOk.
  split; [exists []; rewrite app_nil_r; exact Hl|].
  split; [exact Hu|]. split; [exact Hk|].
  intros a H1 H2. exfalso. apply H2. apply Hn. exact H1.
Qed.

Lemma stepOk_grows (outcomes : list ReclaimResult) (exempt : PublicKey -> bool)
      (db db' : Db) :
  grows db db' -> stepOk outcomes exempt db db'.
Proof.
  intros (Hk & Hn & Hl & _ & _ & Hu). apply stepOk_quiet; auto.
  - intros a _ Hst. apply statusOf_some in Hst. destruct Hst as [row [Hget _]].
    rewrite Hget. apply Hk. exact Hget.
  - intros a Hst. apply statusOf_some in Hst. destruct Hst as [row [Hget Hr]].
    destruct (Hn a row Hget) as [Hold|[_ Hne]]; [|contradiction].
    apply statusOf_some. exists row. auto.
Qed.

Lemma unique_same_addresses (db db' : Db) :
  map (fun r : TrackedAccount => pubkey r) (tracked_accounts db')
  = map (fun r : TrackedAccount => pubkey r) (tracked_accounts db) ->
  uniqueAddresses db -> uniqueAddresses db'.
Proof. unfold uniqueAddresses. intros ->. auto. Qed.

Lemma discover_grows (config : BotConfig) (conn : Connection) (now : Date)
      (koraSigner : option string) (limit : nat) (db : Db) :
  grows db (snd (discoverSponsoredAccounts config conn now koraSigner limit db)).
Proof.
  unfold discoverSponsoredAccounts. cbv zeta.
  destruct (if truthy koraSigner then koraSigner else koraSignerPubkey config)
    as [sponsorPubkey|]; [|apply grows_refl].
  destruct (truthy (Some sponsorPubkey)); cbn [negb]; [|apply grows_refl].
  destruct (getSponsoredAccountSignatures conn sponsorPubkey limit) as [signatures|e];
    [|apply grows_refl].
  cbn [snd].
  apply (tame_fold (scanTransaction conn now sponsorPubkey) signatures
                   (fun x => scanTransaction_tame conn now sponsorPubkey x)
                   {| result := emptyResult []; discoveredPubkeys := []; store := db |}).
Qed.

Lemma addAccountManually_grows (conn : Connection) (now : Date) (pk : PublicKey)
      (sponsoredTx : option string) (db : Db) :
  grows db (snd (addAccountManually conn now pk sponsoredTx db)).
Proof.
  unfold addAccountManually.
  destruct (isPublicKey pk); cbn [negb]; [|apply grows_refl].
  destruct (getAccount db pk) as [existing|] eqn:Hget; [apply grows_refl|].
  destruct (getAccountInfo conn pk) as [info|e]; [|apply grows_refl].
  rewrite upsertAccount_fresh by exact Hget. cbn [snd].
  apply grows_insert; simpl; [exact Hget|]. destruct (exists_ info); discriminate.
Qed.

Lemma monitored_status (t : TrackedAccount) :
  matchesFilter monitoredStatuses t = true -> status t = ACTIVE \/ status t = INACTIVE.
Proof. unfold matchesFilter. simpl. destruct (status t); simpl; auto; discriminate. Qed.

Lemma checkAllAccounts_step (belowTenth : Z -> Z -> bool) (conn : Connection)
      (now : Date) (elapsed : Z) (db : Db) (outcomes : list ReclaimResult)
      (exempt : PublicKey -> bool) :
  uniqueAddresses db ->
  stepOk outcomes exempt db (snd (checkAllAccounts belowTenth conn now elapsed db)).
Proof.
  intro Hu. pose proof (checkAllAccounts_spec belowTenth conn now elapsed db Hu) as Hspec.
  cbv zeta in Hspec.
  destruct (getAccounts_rows db monitoredStatuses Hu) as [_ Hrows].
  destruct (checkAllAccounts belowTenth conn now elapsed db) as [result db']. cbn [snd].
  destruct Hspec as [[-> _]|[infos (_ & _ & Hother & Hsame & Hlog & _ & _ & Haddr)]];
    [apply stepOk_refl|].
  assert (Hlisted : forall a,
             In a (map (fun r : TrackedAccount => pubkey r) (getAccounts db monitoredStatuses)) ->
             statusOf db a <> Some RECLAIMED /\ statusOf db' a <> Some RECLAIMED).
  { intros a Ha. apply in_map_iff in Ha. destruct Ha as [t [<- Hin]].
    pose proof (Hsame t Hin) as Hafter. apply Hrows in Hin. destruct Hin as [Hin Hf].
    pose proof (unique_getAccount db t Hu Hin) as Hbefore.
    assert (Hnr : status t <> RECLAIMED).
    { destruct (monitored_status t Hf) as [->| ->]; discriminate. }
    unfold statusOf. rewrite Hbefore, Hafter. simpl. split; [congruence|].
    intro Hbad. injection Hbad as Hbad.
    apply (proj2 (rowAfterCheck_status belowTenth infos now t) Hnr). exact Hbad. }
  apply stepOk_quiet; [exact Hlog | apply unique_same_addresses; exact Haddr | |].
  - intros a _ Hst.
    destruct (in_dec string_dec a
                (map (fun r : TrackedAccount => pubkey r) (getAccounts db monitoredStatuses)))
      as [Hin|Hout]; [|apply Hother; exact Hout].
    exfalso. apply (proj1 (Hlisted a Hin)). exact Hst.
  - intros a Hst.
    destruct (in_dec string_dec a
                (map (fun r : TrackedAccount => pubkey r) (getAccounts db monitoredStatuses)))
      as [Hin|Hout].
    + exfalso. apply (proj2 (Hlisted a Hin)). exact Hst.
    + unfold statusOf in *. rewrite <- (Hother a Hout). exact Hst.
Qed.

Lemma checkSingleAccount_step (belowTenth : Z -> Z -> bool) (conn : Connection)
      (now : Date) (pk : PublicKey) (db : Db) (outcomes : list ReclaimResult)
      (exempt : PublicKey -> bool) :
  stepOk outcomes exempt db (snd (checkSingleAccount belowTenth conn now pk db)).
Proof.
  unfold checkSingleAccount.
  destruct (getAccount db pk) as [tracked|] eqn:Hget; [|apply stepOk_refl].
  destruct (getAccountInfo conn pk) as [info|e]; [|apply stepOk_refl].
  destruct (detectStatusChange belowTenth tracked info) as [change|] eqn:Hd;
    [|apply stepOk_refl].
  cbn [snd].
  destruct (detectStatusChange_new _ _ _ _ Hd) as (_ & _ & _ & Hnr & _ & Hnew).
  assert (Hafter : forall a,
             getAccount (applyChange pk change now db) a
             = if (a =? pk)%string
               then option_map
                      (fun row =>
                         if newRent change =? previousRent change
                         then setStatus (newStatus change)
                                (if status_eqb (newStatus change) CLOSED
                                 then Some now else None) now row
                         else setRent (newRent change) now
                                (setStatus (newStatus change)
                                   (if status_eqb (newStatus change) CLOSED
                                    then Some now else None) now row))
                      (getAccount db a)
               else getAccount db a).
  { intro a. unfold applyChange. cbv zeta.
    destruct (newRent change =? previousRent change).
    - rewrite getAccount_updateAccountStatus.
      destruct (a =? pk)%string; destruct (getAccount db a); reflexivity.
    - rewrite getAccount_updateAccountRent, getAccount_updateAccountStatus.
      destruct (a =? pk)%string; destruct (getAccount db a); reflexivity. }
  apply stepOk_quiet.
  - unfold applyChange. cbv zeta. destruct (newRent change =? previousRent change); reflexivity.
  - apply unique_same_addresses. unfold applyChange. cbv zeta.
    unfold updateAccountRent, updateAccountStatus.
    destruct (newRent change =? previousRent change);
      rewrite !addresses_updateWhere by reflexivity; reflexivity.
  - intros a _ Hst. rewrite Hafter. destruct (a =? pk)%string eqn:E; [|reflexivity].
    apply String.eqb_eq in E. subst a. unfold statusOf in Hst. rewrite Hget in Hst.
    simpl in Hst. congruence.
  - intros a Hst. unfold statusOf in *. rewrite Hafter in Hst.
    destruct (a =? pk)%string eqn:E; [|exact Hst].
    apply String.eqb_eq in E. subst a. rewrite Hget in Hst. simpl in Hst. exfalso.
    destruct (newRent change =? previousRent change); simpl in Hst;
      destruct Hnew as [Hn|[Hn|Hn]]; rewrite Hn in Hst; discriminate.
Qed.

End Steps.

Section ReclaimSteps.

Variable config : BotConfig.

Lemma checkEligibility_step (conn : Connection) (now : Date) (pk : PublicKey) (db : Db)
      (outcomes : list ReclaimResult) (exempt : PublicKey -> bool) :
  stepOk outcomes exempt db (snd (checkEligibility config conn now pk db)).
Proof.
  destruct (checkEligibility config conn now pk db) as [out db'] eqn:Hel. cbn [snd].
  destruct (checkEligibility_frame _ _ _ _ _ _ _ Hel) as (Hother & Hpk & Hlog & _ & _ & Haddr).
  destruct (checkEligibility_effect _ _ _ _ _ _ _ Hel) as [_ Hstatus].
  apply stepOk_quiet; [exact Hlog | apply unique_same_addresses; exact Haddr | |].
  - intros a _ Hst. destruct (string_dec a pk) as [->|Hne]; [|apply Hother; exact Hne].
    destruct Hpk as [Hsame|(row & Hget & Hr & _)]; [exact Hsame|].
    unfold statusOf in Hst. rewrite Hget in Hst. simpl in Hst. congruence.
  - intros a Hst. destruct (Hstatus a) as [Hsame|(_ & Hclosed & _)]; congruence.
Qed.

Lemma reclaimSingleAccount_step (env : ReclaimEnv) (pk : PublicKey)
      (forceDryRun : option bool) (db : Db)
      (out : Outcome ReclaimResult) (sent : list Transaction) (db' : Db) :
  reclaimSingleAccount config env pk forceDryRun db = (out, sent, db') ->
  stepOk (match out with Resolved r => [r] | Rejected _ => [] end) (fun _ => false) db db'.
Proof.
  intro Hrun.
  destruct (reclaim_frame _ _ _ _ _ _ _ _ Hrun) as (Hother & Hlog & Haddr & Hkeep & Hnew & _).
  unfold stepOk. split; [exact Hlog|]. split; [apply unique_same_addresses; exact Haddr|].
  split.
  - intros a _ Hst. destruct (string_dec a pk) as [->|Hne]; auto.
  - intros a Hafter Hbefore. destruct (string_dec a pk) as [->|Hne].
    + destruct (Hnew Hafter Hbefore) as ([r [-> Hlive]] & Hrent & Hrow).
      split; [exists r; split; [left; reflexivity | exact Hlive] | auto].
    + exfalso. apply Hbefore. unfold statusOf in *. rewrite <- (Hother a Hne). exact Hafter.
Qed.

Lemma tally_results (s : BatchReclaimSummary) (r : ReclaimResult) :
  results (tally (attempt s) r) = results s ++ [r].
Proof. reflexivity. Qed.

(** The batch loop: what it does to the store, and that the results it had
    collected stay in the summary. *)
Lemma reclaimLoop_step (dry : bool) (envs : nat -> ReclaimEnv) (pks : list PublicKey) :
  forall (i : nat) (summary : BatchReclaimSummary) (sent : list Transaction) (db : Db),
    let '(_, summary', _, db') := reclaimLoop config dry envs i pks summary sent db in
    incl (results summary) (results summary')
    /\ stepOk (results summary') (fun _ => false) db db'.
Proof.
  induction pks as [|pk pks IH]; intros i summary sent db.
  - simpl. split; [apply incl_refl | apply stepOk_refl].
  - cbn [reclaimLoop].
    destruct (reclaimSingleAccount config (envs i) pk (Some dry) db)
      as [[[r|e] sent1] db1] eqn:Hrun;
      pose proof (reclaimSingleAccount_step _ _ _ _ _ _ _ Hrun) as Hstep.
    + specialize (IH (S i) (tally (attempt summary) r) (sent ++ sent1) db1).
      destruct (reclaimLoop config dry envs (S i) pks (tally (attempt summary) r)
                            (sent ++ sent1) db1) as [[[thrown summary'] sent'] db'].
      destruct IH as [Hincl Hrest]. rewrite tally_results in Hincl. split.
      * intros x Hx. apply Hincl. apply in_or_app. left. exact Hx.
      * apply (stepOk_trans [r] (results summary') (results summary') (fun _ => false)
                            db db1 db'); auto.
        -- intros x [<-|[]]. apply Hincl. apply in_or_app. right. left. reflexivity.
        -- apply incl_refl.
    + split; [apply incl_refl|].
      apply (stepOk_weaken [] _ _ _ _ (incl_nil_l _) Hstep).
Qed.

End ReclaimSteps.

Lemma whitelist_status (pk : PublicKey) (reason : option string) (now : Date) (db : Db)
      (a : PublicKey) :
  getAccount (addToWhitelist pk reason now db) a
  = option_map (fun row => if (a =? pk)%string then setStatus WHITELISTED None now row else row)
               (getAccount db a).
Proof. unfold addToWhitelist. rewrite getAccount_updateAccountStatus. reflexivity. Qed.

(** Every operation is a step in the sense of [stepOk]; the only operation
    that rewrites a Reclaimed row is the allow-list addition for its
    address. *)
Lemma exec_step (config : BotConfig) (belowTenth : Z -> Z -> bool) (op : Op) (db : Db) :
  uniqueAddresses db ->
  stepOk (executorResults config op db) (fun a => isWhitelistAdd a op) db
         (exec config belowTenth op db).
Proof.
  intro Hu. destruct op; cbn [exec executorResults].
  - apply stepOk_grows. apply discover_grows.
  - apply stepOk_grows. apply addAccountManually_grows.
  - apply checkAllAccounts_step. exact Hu.
  - apply checkSingleAccount_step.
  - apply checkEligibility_step.
  - destruct (reclaimSingleAccount config env pk forceDryRun db) as [[out sent] db'] eqn:Hrun.
    cbn [fst snd]. apply (reclaimSingleAccount_step _ _ _ _ _ _ _ _ Hrun).
  - unfold reclaimAllEligible. cbv zeta.
    match goal with
    | |- context [reclaimLoop ?c ?d ?e ?i ?l ?s ?t ?b] =>
        pose proof (reclaimLoop_step c d e l i s t b) as Hloop;
        destruct (reclaimLoop c d e i l s t b) as [[[thrown summary'] sent'] db']
    end.
    cbn [fst snd]. apply Hloop.
  - unfold reclaimMultiple. cbv zeta.
    match goal with
    | |- context [reclaimLoop ?c ?d ?e ?i ?l ?s ?t ?b] =>
        pose proof (reclaimLoop_step c d e l i s t b) as Hloop;
        destruct (reclaimLoop c d e i l s t b) as [[[thrown summary'] sent'] db']
    end.
    cbn [fst snd]. apply Hloop.
  - apply stepOk_quiet.
    + reflexivity.
    + apply unique_same_addresses. unfold addToWhitelist, updateAccountStatus.
      rewrite addresses_updateWhere by reflexivity. reflexivity.
    + intros a Ha Hst. rewrite whitelist_status. simpl in Ha. rewrite String.eqb_sym in Ha.
      rewrite Ha. destruct (getAccount db a); reflexivity.
    + intros a Hst. unfold statusOf in *. rewrite whitelist_status in Hst.
      destruct (getAccount db a) as [row|]; [|discriminate]. simpl in *.
      destruct (a =? pk)%string; [discriminate | exact Hst].
  - apply stepOk_quiet; auto. intros a Hst. exact Hst.
  - apply stepOk_quiet; auto. intros a Hst. exact Hst.
Qed.

(** ** Claims about the life cycle *)

Lemma run_cons (config : BotConfig) (belowTenth : Z -> Z -> bool) (op : Op)
      (ops : list Op) (db : Db) :
  run config belowTenth (op :: ops) db
  = run config belowTenth ops (exec config belowTenth op db).
Proof. reflexivity. Qed.

Lemma whitelist_add_unreclaims (config : BotConfig) (belowTenth : Z -> Z -> bool)
      (op : Op) (db : Db) (a : PublicKey) :
  isWhitelistAdd a op = true ->
  statusOf (exec config belowTenth op db) a <> Some RECLAIMED.
Proof.
  destruct op; simpl; try discriminate. intro Ha. apply String.eqb_eq in Ha. subst pk.
  unfold statusOf. rewrite whitelist_status, String.eqb_refl.
  destruct (getAccount db a); simpl; discriminate.
Qed.

Lemma exec_preserves_invariant (config : BotConfig) (belowTenth : Z -> Z -> bool)
      (op : Op) (db : Db) :
  uniqueAddresses db -> reclaimedInvariant db ->
  uniqueAddresses (exec config belowTenth op db)
  /\ reclaimedInvariant (exec config belowTenth op db).
Proof.
  intros Hu Hinv.
  destruct (exec_step config belowTenth op db Hu) as ([added Hlog] & Hu' & Hkeep & Hnew).
  split; [auto|]. intros a row' Hget Hr.
  assert (Hafter : statusOf (exec config belowTenth op db) a = Some RECLAIMED).
  { apply statusOf_some. exists row'. auto. }
  destruct (status_decide db a) as [Hbefore|Hbefore].
  - destruct (isWhitelistAdd a op) eqn:Hwl.
    + exfalso. apply (whitelist_add_unreclaims config belowTenth op db a Hwl). exact Hafter.
    + rewrite (Hkeep a Hwl Hbefore) in Hget.
      destruct (Hinv a row' Hget Hr) as [Hrent [tx [Hin Htx]]].
      split; [exact Hrent|]. exists tx. split; [|exact Htx].
      rewrite Hlog. apply in_or_app. left. exact Hin.
  - destruct (Hnew a Hafter Hbefore) as (_ & Hrent & Hrow).
    unfold rentOf in Hrent. rewrite Hget in Hrent. simpl in Hrent.
    split; [congruence | exact Hrow].
Qed.

(** C4.  Starting from a store with unique addresses in which every
    Reclaimed account has balance 0 and a successful row in the reclaim log,
    every sequence of operations ends in such a store; and a live run of the
    executor that reports success leaves the account Reclaimed, with balance
    0 and a successful row for its address. *)
Theorem reclaimed_invariant
        (config : BotConfig) (belowTenth : Z -> Z -> bool) (ops : list Op) (db : Db) :
  uniqueAddresses db -> reclaimedInvariant db ->
  (uniqueAddresses (run config belowTenth ops db)
   /\ reclaimedInvariant (run config belowTenth ops db))
  /\ (forall env pk forceDryRun start r sent db',
         reclaimSingleAccount config env pk forceDryRun start = (Resolved r, sent, db') ->
         r_success r = true -> r_dryRun r = false ->
         statusOf db' pk = Some RECLAIMED /\ rentOf db' pk = Some 0
         /\ hasSuccessfulReclaim db' pk).
Proof.
  intros Hu Hinv. split.
  - revert db Hu Hinv. induction ops as [|op ops IH]; intros db Hu Hinv; [auto|].
    rewrite run_cons.
    destruct (exec_preserves_invariant config belowTenth op db Hu Hinv) as [Hu' Hinv'].
    apply IH; assumption.
  - intros env pk forceDryRun start r sent db' Hrun Hok Hlive.
    destruct (reclaim_cases _ _ _ _ _ _ _ _ Hrun) as [oel [dbE [Hel Hcases]]].
    destruct (reclaim_frame _ _ _ _ _ _ _ _ Hrun) as (_ & _ & _ & _ & Hnew & _).
    destruct Hcases as [(_ & _ & Hres & _)
                       |[(tx & r' & el & _ & _ & _ & Hout & Hrs & _)
                        |[(tx & r' & el & info & _ & _ & _ & _ & _ & _ & Hout & _ & _ & Hdry & _)
                         |(tx & r' & el & info & _ & -> & _ & _ & _ & _ & -> & Helig & _)]]].
    + destruct (Hres r eq_refl) as [Hf _]. congruence.
    + injection Hout as <-. congruence.
    + injection Hout as <-. congruence.
    + destruct (checkEligibility_outcome _ _ _ _ _ _ _ Hel Helig) as [tracked [Hget [Hnr _]]].
      destruct (checkEligibility_frame _ _ _ _ _ _ _ Hel) as (_ & Hpk & _).
      assert (Hst : statusOf
                      (updateAccountRent pk 0 (clock env)
                         (updateAccountStatus pk RECLAIMED None (clock env)
                            (snd (recordReclaimTransaction tx dbE)))) pk = Some RECLAIMED).
      { unfold statusOf.
        rewrite getAccount_updateAccountRent, getAccount_updateAccountStatus,
          getAccount_recordReclaimTransaction, String.eqb_refl.
        destruct Hpk as [->|(row & _ & _ & _ & ->)]; [rewrite Hget|]; reflexivity. }
      split; [exact Hst|]. apply Hnew; [exact Hst|].
      unfold statusOf. rewrite Hget. simpl. congruence.
Qed.

Lemma reclaimed_invariant_witness :
  let db := Scenario.storeWith (Scenario.tracked Scenario.alice ACTIVE 2039280 None) in
  let ops :=
    [ReclaimSingleAccount
       (Scenario.steady (Scenario.ledger (fun _ => Scenario.onChain 890880 SYSTEM_PROGRAM_ID)
                                         (Resolved "5j7s6NiJS3JAkvgkoc18WVAsiSaci2pxB2A6ueCJP4tprA2TFg9wSyTLeYouxPBJEMzJinENTkpA52YStRW5Dia7")))
       Scenario.alice (Some false);
     CheckAllAccounts (Scenario.ledger (fun _ => None) (Resolved "unused"))
                      (Scenario.today + Scenario.day) 25] in
  uniqueAddresses (run (Scenario.withThreshold 1000000) Scenario.tenth ops db)
  /\ reclaimedInvariant (run (Scenario.withThreshold 1000000) Scenario.tenth ops db).
Proof.
  intros db ops.
  apply (reclaimed_invariant (Scenario.withThreshold 1000000) Scenario.tenth ops db).
  - repeat constructor. simpl. intros [].
  - intros a row Hget Hr. unfold db, Scenario.storeWith, getAccount in Hget.
    cbn [tracked_accounts find] in Hget.
    match type of Hget with
    | context [if ?c then _ else _] => destruct c; [|discriminate]
    end.
    injection Hget as <-. discriminate.
Defined.

Lemma run_unique (config : BotConfig) (belowTenth : Z -> Z -> bool) (op : Op) (db : Db) :
  uniqueAddresses db -> uniqueAddresses (exec config belowTenth op db).
Proof. intro Hu. apply (exec_step config belowTenth op db Hu). exact Hu. Qed.

(** C5, as the code has it.  Along any sequence of operations, an account
    that was not Reclaimed and ends Reclaimed was made so by one operation of
    the sequence, in which a live run of the executor for its address
    reported success.  The status the account leaves need not be Closed. *)
Theorem reclaimed_only_by_live_success
        (config : BotConfig) (belowTenth : Z -> Z -> bool) (ops : list Op) (db : Db)
        (a : PublicKey) :
  uniqueAddresses db ->
  statusOf db a <> Some RECLAIMED ->
  statusOf (run config belowTenth ops db) a = Some RECLAIMED ->
  exists op before,
    In (op, before) (steps config belowTenth ops db)
    /\ statusOf before a <> Some RECLAIMED
    /\ statusOf (exec config belowTenth op before) a = Some RECLAIMED
    /\ exists r, In r (executorResults config op before) /\ liveSuccessFor a r.
Proof.
  revert db. induction ops as [|op ops IH]; intros db Hu Hbefore Hafter.
  - simpl in Hafter. contradiction.
  - rewrite run_cons in Hafter.
    destruct (status_decide (exec config belowTenth op db) a) as [Hnow|Hnow].
    + destruct (exec_step config belowTenth op db Hu) as (_ & _ & _ & Hnew).
      destruct (Hnew a Hnow Hbefore) as (Hr & _).
      exists op, db. split; [left; reflexivity | auto].
    + destruct (IH _ (run_unique config belowTenth op db Hu) Hnow Hafter)
        as (op' & before & Hin & Hrest).
      exists op', before. split; [right; exact Hin | exact Hrest].
Qed.

Lemma reclaimed_only_by_live_success_witness :
  let config := Scenario.withThreshold 1000000 in
  let db := Scenario.storeWith (Scenario.tracked Scenario.alice INACTIVE 2039280 None) in
  let ops :=
    [CheckEligibility (Scenario.ledger (fun _ => Scenario.onChain 890880 SYSTEM_PROGRAM_ID)
                                       (Resolved "unused")) Scenario.today Scenario.alice;
     ReclaimSingleAccount
       (Scenario.steady (Scenario.ledger (fun _ => Scenario.onChain 890880 SYSTEM_PROGRAM_ID)
                                         (Resolved "5j7s6NiJS3JAkvgkoc18WVAsiSaci2pxB2A6ueCJP4tprA2TFg9wSyTLeYouxPBJEMzJinENTkpA52YStRW5Dia7")))
       Scenario.alice (Some false)] in
  exists op before,
    In (op, before) (steps config Scenario.tenth ops db)
    /\ statusOf before Scenario.alice <> Some RECLAIMED
    /\ statusOf (exec config Scenario.tenth op before) Scenario.alice = Some RECLAIMED
    /\ exists r, In r (executorResults config op before) /\ liveSuccessFor Scenario.alice r.
Proof.
  intros config db ops.
  apply (reclaimed_only_by_live_success config Scenario.tenth ops db Scenario.alice).
  - repeat constructor. simpl. intros [].
  - vm_compute. discriminate.
  - vm_compute. reflexivity.
Defined.

(** C5 as stated fails: a live reclaim takes an Active account that still
    exists on-chain, with a balance under the threshold, straight to
    Reclaimed. *)
Lemma active_account_reclaimed_directly :
  let config := Scenario.withThreshold 1000000 in
  let env :=
    Scenario.steady
      (Scenario.ledger (fun _ => Scenario.onChain 890880 SYSTEM_PROGRAM_ID)
                       (Resolved "5j7s6NiJS3JAkvgkoc18WVAsiSaci2pxB2A6ueCJP4tprA2TFg9wSyTLeYouxPBJEMzJinENTkpA52YStRW5Dia7")) in
  let db := Scenario.storeWith (Scenario.tracked Scenario.alice ACTIVE 2039280 None) in
  statusOf db Scenario.alice = Some ACTIVE
  /\ statusOf (exec config Scenario.tenth
                    (ReclaimSingleAccount env Scenario.alice (Some false)) db)
              Scenario.alice = Some RECLAIMED.
Proof. cbv zeta. split; vm_compute; reflexivity. Qed.

(** C10, as the code has it.  Along any sequence of operations that
    contains no allow-list addition for its address, a Reclaimed account
    keeps its row, hence its status; an allow-list addition for a tracked
    address sets its status to Whitelisted whatever it was. *)
Theorem reclaimed_is_terminal_but_for_allow_list
        (config : BotConfig) (belowTenth : Z -> Z -> bool) (ops : list Op) (db : Db)
        (a : PublicKey) :
  uniqueAddresses db ->
  statusOf db a = Some RECLAIMED ->
  (forall op, In op ops -> isWhitelistAdd a op = false) ->
  (getAccount (run config belowTenth ops db) a = getAccount db a
   /\ statusOf (run config belowTenth ops db) a = Some RECLAIMED)
  /\ (forall reason now,
         statusOf (exec config belowTenth (AddToWhitelist a reason now) db) a
         = Some WHITELISTED).
Proof.
  intros Hu Hst Hops. split.
  - revert db Hu Hst. induction ops as [|op ops IH]; intros db Hu Hst; [auto|].
    rewrite run_cons.
    destruct (exec_step config belowTenth op db Hu) as (_ & _ & Hkeep & _).
    assert (Hsame : getAccount (exec config belowTenth op db) a = getAccount db a).
    { apply Hkeep; [apply Hops; left; reflexivity | exact Hst]. }
    assert (Hst' : statusOf (exec config belowTenth op db) a = Some RECLAIMED).
    { unfold statusOf in *. rewrite Hsame. exact Hst. }
    destruct (IH (fun op' Hin => Hops op' (or_intror Hin)) _
                 (run_unique config belowTenth op db Hu) Hst') as [Hrow Hfinal].
    split; [congruence | exact Hfinal].
  - intros reason now. simpl. unfold statusOf in *.
    rewrite whitelist_status, String.eqb_refl.
    destruct (getAccount db a); [reflexivity | discriminate].
Qed.

Lemma reclaimed_is_terminal_but_for_allow_list_witness :
  let db := Scenario.storeWith
              (Scenario.tracked Scenario.alice RECLAIMED 0
                                (Some (Scenario.today - 10 * Scenario.day))) in
  let ops :=
    [CheckAllAccounts (Scenario.ledger (fun _ => Scenario.onChain 890880 SYSTEM_PROGRAM_ID)
                                       (Resolved "unused")) Scenario.today 25;
     ReclaimSingleAccount
       (Scenario.steady (Scenario.ledger (fun _ => Scenario.onChain 890880 SYSTEM_PROGRAM_ID)
                                         (Resolved "unused")))
       Scenario.alice (Some false);
     AddToWhitelist Scenario.bob None Scenario.today;
     AddToBlacklist Scenario.alice (Some "closed by owner") Scenario.today] in
  (getAccount (run Scenario.config Scenario.tenth ops db) Scenario.alice
   = getAccount db Scenario.alice
   /\ statusOf (run Scenario.config Scenario.tenth ops db) Scenario.alice = Some RECLAIMED)
  /\ (forall reason now,
         statusOf (exec Scenario.config Scenario.tenth
                        (AddToWhitelist Scenario.alice reason now) db) Scenario.alice
         = Some WHITELISTED).
Proof.
  intros db ops.
  apply (reclaimed_is_terminal_but_for_allow_list Scenario.config Scenario.tenth ops db
           Scenario.alice).
  - repeat constructor. simpl. intros [].
  - reflexivity.
  - intros op [<-|[<-|[<-|[<-|[]]]]]; reflexivity.
Defined.

(** C10 as stated fails: adding a Reclaimed account to the allow-list
    changes its status to Whitelisted. *)
Lemma allow_list_rewrites_reclaimed :
  let db := Scenario.storeWith
              (Scenario.tracked Scenario.alice RECLAIMED 0
                                (Some (Scenario.today - 10 * Scenario.day))) in
  statusOf db Scenario.alice = Some RECLAIMED
  /\ statusOf (exec Scenario.config Scenario.tenth
                    (AddToWhitelist Scenario.alice (Some "keep") Scenario.today) db)
              Scenario.alice = Some WHITELISTED.
Proof. cbv zeta. split; vm_compute; reflexivity. Qed.




(** The two runs on a concrete history: the first finds and inserts two
    accounts and records one failed fetch; the second finds the same two and
    inserts none. *)
Example discovery_twice :
  let first :=
    discoverSponsoredAccounts Scenario.config Scenario.history Scenario.today None 1000
                              Database.empty in
  let second :=
    discoverSponsoredAccounts Scenario.config Scenario.history
                              (Scenario.today + Scenario.day) None 1000 (snd first) in
  (newAccounts (fst first), existingAccounts (fst first), List.length (errors (fst first)))
  = (2%nat, 0%nat, 1%nat)
  /\ map (fun r : TrackedAccount => (pubkey r, status r)) (tracked_accounts (snd first))
     = [(Scenario.bob, CLOSED); (Scenario.alice, ACTIVE)]
  /\ (newAccounts (fst second), existingAccounts (fst second)) = (0%nat, 2%nat)
  /\ snd second = snd first.
Proof. cbv zeta. repeat split; vm_compute; reflexivity. Qed.

(** * Further properties of the code *)

Import Accounting.

(** ** Sums on numbers *)

(** Up to [MAX_SAFE_INTEGER] the numbers are the integers and their sums are
    exact. *)
Lemma toDouble_exact (n : Z) : 0 <= n <= MAX_SAFE_INTEGER -> toDouble n = n.
Proof.
  unfold toDouble, MAX_SAFE_INTEGER. intro H.
  destruct (Z.abs n <=? 9007199254740992) eqn:E; [reflexivity|].
  apply Z.leb_gt in E. lia.
Qed.

Lemma plus_exact (x y : Z) :
  0 <= x -> 0 <= y -> x + y <= MAX_SAFE_INTEGER -> Js.plus x y = x + y.
Proof. intros Hx Hy Hmax. unfold Js.plus. apply toDouble_exact. lia. Qed.

Lemma sumLamports_nonneg (rs : list ReclaimResult) :
  Forall (fun r => 0 <= lamportsOf r) rs -> 0 <= sumLamports rs.
Proof. unfold sumLamports. induction 1; simpl; lia. Qed.

(** The running total of a batch is the sum of the amounts as long as that
    sum is a safe integer. *)
Lemma addedUp_exact (rs : list ReclaimResult) :
  forall start,
    0 <= start ->
    Forall (fun r => 0 <= lamportsOf r) rs ->
    start + sumLamports rs <= MAX_SAFE_INTEGER ->
    addedUp start rs = start + sumLamports rs.
Proof.
  induction rs as [|r rs IH]; intros start Hstart Hall Hmax.
  - unfold addedUp, sumLamports. simpl. lia.
  - inversion Hall as [|r0 rs0 Hr Hrs]; subst.
    pose proof (sumLamports_nonneg rs Hrs) as Hsum.
    change (sumLamports (r :: rs)) with (lamportsOf r + sumLamports rs) in *.
    change (addedUp start (r :: rs))
      with (addedUp (if r_success r
                     then Js.plus start
                            match r_lamportsReclaimed r with Some n => n | None => 0 end
                     else start) rs).
    unfold lamportsOf in Hr, Hmax |- *.
    destruct (r_success r).
    + rewrite plus_exact by lia. rewrite IH; [lia | lia | exact Hrs | lia].
    + rewrite IH; [lia | lia | exact Hrs | lia].
Qed.

Lemma addedUp_app (rs : list ReclaimResult) (r : ReclaimResult) (start : Z) :
  addedUp start (rs ++ [r])
  = if r_success r
    then Js.plus (addedUp start rs)
                 match r_lamportsReclaimed r with Some n => n | None => 0 end
    else addedUp start rs.
Proof. unfold addedUp. rewrite fold_left_app. reflexivity. Qed.

(** ** What the executor submits *)

Lemma close_submits (conn : Connection) (pk dest auth : PublicKey) (dry : bool)
      (out : Outcome CloseResult) (sent : list Transaction) :
  closeAccountAndReclaimRent conn pk dest auth dry = (out, sent) ->
  sent = []
  \/ (dry = false
      /\ exists info,
           rpcGetAccountInfo conn pk = Resolved (Some info)
           /\ ai_owner info = SYSTEM_PROGRAM_ID
           /\ sent = [{| instructions := [SystemTransfer pk dest (ai_lamports info)];
                         signers := [auth] |}]).
Proof.
  unfold closeAccountAndReclaimRent, getAccountInfo.
  destruct (rpcGetAccountInfo conn pk) as [[info|]|e]; simpl;
    try (intro H; inversion H; left; reflexivity).
  destruct dry; [intro H; inversion H; left; reflexivity|].
  destruct (ai_owner info =? SYSTEM_PROGRAM_ID)%string eqn:Ho;
    [|intro H; inversion H; left; reflexivity].
  apply String.eqb_eq in Ho.
  destruct (rpcSendAndConfirm conn _); intro H; inversion H; right;
    (split; [reflexivity | exists info; auto]).
Qed.

Lemma lists_updateWhere (pk : PublicKey) (f : TrackedAccount -> TrackedAccount) (db : Db) :
  whitelist (updateWhere pk f db) = whitelist db
  /\ blacklist (updateWhere pk f db) = blacklist db
  /\ reclaim_transactions (updateWhere pk f db) = reclaim_transactions db.
Proof. repeat split. Qed.

(** One run of the single-account protocol leaves the two lists alone, and
    what it submits, if anything, is one transfer of the whole balance found
    by the submission layer, from the account to the treasury, signed with
    the operator key, in live mode, for an account on neither list. *)
Lemma reclaim_submission (config : BotConfig) (env : ReclaimEnv) (pk : PublicKey)
      (forceDryRun : option bool) (db : Db)
      (out : Outcome ReclaimResult) (sent : list Transaction) (db' : Db) :
  reclaimSingleAccount config env pk forceDryRun db = (out, sent, db') ->
  whitelist db' = whitelist db /\ blacklist db' = blacklist db
  /\ (sent = []
      \/ ((match forceDryRun with Some b => b | None => dryRun config end) = false
          /\ isWhitelisted db pk = false /\ isBlacklisted db pk = false
          /\ exists treasury operator info,
               getTreasuryPubkey config = Resolved treasury
               /\ loadOperatorKeypair config = Resolved operator
               /\ rpcGetAccountInfo (atClose env) pk = Resolved (Some info)
               /\ ai_owner info = SYSTEM_PROGRAM_ID
               /\ sent = [{| instructions :=
                               [SystemTransfer pk treasury (ai_lamports info)];
                             signers := [operator] |}])).
Proof.
  unfold reclaimSingleAccount. cbv zeta.
  set (dry := match forceDryRun with Some b => b | None => dryRun config end).
  clearbody dry.
  destruct (checkEligibility config (atEligibility env) (clock env) pk db)
    as [[el|e] dbE] eqn:Hel.
  2: { intro H; injection H as <- <- <-.
       destruct (checkEligibility_frame _ _ _ _ _ _ _ Hel) as [_ [_ [_ [Hw [Hb _]]]]].
       auto. }
  destruct (checkEligibility_frame _ _ _ _ _ _ _ Hel) as [_ [_ [_ [Hw [Hb _]]]]].
  pose proof (checkEligibility_outcome _ _ _ _ _ _ _ Hel) as Hout. cbn beta iota in Hout.
  destruct (eligible el) eqn:Helig; cbn [negb];
    [|intro H; injection H as <- <- <-; auto].
  destruct (Hout eq_refl) as [row [_ [_ [Hnw [Hnb _]]]]].
  destruct (getTreasuryPubkey config) as [treasury|e] eqn:Htreasury;
    [|intro H; injection H as <- <- <-; auto].
  destruct (getAccountInfo (atBalance env) pk) as [info2|e];
    [|intro H; injection H as <- <- <-; auto].
  split_match; [intro H; injection H as <- <- <-; auto|].
  destruct (loadOperatorKeypair config) as [kp|e] eqn:Hkey;
    [|intro H; injection H as <- <- <-; auto].
  destruct (closeAccountAndReclaimRent (atClose env) pk treasury kp dry)
    as [[cr|e] sent0] eqn:Hclose.
  - assert (Hsent : sent0 = []
              \/ (dry = false /\ isWhitelisted db pk = false /\ isBlacklisted db pk = false
                  /\ exists treasury0 operator info,
                       Resolved treasury = Resolved treasury0
                       /\ Resolved kp = Resolved operator
                       /\ rpcGetAccountInfo (atClose env) pk = Resolved (Some info)
                       /\ ai_owner info = SYSTEM_PROGRAM_ID
                       /\ sent0 = [{| instructions :=
                                        [SystemTransfer pk treasury0 (ai_lamports info)];
                                      signers := [operator] |}])).
    { destruct (close_submits _ _ _ _ _ _ _ Hclose) as [->|[Hd [info [Hr [Ho ->]]]]];
        [left; reflexivity|].
      right. repeat split; auto. exists treasury, kp, info. auto. }
    destruct (c_success cr); [destruct dry|]; intro H; injection H as <- <- <-;
      (split; [exact Hw | split; [exact Hb | exact Hsent]]).
  - intro H; injection H as <- <- <-.
    split; [exact Hw | split; [exact Hb|]]. left.
    destruct (close_submits _ _ _ _ _ _ _ Hclose) as [->|[_ [info [Hr _]]]]; [reflexivity|].
    exfalso. revert Hclose. unfold closeAccountAndReclaimRent, getAccountInfo. rewrite Hr.
    simpl. repeat split_match; discriminate.
Qed.

(** ** Batches *)

Lemma reclaim_result_tags (config : BotConfig) (env : ReclaimEnv) (pk : PublicKey)
      (forceDryRun : option bool) (db : Db)
      (r : ReclaimResult) (sent : list Transaction) (db' : Db) :
  reclaimSingleAccount config env pk forceDryRun db = (Resolved r, sent, db') ->
  r_accountPubkey r = pk
  /\ r_dryRun r = match forceDryRun with Some b => b | None => dryRun config end.
Proof.
  intro H. destruct (reclaim_cases _ _ _ _ _ _ _ _ H) as [oel [dbE [_ Hcases]]].
  cbv zeta in Hcases.
  destruct Hcases as [(_ & _ & Hres & _)
                     |[(tx & r0 & el & _ & _ & _ & Hr & _ & Hp & Hd & _)
                      |[(tx & r0 & el & info & Hdry & _ & _ & _ & _ & _ & Hr & _ & Hp & Hd & _)
                       |(tx & r0 & el & info & Hdry & _ & _ & _ & Hr & Hlive & _)]]].
  - destruct (Hres r eq_refl) as [_ [Hp Hd]]. auto.
  - injection Hr as <-. auto.
  - injection Hr as <-. rewrite Hdry. auto.
  - injection Hr as <-. destruct Hlive as [_ [Hp Hd]]. rewrite Hdry. auto.
Qed.

Lemma counts_app (rs : list ReclaimResult) (r : ReclaimResult) :
  successes (rs ++ [r]) = (successes rs + if r_success r then 1 else 0)%nat
  /\ failures (rs ++ [r]) = (failures rs + if r_success r then 0 else 1)%nat
  /\ sumLamports (rs ++ [r]) = sumLamports rs + lamportsOf r.
Proof.
  unfold successes, failures, sumLamports. rewrite !filter_app, !length_app. simpl.
  split; [|split].
  - destruct (r_success r); reflexivity.
  - destruct (r_success r); reflexivity.
  - induction rs as [|x rs IH]; simpl; lia.
Qed.

(** The counters of a batch after the loop, from the results it appended. *)
Lemma reclaimLoop_accounting (config : BotConfig) (dry : bool) (envs : nat -> ReclaimEnv)
      (pks : list PublicKey) :
  forall (i : nat) (summary : BatchReclaimSummary) (sent : list Transaction) (db : Db)
         (thrown : option Thrown) (summary' : BatchReclaimSummary)
         (sent' : list Transaction) (db' : Db),
    reclaimLoop config dry envs i pks summary sent db = (thrown, summary', sent', db') ->
    exists rs,
      results summary' = results summary ++ rs
      /\ totalSuccessful summary' = (totalSuccessful summary + successes rs)%nat
      /\ totalFailed summary' = (totalFailed summary + failures rs)%nat
      /\ totalLamportsReclaimed summary' = addedUp (totalLamportsReclaimed summary) rs
      /\ totalEligible summary' = totalEligible summary
      /\ b_dryRun summary' = b_dryRun summary
      /\ map r_accountPubkey rs = firstn (List.length rs) pks
      /\ Forall (fun r => r_dryRun r = dry) rs
      /\ match thrown with
         | None =>
             List.length rs = List.length pks
             /\ totalAttempted summary' = (totalAttempted summary + List.length rs)%nat
         | Some _ =>
             (List.length rs < List.length pks)%nat
             /\ totalAttempted summary' = (totalAttempted summary + S (List.length rs))%nat
         end.
Proof.
  induction pks as [|pk rest IH]; intros i summary sent db thrown summary' sent' db' H.
  - simpl in H. injection H as <- <- <- <-. exists []. rewrite app_nil_r.
    unfold successes, failures, addedUp. simpl.
    repeat split; auto; lia.
  - simpl in H.
    destruct (reclaimSingleAccount config (envs i) pk (Some dry) db)
      as [[[r|e] sent1] db1] eqn:Hone.
    + destruct (reclaim_result_tags _ _ _ _ _ _ _ _ Hone) as [Hp Hd].
      destruct (IH _ _ _ _ _ _ _ _ H)
        as (rs & Hres & Hs & Hf & Hl & He & Hdr & Hpk & Hall & Hend).
      exists (r :: rs).
      destruct (counts_app [] r) as [Hc1 [Hc2 Hc3]]. simpl in Hc1, Hc2, Hc3.
      simpl in Hres, Hs, Hf, Hl, He, Hdr.
      split; [rewrite Hres, <- app_assoc; reflexivity|].
      split; [rewrite Hs; unfold successes; simpl; destruct (r_success r); simpl; lia|].
      split; [rewrite Hf; unfold failures; simpl; destruct (r_success r); simpl; lia|].
      split; [rewrite Hl; reflexivity|].
      split; [exact He|]. split; [exact Hdr|].
      split; [simpl; rewrite Hp, Hpk; reflexivity|].
      split; [constructor; [exact Hd | exact Hall]|].
      destruct thrown; simpl in Hend |- *; destruct Hend as [Hlen Hatt]; split; lia.
    + injection H as <- <- <- <-. exists []. rewrite app_nil_r.
      unfold successes, failures, sumLamports. simpl.
      repeat split; auto; lia.
Qed.

Lemma counts_total (rs : list ReclaimResult) :
  (successes rs + failures rs)%nat = List.length rs.
Proof.
  unfold successes, failures. induction rs as [|r rs IH]; simpl; [reflexivity|].
  destruct (r_success r); simpl; lia.
Qed.

Lemma picked_none (l : list PublicKey) : picked [] l.
Proof. induction l; constructor; assumption. Qed.

Lemma picked_in (l l' : list PublicKey) :
  picked l l' -> forall a, In a l -> In a l'.
Proof.
  induction 1 as [|pk l l' _ IH|pk l l' _ IH]; intros a Ha.
  - exact Ha.
  - right. apply IH. exact Ha.
  - destruct Ha as [<-|Ha]; [left; reflexivity | right; apply IH; exact Ha].
Qed.

Lemma picked_once (l l' : list PublicKey) : picked l l' -> NoDup l' -> NoDup l.
Proof.
  induction 1 as [|pk l l' _ IH|pk l l' Hp IH]; intro Hnd.
  - constructor.
  - inversion Hnd; subst. apply IH. assumption.
  - inversion Hnd as [|? ? Hfresh Hrest]; subst.
    constructor; [|apply IH; exact Hrest].
    intro Hin. apply Hfresh. apply (picked_in _ _ Hp). exact Hin.
Qed.

(** What a batch submits: at most one transaction per attempt, each of them
    a transfer from the address of the attempt, which is on neither list, to
    the treasury, signed with the operator key; nothing in dry-run mode. *)
Lemma reclaimLoop_submissions (config : BotConfig) (dry : bool) (envs : nat -> ReclaimEnv)
      (pks : list PublicKey) :
  forall (i : nat) (summary : BatchReclaimSummary) (sent : list Transaction) (db : Db)
         (thrown : option Thrown) (summary' : BatchReclaimSummary)
         (sent' : list Transaction) (db' : Db),
    reclaimLoop config dry envs i pks summary sent db = (thrown, summary', sent', db') ->
    whitelist db' = whitelist db /\ blacklist db' = blacklist db
    /\ exists more,
        sent' = sent ++ more
        /\ (List.length more <= List.length pks)%nat
        /\ picked (payers more) pks
        /\ (dry = true -> more = [])
        /\ forall tx, In tx more ->
             exists pk treasury operator amount,
               In pk pks
               /\ isWhitelisted db pk = false /\ isBlacklisted db pk = false
               /\ getTreasuryPubkey config = Resolved treasury
               /\ loadOperatorKeypair config = Resolved operator
               /\ tx = {| instructions := [SystemTransfer pk treasury amount];
                          signers := [operator] |}.
Proof.
  induction pks as [|pk rest IH]; intros i summary sent db thrown summary' sent' db' H.
  - simpl in H. injection H as <- <- <- <-. repeat split; auto.
    exists []. rewrite app_nil_r. repeat split; auto; [constructor | intros tx []].
  - simpl in H.
    destruct (reclaimSingleAccount config (envs i) pk (Some dry) db)
      as [[out1 sent1] db1] eqn:Hone.
    destruct (reclaim_submission _ _ _ _ _ _ _ _ Hone) as [Hw [Hb Hsent]].
    cbn beta iota in Hsent.
    assert (Hfirst :
              (List.length sent1 <= 1)%nat /\ (dry = true -> sent1 = [])
              /\ (payers sent1 = [] \/ payers sent1 = [pk])
              /\ forall tx, In tx sent1 ->
                   exists pk0 treasury operator amount,
                     In pk0 (pk :: rest)
                     /\ isWhitelisted db pk0 = false /\ isBlacklisted db pk0 = false
                     /\ getTreasuryPubkey config = Resolved treasury
                     /\ loadOperatorKeypair config = Resolved operator
                     /\ tx = {| instructions := [SystemTransfer pk0 treasury amount];
                                signers := [operator] |}).
    { destruct Hsent as [->|(Hd & Hnw & Hnb & treasury & operator & info
                              & Ht & Hk & _ & _ & ->)].
      - split; [simpl; lia|]. split; [reflexivity|]. split; [left; reflexivity|].
        intros tx [].
      - split; [simpl; lia|]. split; [intro Hdry; congruence|].
        split; [right; reflexivity|].
        intros tx [<-|[]]. exists pk, treasury, operator, (ai_lamports info).
        repeat split; auto. left. reflexivity. }
    destruct Hfirst as [Hlen1 [Hdry1 [Hpay1 Htx1]]].
    destruct out1 as [r|e].
    + destruct (IH _ _ _ _ _ _ _ _ H)
        as (Hw' & Hb' & more & Hmore & Hlen & Hpicked & Hdry & Htx).
      split; [congruence|]. split; [congruence|].
      exists (sent1 ++ more). split; [rewrite Hmore, app_assoc; reflexivity|].
      split; [rewrite length_app; simpl; lia|].
      split; [unfold payers in *; rewrite flat_map_app;
              destruct Hpay1 as [->| ->]; simpl; constructor; exact Hpicked|].
      split; [intro Hd; rewrite (Hdry1 Hd), (Hdry Hd); reflexivity|].
      intros tx Hin. apply in_app_or in Hin. destruct Hin as [Hin|Hin]; [auto|].
      destruct (Htx tx Hin) as (pk0 & treasury & operator & amount
                                & Hin0 & Hnw & Hnb & Ht & Hk & ->).
      exists pk0, treasury, operator, amount.
      unfold isWhitelisted, isBlacklisted in *. rewrite Hw in Hnw. rewrite Hb in Hnb.
      repeat split; auto. right. exact Hin0.
    + injection H as <- <- <- <-.
      split; [exact Hw|]. split; [exact Hb|].
      exists sent1. split; [reflexivity|]. split; [simpl; lia|].
      split; [destruct Hpay1 as [->| ->]; constructor; apply picked_none|]. split; auto.
Qed.

(** X3.  Whatever a batch submits goes to the treasury: [reclaimMultiple]
    and [reclaimAllEligible] hand the ledger at most one transaction per
    attempt and none at all in dry-run mode: the accounts the transactions
    draw from are, in order, the addresses of the list with some left out,
    so no account is drawn from twice unless the list names it twice, and,
    for the eligible set of a store with unique addresses, never.  Each
    transaction is a single system transfer from an address of the list,
    which is on neither list of the store, to the resolved treasury key,
    signed with the operator key.  The two lists are left as they were. *)
Theorem batches_pay_only_the_treasury
        (config : BotConfig) (now : Date) (envs : nat -> ReclaimEnv)
        (pubkeys : list PublicKey) (forceDryRun : option bool) (db : Db) :
  let dry := match forceDryRun with Some b => b | None => dryRun config end in
  let goesToTreasury (among : list PublicKey) (tx : Transaction) :=
    exists pk treasury operator amount,
      In pk among
      /\ isWhitelisted db pk = false /\ isBlacklisted db pk = false
      /\ getTreasuryPubkey config = Resolved treasury
      /\ loadOperatorKeypair config = Resolved operator
      /\ tx = {| instructions := [SystemTransfer pk treasury amount];
                 signers := [operator] |} in
  (let '(_, sent, db') := reclaimMultiple config envs pubkeys forceDryRun db in
   (List.length sent <= List.length pubkeys)%nat
   /\ picked (payers sent) pubkeys
   /\ (NoDup pubkeys -> NoDup (payers sent))
   /\ (dry = true -> sent = [])
   /\ (forall tx, In tx sent -> goesToTreasury pubkeys tx)
   /\ whitelist db' = whitelist db /\ blacklist db' = blacklist db)
  /\ (let eligibleAccounts :=
        getEligibleAccounts db (minDormancyDays config) (minReclaimLamports config) now in
      let '(_, sent, db') := reclaimAllEligible config now envs forceDryRun db in
      (List.length sent <= List.length eligibleAccounts)%nat
      /\ picked (payers sent) (map (fun a : TrackedAccount => pubkey a) eligibleAccounts)
      /\ (uniqueAddresses db -> NoDup (payers sent))
      /\ (dry = true -> sent = [])
      /\ (forall tx, In tx sent ->
            goesToTreasury (map (fun a : TrackedAccount => pubkey a) eligibleAccounts) tx)
      /\ whitelist db' = whitelist db /\ blacklist db' = blacklist db).
Proof.
  intros dry goesToTreasury. split.
  - unfold reclaimMultiple. fold dry.
    destruct (reclaimLoop config dry envs 0 pubkeys
                (emptySummary (List.length pubkeys) dry) [] db)
      as [[[thrown summary] sent] db'] eqn:Hloop.
    destruct (reclaimLoop_submissions _ _ _ _ _ _ _ _ _ _ _ _ Hloop)
      as (Hw & Hb & more & Hmore & Hlen & Hpicked & Hdry & Htx).
    simpl in Hmore. subst more.
    split; [exact Hlen|]. split; [exact Hpicked|].
    split; [apply (picked_once _ _ Hpicked)|]. auto.
  - cbv zeta. unfold reclaimAllEligible. fold dry.
    destruct (reclaimLoop config dry envs 0
                (map (fun a : TrackedAccount => pubkey a)
                     (getEligibleAccounts db (minDormancyDays config)
                        (minReclaimLamports config) now))
                (emptySummary
                   (List.length (getEligibleAccounts db (minDormancyDays config)
                                   (minReclaimLamports config) now)) dry) [] db)
      as [[[thrown summary] sent] db'] eqn:Hloop.
    destruct (reclaimLoop_submissions _ _ _ _ _ _ _ _ _ _ _ _ Hloop)
      as (Hw & Hb & more & Hmore & Hlen & Hpicked & Hdry & Htx).
    simpl in Hmore. subst more. rewrite length_map in Hlen.
    split; [exact Hlen|]. split; [exact Hpicked|].
    split; [|auto].
    intro Hu. apply (picked_once _ _ Hpicked).
    unfold getEligibleAccounts. cbv zeta. apply filter_keeps_unique. exact Hu.
Qed.

(** The list decides: named twice, an address can be drawn from twice.
    When the node refuses the first transfer and accepts the second, two
    transfers from the same account have been handed to it. *)
Example an_address_listed_twice_is_attempted_twice :
  let config := Scenario.withThreshold 2100000 in
  let refused :=
    Scenario.steady (Scenario.ledger (fun _ => Scenario.onChain 2039280 SYSTEM_PROGRAM_ID)
                                     (Rejected (ErrorObj "Blockhash not found"))) in
  let accepted :=
    Scenario.steady (Scenario.ledger (fun _ => Scenario.onChain 2039280 SYSTEM_PROGRAM_ID)
                                     (Resolved "unused")) in
  let db := Scenario.storeWith
              (Scenario.tracked Scenario.alice CLOSED 2500000
                                (Some (Scenario.today - 10 * Scenario.day))) in
  payers (snd (fst (reclaimMultiple config
                      (fun i => match i with O => refused | _ => accepted end)
                      [Scenario.alice; Scenario.alice] (Some false) db)))
  = [Scenario.alice; Scenario.alice].
Proof. vm_compute. reflexivity. Qed.

(** X5.  The counters of a batch summary add up.  When [reclaimMultiple]
    returns, every requested address was attempted once, in order, and the
    summary counts the results it lists: successes, failures, and the running
    total of the lamports of the successful ones, added up on numbers in the
    order of the list; that total is the sum of the amounts whenever the
    amounts are not negative and their sum is a safe integer.
    [reclaimAllEligible] counts the eligible set it queried; when one of its
    calls throws, the call is counted as attempted without a result. *)
Theorem batch_summary_adds_up
        (config : BotConfig) (now : Date) (envs : nat -> ReclaimEnv)
        (pubkeys : list PublicKey) (forceDryRun : option bool) (db : Db) :
  let dry := match forceDryRun with Some b => b | None => dryRun config end in
  let counted (summary : BatchReclaimSummary) :=
    totalSuccessful summary = successes (results summary)
    /\ totalFailed summary = failures (results summary)
    /\ (totalSuccessful summary + totalFailed summary)%nat = List.length (results summary)
    /\ totalLamportsReclaimed summary = addedUp 0 (results summary)
    /\ (Forall (fun r => 0 <= lamportsOf r) (results summary) ->
        sumLamports (results summary) <= MAX_SAFE_INTEGER ->
        totalLamportsReclaimed summary = sumLamports (results summary))
    /\ b_dryRun summary = dry
    /\ Forall (fun r => r_dryRun r = dry) (results summary) in
  match fst (fst (reclaimMultiple config envs pubkeys forceDryRun db)) with
  | Resolved summary =>
      counted summary
      /\ totalEligible summary = List.length pubkeys
      /\ totalAttempted summary = List.length pubkeys
      /\ map r_accountPubkey (results summary) = pubkeys
  | Rejected _ => True
  end
  /\ (let eligibleAccounts :=
        getEligibleAccounts db (minDormancyDays config) (minReclaimLamports config) now in
      let summary := fst (fst (reclaimAllEligible config now envs forceDryRun db)) in
      counted summary
      /\ totalEligible summary = List.length eligibleAccounts
      /\ (totalAttempted summary <= totalEligible summary)%nat
      /\ (totalAttempted summary = List.length (results summary)
          \/ totalAttempted summary = S (List.length (results summary)))
      /\ map r_accountPubkey (results summary)
         = firstn (List.length (results summary))
                  (map (fun a : TrackedAccount => pubkey a) eligibleAccounts)).
Proof.
  intros dry counted.
  assert (Hcounted : forall summary rs,
             results summary = rs ->
             totalSuccessful summary = successes rs ->
             totalFailed summary = failures rs ->
             totalLamportsReclaimed summary = addedUp 0 rs ->
             b_dryRun summary = dry ->
             Forall (fun r => r_dryRun r = dry) rs ->
             counted summary).
  { intros summary rs Hres Hs Hf Hl Hdr Hall. unfold counted. rewrite Hres.
    split; [exact Hs|]. split; [exact Hf|].
    split; [rewrite Hs, Hf; apply counts_total|]. split; [exact Hl|].
    split; [|split; [exact Hdr | exact Hall]].
    intros Hpos Hmax. rewrite Hl. rewrite addedUp_exact; [lia | lia | exact Hpos | lia]. }
  split.
  - unfold reclaimMultiple. fold dry.
    destruct (reclaimLoop config dry envs 0 pubkeys
                (emptySummary (List.length pubkeys) dry) [] db)
      as [[[thrown summary] sent] db'] eqn:Hloop.
    destruct (reclaimLoop_accounting _ _ _ _ _ _ _ _ _ _ _ _ Hloop)
      as (rs & Hres & Hs & Hf & Hl & He & Hdr & Hpk & Hall & Hend).
    cbn [emptySummary results totalSuccessful totalFailed totalLamportsReclaimed
         totalEligible totalAttempted b_dryRun app Nat.add] in Hres, Hs, Hf, Hl, He, Hdr, Hend.
    cbn [fst].
    destruct thrown as [e|]; [exact I|]. destruct Hend as [Hlen Hatt].
    split; [apply (Hcounted summary rs); assumption|].
    split; [exact He|]. split; [lia|].
    rewrite Hres, Hpk, Hlen. apply firstn_all.
  - cbv zeta. unfold reclaimAllEligible. fold dry.
    destruct (reclaimLoop config dry envs 0
                (map (fun a : TrackedAccount => pubkey a)
                     (getEligibleAccounts db (minDormancyDays config)
                        (minReclaimLamports config) now))
                (emptySummary
                   (List.length (getEligibleAccounts db (minDormancyDays config)
                                   (minReclaimLamports config) now)) dry) [] db)
      as [[[thrown summary] sent] db'] eqn:Hloop.
    destruct (reclaimLoop_accounting _ _ _ _ _ _ _ _ _ _ _ _ Hloop)
      as (rs & Hres & Hs & Hf & Hl & He & Hdr & Hpk & Hall & Hend).
    cbn [emptySummary results totalSuccessful totalFailed totalLamportsReclaimed
         totalEligible totalAttempted b_dryRun app Nat.add] in Hres, Hs, Hf, Hl, He, Hdr, Hend.
    cbn [fst].
    rewrite length_map in Hend.
    split; [apply (Hcounted summary rs); assumption|].
    split; [exact He|]. rewrite Hres.
    destruct thrown as [e|]; destruct Hend as [Hlen Hatt];
      (split; [lia|]); (split; [|exact Hpk]); [right|left]; lia.
Qed.

(** ** What the store keeps *)

Lemma sameIdentity_refl (row : TrackedAccount) : sameIdentity row row.
Proof. unfold sameIdentity. auto 10. Qed.

Lemma sameIdentity_trans (r1 r2 r3 : TrackedAccount) :
  sameIdentity r1 r2 -> sameIdentity r2 r3 -> sameIdentity r1 r3.
Proof.
  unfold sameIdentity. intros (? & ? & ? & ? & ? & ?) (? & ? & ? & ? & ? & ?).
  repeat split; try congruence. auto.
Qed.

Lemma remembers_refl (db : Db) : remembers db db.
Proof.
  split; [|split].
  - intros a row H. exists row. split; [exact H | apply sameIdentity_refl].
  - auto.
  - exists []. rewrite app_nil_r. reflexivity.
Qed.

Lemma remembers_trans (db1 db2 db3 : Db) :
  remembers db1 db2 -> remembers db2 db3 -> remembers db1 db3.
Proof.
  intros (Hr1 & Hb1 & [l1 Hl1]) (Hr2 & Hb2 & [l2 Hl2]). split; [|split].
  - intros a row H. destruct (Hr1 a row H) as [row2 [H2 Hs2]].
    destruct (Hr2 a row2 H2) as [row3 [H3 Hs3]].
    exists row3. split; [exact H3 | eapply sameIdentity_trans; eauto].
  - auto.
  - exists (l1 ++ l2). rewrite Hl2, Hl1, app_assoc. reflexivity.
Qed.

Lemma coalesce_keeps {A : Type} (new old : option A) :
  old <> None -> coalesce new old <> None.
Proof. destruct new; simpl; [discriminate | auto]. Qed.

Lemma remembers_updateAccountStatus (pk : PublicKey) (st : AccountStatus)
      (c : option Date) (now : Date) (db : Db) :
  remembers db (updateAccountStatus pk st c now db).
Proof.
  split; [|split].
  - intros a row H. rewrite getAccount_updateAccountStatus, H. simpl.
    destruct (a =? pk)%string; eexists; (split; [reflexivity|]).
    + unfold sameIdentity. simpl. repeat split; auto. apply coalesce_keeps.
    + apply sameIdentity_refl.
  - auto.
  - exists []. rewrite app_nil_r. reflexivity.
Qed.

Lemma remembers_updateAccountRent (pk : PublicKey) (rent : Z) (now : Date) (db : Db) :
  remembers db (updateAccountRent pk rent now db).
Proof.
  split; [|split].
  - intros a row H. rewrite getAccount_updateAccountRent, H. simpl.
    destruct (a =? pk)%string; eexists; (split; [reflexivity|]).
    + unfold sameIdentity. simpl. repeat split; auto.
    + apply sameIdentity_refl.
  - auto.
  - exists []. rewrite app_nil_r. reflexivity.
Qed.

Lemma remembers_record (tx : ReclaimFields) (db : Db) :
  remembers db (snd (recordReclaimTransaction tx db)).
Proof.
  split; [|split].
  - intros a row H. exists row. split; [exact H | apply sameIdentity_refl].
  - auto.
  - eexists. reflexivity.
Qed.

Lemma remembers_grows (db db' : Db) : grows db db' -> remembers db db'.
Proof.
  intros (Hkeep & _ & Hlog & _ & Hbl & _). split; [|split].
  - intros a row H. exists row. split; [apply Hkeep; exact H | apply sameIdentity_refl].
  - intro a. unfold isBlacklisted. rewrite Hbl. auto.
  - exists []. rewrite app_nil_r. exact Hlog.
Qed.

Lemma listed_insertOrReplace (e : ListEntry) (l : list ListEntry) (a : PublicKey) :
  existsb (fun x => (le_pubkey x =? a)%string) (insertOrReplace e l)
  = (le_pubkey e =? a)%string || existsb (fun x => (le_pubkey x =? a)%string) l.
Proof.
  unfold insertOrReplace. rewrite existsb_app. simpl. rewrite orb_false_r.
  destruct (le_pubkey e =? a)%string eqn:E; [apply orb_true_r|]. rewrite orb_false_r.
  induction l as [|x l IH]; simpl; [reflexivity|].
  destruct (le_pubkey x =? le_pubkey e)%string eqn:Ex; simpl.
  - apply String.eqb_eq in Ex. rewrite Ex, E. exact IH.
  - rewrite IH. reflexivity.
Qed.

Lemma remembers_lists (db : Db) (wl bl : list ListEntry) :
  (forall a, isBlacklisted db a = true
             -> existsb (fun x => (le_pubkey x =? a)%string) bl = true) ->
  remembers db {| tracked_accounts := tracked_accounts db;
                  reclaim_transactions := reclaim_transactions db;
                  whitelist := wl; blacklist := bl |}.
Proof.
  intro Hbl. split; [|split].
  - intros a row H. exists row. split; [exact H | apply sameIdentity_refl].
  - exact Hbl.
  - exists []. rewrite app_nil_r. reflexivity.
Qed.

Section Remembering.

Variable config : BotConfig.
Variable belowTenth : Z -> Z -> bool.

Lemma remembers_applyChange (pk : PublicKey) (change : StatusChange) (now : Date) (db : Db) :
  remembers db (applyChange pk change now db).
Proof.
  unfold applyChange. cbv zeta. destruct (newRent change =? previousRent change).
  - apply remembers_updateAccountStatus.
  - eapply remembers_trans; [apply remembers_updateAccountStatus
                            | apply remembers_updateAccountRent].
Qed.

Lemma remembers_checkOne (accountInfos : AccountMap) (now : Date)
      (acc : MonitorResult * Db) (tracked : TrackedAccount) :
  remembers (snd acc) (snd (checkOne belowTenth accountInfos now acc tracked)).
Proof.
  destruct acc as [result db]. unfold checkOne.
  destruct (mapGet accountInfos (pubkey tracked)) as [info|]; [|apply remembers_refl].
  destruct (detectStatusChange belowTenth tracked info) as [change|]; cbn [snd].
  - apply remembers_applyChange.
  - destruct (lamports info =? rentLamports tracked);
      [apply remembers_refl | apply remembers_updateAccountRent].
Qed.

Lemma remembers_checkLoop (accountInfos : AccountMap) (now : Date) (l : list TrackedAccount) :
  forall acc : MonitorResult * Db,
    remembers (snd acc) (snd (fold_left (checkOne belowTenth accountInfos now) l acc)).
Proof.
  induction l as [|t l IH]; intro acc; [apply remembers_refl|].
  cbn [fold_left]. eapply remembers_trans; [apply remembers_checkOne | apply IH].
Qed.

Lemma remembers_checkAllAccounts (conn : Connection) (now : Date) (elapsed : Z) (db : Db) :
  remembers db (snd (checkAllAccounts belowTenth conn now elapsed db)).
Proof.
  unfold checkAllAccounts. cbv zeta.
  destruct (getAccounts db monitoredStatuses) as [|t l] eqn:Hl; [apply remembers_refl|].
  destruct (getMultipleAccountsInfo conn _) as [accountInfos|e]; [|apply remembers_refl].
  pose proof (remembers_checkLoop accountInfos now (t :: l)
                ({| totalChecked := O; statusChanges := []; m_errors := [];
                    duration := 0 |}, db)) as H.
  destruct (fold_left (checkOne belowTenth accountInfos now) (t :: l) _) as [result db'].
  exact H.
Qed.

Lemma remembers_checkSingleAccount (conn : Connection) (now : Date) (pk : PublicKey) (db : Db) :
  remembers db (snd (checkSingleAccount belowTenth conn now pk db)).
Proof.
  unfold checkSingleAccount.
  destruct (getAccount db pk); [|apply remembers_refl].
  destruct (getAccountInfo conn pk) as [info|e]; [|apply remembers_refl].
  destruct (detectStatusChange belowTenth _ info);
    [apply remembers_applyChange | apply remembers_refl].
Qed.

Lemma remembers_checkEligibility (conn : Connection) (now : Date) (pk : PublicKey) (db : Db) :
  remembers db (snd (checkEligibility config conn now pk db)).
Proof.
  destruct (checkEligibility config conn now pk db) as [out db'] eqn:H.
  destruct (checkEligibility_store _ _ _ _ _ _ _ H) as [->|(row & _ & _ & _ & _ & ->)];
    [apply remembers_refl | apply remembers_updateAccountStatus].
Qed.

Lemma remembers_reclaimSingleAccount (env : ReclaimEnv) (pk : PublicKey)
      (forceDryRun : option bool) (db : Db) :
  remembers db (snd (reclaimSingleAccount config env pk forceDryRun db)).
Proof.
  destruct (reclaimSingleAccount config env pk forceDryRun db) as [[out sent] db'] eqn:H.
  destruct (reclaim_cases _ _ _ _ _ _ _ _ H) as [oel [dbE [Hel Hcases]]].
  pose proof (remembers_checkEligibility (atEligibility env) (clock env) pk db) as HE.
  rewrite Hel in HE. cbn [snd] in HE |- *.
  destruct Hcases as [(-> & _)
                     |[(tx & r & el & -> & _)
                      |[(tx & r & el & info & _ & _ & -> & _)
                       |(tx & r & el & info & _ & -> & _)]]].
  - exact HE.
  - eapply remembers_trans; [exact HE | apply remembers_record].
  - eapply remembers_trans; [exact HE | apply remembers_record].
  - eapply remembers_trans; [exact HE|].
    eapply remembers_trans; [apply remembers_record|].
    eapply remembers_trans; [apply remembers_updateAccountStatus
                            | apply remembers_updateAccountRent].
Qed.

Lemma remembers_reclaimLoop (dry : bool) (envs : nat -> ReclaimEnv) (pks : list PublicKey) :
  forall (i : nat) (summary : BatchReclaimSummary) (sent : list Transaction) (db : Db),
    remembers db (snd (reclaimLoop config dry envs i pks summary sent db)).
Proof.
  induction pks as [|pk rest IH]; intros i summary sent db; [apply remembers_refl|].
  cbn [reclaimLoop].
  pose proof (remembers_reclaimSingleAccount (envs i) pk (Some dry) db) as Hone.
  destruct (reclaimSingleAccount config (envs i) pk (Some dry) db) as [[[r|e] sent1] db1];
    cbn [snd] in Hone |- *.
  - eapply remembers_trans; [exact Hone | apply IH].
  - exact Hone.
Qed.

Lemma remembers_exec (op : Op) (db : Db) : remembers db (exec config belowTenth op db).
Proof.
  destruct op; cbn [exec].
  - apply remembers_grows, discover_grows.
  - apply remembers_grows, addAccountManually_grows.
  - apply remembers_checkAllAccounts.
  - apply remembers_checkSingleAccount.
  - apply remembers_checkEligibility.
  - apply remembers_reclaimSingleAccount.
  - unfold reclaimAllEligible. cbv zeta.
    pose proof (remembers_reclaimLoop
                  (match forceDryRun with Some b => b | None => dryRun config end) envs
                  (map (fun a : TrackedAccount => pubkey a)
                       (getEligibleAccounts db (minDormancyDays config)
                          (minReclaimLamports config) now))
                  O
                  (emptySummary
                     (List.length (getEligibleAccounts db (minDormancyDays config)
                                     (minReclaimLamports config) now))
                     (match forceDryRun with Some b => b | None => dryRun config end))
                  [] db) as H.
    destruct (reclaimLoop _ _ _ _ _ _ _ _) as [[[thrown summary] sent] db']. exact H.
  - unfold reclaimMultiple. cbv zeta.
    pose proof (remembers_reclaimLoop
                  (match forceDryRun with Some b => b | None => dryRun config end) envs
                  pubkeys O
                  (emptySummary (List.length pubkeys)
                     (match forceDryRun with Some b => b | None => dryRun config end))
                  [] db) as H.
    destruct (reclaimLoop _ _ _ _ _ _ _ _) as [[[thrown summary] sent] db']. exact H.
  - unfold addToWhitelist. cbv zeta.
    eapply remembers_trans; [|apply remembers_updateAccountStatus].
    apply remembers_lists. auto.
  - unfold removeFromWhitelist. apply remembers_lists. auto.
  - unfold addToBlacklist. apply remembers_lists.
    intros a Ha. rewrite listed_insertOrReplace. unfold isBlacklisted in Ha. rewrite Ha.
    apply orb_true_r.
Qed.

Lemma remembers_run (ops : list Op) :
  forall db : Db, remembers db (run config belowTenth ops db).
Proof.
  induction ops as [|op rest IH]; intro db; [apply remembers_refl|].
  unfold run. cbn [fold_left].
  eapply remembers_trans; [apply remembers_exec | apply IH].
Qed.

End Remembering.

(** X10.  The store never forgets.  Along every sequence of operations of
    the core, an address that is tracked stays tracked, under the same row id
    and with the creation date, sponsoring signature and account type it was
    first stored with, and a closing date, once set, is never cleared (a
    reopened account keeps the date of its last closure); the reclaim log is
    append-only. *)
Theorem the_store_never_forgets
        (config : BotConfig) (belowTenth : Z -> Z -> bool) (ops : list Op) (db : Db) :
  let db' := run config belowTenth ops db in
  (forall a row,
      getAccount db a = Some row ->
      exists row',
        getAccount db' a = Some row'
        /\ id row' = id row /\ pubkey row' = pubkey row /\ createdAt row' = createdAt row
        /\ sponsoredTxSignature row' = sponsoredTxSignature row
        /\ accountType row' = accountType row
        /\ (closedAt row <> None -> closedAt row' <> None))
  /\ (exists added, reclaim_transactions db' = reclaim_transactions db ++ added).
Proof.
  intro db'. destruct (remembers_run config belowTenth ops db) as (Hrows & _ & Hlog).
  split; [exact Hrows | exact Hlog].
Qed.

(** The verdict on a listed account: ineligible, before any ledger read. *)
Lemma listed_verdict (config : BotConfig) (conn : Connection) (now : Date)
      (pk : PublicKey) (db : Db) :
  isWhitelisted db pk = true \/ isBlacklisted db pk = true ->
  exists why,
    checkEligibility config conn now pk db
    = (Resolved (ineligible (getAccount db pk) why []), db)
    /\ (forall row, getAccount db pk = Some row -> status row <> RECLAIMED ->
          why = if isWhitelisted db pk
                then "Account is whitelisted (protected from reclaim)"
                else "Account is blacklisted").
Proof.
  intro Hlisted. unfold checkEligibility.
  destruct (getAccount db pk) as [tracked|] eqn:Hget.
  - destruct (status_eqb (status tracked) RECLAIMED) eqn:Hr.
    + eexists. split; [reflexivity|]. intros row Hrow Hnot. injection Hrow as <-.
      apply status_eqb_eq in Hr. contradiction.
    + destruct (isWhitelisted db pk) eqn:Hw.
      * eexists. split; [reflexivity|]. reflexivity.
      * destruct Hlisted as [Hbad|Hb]; [discriminate|]. rewrite Hb.
        eexists. split; [reflexivity|]. reflexivity.
  - eexists. split; [reflexivity|]. intros row Hrow. discriminate.
Qed.

(** X29.  The deny-list is permanent.  The core has no operation that takes
    an address off the deny-list: once an address is on it, it is still on it
    after any sequence of operations, and every later reclaim attempt for it,
    in either mode, is refused without a ledger read, a transaction or a
    write to the store. *)
Theorem deny_list_is_permanent
        (config : BotConfig) (belowTenth : Z -> Z -> bool) (ops : list Op) (db : Db)
        (pk : PublicKey) (env : ReclaimEnv) (forceDryRun : option bool) :
  isBlacklisted db pk = true ->
  let later := run config belowTenth ops db in
  isBlacklisted later pk = true
  /\ exists why,
       reclaimSingleAccount config env pk forceDryRun later
       = (Resolved (failure pk (Some why)
                      (match forceDryRun with Some b => b | None => dryRun config end)),
          [], later).
Proof.
  intros Hb later.
  destruct (remembers_run config belowTenth ops db) as (_ & Hkeep & _).
  pose proof (Hkeep pk Hb) as Hlater. fold later in Hlater. split; [exact Hlater|].
  destruct (listed_verdict config (atEligibility env) (clock env) pk later
                           (or_intror Hlater)) as [why [Hcheck _]].
  exists why. unfold reclaimSingleAccount. rewrite Hcheck. reflexivity.
Qed.

Lemma deny_list_is_permanent_witness :
  let db := addToBlacklist Scenario.alice (Some "operations wallet") Scenario.today
              (Scenario.storeWith
                 (Scenario.tracked Scenario.alice CLOSED 2039280
                                   (Some (Scenario.today - 10 * Scenario.day)))) in
  let conn := Scenario.ledger (fun _ => None) (Resolved "unused") in
  let later :=
    run Scenario.config Scenario.tenth
        [RemoveFromWhitelist Scenario.alice;
         CheckSingleAccount conn Scenario.today Scenario.alice;
         AddToWhitelist Scenario.bob None Scenario.today] db in
  isBlacklisted later Scenario.alice = true
  /\ exists why,
       reclaimSingleAccount Scenario.config (Scenario.steady conn) Scenario.alice
                            (Some false) later
       = (Resolved (failure Scenario.alice (Some why) false), [], later).
Proof.
  apply (deny_list_is_permanent Scenario.config Scenario.tenth
           [RemoveFromWhitelist Scenario.alice;
            CheckSingleAccount (Scenario.ledger (fun _ => None) (Resolved "unused"))
                               Scenario.today Scenario.alice;
            AddToWhitelist Scenario.bob None Scenario.today]
           (addToBlacklist Scenario.alice (Some "operations wallet") Scenario.today
              (Scenario.storeWith
                 (Scenario.tracked Scenario.alice CLOSED 2039280
                                   (Some (Scenario.today - 10 * Scenario.day)))))
           Scenario.alice
           (Scenario.steady (Scenario.ledger (fun _ => None) (Resolved "unused")))
           (Some false)).
  reflexivity.
Defined.

(** ** Guards of the executor *)

(** X1.  An account on the allow-list or on the deny-list is not reclaimed:
    the eligibility check reports it ineligible without reading the ledger,
    and the executor returns that failure, submits nothing and leaves the
    whole store as it was, in dry-run and in live mode.  For a tracked
    account that is not Reclaimed the reason names the list, the allow-list
    first. *)
Theorem listed_account_is_refused
        (config : BotConfig) (env : ReclaimEnv) (pk : PublicKey)
        (forceDryRun : option bool) (db : Db) :
  isWhitelisted db pk = true \/ isBlacklisted db pk = true ->
  exists why,
    checkEligibility config (atEligibility env) (clock env) pk db
    = (Resolved (ineligible (getAccount db pk) why []), db)
    /\ reclaimSingleAccount config env pk forceDryRun db
       = (Resolved (failure pk (Some why)
                      (match forceDryRun with Some b => b | None => dryRun config end)),
          [], db)
    /\ (forall row, getAccount db pk = Some row -> status row <> RECLAIMED ->
          why = if isWhitelisted db pk
                then "Account is whitelisted (protected from reclaim)"
                else "Account is blacklisted").
Proof.
  intro Hlisted.
  destruct (listed_verdict config (atEligibility env) (clock env) pk db Hlisted)
    as [why [Hcheck Hwhy]].
  exists why. split; [exact Hcheck|]. split; [|exact Hwhy].
  unfold reclaimSingleAccount. rewrite Hcheck. reflexivity.
Qed.

Lemma listed_account_is_refused_witness :
  let db := addToBlacklist Scenario.alice (Some "operations wallet") Scenario.today
              (Scenario.storeWith
                 (Scenario.tracked Scenario.alice CLOSED 2039280
                                   (Some (Scenario.today - 10 * Scenario.day)))) in
  let env := Scenario.steady (Scenario.ledger (fun _ => None) (Resolved "unused")) in
  exists why,
    checkEligibility Scenario.config (atEligibility env) (clock env) Scenario.alice db
    = (Resolved (ineligible (getAccount db Scenario.alice) why []), db)
    /\ reclaimSingleAccount Scenario.config env Scenario.alice (Some false) db
       = (Resolved (failure Scenario.alice (Some why) false), [], db)
    /\ (forall row, getAccount db Scenario.alice = Some row -> status row <> RECLAIMED ->
          why = if isWhitelisted db Scenario.alice
                then "Account is whitelisted (protected from reclaim)"
                else "Account is blacklisted").
Proof.
  apply (listed_account_is_refused Scenario.config
           (Scenario.steady (Scenario.ledger (fun _ => None) (Resolved "unused")))
           Scenario.alice (Some false)).
  right. reflexivity.
Defined.

(** The checks on the stored row that end the eligibility check. *)
Lemma stored_guards (config : BotConfig) (now : Date) (tracked : TrackedAccount)
      (warns : list string) :
  (exists c, closedAt tracked = Some c /\ (now - c) / MS_PER_DAY < minDormancyDays config)
  \/ rentLamports tracked < minReclaimLamports config ->
  eligible (checkDormancyAndThreshold config now tracked warns) = false.
Proof.
  unfold checkDormancyAndThreshold. intros [[c [Hc Hyoung]]|Hsmall].
  - rewrite Hc. cbv zeta. apply Z.ltb_lt in Hyoung. rewrite Hyoung. reflexivity.
  - destruct (closedAt tracked) as [c|]; cbv zeta.
    + destruct ((now - c) / MS_PER_DAY <? minDormancyDays config); [reflexivity|].
      apply Z.ltb_lt in Hsmall. rewrite Hsmall. reflexivity.
    + apply Z.ltb_lt in Hsmall. rewrite Hsmall. reflexivity.
Qed.

Lemma checkEligibility_guards (config : BotConfig) (conn : Connection) (now : Date)
      (pk : PublicKey) (db : Db) (row : TrackedAccount)
      (el : EligibilityCheck) (dbE : Db) :
  getAccount db pk = Some row ->
  (exists c, closedAt row = Some c /\ (now - c) / MS_PER_DAY < minDormancyDays config)
  \/ rentLamports row < minReclaimLamports config ->
  checkEligibility config conn now pk db = (Resolved el, dbE) ->
  eligible el = false.
Proof.
  intros Hget Hguard. unfold checkEligibility. rewrite Hget. cbv zeta.
  pose proof (stored_guards config now row) as Hrow.
  pose proof (stored_guards config now (markClosed row)) as Hclosed.
  repeat split_match; intro H; inversion H; subst; try reflexivity;
    try (apply Hrow; exact Hguard); apply Hclosed; exact Hguard.
Qed.

(** X2.  The dormancy period and the reclaim threshold are enforced on the
    stored row: when the row carries a closing date less than
    [minDormancyDays] whole days before the run, or a stored balance below
    [minReclaimLamports], a reclaim attempt in either mode submits nothing,
    records nothing in the reclaim log and never reports success; the store
    is the one the eligibility check left. *)
Theorem dormancy_and_threshold_are_enforced
        (config : BotConfig) (env : ReclaimEnv) (pk : PublicKey)
        (forceDryRun : option bool) (db : Db) (row : TrackedAccount) :
  getAccount db pk = Some row ->
  (exists c, closedAt row = Some c
             /\ (clock env - c) / MS_PER_DAY < minDormancyDays config)
  \/ rentLamports row < minReclaimLamports config ->
  let '(out, sent, db') := reclaimSingleAccount config env pk forceDryRun db in
  sent = []
  /\ db' = snd (checkEligibility config (atEligibility env) (clock env) pk db)
  /\ reclaim_transactions db' = reclaim_transactions db
  /\ (forall r, out = Resolved r -> r_success r = false)
  /\ (statusOf db' pk = Some RECLAIMED -> statusOf db pk = Some RECLAIMED).
Proof.
  intros Hget Hguard.
  destruct (reclaimSingleAccount config env pk forceDryRun db) as [[out sent] db'] eqn:Hrun.
  pose proof (reclaim_frame _ _ _ _ _ _ _ _ Hrun) as (_ & _ & _ & _ & Hnew & _).
  revert Hrun. unfold reclaimSingleAccount.
  destruct (checkEligibility config (atEligibility env) (clock env) pk db)
    as [[el|e] dbE] eqn:Hel; cbn [snd].
  - rewrite (checkEligibility_guards _ _ _ _ _ _ _ _ Hget Hguard Hel). cbn [negb].
    intro H; injection H as <- <- <-.
    destruct (checkEligibility_frame _ _ _ _ _ _ _ Hel) as (_ & _ & Hlog & _).
    assert (Hfail : forall r,
               Resolved (failure pk (Some (join "; " (reasons el)))
                           (match forceDryRun with Some b => b | None => dryRun config end))
               = Resolved r -> r_success r = false).
    { intros r Hr. injection Hr as <-. reflexivity. }
    repeat split; auto.
    intro Hst. destruct (statusOf db pk) as [[]|] eqn:Hbefore; try reflexivity;
      (destruct Hnew as [[r [Hr [Hok _]]] _]; [exact Hst | discriminate |];
       rewrite (Hfail r Hr) in Hok; discriminate).
  - intro H; injection H as <- <- <-.
    destruct (checkEligibility_frame _ _ _ _ _ _ _ Hel) as (_ & _ & Hlog & _).
    repeat split; auto; try discriminate.
    intro Hst. destruct (statusOf db pk) as [[]|] eqn:Hbefore; try reflexivity;
      (destruct Hnew as [[r [Hr _]] _]; [exact Hst | discriminate | discriminate]).
Qed.

Lemma dormancy_and_threshold_are_enforced_witness :
  let env := Scenario.steady
               (Scenario.ledger (fun _ => None) (Resolved "unused")) in
  let row := Scenario.tracked Scenario.alice CLOSED 2039280
                              (Some (Scenario.today - 3 * Scenario.day)) in
  let db := Scenario.storeWith row in
  let '(out, sent, db') := reclaimSingleAccount Scenario.config env Scenario.alice (Some false) db in
  sent = []
  /\ db' = snd (checkEligibility Scenario.config (atEligibility env) (clock env)
                                 Scenario.alice db)
  /\ reclaim_transactions db' = reclaim_transactions db
  /\ (forall r, out = Resolved r -> r_success r = false)
  /\ (statusOf db' Scenario.alice = Some RECLAIMED -> statusOf db Scenario.alice = Some RECLAIMED).
Proof.
  apply (dormancy_and_threshold_are_enforced Scenario.config
           (Scenario.steady (Scenario.ledger (fun _ => None) (Resolved "unused")))
           Scenario.alice (Some false)
           (Scenario.storeWith
              (Scenario.tracked Scenario.alice CLOSED 2039280
                                (Some (Scenario.today - 3 * Scenario.day))))
           (Scenario.tracked Scenario.alice CLOSED 2039280
                             (Some (Scenario.today - 3 * Scenario.day)))).
  - reflexivity.
  - left. exists (Scenario.today - 3 * Scenario.day). split; [reflexivity|].
    vm_compute. reflexivity.
Defined.




(** X6.  When [loadOperatorKeypair] throws, that is when no key pair is
    cached and none can be read, no reclaim succeeds, not even a simulated
    one: whatever the mode, the attempt submits nothing, records nothing in
    the reclaim log and never reports success.  When the account is
    eligible, the treasury is configured and there is a balance to reclaim,
    the failure carries the message of what [loadOperatorKeypair] threw. *)
Theorem no_reclaim_without_operator_key
        (config : BotConfig) (env : ReclaimEnv) (pk : PublicKey)
        (forceDryRun : option bool) (db : Db) (thrown : Thrown) :
  loadOperatorKeypair config = Rejected thrown ->
  let dry := match forceDryRun with Some b => b | None => dryRun config end in
  let '(out, sent, db') := reclaimSingleAccount config env pk forceDryRun db in
  sent = []
  /\ reclaim_transactions db' = reclaim_transactions db
  /\ (forall r, out = Resolved r -> r_success r = false)
  /\ (forall el dbE treasury onChainInfo,
        checkEligibility config (atEligibility env) (clock env) pk db = (Resolved el, dbE) ->
        eligible el = true ->
        getTreasuryPubkey config = Resolved treasury ->
        getAccountInfo (atBalance env) pk = Resolved onChainInfo ->
        (if exists_ onChainInfo then Some (lamports onChainInfo)
         else option_map (fun a : TrackedAccount => rentLamports a) (account el)) <> Some 0 ->
        out = Resolved (failure pk (Some (messageOf thrown)) dry)).
Proof.
  intros Hkey dry.
  unfold reclaimSingleAccount. cbv zeta. fold dry.
  destruct (checkEligibility config (atEligibility env) (clock env) pk db)
    as [[el|e] dbE] eqn:Hel.
  2: { destruct (checkEligibility_frame _ _ _ _ _ _ _ Hel) as (_ & _ & Hlog & _).
       repeat split; auto; discriminate. }
  destruct (checkEligibility_frame _ _ _ _ _ _ _ Hel) as (_ & _ & Hlog & _).
  assert (Hfail : forall why r, Resolved (failure pk why dry) = Resolved r ->
                                r_success r = false).
  { intros why r Hr. injection Hr as <-. reflexivity. }
  destruct (eligible el) eqn:Helig; cbn [negb].
  2: { split; [reflexivity|]. split; [exact Hlog|]. split; [apply Hfail|].
       intros el' dbE' treasury info H. injection H as <- <-. congruence. }
  destruct (getTreasuryPubkey config) as [treasury|e] eqn:Ht.
  2: { split; [reflexivity|]. split; [exact Hlog|]. split; [discriminate|].
       intros el' dbE' treasury info _ _ H. discriminate. }
  destruct (getAccountInfo (atBalance env) pk) as [info2|e] eqn:Hread.
  2: { split; [reflexivity|]. split; [exact Hlog|]. split; [apply Hfail|].
       intros el' dbE' treasury' info _ _ _ H. discriminate. }
  destruct (match (if exists_ info2 then Some (lamports info2)
                   else option_map (fun a : TrackedAccount => rentLamports a) (account el))
            with Some 0 => true | _ => false end) eqn:Hzero.
  { split; [reflexivity|]. split; [exact Hlog|]. split; [apply Hfail|].
    intros el' dbE' treasury' info H _ _ Hi Hnz. exfalso.
    injection H as <- <-. injection Hi as <-. apply Hnz.
    destruct (if exists_ info2 then Some (lamports info2)
              else option_map (fun a : TrackedAccount => rentLamports a) (account el))
      as [[| |]|]; try discriminate. reflexivity. }
  rewrite Hkey.
  split; [reflexivity|]. split; [exact Hlog|]. split; [apply Hfail|].
  intros. reflexivity.
Qed.

Lemma no_reclaim_without_operator_key_witness :
  let config := {| operatorKeypairPath := "./keypair.json";
                   operatorKey := None;
                   koraSignerPubkey := Some Scenario.sponsor;
                   cfgTreasuryPubkey := Some Scenario.operator;
                   minDormancyDays := 7;
                   minReclaimLamports := 100000;
                   dryRun := true |} in
  let env := Scenario.steady
               (Scenario.ledger (fun _ => Scenario.onChain 50000 SYSTEM_PROGRAM_ID)
                                (Resolved "unused")) in
  let db := Scenario.storeWith
              (Scenario.tracked Scenario.alice CLOSED 2039280
                                (Some (Scenario.today - 10 * Scenario.day))) in
  fst (fst (reclaimSingleAccount config env Scenario.alice None db))
  = Resolved (failure Scenario.alice (Some "Keypair file not found: ./keypair.json") true).
Proof.
  pose proof
    (no_reclaim_without_operator_key
       {| operatorKeypairPath := "./keypair.json";
          operatorKey := None;
          koraSignerPubkey := Some Scenario.sponsor;
          cfgTreasuryPubkey := Some Scenario.operator;
          minDormancyDays := 7;
          minReclaimLamports := 100000;
          dryRun := true |}
       (Scenario.steady
          (Scenario.ledger (fun _ => Scenario.onChain 50000 SYSTEM_PROGRAM_ID)
                           (Resolved "unused")))
       Scenario.alice None
       (Scenario.storeWith
          (Scenario.tracked Scenario.alice CLOSED 2039280
                            (Some (Scenario.today - 10 * Scenario.day))))
       (ErrorObj "Keypair file not found: ./keypair.json")
       eq_refl) as H.
  cbv zeta in H |- *.
  destruct (reclaimSingleAccount _ _ Scenario.alice None _) as [[out sent] db'].
  destruct H as (_ & _ & _ & H).
  apply (H _ _ Scenario.operator _ eq_refl eq_refl eq_refl eq_refl).
  vm_compute. discriminate.
Defined.

(** ** Store queries *)

Section Ordering.

Context {A : Type} (key : A -> Z).

Lemma insertDesc_perm (a : A) (l : list A) : Permutation (insertDesc key a l) (a :: l).
Proof.
  induction l as [|b rest IH]; simpl; [reflexivity|].
  destruct (key b <=? key a); [reflexivity|].
  rewrite IH. apply perm_swap.
Qed.

Lemma orderByDesc_perm (l : list A) : Permutation (orderByDesc key l) l.
Proof.
  induction l as [|a rest IH]; simpl; [reflexivity|].
  rewrite insertDesc_perm. constructor. exact IH.
Qed.

Lemma insertDesc_sorted (a : A) (l : list A) :
  StronglySorted (fun x y => key y <= key x) l ->
  StronglySorted (fun x y => key y <= key x) (insertDesc key a l).
Proof.
  induction l as [|b rest IH]; simpl; intro Hs.
  - constructor; constructor.
  - inversion Hs as [|? ? Hrest Hb]; subst.
    destruct (key b <=? key a) eqn:E.
    + apply Z.leb_le in E. constructor; [exact Hs|].
      constructor; [exact E|].
      eapply Forall_impl; [|exact Hb]. cbn beta. intros y Hy. lia.
    + apply Z.leb_gt in E. constructor; [apply IH; exact Hrest|].
      eapply Permutation_Forall; [apply Permutation_sym, insertDesc_perm|].
      constructor; [lia | exact Hb].
Qed.

Lemma orderByDesc_sorted (l : list A) :
  StronglySorted (fun x y => key y <= key x) (orderByDesc key l).
Proof.
  induction l as [|a rest IH]; simpl; [constructor|].
  apply insertDesc_sorted. exact IH.
Qed.

End Ordering.

Lemma newestFirst_orderByDesc (l : list TrackedAccount) :
  newestFirst l = orderByDesc (fun a : TrackedAccount => createdAt a) l.
Proof.
  unfold newestFirst, orderByDesc. induction l as [|a rest IH]; simpl; [reflexivity|].
  rewrite IH. generalize (fold_right (insertDesc (fun a0 : TrackedAccount => createdAt a0)) [] rest).
  intro sorted. induction sorted as [|b more IHm]; simpl; [reflexivity|].
  rewrite IHm. reflexivity.
Qed.

(** X13.  Called without [limit] and [offset], [getAccounts] returns
    exactly the rows that meet every criterion of the filter, each as often
    as the table holds it, newest first.  A status or type list that is empty
    filters nothing, and a row without a closing date meets neither
    [closedBefore] nor [closedAfter].  With a [limit], the call returns a
    stretch of that listing: the first [limit] rows after the first [offset]
    ones; a [limit] of 0 is no limit, and an [offset] without a [limit] makes
    the call throw. *)
Theorem getAccounts_lists_the_matching_rows_newest_first (db : Db) (f : AccountFilter) :
  Permutation (getAccounts db f) (filter (matchesFilter f) (tracked_accounts db))
  /\ StronglySorted (fun a b : TrackedAccount => createdAt b <= createdAt a)
                    (getAccounts db f)
  /\ (forall a : TrackedAccount,
        In a (getAccounts db f) ->
        In a (tracked_accounts db)
        /\ (forall s l, f_status f = Some (s :: l) -> In (status a) (s :: l))
        /\ (forall t l, f_accountType f = Some (t :: l) -> In (accountType a) (t :: l))
        /\ (forall m, f_minRentLamports f = Some m -> m <= rentLamports a)
        /\ (forall m, f_maxRentLamports f = Some m -> rentLamports a <= m)
        /\ (forall d, f_closedBefore f = Some d ->
                      exists c, closedAt a = Some c /\ c <= d)
        /\ (forall d, f_closedAfter f = Some d ->
                      exists c, closedAt a = Some c /\ d <= c))
  /\ Permutation (getAccounts db noFilter) (tracked_accounts db)
  /\ getAccounts db {| f_status := Some []; f_accountType := Some [];
                       f_minRentLamports := None; f_maxRentLamports := None;
                       f_closedBefore := None; f_closedAfter := None |}
     = getAccounts db noFilter
  /\ (forall limit offset,
        (limit = None \/ limit = Some 0) -> (offset = None \/ offset = Some 0) ->
        getAccountsPaged db f limit offset = Resolved (getAccounts db f))
  /\ (forall n m,
        0 < n < 2 ^ 63 -> 0 <= m < 2 ^ 63 ->
        getAccountsPaged db f (Some n) (Some m)
        = Resolved (firstn (Z.to_nat n) (skipn (Z.to_nat m) (getAccounts db f)))
        /\ getAccountsPaged db f (Some n) None
           = Resolved (firstn (Z.to_nat n) (getAccounts db f)))
  /\ (forall limit m,
        (limit = None \/ limit = Some 0) -> m <> 0 ->
        exists thrown, getAccountsPaged db f limit (Some m) = Rejected thrown)
  /\ (forall limit offset rows,
        getAccountsPaged db f limit offset = Resolved rows ->
        exists skipped kept, rows = firstn kept (skipn skipped (getAccounts db f))).
Proof.
  assert (Hpaged :
            (forall limit offset,
                (limit = None \/ limit = Some 0) -> (offset = None \/ offset = Some 0) ->
                getAccountsPaged db f limit offset = Resolved (getAccounts db f))
            /\ (forall n m,
                  0 < n < 2 ^ 63 -> 0 <= m < 2 ^ 63 ->
                  getAccountsPaged db f (Some n) (Some m)
                  = Resolved (firstn (Z.to_nat n) (skipn (Z.to_nat m) (getAccounts db f)))
                  /\ getAccountsPaged db f (Some n) None
                     = Resolved (firstn (Z.to_nat n) (getAccounts db f)))
            /\ (forall limit m,
                  (limit = None \/ limit = Some 0) -> m <> 0 ->
                  exists thrown, getAccountsPaged db f limit (Some m) = Rejected thrown)
            /\ (forall limit offset rows,
                  getAccountsPaged db f limit offset = Resolved rows ->
                  exists skipped kept,
                    rows = firstn kept (skipn skipped (getAccounts db f)))).
  { unfold getAccountsPaged. cbv zeta. generalize (getAccounts db f). intro all.
    split; [|split; [|split]].
    - intros limit offset [->| ->] [->| ->]; reflexivity.
    - intros n m Hn Hm. unfold truthyZ.
      assert ((n <? 0) = false) as Hneg by (apply Z.ltb_ge; lia).
      destruct n as [|n|n]; try lia. rewrite Hneg.
      destruct m as [|m|m]; try lia; split; reflexivity.
    - intros limit m [->| ->] Hm; unfold truthyZ; destruct m; try contradiction;
        eexists; reflexivity.
    - intros limit offset rows H.
      assert (Hwhole : forall l : list TrackedAccount,
                 l = firstn (List.length l) (skipn 0 l))
        by (intro l; simpl; symmetry; apply firstn_all).
      assert (Htail : forall k (l : list TrackedAccount),
                 skipn k l = firstn (List.length (skipn k l)) (skipn k l))
        by (intros k l; symmetry; apply firstn_all).
      destruct limit as [n|].
      + destruct (truthyZ (Some n)).
        * injection H as <-.
          destruct offset as [m|]; [destruct (truthyZ (Some m))|];
            destruct (n <? 0);
            first [ exists (Z.to_nat m), (List.length (skipn (Z.to_nat m) all));
                    apply Htail
                  | exists (Z.to_nat m), (Z.to_nat n); reflexivity
                  | exists O, (List.length all); apply Hwhole
                  | exists O, (Z.to_nat n); reflexivity ].
        * destruct (truthyZ offset); [discriminate|]. injection H as <-.
          exists O, (List.length all). apply Hwhole.
      + destruct (truthyZ offset); [discriminate|]. injection H as <-.
        exists O, (List.length all). apply Hwhole. }
  destruct Hpaged as (Hp1 & Hp2 & Hp3 & Hp4).
  unfold getAccounts. rewrite !newestFirst_orderByDesc.
  split; [apply orderByDesc_perm|]. split; [apply orderByDesc_sorted|].
  split; [|split; [|split; [reflexivity|]]].
  - intros a Hin.
    eapply Permutation_in in Hin; [|apply orderByDesc_perm].
    apply filter_In in Hin. destruct Hin as [Hin Hm]. split; [exact Hin|].
    unfold matchesFilter in Hm.
    repeat (apply andb_true_iff in Hm; let H := fresh "M" in destruct Hm as [Hm H]).
    split; [|split; [|split; [|split; [|split]]]].
    + intros s l Hf. rewrite Hf in Hm. apply existsb_exists in Hm.
      destruct Hm as [x [Hx Heq]]. apply status_eqb_eq in Heq. rewrite Heq. exact Hx.
    + intros t l Hf. rewrite Hf in M3. apply existsb_exists in M3.
      destruct M3 as [x [Hx Heq]].
      assert (accountType a = x) as -> by (destruct (accountType a), x; simpl in Heq; congruence).
      exact Hx.
    + intros m Hf. rewrite Hf in M2. apply Z.leb_le. exact M2.
    + intros m Hf. rewrite Hf in M1. apply Z.leb_le. exact M1.
    + intros d Hf. rewrite Hf in M0. destruct (closedAt a) as [c|]; [|discriminate].
      exists c. split; [reflexivity | apply Z.leb_le; exact M0].
    + intros d Hf. rewrite Hf in M. destruct (closedAt a) as [c|]; [|discriminate].
      exists c. split; [reflexivity | apply Z.leb_le; exact M].
  - rewrite orderByDesc_perm.
    assert (Hall : forall l, filter (matchesFilter noFilter) l = l).
    { induction l as [|x l IH]; simpl; [reflexivity | rewrite IH; reflexivity]. }
    rewrite Hall. reflexivity.
  - unfold getAccounts in Hp1, Hp2, Hp3, Hp4. rewrite !newestFirst_orderByDesc in *.
    auto.
Qed.

(** X14.  The two eligible-set queries differ by the lists only:
    [getEligibleAccounts] returns the rows that [getAccountsReadyForReclaim]
    returns and that are on neither the allow-list nor the deny-list.  The
    monitor's listing does not consult the lists. *)
Theorem eligible_is_ready_and_unlisted
        (config : BotConfig) (now : Date) (db : Db) (a : TrackedAccount) :
  In a (getEligibleAccounts db (minDormancyDays config) (minReclaimLamports config) now)
  <-> (In a (getAccountsReadyForReclaim config now db)
       /\ isWhitelisted db (pubkey a) = false
       /\ isBlacklisted db (pubkey a) = false).
Proof.
  unfold getEligibleAccounts, getAccountsReadyForReclaim, getAccounts. cbv zeta.
  rewrite filter_In.
  assert (Hready : In a (newestFirst
                           (filter
                              (matchesFilter
                                 {| f_status := Some [CLOSED]; f_accountType := None;
                                    f_minRentLamports := Some (minReclaimLamports config);
                                    f_maxRentLamports := None;
                                    f_closedBefore :=
                                      Some (now - minDormancyDays config * MS_PER_DAY);
                                    f_closedAfter := None |})
                              (tracked_accounts db)))
                   <-> In a (tracked_accounts db)
                       /\ status_eqb (status a) CLOSED = true
                       /\ match closedAt a with
                          | Some c => c <=? now - minDormancyDays config * MS_PER_DAY
                          | None => false
                          end = true
                       /\ (minReclaimLamports config <=? rentLamports a) = true).
  { split.
    - intro Hin. eapply Permutation_in in Hin; [|apply newestFirst_perm].
      apply filter_In in Hin. destruct Hin as [Hin Hm]. split; [exact Hin|].
      unfold matchesFilter in Hm.
      cbn [f_status f_accountType f_minRentLamports f_maxRentLamports
           f_closedBefore f_closedAfter existsb] in Hm.
      rewrite !andb_true_r, orb_false_r in Hm.
      apply andb_true_iff in Hm. destruct Hm as [Hm Hc].
      apply andb_true_iff in Hm. destruct Hm as [Hs Hr]. auto.
    - intros (Hin & Hs & Hc & Hr).
      eapply Permutation_in; [apply Permutation_sym, newestFirst_perm|].
      apply filter_In. split; [exact Hin|].
      unfold matchesFilter.
      cbn [f_status f_accountType f_minRentLamports f_maxRentLamports
           f_closedBefore f_closedAfter existsb].
      rewrite Hs, Hc, Hr. reflexivity. }
  rewrite Hready. rewrite !andb_true_iff, !negb_true_iff. tauto.
Qed.

(** X15.  The dormancy period is checked only against a stored closing
    date.  For a tracked account whose row has none, [checkEligibility]
    answers alike and leaves the same store under any two configurations
    with the same threshold, whatever their dormancy periods; so an account
    that it finds gone from the ledger, on neither list and with a stored
    balance of at least the threshold, is eligible at once, the store being
    corrected to Closed on the way.  The eligible-set query, on the contrary,
    never returns a row without a closing date. *)
Theorem dormancy_needs_a_stored_closing_date
        (config config' : BotConfig) (conn : Connection) (now : Date) (pk : PublicKey)
        (db : Db) (row : TrackedAccount) :
  getAccount db pk = Some row ->
  closedAt row = None ->
  minReclaimLamports config' = minReclaimLamports config ->
  checkEligibility config' conn now pk db = checkEligibility config conn now pk db
  /\ (status row <> RECLAIMED ->
      isWhitelisted db pk = false -> isBlacklisted db pk = false ->
      rpcGetAccountInfo conn pk = Resolved None ->
      rentLamports row <> 0 -> minReclaimLamports config <= rentLamports row ->
      exists el,
        checkEligibility config conn now pk db
        = (Resolved el,
           if status_eqb (status row) CLOSED then db
           else updateAccountStatus pk CLOSED (Some now) now db)
        /\ eligible el = true)
  /\ (forall d m later, ~ In row (getEligibleAccounts db d m later)).
Proof.
  intros Hget Hnone Hsame.
  assert (Hd : forall (t : TrackedAccount) warns,
             closedAt t = None ->
             checkDormancyAndThreshold config' now t warns
             = checkDormancyAndThreshold config now t warns).
  { intros t warns Ht. unfold checkDormancyAndThreshold. rewrite Ht, Hsame. reflexivity. }
  split; [|split].
  - unfold checkEligibility. rewrite Hget, Hsame.
    destruct (status_eqb (status row) RECLAIMED); [reflexivity|].
    destruct (isWhitelisted db pk); [reflexivity|].
    destruct (isBlacklisted db pk); [reflexivity|].
    destruct (getAccountInfo conn pk) as [info|e]; [|reflexivity].
    cbv zeta. destruct (exists_ info).
    + rewrite Hd by exact Hnone. reflexivity.
    + destruct (status_eqb (status row) CLOSED); cbn [negb];
        rewrite Hd by exact Hnone; reflexivity.
  - intros Hst Hw Hb Hread Hrent Hmin.
    unfold checkEligibility, getAccountInfo. rewrite Hget, Hw, Hb, Hread.
    assert (status_eqb (status row) RECLAIMED = false) as ->
        by (destruct (status row); try reflexivity; contradiction).
    cbv zeta. cbn [exists_ describeAccount].
    assert (Hok : forall (t : TrackedAccount) warns,
               closedAt t = None -> rentLamports t = rentLamports row ->
               eligible (checkDormancyAndThreshold config now t warns) = true).
    { intros t warns Ht Hr. unfold checkDormancyAndThreshold. rewrite Ht, Hr.
      assert ((rentLamports row <? minReclaimLamports config) = false) as ->
          by (apply Z.ltb_ge; exact Hmin).
      reflexivity. }
    destruct (status_eqb (status row) CLOSED); cbn [negb].
    + assert ((rentLamports row =? 0) = false) as -> by (apply Z.eqb_neq; exact Hrent).
      eexists. split; [reflexivity|]. apply Hok; [exact Hnone | reflexivity].
    + change (rentLamports (markClosed row)) with (rentLamports row).
      assert ((rentLamports row =? 0) = false) as -> by (apply Z.eqb_neq; exact Hrent).
      eexists. split; [reflexivity|]. apply Hok; [exact Hnone | reflexivity].
  - intros d m later Hin. unfold getEligibleAccounts in Hin. cbv zeta in Hin.
    apply filter_In in Hin. destruct Hin as [_ Hm]. rewrite Hnone in Hm.
    destruct (status_eqb (status row) CLOSED); discriminate.
Qed.

Lemma dormancy_needs_a_stored_closing_date_witness :
  let config' :=
    {| operatorKeypairPath := operatorKeypairPath Scenario.config;
       operatorKey := operatorKey Scenario.config;
       koraSignerPubkey := koraSignerPubkey Scenario.config;
       cfgTreasuryPubkey := cfgTreasuryPubkey Scenario.config;
       minDormancyDays := 30;
       minReclaimLamports := minReclaimLamports Scenario.config;
       dryRun := dryRun Scenario.config |} in
  let conn := Scenario.ledger (fun _ => None) (Resolved "unused") in
  let row := Scenario.tracked Scenario.alice ACTIVE 2039280 None in
  let db := Scenario.storeWith row in
  checkEligibility config' conn Scenario.today Scenario.alice db
  = checkEligibility Scenario.config conn Scenario.today Scenario.alice db
  /\ (status row <> RECLAIMED ->
      isWhitelisted db Scenario.alice = false -> isBlacklisted db Scenario.alice = false ->
      rpcGetAccountInfo conn Scenario.alice = Resolved None ->
      rentLamports row <> 0 -> minReclaimLamports Scenario.config <= rentLamports row ->
      exists el,
        checkEligibility Scenario.config conn Scenario.today Scenario.alice db
        = (Resolved el,
           if status_eqb (status row) CLOSED then db
           else updateAccountStatus Scenario.alice CLOSED (Some Scenario.today)
                                    Scenario.today db)
        /\ eligible el = true)
  /\ (forall d m later, ~ In row (getEligibleAccounts db d m later)).
Proof.
  apply (dormancy_needs_a_stored_closing_date Scenario.config
           {| operatorKeypairPath := operatorKeypairPath Scenario.config;
              operatorKey := operatorKey Scenario.config;
              koraSignerPubkey := koraSignerPubkey Scenario.config;
              cfgTreasuryPubkey := cfgTreasuryPubkey Scenario.config;
              minDormancyDays := 30;
              minReclaimLamports := minReclaimLamports Scenario.config;
              dryRun := dryRun Scenario.config |}
           (Scenario.ledger (fun _ => None) (Resolved "unused"))
           Scenario.today Scenario.alice
           (Scenario.storeWith (Scenario.tracked Scenario.alice ACTIVE 2039280 None))
           (Scenario.tracked Scenario.alice ACTIVE 2039280 None));
    reflexivity.
Defined.

(** ** The lists *)

Lemma insertOrReplace_keys (e : ListEntry) (l : list ListEntry) :
  NoDup (map le_pubkey l) -> NoDup (map le_pubkey (insertOrReplace e l)).
Proof.
  intro Hnd. unfold insertOrReplace. rewrite map_app. simpl.
  eapply Permutation_NoDup; [apply Permutation_cons_append|].
  constructor.
  - intro Hin. apply in_map_iff in Hin. destruct Hin as [x [Hx Hin]].
    apply filter_In in Hin. destruct Hin as [_ Hne].
    rewrite Hx, String.eqb_refl in Hne. discriminate.
  - induction l as [|x l IH]; simpl; [constructor|].
    inversion Hnd as [|? ? Hnotin Hnd']; subst.
    destruct (le_pubkey x =? le_pubkey e)%string; simpl; [apply IH; exact Hnd'|].
    constructor; [|apply IH; exact Hnd'].
    intro Hin. apply Hnotin. apply in_map_iff in Hin. destruct Hin as [y [Hy Hin]].
    apply filter_In in Hin. apply in_map_iff. exists y. split; [exact Hy | apply Hin].
Qed.

Lemma listed_after_removal (pk a : PublicKey) (l : list ListEntry) :
  existsb (fun x => (le_pubkey x =? a)%string)
          (filter (fun x => negb (le_pubkey x =? pk)%string) l)
  = negb (a =? pk)%string && existsb (fun x => (le_pubkey x =? a)%string) l.
Proof.
  induction l as [|x l IH]; simpl; [rewrite andb_false_r; reflexivity|].
  destruct (le_pubkey x =? pk)%string eqn:Ex; simpl.
  - rewrite IH. apply String.eqb_eq in Ex.
    destruct (le_pubkey x =? a)%string eqn:Ea; simpl; [|reflexivity].
    apply String.eqb_eq in Ea. rewrite <- Ea, Ex, String.eqb_refl. reflexivity.
  - rewrite IH. destruct (le_pubkey x =? a)%string eqn:Ea; simpl; [|reflexivity].
    apply String.eqb_eq in Ea. rewrite <- Ea, Ex. reflexivity.
Qed.

(** X16.  The allow-list mutators.  After [addToWhitelist] the address is
    on the list, once, with the reason and date of this call (an earlier
    entry for it is replaced), and its row, if it is tracked, has status
    Whitelisted; after [removeFromWhitelist] it is off the list, but the
    table of accounts is untouched, so the row keeps the status Whitelisted:
    removal does not give back the status the account had.  Neither call
    changes whether another address is listed. *)
Theorem allow_list_round_trip
        (pk other : PublicKey) (reason : option string) (now : Date) (db : Db) :
  let added := addToWhitelist pk reason now db in
  isWhitelisted added pk = true
  /\ isWhitelisted (removeFromWhitelist pk db) pk = false
  /\ (isWhitelisted added other = (pk =? other)%string || isWhitelisted db other)
  /\ (isWhitelisted (removeFromWhitelist pk db) other
      = negb (other =? pk)%string && isWhitelisted db other)
  /\ (NoDup (map le_pubkey (whitelist db)) -> NoDup (map le_pubkey (whitelist added)))
  /\ (forall e, In e (getWhitelist added) -> le_pubkey e = pk ->
                le_reason e = orNull reason /\ le_addedAt e = now)
  /\ (forall row, getAccount db pk = Some row ->
                  statusOf added pk = Some WHITELISTED
                  /\ statusOf (removeFromWhitelist pk added) pk = Some WHITELISTED
                  /\ isWhitelisted (removeFromWhitelist pk added) pk = false)
  /\ tracked_accounts (removeFromWhitelist pk db) = tracked_accounts db
  /\ isBlacklisted added other = isBlacklisted db other.
Proof.
  intro added. unfold added, addToWhitelist, removeFromWhitelist, isWhitelisted, isBlacklisted.
  cbn [whitelist blacklist tracked_accounts updateAccountStatus updateWhere setAccounts].
  split; [|split; [|split; [|split; [|split; [|split; [|split; [|split]]]]]]].
  - rewrite listed_insertOrReplace. cbn [le_pubkey]. rewrite String.eqb_refl. reflexivity.
  - rewrite listed_after_removal, String.eqb_refl. reflexivity.
  - rewrite listed_insertOrReplace. reflexivity.
  - apply listed_after_removal.
  - apply insertOrReplace_keys.
  - intros e Hin Hpk. unfold getWhitelist in Hin.
    eapply Permutation_in in Hin; [|apply orderByDesc_perm].
    cbn [whitelist updateAccountStatus updateWhere setAccounts] in Hin.
    unfold insertOrReplace in Hin. apply in_app_or in Hin. destruct Hin as [Hin|[<-|[]]].
    + apply filter_In in Hin. destruct Hin as [_ Hne]. cbn [le_pubkey] in Hne.
      rewrite Hpk, String.eqb_refl in Hne. discriminate.
    + split; reflexivity.
  - intros row Hget.
    assert (Hst : statusOf
                    (updateAccountStatus pk WHITELISTED None now
                       {| tracked_accounts := tracked_accounts db;
                          reclaim_transactions := reclaim_transactions db;
                          whitelist :=
                            insertOrReplace
                              {| le_pubkey := pk; le_reason := orNull reason;
                                 le_addedAt := now |} (whitelist db);
                          blacklist := blacklist db |}) pk = Some WHITELISTED).
    { unfold statusOf. rewrite getAccount_updateAccountStatus.
      change (getAccount {| tracked_accounts := tracked_accounts db;
                            reclaim_transactions := reclaim_transactions db;
                            whitelist := _; blacklist := blacklist db |} pk)
        with (getAccount db pk).
      rewrite Hget. simpl. rewrite String.eqb_refl. reflexivity. }
    split; [exact Hst|]. split; [exact Hst|].
    rewrite listed_after_removal, String.eqb_refl. reflexivity.
  - reflexivity.
  - reflexivity.
Qed.

(** X17.  [upsertAccount] inserts or updates, and returns the stored row.
    For an address that is not tracked it appends a row with a fresh id and
    the given columns, empty strings and a data size of 0 stored as NULL.
    For a tracked address it overwrites balance, status and time of check,
    replaces closing date, owner, data size and notes only by values that
    are present, and keeps id, creation date, sponsoring signature and
    account type whatever the argument says.  The rows of other addresses,
    the reclaim log and the lists are untouched, and addresses stay
    unique. *)
Theorem upsertAccount_inserts_or_updates (account : AccountFields) (db : Db) :
  let (saved, db') := upsertAccount account db in
  getAccount db' (pubkey account) = saved
  /\ (getAccount db (pubkey account) = None ->
      exists row,
        saved = Some row
        /\ tracked_accounts db' = tracked_accounts db ++ [row]
        /\ (forall old, In old (tracked_accounts db) -> (id old < id row)%nat)
        /\ pubkey row = pubkey account /\ createdAt row = createdAt account
        /\ accountType row = accountType account
        /\ rentLamports row = rentLamports account /\ status row = status account
        /\ lastCheckedAt row = lastCheckedAt account /\ closedAt row = closedAt account
        /\ sponsoredTxSignature row = orNull (sponsoredTxSignature account)
        /\ programOwner row = orNull (programOwner account)
        /\ dataSize row = (match dataSize account with Some 0 => None | d => d end)
        /\ notes row = orNull (notes account))
  /\ (forall old,
        getAccount db (pubkey account) = Some old ->
        exists row,
          saved = Some row
          /\ List.length (tracked_accounts db') = List.length (tracked_accounts db)
          /\ id row = id old /\ pubkey row = pubkey old /\ createdAt row = createdAt old
          /\ sponsoredTxSignature row = sponsoredTxSignature old
          /\ accountType row = accountType old
          /\ rentLamports row = rentLamports account /\ status row = status account
          /\ lastCheckedAt row = lastCheckedAt account
          /\ closedAt row = coalesce (closedAt account) (closedAt old)
          /\ programOwner row = coalesce (orNull (programOwner account)) (programOwner old)
          /\ dataSize row = coalesce (orNullZ (dataSize account)) (dataSize old)
          /\ notes row = coalesce (orNull (notes account)) (notes old))
  /\ (forall a, a <> pubkey account -> getAccount db' a = getAccount db a)
  /\ (uniqueAddresses db -> uniqueAddresses db')
  /\ reclaim_transactions db' = reclaim_transactions db
  /\ whitelist db' = whitelist db /\ blacklist db' = blacklist db.
Proof.
  destruct (getAccount db (pubkey account)) as [old|] eqn:Hget.
  - assert (Hex : existsb (fun a : TrackedAccount => (pubkey a =? pubkey account)%string)
                          (tracked_accounts db) = true).
    { apply existsb_exists. exists old. destruct (getAccount_found _ _ _ Hget) as [Hpk Hin].
      split; [exact Hin | rewrite Hpk; apply String.eqb_refl]. }
    assert (Hafter : forall a,
               getAccount (setAccounts db (map (upsertUpdate account) (tracked_accounts db))) a
               = option_map (upsertUpdate account) (getAccount db a)).
    { intro a. unfold getAccount. cbn [tracked_accounts setAccounts].
      apply find_map_preserving. intro x. unfold upsertUpdate.
      destruct (pubkey x =? pubkey account)%string; reflexivity. }
    unfold upsertAccount. cbv zeta. rewrite Hex, Hafter, Hget. cbn [option_map].
    destruct (getAccount_found _ _ _ Hget) as [Hpk _].
    split; [reflexivity|]. split; [discriminate|]. split; [|split; [|split]].
    + intros old' Hold. injection Hold as <-. eexists. split; [reflexivity|].
      cbn [tracked_accounts setAccounts]. rewrite length_map.
      unfold upsertUpdate. rewrite Hpk, String.eqb_refl. cbn. repeat split; reflexivity.
    + intros a Ha. rewrite Hafter. destruct (getAccount db a) as [r|] eqn:Hr; [|reflexivity].
      cbn [option_map]. unfold upsertUpdate.
      destruct (getAccount_found _ _ _ Hr) as [Hrpk _]. rewrite Hrpk.
      apply not_eq_sym in Ha. apply String.eqb_neq in Ha. rewrite String.eqb_sym, Ha.
      rewrite String.eqb_sym in Ha. destruct (a =? pubkey account)%string; reflexivity.
    + unfold uniqueAddresses. cbn [tracked_accounts setAccounts]. rewrite map_map.
      intro Hu. erewrite map_ext; [exact Hu|]. intro r. unfold upsertUpdate.
      destruct (pubkey r =? pubkey account)%string; reflexivity.
    + repeat split.
  - rewrite (upsertAccount_fresh account db Hget). cbv zeta.
    split; [rewrite getAccount_insert, Hget; cbn [pubkey fields upsertInsert];
            rewrite String.eqb_refl; reflexivity|].
    split; [|split; [discriminate|split; [|split; [|repeat split]]]].
    + intros _. eexists. split; [reflexivity|]. split; [reflexivity|].
      split; [|cbn; repeat split; destruct (dataSize account) as [[| |]|]; reflexivity].
      intros old Hold. cbn [id upsertInsert]. unfold nextId.
      induction (tracked_accounts db) as [|x l IH]; [contradiction|].
      cbn [fold_right]. destruct Hold as [->|Hold]; [lia|].
      specialize (IH Hold). lia.
    + intros a Ha. rewrite getAccount_insert. destruct (getAccount db a); [reflexivity|].
      cbn [pubkey fields upsertInsert]. apply not_eq_sym in Ha. apply String.eqb_neq in Ha.
      rewrite Ha. reflexivity.
    + apply unique_insert. exact Hget.
Qed.

(** ** The reclaim log *)

Lemma in_firstn {A : Type} (x : A) (n : nat) (l : list A) : In x (firstn n l) -> In x l.
Proof.
  intro H. rewrite <- (firstn_skipn n l). apply in_or_app. left. exact H.
Qed.

Lemma firstn_sorted {A : Type} (R : A -> A -> Prop) (l : list A) :
  StronglySorted R l -> forall n, StronglySorted R (firstn n l).
Proof.
  induction 1 as [|a l Hs IH Ha]; intro n; destruct n; simpl; try constructor.
  - apply IH.
  - apply Forall_forall. intros x Hx. apply in_firstn in Hx.
    rewrite Forall_forall in Ha. auto.
Qed.

(** X22.  [getReclaimTransactions] returns rows of the reclaim log, latest
    first; with an account given, only rows of that account; with a limit
    [n > 0], the first [n] of them.  A limit of 0 counts as no limit and an
    empty account as no account.  A row recorded for an account is found
    again under that account. *)
Theorem reclaim_history_is_filtered_ordered_and_limited
        (db : Db) (forAccount : option string) (limit : option nat) :
  let rows := getReclaimTransactions db forAccount limit in
  (forall r : ReclaimTransaction,
      In r rows ->
      In r (reclaim_transactions db)
      /\ forall pk, forAccount = Some pk -> pk <> EmptyString -> accountPubkey r = pk)
  /\ StronglySorted (fun a b : ReclaimTransaction => reclaimedAt b <= reclaimedAt a) rows
  /\ (forall n, limit = Some (S n) ->
                rows = firstn (S n) (getReclaimTransactions db forAccount None)
                /\ (List.length rows <= S n)%nat)
  /\ getReclaimTransactions db forAccount (Some O) = getReclaimTransactions db forAccount None
  /\ getReclaimTransactions db (Some EmptyString) limit = getReclaimTransactions db None limit
  /\ Permutation (getReclaimTransactions db None None) (reclaim_transactions db)
  /\ (forall tx : ReclaimFields,
        accountPubkey tx <> EmptyString ->
        exists row,
          In row (getReclaimTransactions (snd (recordReclaimTransaction tx db))
                                         (Some (accountPubkey tx)) None)
          /\ accountPubkey row = accountPubkey tx /\ txSignature row = txSignature tx
          /\ lamportsReclaimed row = lamportsReclaimed tx
          /\ reclaimedAt row = reclaimedAt tx /\ success row = success tx
          /\ treasuryPubkey row = treasuryPubkey tx).
Proof.
  intro rows.
  set (chosen :=
         match forAccount with
         | Some pk =>
             if truthy forAccount
             then filter (fun r : ReclaimTransaction => (accountPubkey r =? pk)%string)
                         (reclaim_transactions db)
             else reclaim_transactions db
         | None => reclaim_transactions db
         end).
  set (ordered := orderByDesc (fun r : ReclaimTransaction => reclaimedAt r) chosen).
  assert (Hrows : rows = match limit with
                         | Some (S n) => firstn (S n) ordered
                         | _ => ordered
                         end) by reflexivity.
  assert (Hsub : forall r, In r rows -> In r chosen).
  { intros r Hin. rewrite Hrows in Hin.
    assert (In r ordered) as Ho.
    { destruct limit as [[|n]|]; [exact Hin | apply in_firstn in Hin; exact Hin | exact Hin]. }
    eapply Permutation_in; [apply orderByDesc_perm | exact Ho]. }
  split; [|split; [|split; [|split; [|split; [|split]]]]].
  - intros r Hin. apply Hsub in Hin. unfold chosen in Hin.
    destruct forAccount as [pk|]; [|split; [exact Hin | discriminate]].
    destruct (truthy (Some pk)) eqn:Ht.
    + apply filter_In in Hin. destruct Hin as [Hin Heq]. apply String.eqb_eq in Heq.
      split; [exact Hin|]. intros pk' Hpk _. injection Hpk as <-. exact Heq.
    + split; [exact Hin|]. intros pk' Hpk Hne. injection Hpk as <-.
      simpl in Ht. apply negb_false_iff, String.eqb_eq in Ht. contradiction.
  - rewrite Hrows.
    assert (Hs : StronglySorted (fun a b : ReclaimTransaction => reclaimedAt b <= reclaimedAt a)
                                ordered) by apply orderByDesc_sorted.
    destruct limit as [[|n]|]; [exact Hs | apply firstn_sorted; exact Hs | exact Hs].
  - intros n Hl. rewrite Hrows, Hl. split; [reflexivity | apply firstn_le_length].
  - reflexivity.
  - reflexivity.
  - apply orderByDesc_perm.
  - intros tx Hne. eexists. split.
    + unfold getReclaimTransactions.
      eapply Permutation_in; [apply Permutation_sym, orderByDesc_perm|].
      assert (Ht : truthy (Some (accountPubkey tx)) = true).
      { simpl. apply negb_true_iff, String.eqb_neq. exact Hne. }
      rewrite Ht. apply filter_In. split.
      * cbn [recordReclaimTransaction snd reclaim_transactions].
        apply in_or_app. right. left. reflexivity.
      * cbn. apply String.eqb_refl.
    + cbn. repeat split.
Qed.

(** X23.  [recordReclaimTransaction] appends one row, with a fresh id and
    the given columns, and returns the row it reads back by signature, the
    oldest row of the log that carries the signature.  When a row with the
    signature was already there (every simulated reclaim is recorded under
    "dry-run-signature", every refusal under "failed"), the record returned
    is that earlier row and not the one just written. *)
Theorem record_returns_the_oldest_row_with_the_signature (tx : ReclaimFields) (db : Db) :
  let (returned, db') := recordReclaimTransaction tx db in
  (exists row : ReclaimTransaction,
      reclaim_transactions db' = reclaim_transactions db ++ [row]
      /\ (forall old : ReclaimTransaction,
             In old (reclaim_transactions db) -> (txId old < txId row)%nat)
      /\ accountPubkey row = accountPubkey tx /\ txSignature row = txSignature tx
      /\ lamportsReclaimed row = lamportsReclaimed tx
      /\ reclaimedAt row = reclaimedAt tx /\ success row = success tx
      /\ errorMessage row = orNull (errorMessage tx)
      /\ treasuryPubkey row = treasuryPubkey tx
      /\ match find (fun r : ReclaimTransaction => (txSignature r =? txSignature tx)%string)
                    (reclaim_transactions db) with
         | Some old =>
             returned = old /\ In old (reclaim_transactions db)
             /\ (txId old < txId row)%nat
         | None => returned = row
         end)
  /\ tracked_accounts db' = tracked_accounts db
  /\ whitelist db' = whitelist db /\ blacklist db' = blacklist db.
Proof.
  unfold recordReclaimTransaction. cbv zeta.
  assert (Hfresh : forall old : ReclaimTransaction,
             In old (reclaim_transactions db) ->
             (txId old < nextId txId (reclaim_transactions db))%nat).
  { intros old Hold. unfold nextId.
    induction (reclaim_transactions db) as [|x l IH]; [contradiction|].
    cbn [fold_right]. destruct Hold as [->|Hold]; [lia|]. specialize (IH Hold). lia. }
  split; [|repeat split].
  eexists. split; [reflexivity|]. split; [exact Hfresh|]. cbn.
  repeat (split; [reflexivity|]).
  rewrite find_app.
  destruct (find (fun r : ReclaimTransaction => (txSignature r =? txSignature tx)%string)
                 (reclaim_transactions db)) as [old|] eqn:Hfind.
  - apply find_some in Hfind. destruct Hfind as [Hin _]. auto.
  - cbn. rewrite String.eqb_refl. reflexivity.
Qed.

(** ** Statistics *)

Lemma rows_by_status (rows : list TrackedAccount) :
  List.length rows
  = (List.length (withStatus ACTIVE rows) + List.length (withStatus CLOSED rows)
     + List.length (withStatus ERROR rows) + List.length (withStatus INACTIVE rows)
     + List.length (withStatus RECLAIMED rows)
     + List.length (withStatus WHITELISTED rows))%nat
  /\ sumRent rows
     = sumRent (withStatus ACTIVE rows) + sumRent (withStatus CLOSED rows)
       + sumRent (withStatus ERROR rows) + sumRent (withStatus INACTIVE rows)
       + sumRent (withStatus RECLAIMED rows) + sumRent (withStatus WHITELISTED rows).
Proof.
  unfold withStatus. induction rows as [|a rows [IHn IHs]]; [split; reflexivity|].
  cbn [filter List.length sumRent fold_right]. fold (sumRent rows).
  destruct (status a); cbn [status_eqb List.length sumRent fold_right];
    repeat match goal with
           | |- context [fold_right ?f 0 (filter ?p rows)] =>
               change (fold_right f 0 (filter p rows)) with (sumRent (filter p rows))
           end;
    split; lia.
Qed.

Lemma sumRent_nonneg (rows : list TrackedAccount) :
  (forall a : TrackedAccount, In a rows -> 0 <= rentLamports a) -> 0 <= sumRent rows.
Proof.
  unfold sumRent. induction rows as [|a rows IH]; intro H; simpl; [lia|].
  pose proof (H a (or_introl eq_refl)).
  assert (0 <= fold_right (fun (a0 : TrackedAccount) acc => rentLamports a0 + acc) 0 rows)
    by (apply IH; intros b Hb; apply H; right; exact Hb).
  lia.
Qed.

Lemma sumRent_withStatus (st : AccountStatus) (rows : list TrackedAccount) :
  (forall a : TrackedAccount, In a rows -> 0 <= rentLamports a) ->
  0 <= sumRent (withStatus st rows) <= sumRent rows.
Proof.
  unfold withStatus, sumRent. induction rows as [|a rows IH]; intro H; simpl; [lia|].
  pose proof (H a (or_introl eq_refl)).
  assert (0 <= fold_right (fun (a0 : TrackedAccount) acc => rentLamports a0 + acc) 0
                          (filter (fun a0 : TrackedAccount => status_eqb (status a0) st) rows)
          <= fold_right (fun (a0 : TrackedAccount) acc => rentLamports a0 + acc) 0 rows)
    by (apply IH; intros b Hb; apply H; right; exact Hb).
  destruct (status_eqb (status a) st); simpl; lia.
Qed.

(** The loop over the groups of the status query, from zero: the counters. *)
Lemma countGroups_from_zero (rows : list TrackedAccount) :
  let stats :=
    fold_left countGroup (statusGroups rows)
      {| totalAccounts := O; activeAccounts := O; inactiveAccounts := O;
         closedAccounts := O; reclaimedAccounts := O; whitelistedAccounts := O;
         totalRentLocked := 0; totalRentReclaimed := 0; reclaimableRent := 0 |} in
  totalAccounts stats = List.length rows
  /\ activeAccounts stats = List.length (withStatus ACTIVE rows)
  /\ inactiveAccounts stats = List.length (withStatus INACTIVE rows)
  /\ closedAccounts stats = List.length (withStatus CLOSED rows)
  /\ reclaimedAccounts stats = List.length (withStatus RECLAIMED rows)
  /\ whitelistedAccounts stats = List.length (withStatus WHITELISTED rows).
Proof.
  intro stats. destruct (rows_by_status rows) as [Hn _].
  unfold stats, statusGroups. cbn [flat_map].
  revert Hn.
  generalize (withStatus ACTIVE rows) (withStatus CLOSED rows) (withStatus ERROR rows)
             (withStatus INACTIVE rows) (withStatus RECLAIMED rows)
             (withStatus WHITELISTED rows).
  intros gA gC gE gI gR gW Hn.
  destruct gA, gC, gE, gI, gR, gW;
    cbn [app fold_left countGroup g_status g_count totalAccounts
         activeAccounts inactiveAccounts closedAccounts reclaimedAccounts
         whitelistedAccounts List.length] in *;
    repeat split; try reflexivity; try lia.
Qed.

(** The same loop: the two sums of balances, when no balance is negative
    and the sum over the table is a safe integer. *)
Lemma rentGroups_from_zero (rows : list TrackedAccount) :
  (forall a : TrackedAccount, In a rows -> 0 <= rentLamports a) ->
  sumRent rows <= MAX_SAFE_INTEGER ->
  let stats :=
    fold_left countGroup (statusGroups rows)
      {| totalAccounts := O; activeAccounts := O; inactiveAccounts := O;
         closedAccounts := O; reclaimedAccounts := O; whitelistedAccounts := O;
         totalRentLocked := 0; totalRentReclaimed := 0; reclaimableRent := 0 |} in
  totalRentLocked stats = sumRent rows
  /\ reclaimableRent stats = sumRent (withStatus CLOSED rows).
Proof.
  intros Hpos Hmax stats. destruct (rows_by_status rows) as [_ Hs].
  pose proof (sumRent_withStatus ACTIVE rows Hpos) as HA.
  pose proof (sumRent_withStatus CLOSED rows Hpos) as HC.
  pose proof (sumRent_withStatus ERROR rows Hpos) as HE.
  pose proof (sumRent_withStatus INACTIVE rows Hpos) as HI.
  pose proof (sumRent_withStatus RECLAIMED rows Hpos) as HR.
  pose proof (sumRent_withStatus WHITELISTED rows Hpos) as HW.
  unfold stats, statusGroups. cbn [flat_map].
  revert Hs HA HC HE HI HR HW Hmax. generalize (sumRent rows).
  generalize (withStatus ACTIVE rows) (withStatus CLOSED rows) (withStatus ERROR rows)
             (withStatus INACTIVE rows) (withStatus RECLAIMED rows)
             (withStatus WHITELISTED rows).
  intros gA gC gE gI gR gW total Hs HA HC HE HI HR HW Hmax.
  destruct gA, gC, gE, gI, gR, gW;
    cbn [app fold_left countGroup g_status g_total_rent totalRentLocked reclaimableRent] in *;
    unfold Js.plus;
    repeat match goal with
           | |- context [toDouble ?x] =>
               rewrite (toDouble_exact x)
                 by (change (sumRent []) with 0 in *; lia)
           end;
    change (sumRent []) with 0 in *; split; lia.
Qed.

(** X19.  [getStats] counts the table by status.  The total is the number
    of rows and each of the five counters is the number of rows in its
    status; rows in status Error are counted in the total only, so the five
    counters add up to the total exactly when no row is in that status.  The
    reclaimed total is the sum over the successful rows of the reclaim log,
    an integer of 64 bits read as a number.  When no stored balance is
    negative and the sum of the
    balances is a safe integer, the locked rent is that sum and the
    reclaimable rent is the sum over the Closed rows. *)
Theorem getStats_counts_by_status (db : Db) :
  let stats := getStats db in
  let rows := tracked_accounts db in
  totalAccounts stats = List.length rows
  /\ activeAccounts stats = List.length (withStatus ACTIVE rows)
  /\ inactiveAccounts stats = List.length (withStatus INACTIVE rows)
  /\ closedAccounts stats = List.length (withStatus CLOSED rows)
  /\ reclaimedAccounts stats = List.length (withStatus RECLAIMED rows)
  /\ whitelistedAccounts stats = List.length (withStatus WHITELISTED rows)
  /\ (activeAccounts stats + inactiveAccounts stats + closedAccounts stats
      + reclaimedAccounts stats + whitelistedAccounts stats
      + List.length (withStatus ERROR rows))%nat = totalAccounts stats
  /\ (Z.abs (sumReclaimed (reclaim_transactions db)) < 2 ^ 63 ->
      totalRentReclaimed stats = toDouble (sumReclaimed (reclaim_transactions db)))
  /\ (0 <= sumReclaimed (reclaim_transactions db) <= MAX_SAFE_INTEGER ->
      totalRentReclaimed stats = sumReclaimed (reclaim_transactions db))
  /\ ((forall a : TrackedAccount, In a rows -> 0 <= rentLamports a) ->
      sumRent rows <= MAX_SAFE_INTEGER ->
      totalRentLocked stats = sumRent rows
      /\ reclaimableRent stats = sumRent (withStatus CLOSED rows)).
Proof.
  intros stats rows.
  destruct (countGroups_from_zero rows) as (St & Sa & Si & Sc & Sr & Sw).
  destruct (rows_by_status rows) as [Hn _].
  unfold stats, getStats. fold rows.
  cbn [totalAccounts activeAccounts inactiveAccounts closedAccounts reclaimedAccounts
       whitelistedAccounts totalRentLocked totalRentReclaimed reclaimableRent].
  split; [exact St|]. split; [exact Sa|]. split; [exact Si|]. split; [exact Sc|].
  split; [exact Sr|]. split; [exact Sw|].
  split; [rewrite Sa, Si, Sc, Sr, Sw, St; lia|].
  split; [intros _; reflexivity|].
  split; [intro Hsafe; apply toDouble_exact; exact Hsafe|].
  intros Hpos Hmax. apply (rentGroups_from_zero rows Hpos Hmax).
Qed.

Lemma getAccounts_all (db : Db) : Permutation (getAccounts db noFilter) (tracked_accounts db).
Proof.
  unfold getAccounts. rewrite newestFirst_perm.
  induction (tracked_accounts db) as [|x l IH]; simpl; [reflexivity|].
  constructor. exact IH.
Qed.

Lemma sumRent_perm (l l' : list TrackedAccount) :
  Permutation l l' -> sumRent l = sumRent l'.
Proof.
  unfold sumRent. induction 1; simpl; lia.
Qed.

Lemma withStatus_perm (st : AccountStatus) (l l' : list TrackedAccount) :
  Permutation l l' -> Permutation (withStatus st l) (withStatus st l').
Proof.
  unfold withStatus. induction 1; simpl.
  - reflexivity.
  - destruct (status_eqb (status x) st); [constructor|]; assumption.
  - destruct (status_eqb (status x) st), (status_eqb (status y) st);
      first [apply perm_swap | reflexivity].
  - etransitivity; eassumption.
Qed.

(** The loop of the summary, from any starting point. *)
Lemma summarise_all (l : list TrackedAccount) :
  forall s : MonitorSummary,
    let s' := fold_left summarise l s in
    totalTracked s' = totalTracked s
    /\ (forall st, byStatus s' st = (byStatus s st + List.length (withStatus st l))%nat)
    /\ (lastCheckTime s = None ->
        (lastCheckTime s' = None <-> l = [])
        /\ forall latest, lastCheckTime s' = Some latest ->
             (forall a, In a l -> lastCheckedAt a <= latest)
             /\ exists a, In a l /\ lastCheckedAt a = latest)
    /\ (forall latest0, lastCheckTime s = Some latest0 ->
        exists latest, lastCheckTime s' = Some latest /\ latest0 <= latest
                       /\ (forall a, In a l -> lastCheckedAt a <= latest)
                       /\ (latest = latest0 \/ exists a, In a l /\ lastCheckedAt a = latest)).
Proof.
  induction l as [|a l IH]; intro s.
  - cbn [fold_left]. cbv zeta. unfold withStatus, sumRent. simpl.
    split; [reflexivity|]. split; [intro st; lia|]. split.
    + intro Hnone. split; [rewrite Hnone; tauto|].
      intros latest H. rewrite Hnone in H. discriminate.
    + intros latest0 H0. exists latest0. split; [exact H0|]. split; [lia|].
      split; [intros ? []|]. left. reflexivity.
  - cbn [fold_left]. cbv zeta.
    destruct (IH (summarise s a)) as (Ht & Hby & _ & Hsome).
    assert (Hlast : exists l0, lastCheckTime (summarise s a) = Some l0
                               /\ lastCheckedAt a <= l0
                               /\ (forall l1, lastCheckTime s = Some l1 -> l1 <= l0)
                               /\ (l0 = lastCheckedAt a \/ lastCheckTime s = Some l0)).
    { unfold summarise. cbn [lastCheckTime]. destruct (lastCheckTime s) as [l1|].
      - destruct (l1 <? lastCheckedAt a) eqn:E.
        + apply Z.ltb_lt in E. eexists. split; [reflexivity|].
          repeat split; auto; try lia. intros ? H; injection H as <-; lia.
        + apply Z.ltb_ge in E. eexists. split; [reflexivity|].
          repeat split; auto; try lia. intros ? H; injection H as <-; lia.
      - eexists. split; [reflexivity|]. repeat split; auto; try lia. discriminate. }
    destruct Hlast as (l0 & Hl0 & Ha & Hprev & Hfrom).
    destruct (Hsome l0 Hl0) as (latest & Hfin & Hge & Hall & Hatt).
    split; [rewrite Ht; reflexivity|].
    split; [|split].
    + intro st. rewrite Hby. unfold summarise, withStatus. cbn [byStatus filter].
      destruct (status_eqb st (status a)) eqn:E.
      * apply status_eqb_eq in E. subst st.
        assert (status_eqb (status a) (status a) = true) as -> by (apply status_eqb_eq; auto).
        simpl. lia.
      * assert (status_eqb (status a) st = false) as ->.
        { apply status_eqb_neq. apply status_eqb_neq in E. auto. }
        lia.
    + intro Hnone. split; [rewrite Hfin; split; discriminate|].
      intros latest' H. rewrite Hfin in H. injection H as <-. split.
      * intros b [<-|Hb]; [lia | auto].
      * destruct Hatt as [->|[b [Hb Heq]]].
        -- destruct Hfrom as [->|Hbad]; [|congruence]. exists a. split; [left|]; reflexivity.
        -- exists b. split; [right; exact Hb | exact Heq].
    + intros latest0 H0. exists latest. split; [exact Hfin|].
      specialize (Hprev latest0 H0).
      split; [lia|]. split; [intros b [<-|Hb]; [lia | auto]|].
      destruct Hatt as [->|[b [Hb Heq]]].
      * destruct Hfrom as [->|Hs]; [right; exists a; split; [left|]; reflexivity|].
        left. congruence.
      * right. exists b. split; [right; exact Hb | exact Heq].
Qed.

(** The two sums of the summary, when no balance is negative and the sums
    stay safe integers. *)
Lemma summarise_rents (l : list TrackedAccount) :
  forall s : MonitorSummary,
    0 <= ms_totalRentLocked s -> 0 <= ms_reclaimableRent s ->
    (forall a : TrackedAccount, In a l -> 0 <= rentLamports a) ->
    ms_totalRentLocked s + sumRent l <= MAX_SAFE_INTEGER ->
    ms_reclaimableRent s + sumRent (withStatus CLOSED l) <= MAX_SAFE_INTEGER ->
    ms_totalRentLocked (fold_left summarise l s) = ms_totalRentLocked s + sumRent l
    /\ ms_reclaimableRent (fold_left summarise l s)
       = ms_reclaimableRent s + sumRent (withStatus CLOSED l).
Proof.
  induction l as [|a l IH]; intros s Hlocked Hrec Hpos Hmax Hmaxc.
  - unfold withStatus, sumRent. simpl. lia.
  - pose proof (Hpos a (or_introl eq_refl)) as Ha.
    assert (Hrest : forall b : TrackedAccount, In b l -> 0 <= rentLamports b)
      by (intros b Hb; apply Hpos; right; exact Hb).
    pose proof (sumRent_nonneg l Hrest) as Hsum.
    pose proof (sumRent_withStatus CLOSED l Hrest) as Hclosed.
    change (sumRent (a :: l)) with (rentLamports a + sumRent l) in *.
    cbn [fold_left].
    assert (Hl : ms_totalRentLocked (summarise s a) = ms_totalRentLocked s + rentLamports a).
    { unfold summarise. cbn [ms_totalRentLocked]. apply plus_exact; lia. }
    unfold withStatus in Hmaxc |- *. cbn [filter] in Hmaxc |- *.
    fold (withStatus CLOSED l) in Hmaxc |- *.
    destruct (status_eqb (status a) CLOSED) eqn:Hst.
    + change (sumRent (a :: withStatus CLOSED l))
        with (rentLamports a + sumRent (withStatus CLOSED l)) in *.
      assert (Hr : ms_reclaimableRent (summarise s a)
                   = ms_reclaimableRent s + rentLamports a).
      { unfold summarise. cbn [ms_reclaimableRent]. rewrite Hst. apply plus_exact; lia. }
      destruct (IH (summarise s a)) as [H1 H2]; first [lia | exact Hrest].
    + assert (Hr : ms_reclaimableRent (summarise s a) = ms_reclaimableRent s).
      { unfold summarise. cbn [ms_reclaimableRent]. rewrite Hst. reflexivity. }
      destruct (IH (summarise s a)) as [H1 H2]; first [lia | exact Hrest].
Qed.

(** X20.  The monitor's summary and the store's statistics are two counts
    of the same table and agree on the total and on the five per-status
    counters; the summary also counts the rows in status Error, which the
    statistics leave out, and its last check time is the latest
    [lastCheckedAt] of the table, absent exactly when the table is empty.
    The two agree on the locked and on the reclaimable rent when no stored
    balance is negative and the sum of the balances is a safe integer: the
    summary adds the balances one by one on numbers, the statistics read the
    integer sums of the store. *)
Theorem monitor_summary_agrees_with_stats (db : Db) :
  let summary := getMonitorSummary db in
  let stats := getStats db in
  totalTracked summary = totalAccounts stats
  /\ byStatus summary ACTIVE = activeAccounts stats
  /\ byStatus summary INACTIVE = inactiveAccounts stats
  /\ byStatus summary CLOSED = closedAccounts stats
  /\ byStatus summary RECLAIMED = reclaimedAccounts stats
  /\ byStatus summary WHITELISTED = whitelistedAccounts stats
  /\ byStatus summary ERROR = List.length (withStatus ERROR (tracked_accounts db))
  /\ ((forall a : TrackedAccount, In a (tracked_accounts db) -> 0 <= rentLamports a) ->
      sumRent (tracked_accounts db) <= MAX_SAFE_INTEGER ->
      ms_totalRentLocked summary = totalRentLocked stats
      /\ ms_reclaimableRent summary = reclaimableRent stats
      /\ totalRentLocked stats = sumRent (tracked_accounts db))
  /\ (lastCheckTime summary = None <-> tracked_accounts db = [])
  /\ (forall latest,
        lastCheckTime summary = Some latest ->
        (forall a, In a (tracked_accounts db) -> lastCheckedAt a <= latest)
        /\ exists a, In a (tracked_accounts db) /\ lastCheckedAt a = latest).
Proof.
  intros summary stats.
  pose proof (getAccounts_all db) as Hperm.
  pose proof (summarise_all (getAccounts db noFilter)
                {| totalTracked := List.length (getAccounts db noFilter);
                   byStatus := fun _ => O; ms_totalRentLocked := 0;
                   ms_reclaimableRent := 0; lastCheckTime := None |}) as Hloop.
  cbv zeta in Hloop. fold (getMonitorSummary db) in Hloop. fold summary in Hloop.
  cbn [totalTracked byStatus ms_totalRentLocked ms_reclaimableRent lastCheckTime] in Hloop.
  destruct Hloop as (Ht & Hby & Hlast & _).
  destruct (Hlast eq_refl) as [Hnone Hmax].
  pose proof (countGroups_from_zero (tracked_accounts db)) as Hstats. cbv zeta in Hstats.
  destruct Hstats as (St & Sa & Si & Sc & Sr & Sw).
  unfold stats, getStats.
  cbn [totalAccounts activeAccounts inactiveAccounts closedAccounts reclaimedAccounts
       whitelistedAccounts totalRentLocked totalRentReclaimed reclaimableRent].
  assert (Hcount : forall st,
             byStatus summary st = List.length (withStatus st (tracked_accounts db))).
  { intro st. rewrite Hby. simpl. apply Permutation_length, withStatus_perm, Hperm. }
  split; [rewrite Ht, St; apply Permutation_length, Hperm|].
  split; [rewrite Sa; apply Hcount|]. split; [rewrite Si; apply Hcount|].
  split; [rewrite Sc; apply Hcount|]. split; [rewrite Sr; apply Hcount|].
  split; [rewrite Sw; apply Hcount|]. split; [apply Hcount|].
  split; [|split].
  - intros Hpos Hsafe.
    destruct (rentGroups_from_zero (tracked_accounts db) Hpos Hsafe) as [Srent Srec].
    cbv zeta in Srent, Srec. rewrite Srent, Srec.
    assert (Hpos' : forall a : TrackedAccount,
               In a (getAccounts db noFilter) -> 0 <= rentLamports a).
    { intros a Ha. apply Hpos. eapply Permutation_in; [exact Hperm | exact Ha]. }
    pose proof (sumRent_perm _ _ Hperm) as Hsame.
    pose proof (sumRent_perm _ _ (withStatus_perm CLOSED _ _ Hperm)) as Hsamec.
    pose proof (sumRent_withStatus CLOSED (getAccounts db noFilter) Hpos') as Hle.
    destruct (summarise_rents (getAccounts db noFilter)
                {| totalTracked := List.length (getAccounts db noFilter);
                   byStatus := fun _ => O; ms_totalRentLocked := 0;
                   ms_reclaimableRent := 0; lastCheckTime := None |}) as [H1 H2];
      cbn [ms_totalRentLocked ms_reclaimableRent]; try lia; [exact Hpos'|].
    fold (getMonitorSummary db) in H1, H2. fold summary in H1, H2.
    cbn [ms_totalRentLocked ms_reclaimableRent] in H1, H2.
    split; [lia|]. split; [lia | reflexivity].
  - rewrite Hnone. split.
    + intro Hnil. rewrite Hnil in Hperm. apply Permutation_nil. exact Hperm.
    + intro Hnil. rewrite Hnil in Hperm. apply Permutation_nil.
      apply Permutation_sym. exact Hperm.
  - intros latest Hl. destruct (Hmax latest Hl) as [Hall [a [Hin Heq]]]. split.
    + intros b Hb. apply Hall. eapply Permutation_in; [apply Permutation_sym, Hperm | exact Hb].
    + exists a. split; [eapply Permutation_in; [exact Hperm | exact Hin] | exact Heq].
Qed.

(** Above the safe integers the two can differ: with balances of [2^53], 1
    and 1 lamports the summary, adding one by one, stays at [2^53], while the
    statistics read the exact sum [2^53 + 2]. *)
Example summary_and_statistics_round_apart :
  let row (n : nat) (pk : PublicKey) (rent : Z) : TrackedAccount :=
    {| id := n; fields := fields (Scenario.tracked pk ACTIVE rent None) |} in
  let db :=
    {| tracked_accounts := [row 1%nat Scenario.alice 9007199254740992;
                            row 2%nat Scenario.bob 1;
                            row 3%nat Scenario.sponsor 1];
       reclaim_transactions := []; whitelist := []; blacklist := [] |} in
  ms_totalRentLocked (getMonitorSummary db) = 9007199254740992
  /\ totalRentLocked (getStats db) = 9007199254740994.
Proof. cbv zeta. split; vm_compute; reflexivity. Qed.

Lemma sumReclaimed_app (l : list ReclaimTransaction) (row : ReclaimTransaction) :
  sumReclaimed (l ++ [row])
  = sumReclaimed l + (if success row then lamportsReclaimed row else 0).
Proof.
  unfold sumReclaimed. induction l as [|x l IH]; simpl.
  - destruct (success row); lia.
  - rewrite IH. destruct (success x); lia.
Qed.

(** What one run of the single-account protocol adds to the sum of the
    successful rows of the reclaim log: the lamports its result reports. *)
Lemma reclaim_logged (config : BotConfig) (env : ReclaimEnv) (pk : PublicKey)
      (forceDryRun : option bool) (db : Db)
      (out : Outcome ReclaimResult) (sent : list Transaction) (db' : Db) :
  reclaimSingleAccount config env pk forceDryRun db = (out, sent, db') ->
  sumReclaimed (reclaim_transactions db')
  = sumReclaimed (reclaim_transactions db)
    + match out with Resolved r => lamportsOf r | Rejected _ => 0 end.
Proof.
  unfold reclaimSingleAccount. cbv zeta.
  set (dry := match forceDryRun with Some b => b | None => dryRun config end).
  clearbody dry.
  destruct (checkEligibility config (atEligibility env) (clock env) pk db)
    as [[el|e] dbE] eqn:Hel;
    destruct (checkEligibility_frame _ _ _ _ _ _ _ Hel) as (_ & _ & Hlog & _).
  2: { intro H; injection H as <- <- <-. rewrite Hlog. lia. }
  assert (Hstop : forall why,
             (Resolved (failure pk why dry), @nil Transaction, dbE) = (out, sent, db') ->
             sumReclaimed (reclaim_transactions db')
             = sumReclaimed (reclaim_transactions db)
               + match out with Resolved r => lamportsOf r | Rejected _ => 0 end).
  { intros why H; injection H as <- <- <-. rewrite Hlog. unfold lamportsOf. simpl. lia. }
  destruct (eligible el); cbn [negb]; [|apply Hstop].
  destruct (getTreasuryPubkey config) as [treasury|e];
    [|intro H; injection H as <- <- <-; rewrite Hlog; lia].
  destruct (getAccountInfo (atBalance env) pk) as [info2|e]; [|apply Hstop].
  split_match; [apply Hstop|].
  destruct (loadOperatorKeypair config) as [kp|e]; [|apply Hstop].
  destruct (closeAccountAndReclaimRent (atClose env) pk treasury kp _)
    as [[cr|e] sent0]; [|intro H; injection H as <- <- <-; rewrite Hlog;
                         unfold lamportsOf; simpl; lia].
  destruct (c_success cr) eqn:Hok.
  - destruct dry; intro H; injection H as <- <- <-;
      cbn [recordReclaimTransaction snd reclaim_transactions updateAccountRent
           updateAccountStatus updateWhere setAccounts];
      rewrite sumReclaimed_app; cbn; rewrite Hlog; unfold lamportsOf; simpl; reflexivity.
  - intro H; injection H as <- <- <-.
    cbn [recordReclaimTransaction snd reclaim_transactions].
    rewrite sumReclaimed_app. cbn. rewrite Hlog. unfold lamportsOf. simpl. lia.
Qed.

Lemma reclaimLoop_logged (config : BotConfig) (dry : bool) (envs : nat -> ReclaimEnv)
      (pks : list PublicKey) :
  forall (i : nat) (summary : BatchReclaimSummary) (sent : list Transaction) (db : Db)
         (thrown : option Thrown) (summary' : BatchReclaimSummary)
         (sent' : list Transaction) (db' : Db),
    reclaimLoop config dry envs i pks summary sent db = (thrown, summary', sent', db') ->
    exists rs,
      results summary' = results summary ++ rs
      /\ totalLamportsReclaimed summary' = addedUp (totalLamportsReclaimed summary) rs
      /\ sumReclaimed (reclaim_transactions db')
         = sumReclaimed (reclaim_transactions db) + sumLamports rs.
Proof.
  induction pks as [|pk rest IH]; intros i summary sent db thrown summary' sent' db' H.
  - simpl in H. injection H as <- <- <- <-. exists []. rewrite app_nil_r.
    unfold sumLamports, addedUp. simpl. split; [reflexivity|]. split; [reflexivity | lia].
  - simpl in H.
    destruct (reclaimSingleAccount config (envs i) pk (Some dry) db)
      as [[[r|e] sent1] db1] eqn:Hone; pose proof (reclaim_logged _ _ _ _ _ _ _ _ Hone) as Hl.
    + destruct (IH _ _ _ _ _ _ _ _ H) as (rs & Hres & Htotal & Hsum).
      exists (r :: rs).
      cbn [tally attempt results totalLamportsReclaimed] in Hres, Htotal.
      split; [rewrite Hres, <- app_assoc; reflexivity|].
      split; [rewrite Htotal; reflexivity|].
      change (sumLamports (r :: rs)) with (lamportsOf r + sumLamports rs).
      cbn beta iota in Hl. lia.
    + injection H as <- <- <- <-. exists []. rewrite app_nil_r.
      unfold sumLamports, addedUp. simpl in Hl |- *.
      split; [reflexivity|]. split; [reflexivity | lia].
Qed.

(** The reclaimed total of the statistics before and after a batch, from
    the sum over the successful rows of the log. *)
Lemma batch_logged (db db' : Db) (summary : BatchReclaimSummary) :
  totalLamportsReclaimed summary = addedUp 0 (results summary) ->
  sumReclaimed (reclaim_transactions db')
  = sumReclaimed (reclaim_transactions db) + sumLamports (results summary) ->
  0 <= sumReclaimed (reclaim_transactions db) ->
  Forall (fun r => 0 <= lamportsOf r) (results summary) ->
  sumReclaimed (reclaim_transactions db) + sumLamports (results summary)
  <= MAX_SAFE_INTEGER ->
  totalRentReclaimed (getStats db')
  = totalRentReclaimed (getStats db) + totalLamportsReclaimed summary.
Proof.
  intros Htotal Hsum Hlog Hpos Hmax. unfold getStats. cbn [totalRentReclaimed]. rewrite Hsum.
  pose proof (sumLamports_nonneg _ Hpos) as Hnn.
  rewrite Htotal, addedUp_exact; [|lia | exact Hpos | lia].
  rewrite !toDouble_exact by lia. lia.
Qed.

(** X21.  The reclaimed total of the statistics counts simulated reclaims.
    After a reclaim attempt, single or batch, the sum over the successful
    rows of the reclaim log has grown by exactly the lamports the attempt
    reports as reclaimed, in dry-run mode as in live mode: a successful
    simulation, which moves nothing on the ledger and leaves the account's
    balance in the store, adds its amount.  [totalRentReclaimed] is that sum
    read as a number; as long as the amounts are not negative and the sum is
    a safe integer it grows by the amount of the single attempt, and by the
    total reported in the summary of the batch. *)
Theorem statistics_count_simulated_reclaims
        (config : BotConfig) (now : Date) (env : ReclaimEnv) (envs : nat -> ReclaimEnv)
        (pk : PublicKey) (pubkeys : list PublicKey) (forceDryRun : option bool) (db : Db) :
  let logged := sumReclaimed (reclaim_transactions db) in
  (let '(out, _, db') := reclaimSingleAccount config env pk forceDryRun db in
   let amount := match out with Resolved r => lamportsOf r | Rejected _ => 0 end in
   sumReclaimed (reclaim_transactions db') = logged + amount
   /\ (0 <= logged -> 0 <= amount -> logged + amount <= MAX_SAFE_INTEGER ->
       totalRentReclaimed (getStats db') = totalRentReclaimed (getStats db) + amount))
  /\ (let '(summary, _, db') := reclaimAllEligible config now envs forceDryRun db in
      sumReclaimed (reclaim_transactions db') = logged + sumLamports (results summary)
      /\ (0 <= logged ->
          Forall (fun r => 0 <= lamportsOf r) (results summary) ->
          logged + sumLamports (results summary) <= MAX_SAFE_INTEGER ->
          totalRentReclaimed (getStats db')
          = totalRentReclaimed (getStats db) + totalLamportsReclaimed summary))
  /\ (let '(out, _, db') := reclaimMultiple config envs pubkeys forceDryRun db in
      forall summary, out = Resolved summary ->
        sumReclaimed (reclaim_transactions db') = logged + sumLamports (results summary)
        /\ (0 <= logged ->
            Forall (fun r => 0 <= lamportsOf r) (results summary) ->
            logged + sumLamports (results summary) <= MAX_SAFE_INTEGER ->
            totalRentReclaimed (getStats db')
            = totalRentReclaimed (getStats db) + totalLamportsReclaimed summary)).
Proof.
  intro logged. split; [|split].
  - destruct (reclaimSingleAccount config env pk forceDryRun db) as [[out sent] db'] eqn:H.
    pose proof (reclaim_logged _ _ _ _ _ _ _ _ H) as Hl. fold logged in Hl.
    cbv zeta. split; [exact Hl|].
    unfold getStats. cbn [totalRentReclaimed]. fold logged. rewrite Hl.
    intros Hlog Hpos Hmax. rewrite !toDouble_exact by lia. reflexivity.
  - unfold reclaimAllEligible. cbv zeta.
    destruct (reclaimLoop _ _ _ _ _ _ _ _) as [[[thrown summary] sent] db'] eqn:H.
    destruct (reclaimLoop_logged _ _ _ _ _ _ _ _ _ _ _ _ H) as (rs & Hres & Htotal & Hsum).
    cbn [emptySummary results totalLamportsReclaimed app] in Hres, Htotal. subst rs.
    split; [exact Hsum|]. apply (batch_logged db db' summary Htotal Hsum).
  - unfold reclaimMultiple. cbv zeta.
    destruct (reclaimLoop _ _ _ _ _ _ _ _) as [[[thrown summary] sent] db'] eqn:H.
    destruct (reclaimLoop_logged _ _ _ _ _ _ _ _ _ _ _ _ H) as (rs & Hres & Htotal & Hsum).
    cbn [emptySummary results totalLamportsReclaimed app] in Hres, Htotal. subst rs.
    intros summary0 Hs. destruct thrown; [discriminate|]. injection Hs as <-.
    split; [exact Hsum|]. apply (batch_logged db db' summary Htotal Hsum).
Qed.

(** ** The monitor's reach *)

Lemma monitored_rows (t : TrackedAccount) :
  matchesFilter monitoredStatuses t = true <-> status t = ACTIVE \/ status t = INACTIVE.
Proof.
  unfold matchesFilter, monitoredStatuses. simpl. rewrite !andb_true_r, orb_false_r.
  rewrite orb_true_iff, !status_eqb_eq. reflexivity.
Qed.

Lemma change_of_monitored (belowTenth : Z -> Z -> bool) (accountInfos : AccountMap)
      (t : TrackedAccount) (c : StatusChange) :
  status t = ACTIVE \/ status t = INACTIVE ->
  In c (changesFor belowTenth accountInfos t) ->
  sc_pubkey c = pubkey t /\ previousStatus c = status t
  /\ (newStatus c = CLOSED \/ (newStatus c = INACTIVE /\ previousStatus c = ACTIVE)).
Proof.
  intros Hst. unfold changesFor.
  destruct (mapGet accountInfos (pubkey t)) as [info|]; [|intros []].
  unfold detectStatusChange.
  destruct Hst as [Hst|Hst]; rewrite Hst; simpl;
    destruct (exists_ info); simpl; try (destruct (belowTenth _ _));
    intro Hin; simpl in Hin;
    first [contradiction | destruct Hin as [<-|[]]; simpl; auto].
Qed.

(** X11.  The bulk check looks at Active and Inactive accounts only.
    Every change a run of [checkAllAccounts] reports starts from Active or
    Inactive and leads to Closed, or from Active to Inactive; rows in any
    other status are left exactly as they were, so an account that is stored
    as Closed and exists again is not noticed by the bulk check (the single
    check does notice it), and an address that is not tracked stays so.  The
    run writes nothing to the reclaim log or to the two lists. *)
Theorem bulk_check_reaches_active_and_inactive_only
        (belowTenth : Z -> Z -> bool) (conn : Connection) (now : Date) (elapsed : Z)
        (db : Db) :
  uniqueAddresses db ->
  let (result, db') := checkAllAccounts belowTenth conn now elapsed db in
  (forall c, In c (statusChanges result) ->
             (previousStatus c = ACTIVE \/ previousStatus c = INACTIVE)
             /\ (newStatus c = CLOSED
                 \/ (newStatus c = INACTIVE /\ previousStatus c = ACTIVE))
             /\ exists row, getAccount db (sc_pubkey c) = Some row
                            /\ status row = previousStatus c)
  /\ (forall a row, getAccount db a = Some row ->
                    status row <> ACTIVE -> status row <> INACTIVE ->
                    getAccount db' a = Some row)
  /\ (forall a, getAccount db a = None -> getAccount db' a = None)
  /\ reclaim_transactions db' = reclaim_transactions db
  /\ whitelist db' = whitelist db /\ blacklist db' = blacklist db.
Proof.
  intro Hu.
  pose proof (checkAllAccounts_spec belowTenth conn now elapsed db Hu) as Hspec.
  cbv zeta in Hspec.
  destruct (getAccounts_rows db monitoredStatuses Hu) as [_ Hrows].
  destruct (checkAllAccounts belowTenth conn now elapsed db) as [result db'].
  destruct Hspec as [(-> & Hnone & _)
                    |(accountInfos & _ & Hch & Hother & Hsame & Hlog & Hw & Hb & _)].
  - rewrite Hnone. split; [intros c []|]. auto 10.
  - assert (Hout : forall a,
               (forall t, In t (getAccounts db monitoredStatuses) -> pubkey t <> a) ->
               getAccount db' a = getAccount db a).
    { intros a Hno. apply Hother. intro Hin. apply in_map_iff in Hin.
      destruct Hin as [t [Ht Hin]]. exact (Hno t Hin Ht). }
    split; [|split; [|split; [|split; [|split]]]]; auto.
    + intros c Hc. rewrite Hch in Hc. apply in_flat_map in Hc.
      destruct Hc as [t [Ht Hc]]. apply Hrows in Ht. destruct Ht as [Hin Hm].
      apply monitored_rows in Hm.
      destruct (change_of_monitored _ _ _ _ Hm Hc) as (Hpk & Hprev & Hnew).
      split; [rewrite Hprev; exact Hm|]. split; [exact Hnew|].
      exists t. split; [rewrite Hpk; apply unique_getAccount; assumption | auto].
    + intros a row Hget Hna Hni. rewrite Hout; [exact Hget|].
      intros t Ht Heq. apply Hrows in Ht. destruct Ht as [Hin Hm].
      apply monitored_rows in Hm.
      pose proof (unique_getAccount db t Hu Hin) as Ht. rewrite Heq, Hget in Ht.
      injection Ht as ->. destruct Hm; contradiction.
    + intros a Hget. rewrite Hout; [exact Hget|].
      intros t Ht Heq. apply Hrows in Ht. destruct Ht as [Hin _].
      pose proof (unique_getAccount db t Hu Hin) as Ht. rewrite Heq, Hget in Ht.
      discriminate.
Qed.

Lemma bulk_check_reaches_active_and_inactive_only_witness :
  let conn := Scenario.ledger (fun _ => Scenario.onChain 2039280 Solana.TOKEN_PROGRAM_ID)
                              (Rejected (Other "unused")) in
  let row := Scenario.tracked Scenario.alice CLOSED 0
                              (Some (Scenario.today - 10 * Scenario.day)) in
  let (result, db') :=
    checkAllAccounts Scenario.tenth conn Scenario.today 25 (Scenario.storeWith row) in
  (forall c, In c (statusChanges result) ->
             (previousStatus c = ACTIVE \/ previousStatus c = INACTIVE)
             /\ (newStatus c = CLOSED
                 \/ (newStatus c = INACTIVE /\ previousStatus c = ACTIVE))
             /\ exists row0, getAccount (Scenario.storeWith row) (sc_pubkey c) = Some row0
                             /\ status row0 = previousStatus c)
  /\ (forall a row0, getAccount (Scenario.storeWith row) a = Some row0 ->
                     status row0 <> ACTIVE -> status row0 <> INACTIVE ->
                     getAccount db' a = Some row0)
  /\ (forall a, getAccount (Scenario.storeWith row) a = None -> getAccount db' a = None)
  /\ reclaim_transactions db' = reclaim_transactions (Scenario.storeWith row)
  /\ whitelist db' = whitelist (Scenario.storeWith row)
  /\ blacklist db' = blacklist (Scenario.storeWith row).
Proof.
  apply (bulk_check_reaches_active_and_inactive_only Scenario.tenth
           (Scenario.ledger (fun _ => Scenario.onChain 2039280 Solana.TOKEN_PROGRAM_ID)
                            (Rejected (Other "unused")))
           Scenario.today 25
           (Scenario.storeWith
              (Scenario.tracked Scenario.alice CLOSED 0
                                (Some (Scenario.today - 10 * Scenario.day))))).
  repeat constructor. simpl. intros [].
Defined.

(** X12.  The single check notices a reopened account and keeps the date
    of its last closure.  For a row stored as Closed whose account the
    ledger has again, [checkSingleAccount] reports the change Closed to
    Active and rewrites the row: status Active, balance as found on the
    ledger, time of the check, and the closing date it had.  An address that
    is not tracked, or a failed read, changes nothing. *)
Theorem single_check_reopens_and_keeps_the_closing_date
        (belowTenth : Z -> Z -> bool) (conn : Connection) (now : Date) (pk : PublicKey)
        (db : Db) :
  (forall row info,
      getAccount db pk = Some row -> status row = CLOSED ->
      rpcGetAccountInfo conn pk = Resolved (Some info) ->
      let (change, db') := checkSingleAccount belowTenth conn now pk db in
      change = Some {| sc_pubkey := pubkey row;
                       previousStatus := CLOSED;
                       newStatus := ACTIVE;
                       previousRent := rentLamports row;
                       newRent := ai_lamports info;
                       reason := "Account was reopened or recreated" |}
      /\ exists row',
           getAccount db' pk = Some row'
           /\ status row' = ACTIVE
           /\ rentLamports row' = ai_lamports info
           /\ lastCheckedAt row' = now
           /\ closedAt row' = closedAt row
           /\ id row' = id row)
  /\ ((getAccount db pk = None \/ exists e, rpcGetAccountInfo conn pk = Rejected e) ->
      checkSingleAccount belowTenth conn now pk db = (None, db)).
Proof.
  split.
  - intros row info Hget Hst Hread.
    unfold checkSingleAccount, getAccountInfo. rewrite Hget, Hread.
    unfold detectStatusChange. rewrite Hst. cbn -[applyChange].
    split; [reflexivity|].
    unfold applyChange. cbn [newStatus newRent previousRent status_eqb].
    destruct (ai_lamports info =? rentLamports row) eqn:Hsame.
    + rewrite getAccount_updateAccountStatus, Hget. simpl. rewrite String.eqb_refl.
      eexists. split; [reflexivity|]. simpl. apply Z.eqb_eq in Hsame.
      repeat split; auto.
    + rewrite getAccount_updateAccountRent, getAccount_updateAccountStatus, Hget. simpl.
      rewrite String.eqb_refl.
      eexists. split; [reflexivity|]. simpl. repeat split; auto.
  - unfold checkSingleAccount, getAccountInfo. intros [Hnone|[e He]].
    + rewrite Hnone. reflexivity.
    + destruct (getAccount db pk); [rewrite He|]; reflexivity.
Qed.

(** X30.  A closure recorded by the monitor ends the account's
    eligibility.  When a reconciliation run finds that a tracked Active
    account is gone, it stores the account as Closed with balance 0; from
    then on the eligible-set query with a positive threshold never returns
    it, and, as long as the ledger does not have the account and it is on
    neither list, the eligibility check refuses it for having no remaining
    rent, writing nothing. *)
Theorem closure_by_the_monitor_ends_eligibility
        (belowTenth : Z -> Z -> bool) (conn : Connection) (now : Date) (elapsed : Z)
        (db : Db) (a : PublicKey) (tracked : TrackedAccount)
        (state : PublicKey -> option AccountInfo) :
  uniqueAddresses db ->
  getAccount db a = Some tracked ->
  status tracked = ACTIVE ->
  (forall batch, rpcGetMultipleAccountsInfo conn batch = Resolved (map state batch)) ->
  state a = None ->
  let db' := snd (checkAllAccounts belowTenth conn now elapsed db) in
  exists row,
    getAccount db' a = Some row
    /\ status row = CLOSED /\ rentLamports row = 0
    /\ (forall d m later x,
          0 < m -> In x (getEligibleAccounts db' d m later) -> pubkey x = a -> False)
    /\ (forall config conn' later,
          rpcGetAccountInfo conn' a = Resolved None ->
          isWhitelisted db' a = false -> isBlacklisted db' a = false ->
          checkEligibility config conn' later a db'
          = (Resolved (ineligible (Some row) "Account has no remaining rent to reclaim" []),
             db')).
Proof.
  intros Hu Hget Hactive Hrpc Habsent db'.
  destruct (getAccount_found _ _ _ Hget) as [Hpk Hin].
  destruct (getAccounts_rows db monitoredStatuses Hu) as [_ Hrows].
  assert (Hlisted : In a (map (fun r : TrackedAccount => pubkey r)
                              (getAccounts db monitoredStatuses))).
  { apply in_map_iff. exists tracked. split; [exact Hpk|]. apply Hrows.
    split; [exact Hin|]. unfold matchesFilter. simpl. rewrite Hactive. reflexivity. }
  destruct (getMultipleAccountsInfo_reports conn state _ a Hrpc Hlisted)
    as [accountInfos [Hread Hinfo]].
  rewrite Habsent in Hinfo.
  pose proof (closure_recorded belowTenth conn now elapsed db a tracked accountInfos
                (describeAccount a None false) Hu Hget Hactive Hread Hinfo eq_refl) as Hrec.
  pose proof (checkAllAccounts_step belowTenth conn now elapsed db [] (fun _ => false) Hu)
    as (_ & Hunique & _).
  fold db' in Hunique. unfold db'.
  destruct (checkAllAccounts belowTenth conn now elapsed db) as [result db1].
  cbn [snd] in *. destruct Hrec as [_ (row & Hrow & Hst & _ & Hrent)].
  exists row. split; [exact Hrow|]. split; [exact Hst|]. split; [exact Hrent|]. split.
  - intros d m later x Hm Hx Hxa. unfold getEligibleAccounts in Hx. cbv zeta in Hx.
    apply filter_In in Hx. destruct Hx as [Hxin Hxm].
    pose proof (unique_getAccount db1 x (Hunique Hu) Hxin) as Hsame.
    rewrite Hxa, Hrow in Hsame. injection Hsame as ->.
    repeat (apply andb_true_iff in Hxm; let H := fresh "M" in destruct Hxm as [Hxm H]).
    apply Z.leb_le in M1. lia.
  - intros config conn' later Hgone Hw Hb.
    unfold checkEligibility, getAccountInfo. rewrite Hrow. cbv beta iota zeta.
    rewrite Hst, Hw, Hb, Hgone. cbn [status_eqb describeAccount exists_ negb].
    cbv beta iota. rewrite Hrent. reflexivity.
Qed.

Lemma closure_by_the_monitor_ends_eligibility_witness :
  let conn := Scenario.ledger (fun _ => None) (Rejected (Other "unused")) in
  let db := Scenario.storeWith (Scenario.tracked Scenario.alice ACTIVE 2039280 None) in
  let db' := snd (checkAllAccounts Scenario.tenth conn Scenario.today 25 db) in
  exists row,
    getAccount db' Scenario.alice = Some row
    /\ status row = CLOSED /\ rentLamports row = 0
    /\ (forall d m later x,
          0 < m -> In x (getEligibleAccounts db' d m later) -> pubkey x = Scenario.alice
          -> False)
    /\ (forall config conn' later,
          rpcGetAccountInfo conn' Scenario.alice = Resolved None ->
          isWhitelisted db' Scenario.alice = false ->
          isBlacklisted db' Scenario.alice = false ->
          checkEligibility config conn' later Scenario.alice db'
          = (Resolved (ineligible (Some row) "Account has no remaining rent to reclaim" []),
             db')).
Proof.
  apply (closure_by_the_monitor_ends_eligibility Scenario.tenth
           (Scenario.ledger (fun _ => None) (Rejected (Other "unused")))
           Scenario.today 25
           (Scenario.storeWith (Scenario.tracked Scenario.alice ACTIVE 2039280 None))
           Scenario.alice (Scenario.tracked Scenario.alice ACTIVE 2039280 None)
           (fun _ => None)).
  - repeat constructor. simpl. intros [].
  - reflexivity.
  - reflexivity.
  - intro batch. reflexivity.
  - reflexivity.
Defined.

(** ** The batch read *)

Lemma mapGet_storeBatch_short (batch : list PublicKey) :
  forall (m : AccountMap) (a : string),
    mapGet (storeBatch m batch []) a
    = if existsb (String.eqb a) batch
      then Some (describeAccount a None true)
      else mapGet m a.
Proof.
  induction batch as [|pk batch IH]; intros m a; simpl; [reflexivity|].
  rewrite IH, mapGet_mapSet. rewrite (String.eqb_sym a pk).
  destruct (existsb (String.eqb a) batch); [rewrite orb_true_r; reflexivity|].
  rewrite orb_false_r. destruct (pk =? a)%string eqn:E; [|reflexivity].
  apply String.eqb_eq in E. subst pk. reflexivity.
Qed.

Lemma readBatches_short (conn : Connection) :
  (forall batch, rpcGetMultipleAccountsInfo conn batch = Resolved []) ->
  forall (fuel : nat) (pks : list PublicKey) (m : AccountMap),
    (List.length pks <= fuel)%nat ->
    exists m',
      readBatches fuel conn m pks = Resolved m'
      /\ forall a,
          mapGet m' a
          = if existsb (String.eqb a) pks
            then Some (describeAccount a None true)
            else mapGet m a.
Proof.
  intros Hrpc fuel. induction fuel as [|fuel IH]; intros pks m Hlen.
  - destruct pks; [|simpl in Hlen; lia]. exists m. split; reflexivity.
  - destruct pks as [|pk pks]; [exists m; split; reflexivity|].
    cbn [readBatches]. rewrite Hrpc.
    destruct (IH (skipn batchSize (pk :: pks))
                 (storeBatch m (firstn batchSize (pk :: pks)) []))
      as [m' [Hrun Hget]].
    { rewrite length_skipn. unfold batchSize. cbn [List.length] in *. lia. }
    exists m'. split; [exact Hrun|]. intro a.
    rewrite Hget, mapGet_storeBatch_short, (existsb_firstn_skipn a batchSize (pk :: pks)).
    assert (Hbool : forall (x y : bool) (s d : option SolanaAccountInfo),
               (if x then s else if y then s else d) = (if y || x then s else d))
      by (intros [] [] s d; reflexivity).
    apply Hbool.
Qed.

(** X18.  The batch read reports exactly the addresses it was asked for.
    When the node answers every batch from one ledger state, the map holds
    an entry for an address if and only if the address was requested,
    however many batches of 100 that takes, and the entry is what the single
    read [getAccountInfo] gives for it.  An empty request resolves to an
    empty map.  An entry the node leaves out of its answer is [undefined],
    not [null]: when the answers come back empty, every requested account is
    reported as existing, with no lamports and the system program as
    owner. *)
Theorem batch_read_reports_the_requested_addresses
        (conn : Connection) (pubkeys : list PublicKey) :
  (forall state : PublicKey -> option AccountInfo,
      (forall batch, rpcGetMultipleAccountsInfo conn batch = Resolved (map state batch)) ->
      exists accountInfos,
        getMultipleAccountsInfo conn pubkeys = Resolved accountInfos
        /\ (forall a, In a pubkeys <-> exists info, mapGet accountInfos a = Some info)
        /\ (forall a info,
              mapGet accountInfos a = Some info ->
              rpcGetAccountInfo conn a = Resolved (state a) ->
              getAccountInfo conn a = Resolved info))
  /\ getMultipleAccountsInfo conn [] = Resolved []
  /\ ((forall batch, rpcGetMultipleAccountsInfo conn batch = Resolved []) ->
      exists accountInfos,
        getMultipleAccountsInfo conn pubkeys = Resolved accountInfos
        /\ forall a, In a pubkeys ->
             exists info,
               mapGet accountInfos a = Some info
               /\ exists_ info = true /\ lamports info = 0
               /\ owner info = SYSTEM_PROGRAM_ID).
Proof.
  unfold getMultipleAccountsInfo. split; [|split; [reflexivity|]].
  - intros state Hrpc.
    destruct (readBatches_reports conn state Hrpc (List.length pubkeys) pubkeys []
                                  (Nat.le_refl _)) as [m' [Hrun Hget]].
    exists m'. split; [exact Hrun|]. split.
    + intro a. rewrite Hget. rewrite <- existsb_eqb_in.
      destruct (existsb (String.eqb a) pubkeys); split.
      * intros _. eexists. reflexivity.
      * reflexivity.
      * discriminate.
      * intros [info H]. discriminate.
    + intros a info Hentry Hsingle. rewrite Hget in Hentry.
      destruct (existsb (String.eqb a) pubkeys); [|discriminate].
      injection Hentry as <-. unfold getAccountInfo. rewrite Hsingle. reflexivity.
  - intro Hrpc.
    destruct (readBatches_short conn Hrpc (List.length pubkeys) pubkeys [] (Nat.le_refl _))
      as [m' [Hrun Hget]].
    exists m'. split; [exact Hrun|]. intros a Hin. rewrite Hget.
    apply existsb_eqb_in in Hin. rewrite Hin. eexists. split; [reflexivity|].
    repeat split.
Qed.

(** ** Discovery *)

Lemma dedupFrom_spec (l : list string) :
  forall seen : list string,
    NoDup (dedupFrom seen l)
    /\ forall x, In x (dedupFrom seen l) <-> In x l /\ ~ In x seen.
Proof.
  induction l as [|y l IH]; intro seen; simpl.
  - split; [constructor|]. intro x. tauto.
  - destruct (existsb (String.eqb y) seen) eqn:E.
    + destruct (IH seen) as [Hnd Hin]. split; [exact Hnd|].
      intro x. rewrite Hin. apply existsb_eqb_in in E. split.
      * intros [Hx Hs]. auto.
      * intros [[<-|Hx] Hs]; [contradiction | auto].
    + destruct (IH (y :: seen)) as [Hnd Hin].
      assert (Hy : ~ In y seen).
      { intro Hy. apply existsb_eqb_in in Hy. congruence. }
      split.
      * constructor; [|exact Hnd]. rewrite Hin. simpl. tauto.
      * intro x. simpl. rewrite Hin. simpl. split.
        -- intros [<-|[Hx Hs]]; [auto|]. split; [auto|]. tauto.
        -- intros [[<-|Hx] Hs]; [auto|].
           destruct (string_dec y x) as [->|Hne]; [auto|]. right. tauto.
Qed.

Lemma named_not_sponsor (sponsorPubkey : string) (field : option string) (a : string) :
  In a (named sponsorPubkey field) -> a <> sponsorPubkey /\ a <> EmptyString.
Proof.
  unfold named. destruct field as [b|]; [|intros []].
  destruct (truthy (Some b) && negb (b =? sponsorPubkey)%string) eqn:E; [|intros []].
  intros [<-|[]]. apply andb_true_iff in E. destruct E as [Ht Hn].
  simpl in Ht. apply negb_true_iff in Ht, Hn.
  apply String.eqb_neq in Ht, Hn. auto.
Qed.

Lemma innerCreated_not_sponsor (sponsorPubkey : string) (ix : ParsedInstruction) (a : string) :
  In a (innerCreated sponsorPubkey ix) -> a <> sponsorPubkey.
Proof.
  unfold innerCreated. destruct ix as [program type newAccount account0|]; [|intros []].
  intro Hin. repeat (apply in_app_or in Hin; destruct Hin as [Hin|Hin]);
    repeat split_match_in Hin; try contradiction;
    apply (named_not_sponsor _ _ _ Hin).
Qed.

Lemma topLevelCreated_not_sponsor (sponsorPubkey : string) (ix : ParsedInstruction)
      (a : string) :
  In a (topLevelCreated sponsorPubkey ix) -> a <> sponsorPubkey.
Proof.
  unfold topLevelCreated. destruct ix as [program type newAccount account0|]; [|intros []].
  intro Hin. split_match_in Hin; [|contradiction]. apply (named_not_sponsor _ _ _ Hin).
Qed.

Lemma balanceCreated_not_sponsor (sponsorPubkey : string) (keys : list PublicKey)
      (pre : option (list nat)) (post : list nat) :
  forall created : list string,
    (forall a, In a created -> a <> sponsorPubkey) ->
    forall a, In a (fold_left (balanceCreated sponsorPubkey keys pre) post created) ->
              a <> sponsorPubkey.
Proof.
  induction post as [|i post IH]; intros created Hc a; simpl; [apply Hc|].
  apply IH. intros b Hb. unfold balanceCreated in Hb.
  destruct (nth_error keys i) as [k|]; [|apply Hc; exact Hb].
  destruct (negb (k =? sponsorPubkey)%string && negb (existsb (String.eqb k) created)) eqn:E;
    [|apply Hc; exact Hb].
  destruct (match pre with Some l => existsb (Nat.eqb i) l | None => false end);
    [apply Hc; exact Hb|].
  apply in_app_or in Hb. destruct Hb as [Hb|[<-|[]]]; [apply Hc; exact Hb|].
  apply andb_true_iff in E. destruct E as [E _]. apply negb_true_iff in E.
  apply String.eqb_neq. exact E.
Qed.

(** X8.  The accounts [findCreatedAccounts] reports for a transaction never
    include the sponsor and hold no address twice; a transaction whose fee
    payer is not the sponsor yields none, whatever it created; the function
    throws exactly on a transaction without account keys. *)
Theorem created_accounts_exclude_the_sponsor (tx : ParsedTransaction) (sponsorPubkey : string) :
  (forall created,
      findCreatedAccounts tx sponsorPubkey = Resolved created ->
      NoDup created
      /\ ~ In sponsorPubkey created
      /\ (forall feePayer rest, accountKeys tx = feePayer :: rest ->
                                feePayer <> sponsorPubkey -> created = []))
  /\ ((exists e, findCreatedAccounts tx sponsorPubkey = Rejected e) <-> accountKeys tx = []).
Proof.
  unfold findCreatedAccounts. cbv zeta. split.
  - intros created. destruct (accountKeys tx) as [|feePayer rest] eqn:Hkeys; [discriminate|].
    destruct (feePayer =? sponsorPubkey)%string eqn:Hpayer; cbn [negb].
    + intro H. injection H as <-. unfold dedup.
      match goal with
      | |- NoDup (dedupFrom [] ?l) /\ _ => destruct (dedupFrom_spec l []) as [Hnd Hin]
      end.
      split; [exact Hnd|]. split.
      * rewrite Hin. intros [Hbad _].
        assert (sponsorPubkey <> sponsorPubkey); [|congruence].
        assert (Hbase : forall inner a,
                   In a (inner ++ flat_map (topLevelCreated sponsorPubkey) (txInstructions tx)) ->
                   (forall b, In b inner -> b <> sponsorPubkey) -> a <> sponsorPubkey).
        { intros inner a Ha Hinner. apply in_app_or in Ha. destruct Ha as [Ha|Ha]; [auto|].
          apply in_flat_map in Ha. destruct Ha as [ix [_ Ha]].
          apply (topLevelCreated_not_sponsor _ _ _ Ha). }
        assert (Hinners : forall inners b,
                   In b (flat_map (flat_map (innerCreated sponsorPubkey)) inners) ->
                   b <> sponsorPubkey).
        { intros inners b Hb. apply in_flat_map in Hb. destruct Hb as [inner [_ Hb]].
          apply in_flat_map in Hb. destruct Hb as [ix [_ Hb]].
          apply (innerCreated_not_sponsor _ _ _ Hb). }
        destruct (meta tx) as [m|]; [|apply (Hbase _ _ Hbad); intros b []].
        destruct (innerInstructions m) as [inners|];
          destruct (postTokenBalances m) as [post|];
          first [ eapply balanceCreated_not_sponsor; [|exact Hbad];
                  intros b Hb; apply (Hbase _ _ Hb);
                  first [apply Hinners | intros ? []]
                | apply (Hbase _ _ Hbad); first [apply Hinners | intros ? []] ].
      * intros fp rest' Hk Hne. injection Hk as <- <-.
        apply String.eqb_eq in Hpayer. contradiction.
    + intro H. injection H as <-. split; [constructor|]. split; [intros []|]. reflexivity.
  - destruct (accountKeys tx) as [|feePayer rest]; split.
    + reflexivity.
    + intros _. eexists. reflexivity.
    + intros [e He]. destruct (negb (feePayer =? sponsorPubkey)%string); discriminate.
    + discriminate.
Qed.

Section Counting.

Variable base : Db.

Lemma counted_addError (msg : string) (s : Scan) :
  counted base s ->
  counted base {| result := addError msg (result s);
                  discoveredPubkeys := discoveredPubkeys s;
                  store := store s |}.
Proof. intro H. exact H. Qed.

Lemma counted_scanAccount (conn : Connection) (now : Date) (sigInfo : SignatureInfo)
      (s : Scan) (pk : string) :
  counted base s -> counted base (scanAccount conn now sigInfo s pk).
Proof.
  intros (Hlen & Hrows & Hacc & Hnd). unfold scanAccount. cbv zeta.
  destruct (existsb (String.eqb pk) (discoveredPubkeys s)) eqn:Hseen;
    [repeat split; auto; apply Hacc; assumption|].
  assert (Hnew : ~ In pk (map (fun a : TrackedAccount => pubkey a) (accounts (result s)))).
  { intro Hin. apply in_map_iff in Hin. destruct Hin as [a [Hpk Hin]].
    destruct (Hacc a Hin) as [_ Hd]. rewrite Hpk in Hd.
    apply existsb_eqb_in in Hd. congruence. }
  destruct (getAccount (store s) pk) as [existing|] eqn:Hget.
  - destruct (getAccount_found _ _ _ Hget) as [Hpk _].
    unfold counted. cbn [result store discoveredPubkeys accounts newAccounts existingAccounts].
    split; [rewrite length_app; simpl; lia|]. split; [exact Hrows|]. split.
    + intros a Hin. apply in_app_or in Hin. destruct Hin as [Hin|[<-|[]]].
      * destruct (Hacc a Hin) as [Ha Hd]. split; [exact Ha|]. apply in_or_app. left. exact Hd.
      * rewrite Hpk. split; [exact Hget|]. apply in_or_app. right. left. reflexivity.
    + rewrite map_app. simpl. rewrite Hpk.
      eapply Permutation_NoDup; [apply Permutation_cons_append|].
      constructor; assumption.
  - destruct (getAccountInfo conn pk) as [info|e].
    + rewrite (upsertAccount_fresh (freshAccount sigInfo pk info now) (store s) Hget).
      cbv zeta. unfold counted.
      cbn [result store discoveredPubkeys accounts newAccounts existingAccounts
           tracked_accounts setAccounts].
      split; [rewrite length_app; simpl; lia|].
      split; [rewrite length_app; simpl; lia|]. split.
      * intros a Hin. apply in_app_or in Hin. destruct Hin as [Hin|[<-|[]]].
        -- destruct (Hacc a Hin) as [Ha Hd]. split; [|apply in_or_app; left; exact Hd].
           rewrite getAccount_insert, Ha. reflexivity.
        -- cbn [pubkey fields upsertInsert freshAccount].
           split; [|apply in_or_app; right; left; reflexivity].
           rewrite getAccount_insert, Hget. cbn [pubkey fields upsertInsert freshAccount].
           rewrite String.eqb_refl. reflexivity.
      * rewrite map_app. cbn [map pubkey fields upsertInsert freshAccount].
        eapply Permutation_NoDup; [apply Permutation_cons_append|].
        constructor; assumption.
    + unfold counted. cbn [result store discoveredPubkeys addError accounts newAccounts
                           existingAccounts].
      repeat split; auto.
      * apply Hacc. assumption.
      * apply in_or_app. left. apply Hacc. assumption.
Qed.

Lemma counted_scanTransaction (conn : Connection) (now : Date) (sponsorPubkey : string)
      (s : Scan) (sigInfo : SignatureInfo) :
  counted base s -> counted base (scanTransaction conn now sponsorPubkey s sigInfo).
Proof.
  intro Hs. unfold scanTransaction. cbv zeta.
  destruct (rpcGetParsedTransaction conn (signature sigInfo)) as [[tx|]|e];
    [|exact Hs | exact Hs].
  destruct (match meta tx with Some m => err m | None => false end); [exact Hs|].
  destruct (findCreatedAccounts tx sponsorPubkey) as [created|e]; [|exact Hs].
  revert s Hs. induction created as [|pk created IH]; intros s Hs; [exact Hs|].
  cbn [fold_left]. apply IH. apply counted_scanAccount. exact Hs.
Qed.

Lemma counted_scan (conn : Connection) (now : Date) (sponsorPubkey : string)
      (signatures : list SignatureInfo) :
  forall s : Scan,
    counted base s ->
    counted base (fold_left (scanTransaction conn now sponsorPubkey) signatures s).
Proof.
  induction signatures as [|sigInfo signatures IH]; intros s Hs; [exact Hs|].
  cbn [fold_left]. apply IH. apply counted_scanTransaction. exact Hs.
Qed.

End Counting.

(** X9.  The result of a discovery run accounts for what the run did.  The
    total is the number of accounts listed, new plus existing; the table has
    grown by exactly the number of new accounts; every listed account is the
    row now stored under its address, and no address is listed twice; rows
    that were already stored are returned and left as they were, and the
    reclaim log and the lists are not written. *)
Theorem discovery_result_accounts_for_the_run
        (config : BotConfig) (conn : Connection) (now : Date)
        (koraSigner : option string) (limit : nat) (db : Db) :
  let (r, db') := discoverSponsoredAccounts config conn now koraSigner limit db in
  totalFound r = (newAccounts r + existingAccounts r)%nat
  /\ List.length (accounts r) = totalFound r
  /\ List.length (tracked_accounts db')
     = (List.length (tracked_accounts db) + newAccounts r)%nat
  /\ (forall a : TrackedAccount, In a (accounts r) -> getAccount db' (pubkey a) = Some a)
  /\ NoDup (map (fun a : TrackedAccount => pubkey a) (accounts r))
  /\ (forall a row, getAccount db a = Some row -> getAccount db' a = Some row)
  /\ reclaim_transactions db' = reclaim_transactions db
  /\ whitelist db' = whitelist db /\ blacklist db' = blacklist db.
Proof.
  pose proof (discover_grows config conn now koraSigner limit db)
    as (Hkeep & _ & Hlog & Hw & Hb & _).
  revert Hkeep Hlog Hw Hb. unfold discoverSponsoredAccounts. cbv zeta.
  assert (Hnothing : forall errs,
             let r := emptyResult errs in
             totalFound r = (newAccounts r + existingAccounts r)%nat
             /\ List.length (accounts r) = totalFound r
             /\ List.length (tracked_accounts db)
                = (List.length (tracked_accounts db) + newAccounts r)%nat
             /\ (forall a : TrackedAccount,
                    In a (accounts r) -> getAccount db (pubkey a) = Some a)
             /\ NoDup (map (fun a : TrackedAccount => pubkey a) (accounts r))).
  { intros errs r. simpl. split; [reflexivity|]. split; [reflexivity|].
    split; [lia|]. split; [intros a []|constructor]. }
  destruct (if truthy koraSigner then koraSigner else koraSignerPubkey config)
    as [sponsorPubkey|];
    [|intros; destruct (Hnothing
                          ["Kora signer public key not configured.";
                           "Option 1: Set KORA_SIGNER_PUBKEY in .env (your signer address from signers.toml)";
                           "Option 2: Set KORA_RPC_URL in .env and run: npm run cli -- kora-info";
                           "Option 3: Pass it directly: npm run cli -- discover --signer <PUBKEY>"])
        as (? & ? & ? & ? & ?); auto 10].
  destruct (truthy (Some sponsorPubkey)); cbn [negb];
    [|intros; destruct (Hnothing
                          ["Kora signer public key not configured.";
                           "Option 1: Set KORA_SIGNER_PUBKEY in .env (your signer address from signers.toml)";
                           "Option 2: Set KORA_RPC_URL in .env and run: npm run cli -- kora-info";
                           "Option 3: Pass it directly: npm run cli -- discover --signer <PUBKEY>"])
        as (? & ? & ? & ? & ?); auto 10].
  destruct (getSponsoredAccountSignatures conn sponsorPubkey limit) as [signatures|e];
    [|intros; destruct (Hnothing [("Discovery failed: " ++ render e)%string])
        as (? & ? & ? & ? & ?); auto 10].
  cbn [snd]. intros Hkeep Hlog Hw Hb.
  assert (Hfinal : counted db
                     (fold_left (scanTransaction conn now sponsorPubkey) signatures
                        {| result := emptyResult []; discoveredPubkeys := []; store := db |})).
  { apply counted_scan. unfold counted. simpl. split; [reflexivity|]. split; [lia|].
    split; [intros a []|constructor]. }
  destruct Hfinal as (Hlen & Hrows & Hacc & Hnd).
  cbn [totalFound newAccounts existingAccounts accounts].
  split; [reflexivity|]. split; [exact Hlen|]. split; [exact Hrows|].
  split; [intros a Ha; apply (Hacc a Ha)|]. auto 10.
Qed.

Lemma bulkLoop_spec (conns : nat -> Connection) (clocks : nat -> Date)
      (pubkeys : list PublicKey) :
  forall (i : nat) (r : BulkResult) (db : Db),
    let (r', db') := bulkLoop conns clocks i pubkeys r db in
    (added r' + skipped r' = added r + skipped r + List.length pubkeys)%nat
    /\ (added r <= added r')%nat /\ (skipped r <= skipped r')%nat
    /\ bulkErrors r' = bulkErrors r
    /\ grows db db'
    /\ (List.length (tracked_accounts db') <= List.length (tracked_accounts db)
                                               + (added r' - added r))%nat
    /\ (skipped r' = skipped r ->
        forall pk, In pk pubkeys ->
                   isPublicKey pk = true /\ exists row, getAccount db' pk = Some row)
    /\ ((forall pk, In pk pubkeys ->
                    isPublicKey pk = true /\ exists row, getAccount db pk = Some row) ->
        db' = db /\ skipped r' = skipped r)
    /\ ((forall pk, In pk pubkeys -> isPublicKey pk = false) ->
        db' = db /\ added r' = added r)
    /\ (forall a row, getAccount db' a = Some row ->
                      getAccount db a = Some row \/ (isPublicKey a = true /\ In a pubkeys)).
Proof.
  induction pubkeys as [|pk rest IH]; intros i r db.
  - simpl. split; [lia|]. split; [lia|]. split; [lia|]. split; [reflexivity|].
    split; [apply grows_refl|]. split; [lia|]. split; [intros _ pk []|]. auto.
  - cbn [bulkLoop].
    pose proof (addAccountManually_grows (conns i) (clocks i) pk None db) as Hg.
    assert (Hone : match addAccountManually (conns i) (clocks i) pk None db with
                   | (Some row, db1) =>
                       isPublicKey pk = true
                       /\ getAccount db1 pk = Some row
                       /\ (List.length (tracked_accounts db1)
                           <= S (List.length (tracked_accounts db)))%nat
                       /\ ((exists old, getAccount db pk = Some old) -> db1 = db)
                       /\ (forall a row', getAccount db1 a = Some row' ->
                                          getAccount db a = Some row' \/ a = pk)
                   | (None, db1) =>
                       db1 = db /\ (isPublicKey pk = false \/ getAccount db pk = None)
                   end).
    { unfold addAccountManually.
      destruct (isPublicKey pk) eqn:Hvalid; cbn [negb]; [|auto].
      destruct (getAccount db pk) as [existing|] eqn:Hget.
      - split; [reflexivity|]. split; [exact Hget|]. split; [lia|]. split; auto.
      - destruct (getAccountInfo (conns i) pk) as [info|e]; [|auto].
        match goal with
        | |- context [upsertAccount ?acc db] =>
            rewrite (upsertAccount_fresh acc db Hget)
        end.
        cbv zeta. split; [reflexivity|]. split; [|split; [|split]].
        + rewrite getAccount_insert, Hget. cbn [pubkey fields upsertInsert].
          rewrite String.eqb_refl. reflexivity.
        + cbn [tracked_accounts setAccounts]. rewrite length_app. simpl. lia.
        + intros [old Hold]. discriminate.
        + intros a row' Ha. rewrite getAccount_insert in Ha.
          destruct (getAccount db a) as [old|]; [left; exact Ha|].
          cbn [pubkey fields upsertInsert] in Ha.
          destruct (pk =? a)%string eqn:E; [|discriminate].
          apply String.eqb_eq in E. right. symmetry. exact E. }
    destruct (addAccountManually (conns i) (clocks i) pk None db) as [[row|] db1];
      cbn [snd] in Hg.
    + destruct Hone as (Hvalid & Hrow & Hlen1 & Hsame & Hnew).
      specialize (IH (S i)
                     {| added := S (added r); skipped := skipped r;
                        bulkErrors := bulkErrors r |} db1).
      destruct (bulkLoop conns clocks (S i) rest _ db1) as [r' db'].
      cbn [added skipped bulkErrors] in IH.
      destruct IH as (Hsum & Ha & Hs & He & Hg' & Hlen & Hall & Hold & Hbad & Hfrom).
      split; [simpl; lia|]. split; [lia|]. split; [lia|]. split; [exact He|].
      split; [eapply grows_trans; eauto|]. split; [lia|].
      split; [|split; [|split]].
      * intros Hsk pk' [<-|Hin]; [|apply Hall; assumption].
        split; [exact Hvalid|]. exists row. apply Hg'. exact Hrow.
      * intro Htracked.
        assert (db1 = db) as ->
            by (apply Hsame; apply (Htracked pk); left; reflexivity).
        apply Hold. intros pk' Hin. apply Htracked. right. exact Hin.
      * intro Hnone. specialize (Hnone pk (or_introl eq_refl)). congruence.
      * intros a row' Hget. destruct (Hfrom a row' Hget) as [Hmid|[Hv Hin]].
        -- destruct (Hnew a row' Hmid) as [Hdb| ->]; [left; exact Hdb|].
           right. split; [exact Hvalid | left; reflexivity].
        -- right. split; [exact Hv | right; exact Hin].
    + destruct Hone as [-> Hwhy].
      specialize (IH (S i)
                     {| added := added r; skipped := S (skipped r);
                        bulkErrors := bulkErrors r |} db).
      destruct (bulkLoop conns clocks (S i) rest _ db) as [r' db'].
      cbn [added skipped bulkErrors] in IH.
      destruct IH as (Hsum & Ha & Hs & He & Hg' & Hlen & Hall & Hold & Hbad & Hfrom).
      split; [simpl; lia|]. split; [lia|]. split; [lia|]. split; [exact He|].
      split; [exact Hg'|]. split; [lia|].
      split; [|split; [|split]].
      * intro Hsk. lia.
      * intro Htracked. destruct (Htracked pk (or_introl eq_refl)) as [Hv [old Hold']].
        destruct Hwhy; congruence.
      * intro Hnone. apply Hbad. intros pk' Hin. apply Hnone. right. exact Hin.
      * intros a row' Hget. destruct (Hfrom a row' Hget) as [Hdb|[Hv Hin]];
          [left; exact Hdb | right; split; [exact Hv | right; exact Hin]].
Qed.

(** X25.  [addAccountsBulk] counts every address once, as added or as
    skipped, and never reports an error, since [addAccountManually] catches
    what it throws.  A text that is not a public key is skipped and never
    stored, tracked or not; a public key that is already tracked counts as
    added and changes nothing.  Rows that were stored are left as they were,
    every new row is for a public key of the list, the table grows by at most
    the number added, and when nothing was skipped every address of the list
    is a public key that is tracked afterwards. *)
Theorem bulk_add_counts_every_address
        (conns : nat -> Connection) (clocks : nat -> Date)
        (pubkeys : list PublicKey) (db : Db) :
  let (r, db') := addAccountsBulk conns clocks pubkeys db in
  (added r + skipped r)%nat = List.length pubkeys
  /\ bulkErrors r = []
  /\ (forall a row, getAccount db a = Some row -> getAccount db' a = Some row)
  /\ (forall a row, getAccount db' a = Some row ->
                    getAccount db a = Some row \/ (isPublicKey a = true /\ In a pubkeys))
  /\ (List.length (tracked_accounts db')
      <= List.length (tracked_accounts db) + added r)%nat
  /\ (skipped r = O ->
      forall pk, In pk pubkeys ->
                 isPublicKey pk = true /\ exists row, getAccount db' pk = Some row)
  /\ ((forall pk, In pk pubkeys ->
                  isPublicKey pk = true /\ exists row, getAccount db pk = Some row) ->
      db' = db /\ added r = List.length pubkeys)
  /\ ((forall pk, In pk pubkeys -> isPublicKey pk = false) ->
      db' = db /\ skipped r = List.length pubkeys)
  /\ reclaim_transactions db' = reclaim_transactions db
  /\ whitelist db' = whitelist db /\ blacklist db' = blacklist db.
Proof.
  unfold addAccountsBulk.
  pose proof (bulkLoop_spec conns clocks pubkeys O
                {| added := O; skipped := O; bulkErrors := [] |} db) as H.
  destruct (bulkLoop conns clocks 0 pubkeys _ db) as [r db'].
  cbn [added skipped bulkErrors] in H.
  destruct H as (Hsum & _ & _ & He & (Hkeep & _ & Hlog & Hw & Hb & _) & Hlen & Hall & Hold
                 & Hbad & Hfrom).
  split; [lia|]. split; [exact He|]. split; [exact Hkeep|]. split; [exact Hfrom|].
  split; [lia|]. split; [exact Hall|]. split; [|split; [|auto]].
  - intro Htracked. destruct (Hold Htracked) as [-> Hsk]. split; [reflexivity | lia].
  - intro Hnone. destruct (Hbad Hnone) as [-> Hadd]. split; [reflexivity | lia].
Qed.

(** A list with a text that is no key and an address named twice: the text
    is skipped, the address is added once and found tracked the second
    time. *)
Example bulk_add_of_a_mixed_list :
  let (r, db') :=
    addAccountsBulk (fun _ => Scenario.history) (fun _ => Scenario.today)
                    ["not-a-key"; Scenario.alice; Scenario.alice] Database.empty in
  (added r, skipped r) = (2%nat, 1%nat)
  /\ map (fun a : TrackedAccount => pubkey a) (tracked_accounts db') = [Scenario.alice]
  /\ map isPublicKey ["not-a-key"; Scenario.alice; SYSTEM_PROGRAM_ID; TOKEN_PROGRAM_ID;
                      EmptyString; "1111111111111111111111111111111"]
     = [false; true; true; true; false; false].
Proof. vm_compute. repeat split; reflexivity. Qed.

(** ** The report *)



Import Kora Dashboard.

(** ** Configuration *)

(** X7.  [validateConfig] reports no error exactly for the configurations
    that name one of the three networks and an RPC URL, carry both Telegram
    settings when alerts are on, have, when not in dry-run mode, a key path
    whose file exists, and in which each of the interval, the dormancy, the
    threshold and the port is in range or is not a number at all: a setting
    that [parseInt] turned into [NaN] passes every range test.  In dry-run
    mode the key file is not looked at. *)
Theorem validateConfig_accepts_exactly_the_valid
        (existsSync : string -> bool) (config : Config.Loaded) :
  let inRange (x : number) (low : Z) (high : option Z) :=
    match x with
    | NaN => True
    | Num v => low <= v /\ match high with Some h => v <= h | None => True end
    end in
  Config.validateConfig existsSync config = []
  <-> (In (Config.network config) ["devnet"; "mainnet-beta"; "testnet"]
       /\ Config.rpcUrl config <> EmptyString
       /\ (Config.dryRun config = false ->
           Config.operatorKeypairPath config <> EmptyString
           /\ existsSync (Config.operatorKeypairPath config) = true)
       /\ inRange (Config.monitorIntervalMinutes config) 1 None
       /\ inRange (Config.minDormancyDays config) 0 None
       /\ inRange (Config.minReclaimLamports config) 0 None
       /\ (Config.telegramAlertsEnabled config = true ->
           truthy (Config.telegramBotToken config) = true
           /\ truthy (Config.telegramChatId config) = true)
       /\ inRange (Config.dashboardPort config) 1 (Some 65535)).
Proof.
  intro inRange.
  assert (Hlow : forall x low, below x low = false <-> inRange x low None).
  { intros [|v] low; simpl; [tauto|]. rewrite Z.ltb_ge. tauto. }
  assert (Hport : forall x, below x 1 || above x 65535 = false <-> inRange x 1 (Some 65535)).
  { intros [|v]; simpl; [tauto|]. rewrite orb_false_iff, !Z.ltb_ge. tauto. }
  unfold Config.validateConfig. split.
  - intro H.
    repeat match type of H with
           | _ ++ _ = [] => apply app_eq_nil in H; let H' := fresh "P" in destruct H as [H' H]
           end.
    split; [|split; [|split; [|split; [|split; [|split; [|split]]]]]].
    + apply existsb_eqb_in.
      destruct (existsb (String.eqb (Config.network config)) _); [reflexivity | discriminate].
    + destruct (Config.rpcUrl config =? EmptyString)%string eqn:E; [discriminate|].
      apply String.eqb_neq. exact E.
    + intro Hlive. rewrite Hlive in P1.
      destruct (Config.operatorKeypairPath config =? EmptyString)%string eqn:E;
        [discriminate|].
      apply String.eqb_neq in E. split; [exact E|].
      destruct (existsSync (Config.operatorKeypairPath config)); [reflexivity | discriminate].
    + apply Hlow. destruct (below (Config.monitorIntervalMinutes config) 1);
        [discriminate | reflexivity].
    + apply Hlow. destruct (below (Config.minDormancyDays config) 0);
        [discriminate | reflexivity].
    + apply Hlow. destruct (below (Config.minReclaimLamports config) 0);
        [discriminate | reflexivity].
    + intro Hon. rewrite Hon in P5. apply app_eq_nil in P5. destruct P5 as [Ht Hc].
      destruct (truthy (Config.telegramBotToken config)); [|discriminate].
      destruct (truthy (Config.telegramChatId config)); [|discriminate]. auto.
    + apply Hport.
      destruct (below (Config.dashboardPort config) 1
                || above (Config.dashboardPort config) 65535);
        [discriminate | reflexivity].
  - intros (Hnet & Hrpc & Hkey & Hint & Hdor & Hmin & Htel & Hp).
    apply existsb_eqb_in in Hnet. rewrite Hnet.
    apply String.eqb_neq in Hrpc. rewrite Hrpc.
    apply Hlow in Hint. rewrite Hint.
    apply Hlow in Hdor. rewrite Hdor.
    apply Hlow in Hmin. rewrite Hmin.
    apply Hport in Hp. rewrite Hp. simpl.
    destruct (Config.dryRun config).
    + destruct (Config.telegramAlertsEnabled config); [|reflexivity].
      destruct (Htel eq_refl) as [-> ->]. reflexivity.
    + destruct (Hkey eq_refl) as [Hpath Hfile].
      apply String.eqb_neq in Hpath. rewrite Hpath, Hfile. simpl.
      destruct (Config.telegramAlertsEnabled config); [|reflexivity].
      destruct (Htel eq_refl) as [-> ->]. reflexivity.
Qed.

(** A configuration whose four numbers did not parse, in dry-run mode and
    without a key file, is accepted. *)
Example settings_that_are_not_numbers_pass :
  Config.validateConfig (fun _ => false)
    {| Config.network := "devnet";
       Config.rpcUrl := "https://api.devnet.solana.com";
       Config.operatorKeypairPath := "./keypair.json";
       Config.monitorIntervalMinutes := NaN;
       Config.minDormancyDays := NaN;
       Config.minReclaimLamports := NaN;
       Config.dryRun := true;
       Config.telegramBotToken := None;
       Config.telegramChatId := None;
       Config.telegramAlertsEnabled := false;
       Config.dashboardPort := NaN |}
  = [].
Proof. reflexivity. Qed.

(** ** The Kora node *)

Lemma callKoraRpc_resolves {T : Type} (reply : Outcome (Response T)) (r : T) :
  callKoraRpc reply = Resolved r
  <-> exists response data,
        reply = Resolved response /\ ok response = true
        /\ json response = Resolved data
        /\ rpc_error data = None /\ rpc_result data = Some r.
Proof.
  unfold callKoraRpc. split.
  - destruct reply as [response|e]; [|discriminate].
    destruct (ok response) eqn:Hok; [|discriminate]. simpl.
    destruct (json response) as [data|e] eqn:Hjson; [|discriminate].
    destruct (rpc_error data) eqn:Herr; [discriminate|].
    destruct (rpc_result data) as [r'|] eqn:Hres; [|discriminate].
    intro H. injection H as <-. exists response, data. auto.
  - intros (response & data & -> & Hok & Hjson & Herr & Hres).
    rewrite Hok, Hjson, Herr, Hres. reflexivity.
Qed.

(** X26.  A call to the Kora node resolves exactly when the request went
    through, the HTTP status is a success, the body parses and carries a
    result and no error; an HTTP failure or an error member wins over a
    result that came with it.  [getKoraNodeInfo] gives the node's signer
    exactly when [isKoraNodeReachable] holds; it depends on the signer
    request alone, a failed token request leaving the token list empty. *)
Theorem kora_node_info_needs_only_the_signer (web : string -> KoraNode) (koraRpcUrl : string) :
  (forall (T : Type) (reply : Outcome (Response T)) (r : T),
      callKoraRpc reply = Resolved r
      <-> exists response data,
            reply = Resolved response /\ ok response = true
            /\ json response = Resolved data
            /\ rpc_error data = None /\ rpc_result data = Some r)
  /\ (isKoraNodeReachable web koraRpcUrl = true
      <-> exists info, getKoraNodeInfo web koraRpcUrl = Some info)
  /\ (forall info,
        getKoraNodeInfo web koraRpcUrl = Some info ->
        exists r,
          callKoraRpc (payerSignerReply (web koraRpcUrl)) = Resolved r
          /\ payerSigner info = signer_address r
          /\ paymentDestination info = payment_address r
          /\ supportedTokens info
             = match callKoraRpc (supportedTokensReply (web koraRpcUrl)) with
               | Resolved {| tokens := Some l |} => l
               | _ => []
               end).
Proof.
  split; [intros; apply callKoraRpc_resolves|].
  unfold isKoraNodeReachable, getKoraNodeInfo, getPayerSigner, getSupportedTokens.
  destruct (callKoraRpc (payerSignerReply (web koraRpcUrl))) as [r|e]; split.
  - split; [intros _; eexists; reflexivity | reflexivity].
  - intros info H. injection H as <-. exists r. simpl. repeat split.
    destruct (callKoraRpc (supportedTokensReply (web koraRpcUrl))) as [[[l|]]|e];
      reflexivity.
  - split; [discriminate | intros [info H]; discriminate].
  - intros info H. discriminate.
Qed.

(** ** Display helpers *)

Lemma length_append_string (s t : string) :
  String.length (s ++ t)%string = (String.length s + String.length t)%nat.
Proof. induction s as [|c s IH]; simpl; [reflexivity | rewrite IH; reflexivity]. Qed.

Lemma length_substring (s : string) :
  forall n m : nat,
    String.length (String.substring n m s) = Nat.min m (String.length s - n).
Proof.
  induction s as [|c s IH]; intros n m.
  - destruct n, m; reflexivity.
  - destruct n as [|n].
    + destruct m as [|m]; [reflexivity|]. simpl. rewrite IH. rewrite Nat.sub_0_r.
      reflexivity.
    + simpl. rewrite IH. reflexivity.
Qed.

Lemma length_shortened (s : string) (n m : nat) :
  (0 < m)%nat -> (n + m <= String.length s)%nat ->
  String.length (slice0 n s ++ "..." ++ sliceLast m s)%string = (n + 3 + m)%nat.
Proof.
  intros Hm Hlen. rewrite !length_append_string. unfold slice0, sliceLast.
  destruct m as [|m]; [lia|]. rewrite !length_substring. simpl String.length. lia.
Qed.

(** X28.  The shortened form of an address has a fixed width.  For an
    address longer than [startLen + endLen], [truncateAddress] with
    [endLen > 0] yields [startLen + 3 + endLen] characters, the first
    [startLen] and the last [endLen] of the address around three dots; a
    shorter address comes back unchanged.  [shortenPubkey] has no such
    guard: it yields [2 * chars + 3] characters for a key of at least
    [2 * chars] characters.  With a count of zero the suffix is the whole
    address, so nothing is hidden. *)
Theorem shortened_addresses_have_fixed_width (address : string) (startLen endLen chars : nat) :
  ((String.length address <= startLen + endLen)%nat ->
   truncateAddress address startLen endLen = address)
  /\ ((startLen + endLen < String.length address)%nat -> (0 < endLen)%nat ->
      truncateAddress address startLen endLen
      = (String.substring 0 startLen address ++ "..."
         ++ String.substring (String.length address - endLen) endLen address)%string
      /\ String.length (truncateAddress address startLen endLen)
         = (startLen + 3 + endLen)%nat)
  /\ ((0 < chars)%nat -> (2 * chars <= String.length address)%nat ->
      String.length (shortenPubkey address chars) = (2 * chars + 3)%nat)
  /\ ((startLen < String.length address)%nat ->
      truncateAddress address startLen 0
      = (String.substring 0 startLen address ++ "..." ++ address)%string)
  /\ shortenPubkey address 0 = ("..." ++ address)%string.
Proof.
  unfold truncateAddress, shortenPubkey.
  split; [|split; [|split; [|split]]].
  - intro Hshort. apply Nat.leb_le in Hshort. rewrite Hshort, orb_true_r. reflexivity.
  - intros Hlong Hend.
    assert (Hne : (address =? EmptyString)%string = false).
    { apply String.eqb_neq. intro E. rewrite E in Hlong. simpl in Hlong. lia. }
    assert (Hgt : (String.length address <=? startLen + endLen)%nat = false)
      by (apply Nat.leb_gt; exact Hlong).
    rewrite Hne, Hgt. cbn [orb]. split.
    + unfold slice0, sliceLast. destruct endLen; [lia | reflexivity].
    + apply length_shortened; lia.
  - intros Hpos Hlen. rewrite (length_shortened address chars chars); lia.
  - intro Hlong.
    assert (Hne : (address =? EmptyString)%string = false).
    { apply String.eqb_neq. intro E. rewrite E in Hlong. simpl in Hlong. lia. }
    assert (Hgt : (String.length address <=? startLen + 0)%nat = false)
      by (apply Nat.leb_gt; lia).
    rewrite Hne, Hgt. reflexivity.
  - unfold slice0, sliceLast. destruct address; reflexivity.
Qed.

Lemma elapsed_units (ms : Z) :
  ms / 1000 / 60 = ms / 60000
  /\ ms / 1000 / 60 / 60 = ms / 3600000
  /\ ms / 1000 / 60 / 60 / 24 = ms / 86400000
  /\ ms / 1000 / 60 / 60 / 24 / 30 = ms / 2592000000.
Proof. rewrite !Z.div_div by lia. repeat split. Qed.

(** X27.  [formatTimeAgo] reads the elapsed time in the largest unit that
    fits, rounded down: the nested floors of the code amount to one floor of
    the elapsed milliseconds by the unit.  Less than a minute, and any
    timestamp in the future, reads "Just now"; the count shown is between 1
    and 59 for minutes, 1 and 23 for hours, 1 and 29 for days, and at least 1
    for the thirty-day months. *)
Theorem formatTimeAgo_shows_the_largest_unit (now timestamp : Date) :
  let elapsed := now - timestamp in
  formatTimeAgo now timestamp
  = (if elapsed <? 60000 then "Just now"
     else if elapsed <? 3600000 then (showZ (elapsed / 60000) ++ "m ago")%string
     else if elapsed <? 86400000 then (showZ (elapsed / 3600000) ++ "h ago")%string
     else if elapsed <? 2592000000 then (showZ (elapsed / 86400000) ++ "d ago")%string
     else (showZ (elapsed / 2592000000) ++ "mo ago")%string)
  /\ (60000 <= elapsed < 3600000 -> 1 <= elapsed / 60000 <= 59)
  /\ (3600000 <= elapsed < 86400000 -> 1 <= elapsed / 3600000 <= 23)
  /\ (86400000 <= elapsed < 2592000000 -> 1 <= elapsed / 86400000 <= 29)
  /\ (2592000000 <= elapsed -> 1 <= elapsed / 2592000000).
Proof.
  intro elapsed. split.
  - unfold formatTimeAgo. fold elapsed. cbv zeta.
    destruct (elapsed_units elapsed) as (Hm & Hh & Hd & Hmo).
    rewrite Hmo, Hd, Hh, Hm.
    assert (B1 : (elapsed / 1000 <? 60) = (elapsed <? 60000)).
    { destruct (elapsed <? 60000) eqn:E.
      - apply Z.ltb_lt in E. apply Z.ltb_lt. apply Z.div_lt_upper_bound; lia.
      - apply Z.ltb_ge in E. apply Z.ltb_ge. apply Z.div_le_lower_bound; lia. }
    assert (B2 : (elapsed / 60000 <? 60) = (elapsed <? 3600000)).
    { destruct (elapsed <? 3600000) eqn:E.
      - apply Z.ltb_lt in E. apply Z.ltb_lt. apply Z.div_lt_upper_bound; lia.
      - apply Z.ltb_ge in E. apply Z.ltb_ge. apply Z.div_le_lower_bound; lia. }
    assert (B3 : (elapsed / 3600000 <? 24) = (elapsed <? 86400000)).
    { destruct (elapsed <? 86400000) eqn:E.
      - apply Z.ltb_lt in E. apply Z.ltb_lt. apply Z.div_lt_upper_bound; lia.
      - apply Z.ltb_ge in E. apply Z.ltb_ge. apply Z.div_le_lower_bound; lia. }
    assert (B4 : (elapsed / 86400000 <? 30) = (elapsed <? 2592000000)).
    { destruct (elapsed <? 2592000000) eqn:E.
      - apply Z.ltb_lt in E. apply Z.ltb_lt. apply Z.div_lt_upper_bound; lia.
      - apply Z.ltb_ge in E. apply Z.ltb_ge. apply Z.div_le_lower_bound; lia. }
    rewrite B1, B2, B3, B4. reflexivity.
  - repeat split; intros; try (apply Z.div_le_lower_bound; lia);
      assert (forall a b, a < b + 1 -> a <= b) as Hle by (intros; lia);
      apply Hle; apply Z.div_lt_upper_bound; lia.
Qed.

